(** * Snake arena server: a shallow embedding of [server.py] and
      [game_protocol.py], and the properties of the session, room and
      simulation engine.

    Python objects are mutable; every method below is a computation in a
    state-and-exception monad over the object it mutates.  A raised
    exception keeps the state reached at the point of the raise, as the
    interpreter does.  [random] is an explicit stream of draws, the network
    is a script of [recv] results per socket and a log of the frames handed
    to [sendall]. *)

From Stdlib Require Import ZArith List String Ascii Bool Lia Arith.
From Stdlib Require Import DecimalString Permutation.
From Stdlib Require Import Strings.Byte.
From Stdlib Require DecimalNat DecimalFacts.
Import ListNotations.
Open Scope string_scope.
Open Scope list_scope.
Open Scope Z_scope.

Set Implicit Arguments.

(** ** Exceptions, results and the monad *)

Inductive exn :=
| IndexError
| KeyError
| ValueError
| UnboundLocalError
| StructError
| SocketTimeout
| ConnectionError.

Inductive result (A : Type) :=
| Ok (a : A)
| Raise (e : exn).
Arguments Ok {A} a.
Arguments Raise {A} e.

Definition M (S A : Type) : Type := S -> result A * S.

Definition ret {S A} (a : A) : M S A := fun s => (Ok a, s).

Definition bind {S A B} (m : M S A) (k : A -> M S B) : M S B :=
  fun s => match m s with
           | (Ok a, s') => k a s'
           | (Raise e, s') => (Raise e, s')
           end.

Definition raise {S A} (e : exn) : M S A := fun s => (Raise e, s).
Definition get {S} : M S S := fun s => (Ok s, s).
Definition put {S} (s : S) : M S unit := fun _ => (Ok tt, s).
Definition modify {S} (f : S -> S) : M S unit := fun s => (Ok tt, f s).

(** Runs a computation on a part of the state, seen through [prj] and
    written back with [upd]. *)
Definition zoom {S T A} (prj : S -> T) (upd : T -> S -> S) (m : M T A)
  : M S A :=
  fun s => let (r, t) := m (prj s) in (r, upd t s).

(** [try: ... except Exception: handler]. *)
Definition catch {S A} (m : M S A) (h : exn -> M S A) : M S A :=
  fun s => match m s with
           | (Ok a, s') => (Ok a, s')
           | (Raise e, s') => h e s'
           end.

Declare Scope monad_scope.
Delimit Scope monad_scope with monad.
Notation "x <- m ;; k" := (bind m (fun x => k))
  (at level 61, m at next level, right associativity) : monad_scope.
Notation "' p <- m ;; k" := (bind m (fun x => let p := x in k))
  (at level 61, p pattern, m at next level, right associativity) : monad_scope.
Notation "m ;;; k" := (bind m (fun _ => k))
  (at level 61, right associativity) : monad_scope.
Open Scope monad_scope.

Definition when {S} (b : bool) (m : M S unit) : M S unit :=
  if b then m else ret tt.

(** [for x in xs: body x]. *)
Fixpoint for_each {S A} (xs : list A) (body : A -> M S unit) : M S unit :=
  match xs with
  | [] => ret tt
  | x :: rest => body x ;;; for_each rest body
  end.

(** ** Randomness: [random.randint] and [random.choice] *)

Record rng := mkRng { draws : nat -> Z; pos : nat }.

Definition next_draw : M rng Z :=
  fun g => (Ok (draws g (pos g)), mkRng (draws g) (S (pos g))).

(** [random.randint(a, b)]: a value of [a..b]; [ValueError] on an empty
    range. *)
Definition randint (a b : Z) : M rng Z :=
  if a <=? b
  then (r <- next_draw ;; ret (a + r mod (b - a + 1)))
  else raise ValueError.

(** [random.choice(seq)]: [IndexError] on an empty sequence. *)
Definition choice {A} (xs : list A) : M rng A :=
  match xs with
  | [] => raise IndexError
  | x :: _ =>
      r <- next_draw ;;
      ret (nth (Z.to_nat (r mod Z.of_nat (List.length xs))) xs x)
  end.

(** ** Dictionaries: insertion-ordered association lists *)

Section Dict.
Variable V : Type.

Definition dict := list (string * V).

Fixpoint dict_get (d : dict) (k : string) : option V :=
  match d with
  | [] => None
  | (k', v) :: rest => if String.eqb k k' then Some v else dict_get rest k
  end.

Definition dict_mem (d : dict) (k : string) : bool :=
  match dict_get d k with Some _ => true | None => false end.

(** [d[k] = v]: an existing key keeps its place, a new one goes last. *)
Fixpoint dict_set (d : dict) (k : string) (v : V) : dict :=
  match d with
  | [] => [(k, v)]
  | (k', v') :: rest =>
      if String.eqb k k' then (k, v) :: rest
      else (k', v') :: dict_set rest k v
  end.

(** [del d[k]] for a key that is present; absent keys leave [d] as it
    is (the callers test membership first). *)
Fixpoint dict_del (d : dict) (k : string) : dict :=
  match d with
  | [] => []
  | (k', v') :: rest =>
      if String.eqb k k' then rest else (k', v') :: dict_del rest k
  end.

Definition dict_keys (d : dict) : list string := map fst d.
Definition dict_values (d : dict) : list V := map snd d.
End Dict.

(** ** Cells *)

Definition cell := (Z * Z)%type.

Definition cell_eqb (a b : cell) : bool :=
  (fst a =? fst b) && (snd a =? snd b).

Definition cell_in (c : cell) (cs : list cell) : bool :=
  existsb (cell_eqb c) cs.

Definition opt_string_eqb (a b : option string) : bool :=
  match a, b with
  | Some x, Some y => String.eqb x y
  | None, None => true
  | _, _ => false
  end.

(** ** class Snake *)

Module Snake.

Record t := mk {
  player_id : string;
  body : list cell;
  direction : string;
  next_direction : string;
  alive : bool;
  score : Z;
  color : string;
  prev_head : cell
}.

Definition set_body (b : list cell) (s : t) : t :=
  mk (player_id s) b (direction s) (next_direction s) (alive s)
     (score s) (color s) (prev_head s).
Definition set_dir (d : string) (s : t) : t :=
  mk (player_id s) (body s) d (next_direction s) (alive s)
     (score s) (color s) (prev_head s).
Definition set_next_direction (d : string) (s : t) : t :=
  mk (player_id s) (body s) (direction s) d (alive s)
     (score s) (color s) (prev_head s).
Definition set_alive (a : bool) (s : t) : t :=
  mk (player_id s) (body s) (direction s) (next_direction s) a
     (score s) (color s) (prev_head s).
Definition set_score (n : Z) (s : t) : t :=
  mk (player_id s) (body s) (direction s) (next_direction s) (alive s)
     n (color s) (prev_head s).
Definition set_prev_head (c : cell) (s : t) : t :=
  mk (player_id s) (body s) (direction s) (next_direction s) (alive s)
     (score s) (color s) c.

Definition colors : list string :=
  ["#FF6B6B"; "#4ECDC4"; "#45B7D1"; "#96CEB4";
   "#FFEAA7"; "#DDA0DD"; "#98D8C8"].

Definition _generate_color : M rng string := choice colors.

(** [Snake(player_id, start_pos)]; the server never passes a color. *)
Definition init (pid : string) (start_pos : cell) : M rng t :=
  c <- _generate_color ;;
  ret (mk pid [start_pos] "RIGHT" "RIGHT" true 0 c start_pos).

Definition opposite (d : string) : option string :=
  if String.eqb d "UP" then Some "DOWN"
  else if String.eqb d "DOWN" then Some "UP"
  else if String.eqb d "LEFT" then Some "RIGHT"
  else if String.eqb d "RIGHT" then Some "LEFT"
  else None.

Definition set_direction (new_direction : string) : M t unit :=
  s <- get ;;
  when (negb (opt_string_eqb (Some new_direction) (opposite (direction s))))
       (put (set_next_direction new_direction s)).

(** [deltas.get(self.direction, (0, 0))] *)
Definition deltas (d : string) : cell :=
  if String.eqb d "UP" then (0, -1)
  else if String.eqb d "DOWN" then (0, 1)
  else if String.eqb d "LEFT" then (-1, 0)
  else if String.eqb d "RIGHT" then (1, 0)
  else (0, 0).

(** [self.body[0]] *)
Definition head : M t cell :=
  s <- get ;;
  match body s with
  | [] => raise IndexError
  | h :: _ => ret h
  end.

Definition out_of_grid (grid_size c : cell) : bool :=
  (fst c <? 0) || (fst grid_size <=? fst c) ||
  (snd c <? 0) || (snd grid_size <=? snd c).

(** [move(grid_size, food_positions)]; [food_positions] is the set the
    caller builds from the food list. *)
Definition move (grid_size : cell) (food_positions : list cell) : M t bool :=
  s <- get ;;
  if negb (alive s) then ret false
  else
    h <- head ;;
    modify (set_prev_head h) ;;;
    modify (fun s => set_dir (next_direction s) s) ;;;
    s <- get ;;
    '(head_x, head_y) <- head ;;
    let '(dx, dy) := deltas (direction s) in
    let new_head := (head_x + dx, head_y + dy) in
    if out_of_grid grid_size new_head then
      modify (set_alive false) ;;; ret false
    else if cell_in new_head (body s) then
      modify (set_alive false) ;;; ret false
    else
      modify (set_body (new_head :: body s)) ;;;
      if match food_positions with [] => false | _ => true end
         && cell_in new_head food_positions
      then
        modify (fun s => set_score (score s + 10) s) ;;;
        ret true
      else
        s <- get ;;
        when (1 <? Z.of_nat (List.length (body s)))
             (modify (set_body (removelast (body s)))) ;;;
        ret false.

(** [self.check_collision_with_other(other_snake)], on the pair
    (self, other).  Every server snake has [prev_head], so both
    [hasattr] tests hold. *)
Definition check_collision_with_other : M (t * t) bool :=
  '(self, other) <- get ;;
  if negb (alive self) || negb (alive other) then ret false
  else
    our_head <- zoom fst (fun s p => (s, snd p)) head ;;
    their_head <- zoom snd (fun o p => (fst p, o)) head ;;
    let their_body := body other in
    if cell_eqb our_head their_head then
      put (set_alive false self, set_alive false other) ;;; ret true
    else if cell_eqb (prev_head self) their_head
            && cell_eqb (prev_head other) our_head then
      put (set_alive false self, set_alive false other) ;;; ret true
    else if cell_in our_head their_body then
      put (set_alive false self, other) ;;; ret true
    else ret false.

End Snake.

(** ** Values that arrive in a message

    The fields of a client envelope are [None] or a string (the payloads of
    the protocol's client messages). *)

Inductive pyval :=
| PNone
| PStr (s : string).

Definition truthy (v : pyval) : bool :=
  match v with
  | PNone => false
  | PStr s => negb (String.eqb s "")
  end.

Definition pyval_eqb (a b : pyval) : bool :=
  match a, b with
  | PNone, PNone => true
  | PStr x, PStr y => String.eqb x y
  | _, _ => false
  end.

(** ** Traversals of a dictionary's values, in insertion order *)

(** [for v in d.values(): r.append(m(v))], each [v] mutated in place. *)
Fixpoint each_value {T A} (m : M T A) (d : dict T)
  : result (list A) * dict T :=
  match d with
  | [] => (Ok [], [])
  | (k, v) :: rest =>
      match m v with
      | (Raise e, v') => (Raise e, (k, v') :: rest)
      | (Ok a, v') =>
          match each_value m rest with
          | (Raise e, rest') => (Raise e, (k, v') :: rest')
          | (Ok l, rest') => (Ok (a :: l), (k, v') :: rest')
          end
      end
  end.

(** The values of [d] replaced, in order, by [vs] (the objects a list of
    the values refers to are the dictionary's own). *)
Fixpoint with_values {T} (d : dict T) (vs : list T) : dict T :=
  match d, vs with
  | (k, _) :: rest, v :: vs' => (k, v) :: with_values rest vs'
  | _, _ => d
  end.

(** [l.remove(x)]: the first occurrence; the callers test membership. *)
Fixpoint remove_first (c : cell) (l : list cell) : list cell :=
  match l with
  | [] => []
  | x :: rest => if cell_eqb x c then rest else x :: remove_first c rest
  end.

(** ** class GameState *)

Module GameState.

Record t := mk {
  grid_size : cell;
  snakes : dict Snake.t;
  food_positions : list cell;
  game_active : bool
}.

Definition set_snakes (d : dict Snake.t) (g : t) : t :=
  mk (grid_size g) d (food_positions g) (game_active g).
Definition set_food_positions (f : list cell) (g : t) : t :=
  mk (grid_size g) (snakes g) f (game_active g).
Definition set_game_active (b : bool) (g : t) : t :=
  mk (grid_size g) (snakes g) (food_positions g) b.

(** The object together with the random source its methods draw from. *)
Definition st := (t * rng)%type.

Definition self {A} (m : M t A) : M st A :=
  zoom fst (fun g (s : st) => (g, snd s)) m.
Definition rand {A} (m : M rng A) : M st A :=
  zoom snd (fun r (s : st) => (fst s, r)) m.

(** [any(pos in snake.body for snake in self.snakes.values())] *)
Definition on_some_snake (c : cell) (g : t) : bool :=
  existsb (fun s => cell_in c (Snake.body s)) (dict_values (snakes g)).

(** One slot of [_generate_food]: [while attempts < 50], with
    [remaining = 50 - attempts]. *)
Fixpoint place_food (remaining : nat) : M st unit :=
  match remaining with
  | O => ret tt
  | S n =>
      g <- self get ;;
      x <- rand (randint 0 (fst (grid_size g) - 1)) ;;
      y <- rand (randint 0 (snd (grid_size g) - 1)) ;;
      let p := (x, y) in
      if negb (on_some_snake p g) && negb (cell_in p (food_positions g))
      then self (modify (set_food_positions (food_positions g ++ [p])))
      else place_food n
  end.

Fixpoint _generate_food (count : nat) : M st unit :=
  match count with
  | O => ret tt
  | S n => place_food 50 ;;; _generate_food n
  end.

(** [GameState(grid_size)] *)
Definition init (grid : cell) : M rng t :=
  fun r =>
    match _generate_food 5 (mk grid [] [] false, r) with
    | (Ok _, (g, r')) => (Ok g, r')
    | (Raise e, (_, r')) => (Raise e, r')
    end.

Definition new_snake (pid : string) (start : cell) : M st unit :=
  s <- rand (Snake.init pid start) ;;
  self (modify (fun g => set_snakes (dict_set (snakes g) pid s) g)).

(** The [for _ in range(max_attempts)] loop of [add_player]; [true] when
    a snake was placed. *)
Fixpoint try_start (attempts : nat) (pid : string) : M st bool :=
  match attempts with
  | O => ret false
  | S n =>
      g <- self get ;;
      start_x <- rand (randint 3 (fst (grid_size g) - 4)) ;;
      start_y <- rand (randint 3 (snd (grid_size g) - 4)) ;;
      if negb (on_some_snake (start_x, start_y) g)
      then new_snake pid (start_x, start_y) ;;; ret true
      else try_start n pid
  end.

Definition add_player (pid : string) (username : string) : M st bool :=
  g <- self get ;;
  if dict_mem (snakes g) pid then ret true
  else
    placed <- try_start 100 pid ;;
    if placed then ret true
    else
      start_x <- rand (randint 5 (fst (grid_size g) - 6)) ;;
      start_y <- rand (randint 5 (snd (grid_size g) - 6)) ;;
      new_snake pid (start_x, start_y) ;;;
      ret true.

Definition remove_player (pid : string) : M t unit :=
  g <- get ;;
  when (dict_mem (snakes g) pid)
       (put (set_snakes (dict_del (snakes g) pid) g)).

Definition is_direction (v : pyval) : option string :=
  match v with
  | PStr s =>
      if existsb (String.eqb s) ["UP"; "DOWN"; "LEFT"; "RIGHT"]
      then Some s else None
  | PNone => None
  end.

(** [self.snakes[player_id].set_direction(direction)] *)
Fixpoint set_direction_of (pid d : string) (l : dict Snake.t)
  : dict Snake.t :=
  match l with
  | [] => []
  | (k, s) :: rest =>
      if String.eqb pid k
      then (k, snd (Snake.set_direction d s)) :: rest
      else (k, s) :: set_direction_of pid d rest
  end.

Definition update_player_direction (pid : string) (direction : pyval)
  : M t bool :=
  g <- get ;;
  if dict_mem (snakes g) pid && game_active g then
    match is_direction direction with
    | Some d =>
        put (set_snakes (set_direction_of pid d (snakes g)) g) ;;;
        ret true
    | None => ret false
    end
  else ret false.

(** [for snake in self.snakes.values(): if snake.move(...): ...append] *)
Definition move_snakes : M t (list bool) :=
  fun g =>
    let (r, d) := each_value (Snake.move (grid_size g) (food_positions g))
                             (snakes g) in
    (r, set_snakes d g).

(** The snakes whose [move] returned [True], in order. *)
Fixpoint ate_food (flags : list bool) (vs : list Snake.t) : list Snake.t :=
  match flags, vs with
  | true :: fl, v :: vs' => v :: ate_food fl vs'
  | false :: fl, _ :: vs' => ate_food fl vs'
  | _, _ => []
  end.

(** [for snake in snakes_ate_food: ...]: the eaten food leaves the
    list and one replacement is placed. *)
Definition replace_food (snake : Snake.t) : M st unit :=
  match Snake.body snake with
  | [] => raise IndexError
  | head_pos :: _ =>
      g <- self get ;;
      when (cell_in head_pos (food_positions g))
           (self (modify (set_food_positions
                            (remove_first head_pos (food_positions g)))) ;;;
            _generate_food 1)
  end.

(** The inner loop over [j] for a fixed [i]: [self] is [snake_list[i]],
    the others are [snake_list[i+1:]]. *)
Fixpoint collide_row (self : Snake.t) (others : list Snake.t)
  : result unit * (Snake.t * list Snake.t) :=
  match others with
  | [] => (Ok tt, (self, []))
  | o :: rest =>
      match Snake.check_collision_with_other (self, o) with
      | (Raise e, (s1, o1)) => (Raise e, (s1, o1 :: rest))
      | (Ok _, (s1, o1)) =>
          match Snake.check_collision_with_other (o1, s1) with
          | (Raise e, (o2, s2)) => (Raise e, (s2, o2 :: rest))
          | (Ok _, (o2, s2)) =>
              match collide_row s2 rest with
              | (r, (s3, rest')) => (r, (s3, o2 :: rest'))
              end
          end
      end
  end.

(** The two nested loops over [snake_list]; [n] counts the iterations
    of the outer loop that remain, over the suffix [snake_list[i:]]. *)
Fixpoint resolve_from (n : nat) (suffix : list Snake.t)
  : result unit * list Snake.t :=
  match n, suffix with
  | S n', s :: rest =>
      match collide_row s rest with
      | (Raise e, (s', rest')) => (Raise e, s' :: rest')
      | (Ok _, (s', rest')) =>
          match resolve_from n' rest' with
          | (r, rest'') => (r, s' :: rest'')
          end
      end
  | _, _ => (Ok tt, suffix)
  end.

Definition resolve_collisions (snake_list : list Snake.t)
  : result unit * list Snake.t :=
  resolve_from (List.length snake_list) snake_list.

Definition collisions : M t unit :=
  fun g =>
    let (r, vs) := resolve_collisions (dict_values (snakes g)) in
    (r, set_snakes (with_values (snakes g) vs) g).

Definition update_movement : M st unit :=
  g <- self get ;;
  if negb (game_active g) then ret tt
  else
    flags <- self move_snakes ;;
    g <- self get ;;
    for_each (ate_food flags (dict_values (snakes g))) replace_food ;;;
    self collisions.

(** [to_dict] of a snake and [get_game_data]: the state snapshot. *)
Record snake_view := mkView {
  v_player_id : string;
  v_body : list cell;
  v_direction : string;
  v_alive : bool;
  v_score : Z;
  v_color : string
}.

Definition to_dict (s : Snake.t) : snake_view :=
  mkView (Snake.player_id s) (Snake.body s) (Snake.direction s)
         (Snake.alive s) (Snake.score s) (Snake.color s).

Record game_data := mkData {
  d_snakes : dict snake_view;
  d_food : list cell;
  d_game_active : bool;
  d_grid_size : cell
}.

Definition get_game_data (g : t) : game_data :=
  mkData (map (fun kv => (fst kv, to_dict (snd kv))) (snakes g))
         (food_positions g) (game_active g) (grid_size g).

End GameState.

(** ** Messages and the network *)

Definition sock := nat.

(** [get_room_info]'s record. *)
Record room_info := mkRoomInfo {
  i_room_id : string;
  i_room_name : string;
  i_player_count : nat;
  i_max_players : Z;
  i_creator : string;
  i_game_active : bool
}.

(** The three shapes of a GAME_OVER payload. *)
Inductive game_over :=
| Winner (winner_id winner_name : string) (score : Z)
| Draw
| SinglePlayer (score : Z).

Inductive payload :=
| DText (s : string)
| DValue (v : pyval)
| DAuth (player_id status room_id : string)
| DRoomJoined (room_id room_name : string) (players : list string)
              (is_creator : bool)
| DRoomList (rooms : list room_info)
| DGameStarted (message started_by room_id : string)
| DGameState (g : GameState.game_data)
| DGameOver (o : game_over).

(** An envelope; the timestamp of [create_message] is wall-clock time and
    is left out. *)
Record message := mkMessage {
  m_type : string;
  from_user : string;
  data : payload
}.

(** What a [recv] on a socket finds: bytes, a timeout of the read, or a
    reset.  A script that has run out is a peer that has closed: [recv]
    returns the empty byte string. *)
Inductive recv_event :=
| Data (bytes : list Byte.byte)
| Timeout
| Reset.

(** The world outside the server: the random source, the log of the
    envelopes whose frames were handed to [sendall], the unread stream
    of every socket, the sockets this side has closed, and
    [pickle.dumps] (the bytes of an envelope, [None] when it raises). *)
Record Env := mkEnv {
  rand : rng;
  outbox : list (sock * message);
  net : sock -> list recv_event;
  closed : list sock;
  dumps : message -> option (list Byte.byte)
}.

Definition set_rand (r : rng) (e : Env) : Env :=
  mkEnv r (outbox e) (net e) (closed e) (dumps e).
Definition set_outbox (o : list (sock * message)) (e : Env) : Env :=
  mkEnv (rand e) o (net e) (closed e) (dumps e).
Definition set_net (s : sock) (script : list recv_event) (e : Env) : Env :=
  mkEnv (rand e) (outbox e)
        (fun s' => if Nat.eqb s' s then script else net e s') (closed e)
        (dumps e).
Definition set_closed (c : list sock) (e : Env) : Env :=
  mkEnv (rand e) (outbox e) (net e) c (dumps e).

Definition random {A} (m : M rng A) : M Env A := zoom rand set_rand m.

Module MessageType.
Definition AUTH := "auth".
Definition MOVE := "move".
Definition GAME_STATE := "game_state".
Definition CHAT := "chat".
Definition DISCONNECT := "disconnect".
Definition PLAYER_JOINED := "player_joined".
Definition PLAYER_LEFT := "player_left".
Definition CREATE_ROOM := "create_room".
Definition JOIN_ROOM := "join_room".
Definition LEAVE_ROOM := "leave_room".
Definition ROOM_LIST := "room_list".
Definition ROOM_JOINED := "room_joined".
Definition START_GAME := "start_game".
Definition GAME_STARTED := "game_started".
Definition GAME_OVER := "game_over".
Definition RESTART_GAME := "restart_game".
End MessageType.

(** ** class GameProtocol *)

Module GameProtocol.

Definition create_message (msg_type from : string) (d : payload) : message :=
  mkMessage msg_type from d.

(** The octet of [x mod 256]. *)
Definition octet (x : Z) : Byte.byte :=
  match Byte.of_N (Z.to_N (x mod 256)) with
  | Some b => b
  | None => Byte.x00
  end.

(** [struct.pack('!I', n)]: four octets, the most significant first;
    [struct.error] ([None]) outside [0, 2^32). *)
Definition pack_length (n : Z) : option (list Byte.byte) :=
  if (0 <=? n) && (n <? 4294967296)
  then Some [octet (n / 16777216); octet (n / 65536); octet (n / 256);
             octet n]
  else None.

(** What [send_message] hands to [sendall] for the serialised message
    [data]: the length prefix, then the data; [None] when the message
    is refused (more than 10 MB). *)
Definition frame (data : list Byte.byte) : option (list Byte.byte) :=
  if 10 * 1024 * 1024 <? Z.of_nat (List.length data) then None
  else
    match pack_length (Z.of_nat (List.length data)) with
    | Some length_prefix => Some (length_prefix ++ data)
    | None => None
    end.

(** [serialize_message]: [pickle.dumps] of the envelope; [None] when
    it fails. *)
Definition serialize_message (m : message)
  : M Env (option (list Byte.byte)) :=
  e <- get ;; ret (dumps e m).

(** [send_message]: a message that does not serialise, or serialises
    to more than 10 MB, is refused; else its frame is handed to
    [sendall], and a failure there (here: a socket this side has
    closed) is logged and swallowed.  The log keeps the envelope of
    every frame handed over. *)
Definition send_message (s : sock) (m : message) : M Env bool :=
  data <- serialize_message m ;;
  match data with
  | None => ret false
  | Some data =>
      match frame data with
      | None => ret false
      | Some _ =>
          e <- get ;;
          if existsb (Nat.eqb s) (closed e) then ret false
          else put (set_outbox (outbox e ++ [(s, m)]) e) ;;; ret true
      end
  end.

(** [sock.recv(n)]; on a socket this side has closed it raises. *)
Definition recv (s : sock) (n : nat) : M Env (list Byte.byte) :=
  e <- get ;;
  if existsb (Nat.eqb s) (closed e) then raise ConnectionError
  else
  match net e s with
  | [] => ret []
  | Data bytes :: rest =>
      put (set_net s (match skipn n bytes with
                      | [] => rest
                      | more => Data more :: rest
                      end) e) ;;;
      ret (firstn n bytes)
  | Timeout :: rest => put (set_net s rest e) ;;; raise SocketTimeout
  | Reset :: rest => put (set_net s rest e) ;;; raise ConnectionError
  end.

(** [struct.unpack('!I', length_data)[0]] *)
Definition unpack_length (length_data : list Byte.byte) : M Env Z :=
  match length_data with
  | [b0; b1; b2; b3] =>
      ret (Z.of_N (Byte.to_N b0) * 16777216 + Z.of_N (Byte.to_N b1) * 65536
           + Z.of_N (Byte.to_N b2) * 256 + Z.of_N (Byte.to_N b3))
  | _ => raise StructError
  end.

(** [while len(data) < length]: every round adds at least one byte, so
    [length] rounds are enough. *)
Fixpoint read_body (rounds : nat) (s : sock) (length : nat)
                   (data : list Byte.byte) : M Env (option (list Byte.byte)) :=
  if (List.length data <? length)%nat then
    match rounds with
    | O => ret (Some data)
    | S n =>
        chunk <- recv s (Nat.min 4096 (length - List.length data)) ;;
        match chunk with
        | [] => ret None
        | _ => read_body n s length (data ++ chunk)
        end
    end
  else ret (Some data).

Section Receive.
(** [pickle.loads] followed by the [None] test: the decoded envelope,
    or [None] when the bytes do not decode (or decode to [None]). *)
Variable loads : list Byte.byte -> option (dict pyval).

Definition deserialize_message (bytes : list Byte.byte)
  : option (dict pyval) :=
  match bytes with
  | [] => None
  | _ => loads bytes
  end.

Definition receive_message (s : sock) : M Env (option (dict pyval)) :=
  catch
    (length_data <- recv s 4 ;;
     match length_data with
     | [] => ret None
     | _ =>
         length <- unpack_length length_data ;;
         if 10 * 1024 * 1024 <? length then ret None
         else if length =? 0 then ret None
         else
           body <- read_body (Z.to_nat length) s (Z.to_nat length) [] ;;
           match body with
           | None => ret None
           | Some bytes => ret (deserialize_message bytes)
           end
     end)
    (fun _ => ret None).
End Receive.

End GameProtocol.

(** ** class GameRoom *)

Module GameRoom.

(** The [player_info] stored per member. *)
Record player_info := mkInfo { username : string; socket : sock }.

Record t := mk {
  room_id : string;
  room_name : string;
  max_players : Z;
  game_state : GameState.t;
  players : dict player_info;
  creator_id : option string;
  game_active : bool
}.

Definition set_game_state (g : GameState.t) (r : t) : t :=
  mk (room_id r) (room_name r) (max_players r) g (players r)
     (creator_id r) (game_active r).
Definition set_players (p : dict player_info) (r : t) : t :=
  mk (room_id r) (room_name r) (max_players r) (game_state r) p
     (creator_id r) (game_active r).
Definition set_creator_id (c : option string) (r : t) : t :=
  mk (room_id r) (room_name r) (max_players r) (game_state r) (players r)
     c (game_active r).
Definition set_game_active (b : bool) (r : t) : t :=
  mk (room_id r) (room_name r) (max_players r) (game_state r) (players r)
     (creator_id r) b.

(** The room together with the random source and the network. *)
Definition st := (t * Env)%type.

Definition self {A} (m : M t A) : M st A :=
  zoom fst (fun r (s : st) => (r, snd s)) m.
Definition env {A} (m : M Env A) : M st A :=
  zoom snd (fun e (s : st) => (fst s, e)) m.
(** [self.game_state.<method>] for a method that draws random numbers. *)
Definition state_rand {A} (m : M GameState.st A) : M st A :=
  zoom (fun s : st => (game_state (fst s), rand (snd s)))
       (fun gr (s : st) =>
          (set_game_state (fst gr) (fst s), set_rand (snd gr) (snd s)))
       m.
Definition state {A} (m : M GameState.t A) : M t A :=
  zoom game_state set_game_state m.

(** [GameRoom(room_id, room_name, max_players)] *)
Definition init (rid name : string) (max : Z) : M rng t :=
  g <- GameState.init (40, 30) ;;
  ret (mk rid name max g [] None false).

Definition add_player (pid : string) (info : player_info)
  : M st (bool * string) :=
  r <- self get ;;
  if max_players r <=? Z.of_nat (List.length (players r)) then
    ret (false, "Комната заполнена")
  else if dict_mem (players r) pid then
    ret (false, "Игрок уже в комнате")
  else
    self (modify (fun r => set_players (dict_set (players r) pid info) r)) ;;;
    self (modify (fun r => match creator_id r with
                           | None => set_creator_id (Some pid) r
                           | Some _ => r
                           end)) ;;;
    ok <- state_rand (GameState.add_player pid (username info)) ;;
    if ok then ret (true, "Успешно присоединился к комнате")
    else
      self (modify (fun r => set_players (dict_del (players r) pid) r)) ;;;
      ret (false, "Ошибка добавления в игру").

Definition notify_creator_change : M st unit :=
  r <- self get ;;
  let players_snapshot := players r in
  for_each players_snapshot
    (fun entry =>
       let is_creator := opt_string_eqb (Some (fst entry)) (creator_id r) in
       let msg := GameProtocol.create_message MessageType.ROOM_JOINED "SERVER"
                    (DRoomJoined (room_id r) (room_name r)
                       (map username (dict_values players_snapshot))
                       is_creator) in
       _ <- env (GameProtocol.send_message (socket (snd entry)) msg) ;;
       ret tt).

(** The locked part of [remove_player]: the value of [has_players], or
    [None] when the branch that assigns it did not run. *)
Definition remove_member (pid : string) : M st (option bool) :=
  r <- self get ;;
  if dict_mem (players r) pid then
    self (modify (fun r => set_players (dict_del (players r) pid) r)) ;;;
    self (state (GameState.remove_player pid)) ;;;
    r <- self get ;;
    (if opt_string_eqb (Some pid) (creator_id r) then
       match players r with
       | _ :: _ =>
           c <- env (random (choice (dict_keys (players r)))) ;;
           self (modify (set_creator_id (Some c)))
       | [] =>
           self (modify (set_creator_id None)) ;;;
           self (modify (set_game_active false))
       end
     else
       match players r with
       | [] =>
           self (modify (set_creator_id None)) ;;;
           self (modify (set_game_active false))
       | _ :: _ => ret tt
       end) ;;;
    r <- self get ;;
    ret (Some (0 <? Z.of_nat (List.length (players r))))
  else ret None.

Definition remove_player (pid : string) : M st bool :=
  has_players <- remove_member pid ;;
  match has_players with
  | None => raise UnboundLocalError
  | Some true => notify_creator_change ;;; ret false
  | Some false => ret true
  end.

Definition start_game (pid : string) : M t (bool * string) :=
  r <- get ;;
  if negb (opt_string_eqb (Some pid) (creator_id r)) then
    ret (false, "Только создатель комнаты может начать игру")
  else if Z.of_nat (List.length (players r)) <? 1 then
    ret (false, "Нужен хотя бы один игрок")
  else if game_active r then
    ret (false, "Игра уже запущена")
  else
    modify (set_game_active true) ;;;
    state (modify (GameState.set_game_active true)) ;;;
    ret (true, "Игра началась").

(** [for pid, info in self.players.items(): new_state.add_player(...)] *)
Fixpoint add_all (ps : dict player_info) : M GameState.st unit :=
  match ps with
  | [] => ret tt
  | (pid, info) :: rest =>
      _ <- GameState.add_player pid (username info) ;;
      add_all rest
  end.

Definition restart_game (pid : string) : M st (bool * string) :=
  r <- self get ;;
  if negb (opt_string_eqb (Some pid) (creator_id r)) then
    ret (false, "Только создатель комнаты может перезапустить игру")
  else
    match players r with
    | [] => ret (false, "В комнате нет игроков")
    | _ :: _ =>
        let old_grid_size := GameState.grid_size (game_state r) in
        new_state <- env (random (GameState.init old_grid_size)) ;;
        new_state <- env (random (fun g =>
                       match add_all (players r) (new_state, g) with
                       | (Ok _, (ns, g')) => (Ok ns, g')
                       | (Raise e, (_, g')) => (Raise e, g')
                       end)) ;;
        self (modify (set_game_state new_state)) ;;;
        self (modify (set_game_active true)) ;;;
        self (state (modify (GameState.set_game_active true))) ;;;
        ret (true, "Игра перезапущена")
    end.

Definition get_room_info (r : t) : room_info :=
  mkRoomInfo (room_id r) (room_name r) (List.length (players r))
    (max_players r)
    (match creator_id r with
     | Some c => match dict_get (players r) c with
                 | Some info => username info
                 | None => "Unknown"
                 end
     | None => "Unknown"
     end)
    (game_active r).

Definition broadcast_message (msg : message) (exclude_player : option string)
  : M st unit :=
  r <- self get ;;
  let recipients :=
    filter (fun entry =>
              negb (opt_string_eqb (Some (fst entry)) exclude_player))
           (players r) in
  for_each recipients
    (fun entry =>
       _ <- env (GameProtocol.send_message (socket (snd entry)) msg) ;;
       ret tt).

(** [alive = [(pid, s) for pid, s in snakes.items() if s.alive]] *)
Definition alive_snakes (g : GameState.t) : dict Snake.t :=
  filter (fun entry => Snake.alive (snd entry)) (GameState.snakes g).

(** The locked part of [update_game] after the activity test: one step
    of the engine and the end-condition test. *)
Definition step_and_judge : M st (option game_over) :=
  state_rand GameState.update_movement ;;;
  r <- self get ;;
  let snakes := GameState.snakes (game_state r) in
  let alive := alive_snakes (game_state r) in
  let total := List.length snakes in
  game_over_payload <-
    match alive with
    | [(pid, s)] =>
        if (1 <? total)%nat then
          match dict_get (players r) pid with
          | Some info =>
              ret (Some (Winner pid (username info) (Snake.score s)))
          | None => raise KeyError
          end
        else ret None
    | [] =>
        if (1 <? total)%nat then ret (Some Draw)
        else
          match snakes with
          | [(pid, s)] => ret (Some (SinglePlayer (Snake.score s)))
          | _ => ret None
          end
    | _ => ret None
    end ;;
  match game_over_payload with
  | Some _ =>
      self (modify (set_game_active false)) ;;;
      self (state (modify (GameState.set_game_active false)))
  | None => ret tt
  end ;;;
  ret game_over_payload.

Definition update_game : M st unit :=
  r <- self get ;;
  if negb (game_active r) then ret tt
  else
    game_over_payload <- step_and_judge ;;
    match game_over_payload with
    | Some p =>
        broadcast_message
          (GameProtocol.create_message MessageType.GAME_OVER "SERVER"
             (DGameOver p)) None
    | None => ret tt
    end ;;;
    r <- self get ;;
    let game_data := GameState.get_game_data (game_state r) in
    let game_data := GameState.mkData (GameState.d_snakes game_data)
                       (GameState.d_food game_data) (game_active r)
                       (GameState.d_grid_size game_data) in
    broadcast_message
      (GameProtocol.create_message MessageType.GAME_STATE "SERVER"
         (DGameState game_data)) None.

End GameRoom.

(** ** class GameServer *)

Module GameServer.

(** An entry of the player directory. *)
Record player := mkPlayer {
  username : string;
  socket : sock;
  room_id : option string
}.

(** [lobby_room] and [rooms["lobby"]] are one object: the directory
    [rooms] below holds the other rooms, and a lookup of "lobby" answers
    [lobby_room]. *)
Record t := mk {
  running : bool;
  players : dict player;
  rooms : dict GameRoom.t;
  lobby_room : GameRoom.t;
  player_counter : nat;
  room_counter : nat
}.

Definition set_running (b : bool) (s : t) : t :=
  mk b (players s) (rooms s) (lobby_room s) (player_counter s)
     (room_counter s).
Definition set_players (p : dict player) (s : t) : t :=
  mk (running s) p (rooms s) (lobby_room s) (player_counter s)
     (room_counter s).
Definition set_rooms (r : dict GameRoom.t) (s : t) : t :=
  mk (running s) (players s) r (lobby_room s) (player_counter s)
     (room_counter s).
Definition set_lobby_room (l : GameRoom.t) (s : t) : t :=
  mk (running s) (players s) (rooms s) l (player_counter s)
     (room_counter s).
Definition set_player_counter (n : nat) (s : t) : t :=
  mk (running s) (players s) (rooms s) (lobby_room s) n (room_counter s).
Definition set_room_counter (n : nat) (s : t) : t :=
  mk (running s) (players s) (rooms s) (lobby_room s) (player_counter s) n.

Definition World := (t * Env)%type.

Definition self {A} (m : M t A) : M World A :=
  zoom fst (fun s (w : World) => (s, snd w)) m.
Definition env {A} (m : M Env A) : M World A :=
  zoom snd (fun e (w : World) => (fst w, e)) m.

(** [self.rooms.get(room_id)] *)
Definition rooms_get (s : t) (rid : string) : option GameRoom.t :=
  if String.eqb rid "lobby" then Some (lobby_room s)
  else dict_get (rooms s) rid.

Definition rooms_put (rid : string) (r : GameRoom.t) (s : t) : t :=
  if String.eqb rid "lobby" then set_lobby_room r s
  else set_rooms (dict_set (rooms s) rid r) s.

(** A method of the room object that [rooms.get(rid)] returned. *)
Definition in_room {A} (rid : string) (m : M GameRoom.st A) : M World A :=
  fun w =>
    match rooms_get (fst w) rid with
    | None => (Raise KeyError, w)
    | Some room =>
        match m (room, snd w) with
        | (r, (room', e')) => (r, (rooms_put rid room' (fst w), e'))
        end
    end.

Definition in_lobby {A} (m : M GameRoom.st A) : M World A :=
  in_room "lobby" m.

Definition decimal (n : nat) : string :=
  NilZero.string_of_uint (Nat.to_uint n).

(** [GameServer()], with [_create_lobby]. *)
Definition init : M rng t :=
  lobby <- GameRoom.init "lobby" "Лобби" 50 ;;
  ret (mk false [] [] lobby 0 0).

Definition generate_player_id : M t string :=
  s <- get ;;
  put (set_player_counter (S (player_counter s)) s) ;;;
  ret ("player_" ++ decimal (S (player_counter s)))%string.

Definition generate_room_id : M t string :=
  s <- get ;;
  put (set_room_counter (S (room_counter s)) s) ;;;
  ret ("room_" ++ decimal (S (room_counter s)))%string.

Definition send_message_to_player (pid : string) (msg : message)
  : M World unit :=
  s <- self get ;;
  match dict_get (players s) pid with
  | None => ret tt
  | Some p => _ <- env (GameProtocol.send_message (socket p) msg) ;; ret tt
  end.

Definition get_room_list_message : M World message :=
  s <- self get ;;
  let infos :=
    map (fun entry => GameRoom.get_room_info (snd entry))
        (filter (fun entry => negb (String.eqb (fst entry) "lobby"))
                (rooms s)) in
  ret (GameProtocol.create_message MessageType.ROOM_LIST "SERVER"
         (DRoomList infos)).

Definition broadcast_room_list_to_lobby : M World unit :=
  msg <- get_room_list_message ;;
  in_lobby (GameRoom.broadcast_message msg None).

Definition send_room_list_to_player (pid : string) : M World unit :=
  msg <- get_room_list_message ;;
  send_message_to_player pid msg.

(** [self.players[player_id]] *)
Definition the_player (pid : string) : M World player :=
  s <- self get ;;
  match dict_get (players s) pid with
  | Some p => ret p
  | None => raise KeyError
  end.

Definition set_room_of (pid : string) (rid : string) : M World unit :=
  p <- the_player pid ;;
  self (modify (fun s =>
          set_players
            (dict_set (players s) pid
               (mkPlayer (username p) (socket p) (Some rid))) s)).

Definition truthy_id (rid : option string) : bool :=
  match rid with
  | Some r => negb (String.eqb r "")
  | None => false
  end.

(** The departure from the room the player is recorded in, shared by
    [move_player_to_room] and [remove_player]. *)
Definition depart_from (pid rid : string) (notice : string) : M World unit :=
  s <- self get ;;
  match rooms_get s rid with
  | None => ret tt
  | Some _ =>
      empty <- in_room rid (GameRoom.remove_player pid) ;;
      in_room rid
        (GameRoom.broadcast_message
           (GameProtocol.create_message MessageType.PLAYER_LEFT "SERVER"
              (DText notice)) None) ;;;
      when (empty && negb (String.eqb rid "lobby"))
           (self (modify (fun s => set_rooms (dict_del (rooms s) rid) s)))
  end.

Definition move_player_to_room (pid new_room_id room_name : string)
  : M World unit :=
  p <- the_player pid ;;
  let old_room_id := room_id p in
  let player_info := GameRoom.mkInfo (username p) (socket p) in
  let username := username p in
  match old_room_id with
  | Some old =>
      when (truthy_id old_room_id && negb (String.eqb old new_room_id))
           (depart_from pid old
              ("Игрок " ++ username ++ " покинул комнату")%string)
  | None => ret tt
  end ;;;
  s <- self get ;;
  match rooms_get s new_room_id with
  | None => ret tt
  | Some _ =>
      '(ok, _) <- in_room new_room_id
                    (GameRoom.add_player pid player_info) ;;
      if negb ok then ret tt
      else
        set_room_of pid new_room_id ;;;
        s <- self get ;;
        match rooms_get s new_room_id with
        | None => raise KeyError
        | Some new_room =>
            let is_creator :=
              opt_string_eqb (GameRoom.creator_id new_room) (Some pid) in
            send_message_to_player pid
              (GameProtocol.create_message MessageType.ROOM_JOINED "SERVER"
                 (DRoomJoined new_room_id room_name
                    (map GameRoom.username
                         (dict_values (GameRoom.players new_room)))
                    is_creator)) ;;;
            in_room new_room_id
              (GameRoom.broadcast_message
                 (GameProtocol.create_message MessageType.PLAYER_JOINED
                    "SERVER"
                    (DText ("Игрок " ++ username
                            ++ " присоединился к комнате")%string))
                 (Some pid)) ;;;
            when (negb (String.eqb new_room_id "lobby"))
                 (send_message_to_player pid
                    (GameProtocol.create_message MessageType.GAME_STATE
                       "SERVER"
                       (DGameState (GameState.get_game_data
                                      (GameRoom.game_state new_room)))))
        end
  end.

Definition remove_player (pid : string) : M World unit :=
  s <- self get ;;
  match dict_get (players s) pid with
  | None => ret tt
  | Some p =>
      self (modify (fun s => set_players (dict_del (players s) pid) s)) ;;;
      match room_id p with
      | Some rid =>
          when (truthy_id (room_id p))
               (depart_from pid rid
                  ("Игрок " ++ username p ++ " покинул игру")%string)
      | None => ret tt
      end ;;;
      broadcast_room_list_to_lobby
  end.

(** [message.get(key)] *)
Definition msg_get (message : dict pyval) (key : string) : pyval :=
  match dict_get message key with
  | Some v => v
  | None => PNone
  end.

Definition handle_create_room (pid : string) (message : dict pyval)
  : M World unit :=
  s <- self get ;;
  match dict_get (players s) pid with
  | None => ret tt
  | Some p =>
      if negb (opt_string_eqb (room_id p) (Some "lobby")) then ret tt
      else
        room_name <-
          match msg_get message "data" with
          | PStr name =>
              if truthy (PStr name) then ret name
              else
                n <- env (random (randint 100 999)) ;;
                ret ("Комната_" ++ NilZero.string_of_int (Z.to_int n))%string
          | PNone =>
              n <- env (random (randint 100 999)) ;;
              ret ("Комната_" ++ NilZero.string_of_int (Z.to_int n))%string
          end ;;
        rid <- self generate_room_id ;;
        room <- env (random (GameRoom.init rid room_name 4)) ;;
        self (modify (fun s => set_rooms (dict_set (rooms s) rid room) s)) ;;;
        move_player_to_room pid rid room_name ;;;
        broadcast_room_list_to_lobby
  end.

Definition handle_join_room (pid : string) (message : dict pyval)
  : M World unit :=
  match msg_get message "data" with
  | PStr target_room_id =>
      if String.eqb target_room_id "refresh"
      then send_room_list_to_player pid
      else
        s <- self get ;;
        match rooms_get s target_room_id with
        | None => ret tt
        | Some room =>
            move_player_to_room pid target_room_id
                                (GameRoom.room_name room) ;;;
            broadcast_room_list_to_lobby
        end
  | PNone => ret tt
  end.

Definition handle_leave_room (pid : string) : M World unit :=
  move_player_to_room pid "lobby" "Лобби" ;;;
  broadcast_room_list_to_lobby.

Definition handle_chat_message (pid : string) (message : dict pyval)
  : M World unit :=
  let chat_text := msg_get message "data" in
  s <- self get ;;
  match dict_get (players s) pid with
  | None => ret tt
  | Some p =>
      match room_id p with
      | Some rid =>
          if negb (truthy_id (room_id p)) then ret tt
          else
            match rooms_get s rid with
            | None => ret tt
            | Some _ =>
                in_room rid
                  (GameRoom.broadcast_message
                     (GameProtocol.create_message MessageType.CHAT
                        (username p) (DValue chat_text)) None)
            end
      | None => ret tt
      end
  end.

(** The room a game request of [pid] is about: the player's room when
    it is a registered room other than the lobby. *)
Definition game_room_of (s : t) (pid : string)
  : option (string * string * GameRoom.t) :=
  match dict_get (players s) pid with
  | None => None
  | Some p =>
      match room_id p with
      | Some rid =>
          if negb (truthy_id (room_id p)) || String.eqb rid "lobby"
          then None
          else
            match rooms_get s rid with
            | None => None
            | Some room => Some (rid, username p, room)
            end
      | None => None
      end
  end.

(** The two broadcasts after a successful start or restart. *)
Definition announce_start (rid username msg : string) : M World unit :=
  in_room rid
    (GameRoom.broadcast_message
       (GameProtocol.create_message MessageType.GAME_STARTED "SERVER"
          (DGameStarted msg username rid)) None) ;;;
  in_room rid
    (r <- GameRoom.self get ;;
     GameRoom.broadcast_message
       (GameProtocol.create_message MessageType.GAME_STATE "SERVER"
          (DGameState (GameState.get_game_data (GameRoom.game_state r))))
       None).

Definition handle_start_game (pid : string) : M World unit :=
  s <- self get ;;
  match game_room_of s pid with
  | None => ret tt
  | Some (rid, username, _) =>
      '(ok, msg) <- in_room rid (GameRoom.self (GameRoom.start_game pid)) ;;
      when ok (announce_start rid username msg)
  end.

Definition handle_restart_game (pid : string) : M World unit :=
  s <- self get ;;
  match game_room_of s pid with
  | None => ret tt
  | Some (rid, username, _) =>
      '(ok, msg) <- in_room rid (GameRoom.restart_game pid) ;;
      when ok (announce_start rid username msg)
  end.

Definition handle_player_move (pid : string) (message : dict pyval)
  : M World unit :=
  let direction := msg_get message "data" in
  s <- self get ;;
  match game_room_of s pid with
  | None => ret tt
  | Some (rid, _, room) =>
      when (GameRoom.game_active room)
           (in_room rid
              (_ <- GameRoom.self
                      (GameRoom.state
                         (GameState.update_player_direction pid direction)) ;;
               GameRoom.update_game))
  end.

(** [process_client_message]: [true] for the result "disconnect". *)
Definition process_client_message (pid : string) (message : dict pyval)
  : M World bool :=
  let tagged t := pyval_eqb (msg_get message "type") (PStr t) in
  if tagged MessageType.MOVE then handle_player_move pid message ;;; ret false
  else if tagged MessageType.CHAT then
    handle_chat_message pid message ;;; ret false
  else if tagged MessageType.CREATE_ROOM then
    handle_create_room pid message ;;; ret false
  else if tagged MessageType.JOIN_ROOM then
    handle_join_room pid message ;;; ret false
  else if tagged MessageType.LEAVE_ROOM then handle_leave_room pid ;;; ret false
  else if tagged MessageType.START_GAME then handle_start_game pid ;;; ret false
  else if tagged MessageType.RESTART_GAME then
    handle_restart_game pid ;;; ret false
  else if tagged MessageType.DISCONNECT then ret true
  else ret false.

(** One firing of [game_loop]: the body run when a period has elapsed.
    The room objects listed at the start are ticked in order. *)
Fixpoint tick_rooms (listed : list string) : M World unit :=
  match listed with
  | [] => ret tt
  | rid :: rest =>
      s <- self get ;;
      match dict_get (rooms s) rid with
      | Some room =>
          when (negb (String.eqb rid "lobby") && GameRoom.game_active room)
               (in_room rid GameRoom.update_game)
      | None => ret tt
      end ;;;
      tick_rooms rest
  end.

Definition game_loop_tick : M World unit :=
  s <- self get ;;
  tick_rooms (dict_keys (rooms s)).

Section Session.
Variable loads : list Byte.byte -> option (dict pyval).

(** The state of one [handle_client] call: the world and the local
    variable [player_id]. *)
Definition session := (World * option string)%type.

Definition world {A} (m : M World A) : M session A :=
  zoom fst (fun w (s : session) => (w, snd s)) m.

(** [while self.running: ...]; [true] when the loop is left, [false]
    when it is still running after [rounds] iterations. *)
Fixpoint receive_loop (rounds : nat) (pid : string) (client_socket : sock)
  : M World bool :=
  match rounds with
  | O => ret false
  | S n =>
      s <- self get ;;
      if negb (running s) then ret true
      else
        message <- env (GameProtocol.receive_message loads client_socket) ;;
        match message with
        | None => receive_loop n pid client_socket
        | Some [] => ret true
        | Some m =>
            disconnect <- process_client_message pid m ;;
            if disconnect then ret true
            else receive_loop n pid client_socket
        end
  end.

(** The [try] block of [handle_client] up to the receive loop: the
    handshake.  [Some pid] when the loop is to be entered, [None] when
    the block has returned. *)
Definition authenticate (client_socket : sock)
  : M session (option string) :=
  auth_message <-
    world (env (GameProtocol.receive_message loads client_socket)) ;;
  match auth_message with
  | None => ret None
  | Some [] => ret None
  | Some auth =>
      if negb (pyval_eqb (msg_get auth "type") (PStr MessageType.AUTH))
      then ret None
      else
        match msg_get auth "data" with
        | PNone => ret None
        | PStr name =>
            if negb (truthy (PStr name)) then ret None
            else
              '(s, _) <- world get ;;
              if existsb (fun p => String.eqb (username p) name)
                         (dict_values (players s))
              then ret None
              else
                pid <- world (self generate_player_id) ;;
                modify (fun ss : session => (fst ss, Some pid)) ;;;
                world (self (modify (fun s =>
                  set_players
                    (dict_set (players s) pid
                       (mkPlayer name client_socket None)) s))) ;;;
                '(ok, _) <- world (in_lobby
                              (GameRoom.add_player pid
                                 (GameRoom.mkInfo name client_socket))) ;;
                if negb ok then
                  world (self (modify (fun s =>
                    set_players (dict_del (players s) pid) s))) ;;;
                  ret None
                else
                  world (set_room_of pid "lobby") ;;;
                  _ <- world (env (GameProtocol.send_message client_socket
                         (GameProtocol.create_message MessageType.AUTH
                            "SERVER" (DAuth pid "success" "lobby")))) ;;
                  world (send_room_list_to_player pid) ;;;
                  world (in_lobby
                    (GameRoom.broadcast_message
                       (GameProtocol.create_message
                          MessageType.PLAYER_JOINED "SERVER"
                          (DText ("Игрок " ++ name
                                  ++ " присоединился к лобби")%string))
                       (Some pid))) ;;;
                  world broadcast_room_list_to_lobby ;;;
                  ret (Some pid)
        end
  end.

(** The whole [try] block: the handshake, then the receive loop. *)
Definition serve (rounds : nat) (client_socket : sock) : M session bool :=
  entered <- authenticate client_socket ;;
  match entered with
  | Some pid => world (receive_loop rounds pid client_socket)
  | None => ret true
  end.

(** The [finally] block of [handle_client]. *)
Definition cleanup (client_socket : sock) : M session unit :=
  '(_, player_id) <- get ;;
  match player_id with
  | Some pid => when (truthy_id player_id) (world (remove_player pid))
  | None => ret tt
  end ;;;
  world (env (modify (fun e => set_closed (client_socket :: closed e) e))).

(** [handle_client]: [Ok true] when the call has returned, [Ok false]
    when it is still in its receive loop after [rounds] iterations (the
    [finally] block has then not run), [Raise] when it ended by an
    exception (after the [finally] block). *)
Definition handle_client (rounds : nat) (client_socket : sock)
  : M World bool :=
  fun w =>
    match serve rounds client_socket (w, None) with
    | (Ok false, ss) => (Ok false, fst ss)
    | (r, ss) =>
        match cleanup client_socket ss with
        | (Ok _, ss') => (r, fst ss')
        | (Raise e, ss') => (Raise e, fst ss')
        end
    end.
End Session.

End GameServer.

Unset Implicit Arguments.

(** * The vocabulary of the properties *)

(** The cell [move] computes as the new head: the head shifted by the
    delta of the pending direction. *)
Definition next_head (s : Snake.t) : option cell :=
  match Snake.body s with
  | [] => None
  | (x, y) :: _ =>
      Some (x + fst (Snake.deltas (Snake.next_direction s)),
            y + snd (Snake.deltas (Snake.next_direction s)))
  end.

(** [food_positions and new_head in food_positions]: the test of [move]
    for a meal. *)
Definition has_food (food : list cell) (c : cell) : bool :=
  match food with [] => false | _ => true end && cell_in c food.

(** A snake of two cells heading right. *)
Definition crawler : Snake.t :=
  Snake.mk "player_1" [(5, 5); (4, 5)] "RIGHT" "RIGHT" true 0 "#FF6B6B" (4, 5).

(** The snake with its alive flag cleared. *)
Definition dead (s : Snake.t) : Snake.t := Snake.set_alive false s.

(** [fades s s']: [s'] is [s] with, at most, its alive flag cleared. *)
Definition fades (s s' : Snake.t) : Prop :=
  s' = Snake.set_alive (Snake.alive s') s /\
  (Snake.alive s' = true -> Snake.alive s = true).

(** The snake has a head: [body[0]] does not raise. *)
Definition has_body (s : Snake.t) : Prop := Snake.body s <> [].

(** The head-swap condition on two snakes after their moves. *)
Definition swapped (a b : Snake.t) : Prop :=
  exists ha hb,
    hd_error (Snake.body a) = Some ha /\
    hd_error (Snake.body b) = Some hb /\
    cell_eqb (Snake.prev_head a) hb = true /\
    cell_eqb (Snake.prev_head b) ha = true.

(** The ids of the snakes still alive, in order. *)
Definition survivors (l : list Snake.t) : list string :=
  map Snake.player_id (filter Snake.alive l).

(** A random source for runs that draw nothing. *)
Definition no_draws : rng := mkRng (fun _ => 0) 0.

(** A living snake with the given cells, about to move in [dir]. *)
Definition runner (pid : string) (body : list cell) (dir : string) : Snake.t :=
  Snake.mk pid body dir dir true 0 "#FF6B6B" (hd (0, 0) body).

(** Two snakes side by side, each about to run into the other's tail. *)
Definition east_1 := runner "player_1" [(4, 5); (4, 6); (4, 7)] "RIGHT".
Definition west_2 := runner "player_2" [(5, 6); (5, 5); (5, 4)] "LEFT".

(** The same two snakes in a running game, in either insertion order. *)
Definition duel_12 : GameState.t :=
  GameState.mk (40, 30) [("player_1", east_1); ("player_2", west_2)] [] true.
Definition duel_21 : GameState.t :=
  GameState.mk (40, 30) [("player_2", west_2); ("player_1", east_1)] [] true.

(** The ids of the snakes of [g] still alive. *)
Definition alive_ids (g : GameState.t) : list string :=
  survivors (dict_values (GameState.snakes g)).

(** Players 1 and 3 face each other on adjacent cells; player 2 is about
    to step onto the cell player 1 moves to. *)
Definition swap_a := runner "player_1" [(5, 5)] "RIGHT".
Definition third := runner "player_2" [(6, 4)] "DOWN".
Definition swap_b := runner "player_3" [(6, 5)] "LEFT".

(** The three of them in a running game. *)
Definition trio : GameState.t :=
  GameState.mk (40, 30)
    [("player_1", swap_a); ("player_2", third); ("player_3", swap_b)] [] true.

(** The index pairs [(i, j)] of the two nested loops of the pass over
    [n] snakes, in the order in which the loops reach them. *)
Definition pass_pairs (n : nat) : list (nat * nat) :=
  flat_map (fun i => map (fun j => (i, j)) (seq (S i) (n - S i))) (seq 0 n).

(** [snake_list[i]] after a check has written to the snake. *)
Fixpoint set_nth (i : nat) (x : Snake.t) (l : list Snake.t) : list Snake.t :=
  match l, i with
  | [], _ => []
  | _ :: rest, O => x :: rest
  | y :: rest, S i' => y :: set_nth i' x rest
  end.

(** The body of the inner loop at [(i, j)]:
    [snake_list[i].check_collision_with_other(snake_list[j])], then the
    same with the two exchanged. *)
Definition collide_pair (p : nat * nat) (l : list Snake.t)
  : result unit * list Snake.t :=
  match nth_error l (fst p), nth_error l (snd p) with
  | Some a, Some b =>
      match Snake.check_collision_with_other (a, b) with
      | (Raise e, (a1, b1)) =>
          (Raise e, set_nth (snd p) b1 (set_nth (fst p) a1 l))
      | (Ok _, (a1, b1)) =>
          match Snake.check_collision_with_other (b1, a1) with
          | (Raise e, (b2, a2)) =>
              (Raise e, set_nth (snd p) b2 (set_nth (fst p) a2 l))
          | (Ok _, (b2, a2)) =>
              (Ok tt, set_nth (snd p) b2 (set_nth (fst p) a2 l))
          end
      end
  | _, _ => (Raise IndexError, l)
  end.

(** The evaluations of the pairs [ps], one after the other. *)
Fixpoint run_pairs (ps : list (nat * nat)) (l : list Snake.t)
  : result unit * list Snake.t :=
  match ps with
  | [] => (Ok tt, l)
  | p :: rest =>
      match collide_pair p l with
      | (Ok _, l1) => run_pairs rest l1
      | (Raise e, l1) => (Raise e, l1)
      end
  end.

(** [struck_by_third l i j]: in the pass over [l], one of the snakes at
    [i] and [j], call it [v], is alive when the pair of [v] and a third
    snake [k] comes up and dead when that pair has been evaluated, and
    that pair comes up before the pair of [i] and [j]. *)
Definition struck_by_third (l : list Snake.t) (i j : nat) : Prop :=
  exists before p after v k s s',
    pass_pairs (List.length l) = before ++ p :: after /\
    In (Nat.min i j, Nat.max i j) after /\
    (v = i \/ v = j) /\ k <> i /\ k <> j /\
    (p = (v, k) \/ p = (k, v)) /\
    nth_error (snd (run_pairs before l)) v = Some s /\
    Snake.alive s = true /\
    nth_error (snd (run_pairs (before ++ [p]) l)) v = Some s' /\
    Snake.alive s' = false.

(** The pairs of the pass are ordered pairs of positions of the list. *)
Definition in_range (n : nat) (p : nat * nat) : Prop :=
  (fst p < snd p)%nat /\ (snd p < n)%nat.

(** The three snakes of [trio] after their moves. *)
Definition met_trio : list Snake.t :=
  Eval vm_compute in
  dict_values (GameState.snakes (snd (GameState.move_snakes trio))).

(** Two snakes as [move] leaves them after a head swap. *)
Definition met_a : Snake.t :=
  Snake.mk "player_1" [(6, 5)] "RIGHT" "RIGHT" true 0 "#FF6B6B" (5, 5).
Definition met_b : Snake.t :=
  Snake.mk "player_2" [(5, 5)] "LEFT" "LEFT" true 0 "#4ECDC4" (6, 5).

(** A state the constructors can produce: a grid with cells, and snakes
    with cells. *)
Definition wf_engine (g : GameState.t) : Prop :=
  0 < fst (GameState.grid_size g) /\
  0 < snd (GameState.grid_size g) /\
  Forall has_body (dict_values (GameState.snakes g)).

(** [same_game g g']: only the food differs. *)
Definition same_game (g g' : GameState.t) : Prop :=
  GameState.grid_size g' = GameState.grid_size g /\
  GameState.snakes g' = GameState.snakes g /\
  GameState.game_active g' = GameState.game_active g.

(** The network after [msg] was sent to each socket of [recipients]. *)
Fixpoint post (recipients : list sock) (msg : message) (e : Env) : Env :=
  match recipients with
  | [] => e
  | s :: rest => post rest msg (snd (GameProtocol.send_message s msg e))
  end.

(** The sockets [broadcast_message] writes to: every member but
    [exclude], in the order of [players]. *)
Definition recipients_of (r : GameRoom.t) (exclude : option string)
  : list sock :=
  map (fun entry => GameRoom.socket (snd entry))
      (filter (fun entry =>
                 negb (opt_string_eqb (Some (fst entry)) exclude))
              (GameRoom.players r)).

(** The room with both activity flags cleared, as [update_game] leaves it
    when an end condition holds. *)
Definition stopped (r : GameRoom.t) : GameRoom.t :=
  GameRoom.set_game_state
    (GameState.set_game_active false (GameRoom.game_state r))
    (GameRoom.set_game_active false r).

(** The GAME_OVER notice of the server. *)
Definition game_over_msg (p : game_over) : message :=
  GameProtocol.create_message MessageType.GAME_OVER "SERVER" (DGameOver p).

(** The GAME_STATE notice [update_game] broadcasts: the engine's data
    with the room's activity flag. *)
Definition game_state_msg (r : GameRoom.t) : message :=
  GameProtocol.create_message MessageType.GAME_STATE "SERVER"
    (DGameState
       (GameState.mkData
          (GameState.d_snakes (GameState.get_game_data (GameRoom.game_state r)))
          (GameState.d_food (GameState.get_game_data (GameRoom.game_state r)))
          (GameRoom.game_active r)
          (GameState.d_grid_size
             (GameState.get_game_data (GameRoom.game_state r))))).

(** [keeps R m]: whatever [m] returns or raises, the state it leaves is
    related by [R] to the one it found. *)
Definition keeps {S : Type} (R : S -> S -> Prop) {A : Type} (m : M S A)
  : Prop :=
  forall s res s', m s = (res, s') -> R s s'.

(** [same_members s s']: the room has the members, the creator and the
    capacity it had. *)
Definition same_members (s s' : GameRoom.st) : Prop :=
  GameRoom.players (fst s') = GameRoom.players (fst s) /\
  GameRoom.creator_id (fst s') = GameRoom.creator_id (fst s) /\
  GameRoom.max_players (fst s') = GameRoom.max_players (fst s).

(** [returns P m]: whenever [m] returns, what it returns satisfies [P]. *)
Definition returns {S A} (P : A -> Prop) (m : M S A) : Prop :=
  forall s a s', m s = (Ok a, s') -> P a.

(** The engine's side of a removal. *)
Definition without_snake (pid : string) (g : GameState.t) : GameState.t :=
  snd (GameState.remove_player pid g).

(** The room once [pid] has left [players] and the engine. *)
Definition vacated (pid : string) (r : GameRoom.t) : GameRoom.t :=
  GameRoom.set_game_state (without_snake pid (GameRoom.game_state r))
    (GameRoom.set_players (dict_del (GameRoom.players r) pid) r).

(** The room when its last member has left. *)
Definition emptied (pid : string) (r : GameRoom.t) : GameRoom.t :=
  GameRoom.set_game_active false (GameRoom.set_creator_id None (vacated pid r)).

(** The invariant of a room's membership. *)
Definition room_inv (r : GameRoom.t) : Prop :=
  Z.of_nat (List.length (GameRoom.players r)) <= GameRoom.max_players r /\
  (forall c, GameRoom.creator_id r = Some c ->
             In c (dict_keys (GameRoom.players r))) /\
  (GameRoom.players r <> [] -> GameRoom.creator_id r <> None) /\
  NoDup (dict_keys (GameRoom.players r)).

(** One call of a method of the room, whatever it returns or raises, or
    a change of the network and the random source by someone else. *)
Inductive room_step : GameRoom.st -> GameRoom.st -> Prop :=
| step_add_player pid info s res s' :
    GameRoom.add_player pid info s = (res, s') -> room_step s s'
| step_remove_player pid s res s' :
    GameRoom.remove_player pid s = (res, s') -> room_step s s'
| step_start_game pid s res s' :
    GameRoom.self (GameRoom.start_game pid) s = (res, s') -> room_step s s'
| step_restart_game pid s res s' :
    GameRoom.restart_game pid s = (res, s') -> room_step s s'
| step_update_game s res s' :
    GameRoom.update_game s = (res, s') -> room_step s s'
| step_direction pid d s res s' :
    GameRoom.self (GameRoom.state (GameState.update_player_direction pid d)) s
    = (res, s') ->
    room_step s s'
| step_broadcast msg exclude s res s' :
    GameRoom.broadcast_message msg exclude s = (res, s') -> room_step s s'
| step_outside r e e' : room_step (r, e) (r, e').

(** The states a room can reach from its constructor. *)
Inductive room_reachable : GameRoom.st -> Prop :=
| reach_new rid name max g r g' e :
    0 <= max ->
    GameRoom.init rid name max g = (Ok r, g') ->
    room_reachable (r, e)
| reach_step s s' : room_reachable s -> room_step s s' -> room_reachable s'.

(** The members the room tells they are the creator (the [is_creator]
    flag of its ROOM_JOINED notices). *)
Definition creators (r : GameRoom.t) : dict GameRoom.player_info :=
  filter (fun entry => opt_string_eqb (Some (fst entry)) (GameRoom.creator_id r))
         (GameRoom.players r).

(** The rooms other than the lobby, as the registry lists them. *)
Definition same_rooms (w w' : GameServer.World) : Prop :=
  GameServer.rooms (fst w') = GameServer.rooms (fst w).

(** The rooms a ROOM_LIST message built in state [s] lists. *)
Definition listed_rooms (s : GameServer.t) : list room_info :=
  map (fun entry => GameRoom.get_room_info (snd entry))
      (filter (fun entry => negb (String.eqb (fst entry) "lobby"))
              (GameServer.rooms s)).

(** No room has been added: every room listed after was listed before. *)
Definition rooms_within (w w' : GameServer.World) : Prop :=
  forall k, In k (dict_keys (GameServer.rooms (fst w'))) ->
            In k (dict_keys (GameServer.rooms (fst w))).

(** [same_but_net e e']: only the unread streams may differ. *)
Definition same_but_net (e e' : Env) : Prop :=
  outbox e' = outbox e /\ closed e' = closed e /\ rand e' = rand e.

(** The identifier [generate_player_id] hands out next. *)
Definition next_player_id (s : GameServer.t) : string :=
  ("player_" ++ GameServer.decimal (S (GameServer.player_counter s)))%string.

(** The server once the directory entry of the client on [client_socket]
    has been rolled back: only the identifier counter has moved. *)
Definition turned_away (client_socket : sock) (s : GameServer.t)
           (name : string) : GameServer.t :=
  GameServer.set_players (GameServer.players s)
    (GameServer.set_lobby_room (GameServer.lobby_room s)
       (GameServer.set_players
          (dict_set (GameServer.players s) (next_player_id s)
             (GameServer.mkPlayer name client_socket None))
          (GameServer.set_player_counter
             (S (GameServer.player_counter s)) s))).

(** One advancement of the room [rid]: what the scheduler applies to a
    room that is due. *)
Definition tick_one (rid : string) : M GameServer.World unit :=
  GameServer.in_room rid GameRoom.update_game.

(** The rooms a firing of the scheduler ticks: listed, not the lobby,
    active. *)
Definition due (s : GameServer.t) (rid : string) : bool :=
  match dict_get (GameServer.rooms s) rid with
  | Some room => negb (String.eqb rid "lobby") && GameRoom.game_active room
  | None => false
  end.

(** A serialiser for the runs below, standing for [pickle.dumps]: every
    envelope takes one byte. *)
Definition small_pickle (m : message) : option (list Byte.byte) :=
  Some [x80].

(** A random source that always draws 33, and a silent network. *)
Definition steady : rng := mkRng (fun _ => 33) 0.
Definition quiet : Env := mkEnv steady [] (fun _ => []) [] small_pickle.

(** A placeholder for the branches that cannot occur. *)
Definition blank_room : GameRoom.t :=
  GameRoom.mk "" "" 0 (GameState.mk (0, 0) [] [] false) [] None false.

(** A freshly built room for four. *)
Definition arena : GameRoom.t :=
  Eval vm_compute in
  match fst (GameRoom.init "room_1" "Arena" 4 steady) with
  | Ok r => r
  | Raise _ => blank_room
  end.

(** Two players join, the creator starts the game. *)
Definition two_members : GameRoom.st :=
  Eval vm_compute in
  snd (bind (GameRoom.add_player "player_1" (GameRoom.mkInfo "ann" 1%nat))
         (fun _ =>
            bind (GameRoom.add_player "player_2" (GameRoom.mkInfo "bob" 2%nat))
              (fun _ => GameRoom.self (GameRoom.start_game "player_1")))
         (arena, quiet)).

(** Then the second player leaves and the first runs on for three
    ticks, up to the wall. *)
Definition lone_at_wall : GameRoom.st :=
  Eval vm_compute in
  snd (bind (GameRoom.remove_player "player_2")
         (fun _ =>
            bind GameRoom.update_game
              (fun _ => bind GameRoom.update_game (fun _ => GameRoom.update_game)))
         two_members).

(** A decoded envelope, as far as the server reads it. *)
Definition envelope (t : string) (d : pyval) : dict pyval :=
  [("type", PStr t); ("data", d)].

(** A decoder for one-byte bodies, standing for [pickle.loads]. *)
Definition toy_loads (bytes : list Byte.byte) : option (dict pyval) :=
  match bytes with
  | [x01] => Some (envelope "auth" (PStr "ann"))
  | [x02] => Some (envelope "create_room" (PStr "Arena"))
  | [x03] => Some (envelope "start_game" PNone)
  | [x04] => Some (envelope "move" (PStr "DOWN"))
  | [x05] => Some (envelope "disconnect" PNone)
  | _ => None
  end.

(** The frame of a one-byte body: its length prefix, then the byte. *)
Definition one_byte_frame (b : Byte.byte) : recv_event :=
  Data [x00; x00; x00; x01; b].

(** The server after its constructor, running. *)
Definition fresh_server : GameServer.t :=
  Eval vm_compute in
  match fst (GameServer.init steady) with
  | Ok s => GameServer.set_running true s
  | Raise _ => GameServer.mk false [] [] blank_room 0 0
  end.

(** The random source once the server has built its lobby. *)
Definition seeded : rng := Eval vm_compute in snd (GameServer.init steady).

(** The network with one client, on socket 7, that will deliver
    [script]. *)
Definition wire (script : list recv_event) : Env :=
  mkEnv seeded []
        (fun s => if Nat.eqb s 7 then script else []) [] small_pickle.

(** The world after the client's AUTH was handled. *)
Definition greeted : GameServer.World :=
  Eval vm_compute in
  fst (snd (GameServer.authenticate toy_loads 7%nat
              ((fresh_server, wire [one_byte_frame x01]), None))).

(** Then the player creates a room ... *)
Definition in_own_room : GameServer.World :=
  Eval vm_compute in
  snd (GameServer.process_client_message "player_1"
         (envelope "create_room" (PStr "Arena")) greeted).

(** ... and starts the game. *)
Definition playing : GameServer.World :=
  Eval vm_compute in
  snd (GameServer.process_client_message "player_1"
         (envelope "start_game" PNone) in_own_room).

(** The cells of the snake of [pid] in room [rid]. *)
Definition snake_cells (w : GameServer.World) (rid pid : string)
  : option (list cell) :=
  match dict_get (GameServer.rooms (fst w)) rid with
  | Some room =>
      match dict_get (GameState.snakes (GameRoom.game_state room)) pid with
      | Some snake => Some (Snake.body snake)
      | None => None
      end
  | None => None
  end.

(** The world after one MOVE was handled, with no tick in between. *)
Definition moved_down : GameServer.World :=
  Eval vm_compute in
  snd (GameServer.process_client_message "player_1"
         (envelope "move" (PStr "DOWN")) playing).

(** The room of two after player 2 was removed once. *)
Definition after_first_removal : GameRoom.st :=
  Eval vm_compute in snd (GameRoom.remove_player "player_2" two_members).

(** The room of two after three ticks: the first player is at the
    wall. *)
Definition two_at_wall : GameRoom.st :=
  Eval vm_compute in
  snd (bind GameRoom.update_game
         (fun _ => bind GameRoom.update_game (fun _ => GameRoom.update_game))
         two_members).

(** The room with one member, then two, before any game. *)
Definition one_member : GameRoom.st :=
  Eval vm_compute in
  snd (GameRoom.add_player "player_1" (GameRoom.mkInfo "ann" 1%nat)
         (arena, quiet)).

Definition two_idle : GameRoom.st :=
  Eval vm_compute in
  snd (GameRoom.add_player "player_2" (GameRoom.mkInfo "bob" 2%nat) one_member).

(** The n-th guest of a full lobby. *)
Definition guest (n : nat) : string * GameRoom.player_info :=
  (("player_" ++ GameServer.decimal n)%string,
   GameRoom.mkInfo ("guest_" ++ GameServer.decimal n)%string n).

(** A server whose lobby holds its 50 members. *)
Definition crowded_server : GameServer.t :=
  Eval vm_compute in
  GameServer.set_player_counter 50
    (GameServer.set_players
       (map (fun n => (fst (guest n),
                       GameServer.mkPlayer (GameRoom.username (snd (guest n)))
                         n (Some "lobby")))
            (seq 1 50))
       (GameServer.set_lobby_room
          (GameRoom.set_players (map guest (seq 1 50))
             (GameServer.lobby_room fresh_server))
          fresh_server)).

(** The network once the AUTH frame has been read. *)
Definition after_auth_frame : Env :=
  Eval vm_compute in
  snd (GameProtocol.receive_message toy_loads 7%nat (wire [one_byte_frame x01])).

(** [only_socket s e e']: between [e] and [e'] nothing but the script of
    socket [s] has changed. *)
Definition only_socket (s : sock) (e e' : Env) : Prop :=
  outbox e' = outbox e /\ closed e' = closed e /\ rand e' = rand e /\
  forall s', s' <> s -> net e' s' = net e s'.

(** What is left of a script once [n] bytes of its first chunk [c] were
    read. *)
Definition after_read (n : nat) (c : list Byte.byte) (rest : list recv_event)
  : list recv_event :=
  match skipn n c with
  | [] => rest
  | more => Data more :: rest
  end.

(** The pending direction is not the reverse of the direction of travel. *)
Definition no_reverse (s : Snake.t) : Prop :=
  Snake.opposite (Snake.direction s) <> Some (Snake.next_direction s).

(** The cell lies on the grid. *)
Definition inside (grid c : cell) : Prop := Snake.out_of_grid grid c = false.

(** Two cells that share a side. *)
Definition adjacent (a b : cell) : Prop :=
  Z.abs (fst a - fst b) + Z.abs (snd a - snd b) = 1.

(** Every cell of the body touches the next one. *)
Fixpoint chain (body : list cell) : Prop :=
  match body with
  | a :: (b :: _) as rest => adjacent a b /\ chain rest
  | _ => True
  end.

(** A body on the grid, without a repeated cell, in one piece. *)
Definition well_shaped (grid : cell) (s : Snake.t) : Prop :=
  Forall (inside grid) (Snake.body s) /\
  NoDup (Snake.body s) /\
  chain (Snake.body s).

(** A cell where food may be put in [g]: on the grid, under no snake,
    not food already. *)
Definition fresh_food (g : GameState.t) (c : cell) : Prop :=
  inside (GameState.grid_size g) c /\
  GameState.on_some_snake c g = false /\
  ~ In c (GameState.food_positions g).

(** The engine with [added] appended to its food. *)
Definition with_more_food (added : list cell) (g : GameState.t)
  : GameState.t :=
  GameState.set_food_positions (GameState.food_positions g ++ added) g.

(** A snake as the constructor makes it. *)
Definition newborn (pid : string) (c : cell) (col : string) : Snake.t :=
  Snake.mk pid [c] "RIGHT" "RIGHT" true 0 col c.

(** The engine with one more snake, after the others. *)
Definition with_snake (pid : string) (s : Snake.t) (g : GameState.t)
  : GameState.t :=
  GameState.set_snakes (GameState.snakes g ++ [(pid, s)]) g.

(** How one tick changes the snake of one player: the snake makes its
    own move and then, at most, dies in the collision pass. *)
Definition ticked (grid : cell) (food : list cell) (a b : string * Snake.t)
  : Prop :=
  fst b = fst a /\ fades (snd (Snake.move grid food (snd a))) (snd b).

(** The engine of the room of two, its game running. *)
Definition running_engine : GameState.t :=
  Eval vm_compute in GameRoom.game_state (fst two_members).

(** The snake of the first player in that engine. *)
Definition first_snake : Snake.t :=
  Eval vm_compute in
  match dict_get (GameState.snakes running_engine) "player_1" with
  | Some s => s
  | None => crawler
  end.

(** The room once [pid] has joined it: a member after the others, the
    creator if the room had none, and the engine as [add_player] left
    it. *)
Definition joined (pid : string) (info : GameRoom.player_info)
           (g : GameState.t) (r : GameRoom.t) : GameRoom.t :=
  GameRoom.set_game_state g
    (GameRoom.set_creator_id
       (match GameRoom.creator_id r with
        | Some c => Some c
        | None => Some pid
        end)
       (GameRoom.set_players (GameRoom.players r ++ [(pid, info)]) r)).

(** The engine of a room matches its membership: the snakes are those of
    the members, in the order of the members, each with cells, on the
    40 by 30 grid. *)
Definition room_sound (r : GameRoom.t) : Prop :=
  GameState.grid_size (GameRoom.game_state r) = (40, 30) /\
  Forall has_body (dict_values (GameState.snakes (GameRoom.game_state r))) /\
  dict_keys (GameState.snakes (GameRoom.game_state r))
  = dict_keys (GameRoom.players r).

(** [same_cast s s']: the members, the snakes and the grid are the
    same. *)
Definition same_cast (s s' : GameRoom.st) : Prop :=
  GameRoom.players (fst s') = GameRoom.players (fst s) /\
  GameState.snakes (GameRoom.game_state (fst s'))
  = GameState.snakes (GameRoom.game_state (fst s)) /\
  GameState.grid_size (GameRoom.game_state (fst s'))
  = GameState.grid_size (GameRoom.game_state (fst s)).

(** A snake as [add_player] leaves it, whatever its cell and color. *)
Definition fresh_entry (entry : string * Snake.t) : Prop :=
  exists c col, snd entry = newborn (fst entry) c col.

(** The room after a restart with the new engine [g]. *)
Definition restarted (g : GameState.t) (r : GameRoom.t) : GameRoom.t :=
  GameRoom.set_game_active true
    (GameRoom.set_game_state (GameState.set_game_active true g) r).

(** [sendable e msg]: the envelope serialises, and to no more than
    10 MB, so that [send_message] does not refuse it. *)
Definition sendable (e : Env) (msg : message) : bool :=
  match dumps e msg with
  | Some data => negb (10 * 1024 * 1024 <? Z.of_nat (List.length data))
  | None => false
  end.

(** The network after a broadcast of [msg] to the sockets [l]: an
    envelope that [send_message] refuses goes to nobody; any other is
    handed to [sendall] once for each socket of [l] that this side has
    not closed, in the order of [l]. *)
Definition delivered (msg : message) (l : list sock) (e : Env) : Env :=
  if sendable e msg
  then set_outbox
         (outbox e
          ++ map (fun s => (s, msg))
                 (filter (fun s => negb (existsb (Nat.eqb s) (closed e))) l))
         e
  else e.

(** The message types [process_client_message] has a branch for. *)
Definition handled_types : list string :=
  [MessageType.MOVE; MessageType.CHAT; MessageType.CREATE_ROOM;
   MessageType.JOIN_ROOM; MessageType.LEAVE_ROOM; MessageType.START_GAME;
   MessageType.RESTART_GAME; MessageType.DISCONNECT].

(** The CHAT envelope the server relays for [p]. *)
Definition chat_from (p : GameServer.player) (text : pyval) : message :=
  GameProtocol.create_message MessageType.CHAT (GameServer.username p)
    (DValue text).

(** The ROOM_LIST envelope for the rooms of [s]. *)
Definition room_list_of (s : GameServer.t) : message :=
  GameProtocol.create_message MessageType.ROOM_LIST "SERVER"
    (DRoomList (listed_rooms s)).

(** The player record of the first client, and the room they made. *)
Definition ann : GameServer.player :=
  Eval vm_compute in
  match dict_get (GameServer.players (fst playing)) "player_1" with
  | Some p => p
  | None => GameServer.mkPlayer "" 0%nat None
  end.

Definition ann_room : GameRoom.t :=
  Eval vm_compute in
  match dict_get (GameServer.rooms (fst playing)) "room_1" with
  | Some r => r
  | None => blank_room
  end.

(** A first frame on which [handle_client] gives up before it registers
    anyone: nothing decoded, an empty envelope, a type other than AUTH,
    no name or an empty one, or the name of a registered player. *)
Definition bad_handshake (s : GameServer.t) (r : option (dict pyval)) : Prop :=
  match r with
  | None => True
  | Some [] => True
  | Some auth =>
      GameServer.msg_get auth "type" <> PStr MessageType.AUTH \/
      GameServer.msg_get auth "data" = PNone \/
      GameServer.msg_get auth "data" = PStr "" \/
      exists name,
        GameServer.msg_get auth "data" = PStr name /\
        existsb (fun p => String.eqb (GameServer.username p) name)
                (dict_values (GameServer.players s)) = true
  end.


(** The network with the first client sending a MOVE where the AUTH
    should be. *)
Definition wrong_first_frame : Env := wire [one_byte_frame x04].

Definition after_wrong_frame : Env :=
  Eval vm_compute in
  snd (GameProtocol.receive_message toy_loads 7%nat wrong_first_frame).

(** The first client after the handshake, about to send DISCONNECT. *)
Definition leaving : GameServer.World :=
  Eval vm_compute in
  fst (snd (GameServer.authenticate toy_loads 7%nat
              ((fresh_server, wire [one_byte_frame x01; one_byte_frame x05]),
               None))).

Definition after_goodbye : Env :=
  Eval vm_compute in
  snd (GameProtocol.receive_message toy_loads 7%nat (snd leaving)).

(** [same_roster w w']: the same players are registered, in the same
    order; the id counter and the running flag are the same. *)
Definition same_roster (w w' : GameServer.World) : Prop :=
  dict_keys (GameServer.players (fst w'))
  = dict_keys (GameServer.players (fst w)) /\
  GameServer.player_counter (fst w') = GameServer.player_counter (fst w) /\
  GameServer.running (fst w') = GameServer.running (fst w).

(** The world of the first client before the handshake. *)
Definition arriving : GameServer.World :=
  (fresh_server, wire [one_byte_frame x01; one_byte_frame x05]).

(** A room for four with its four members. *)
Definition packed_room : GameRoom.t :=
  Eval vm_compute in
  fst (fold_left (fun st g => snd (GameRoom.add_player (fst g) (snd g) st))
         (map guest (seq 1 4)) (arena, quiet)).

(** A server on which that room is registered. *)
Definition packed_server : GameServer.t :=
  Eval vm_compute in
  GameServer.set_player_counter 4
    (GameServer.set_room_counter 1
       (GameServer.set_players
          (map (fun n => (fst (guest n),
                          GameServer.mkPlayer (GameRoom.username (snd (guest n)))
                            n (Some "room_1")))
               (seq 1 4))
          (GameServer.set_rooms
             (dict_set (GameServer.rooms fresh_server) "room_1" packed_room)
             fresh_server))).

(** A decoder for a client who signs in and asks for the full room. *)
Definition join_loads (bytes : list Byte.byte) : option (dict pyval) :=
  match bytes with
  | [x01] => Some (envelope "auth" (PStr "ann"))
  | [x06] => Some (envelope "join_room" (PStr "room_1"))
  | _ => None
  end.

(** A client who signs in and asks twice for the full room. *)
Definition knocking : GameServer.World :=
  (packed_server,
   wire [one_byte_frame x01; one_byte_frame x06; one_byte_frame x06]).

(** The world once that client has signed in. *)
Definition knocking_in_lobby : GameServer.World :=
  Eval vm_compute in
  fst (snd (GameServer.authenticate join_loads 7%nat (knocking, None))).

(** The world when the second request has raised. *)
Definition knocked_twice : GameServer.World :=
  Eval vm_compute in
  snd (GameServer.receive_loop join_loads 2 "player_5" 7%nat knocking_in_lobby).

(** A room in good order: at most [max_players] members, no member
    twice, a creator exactly when there are members and then one of
    them; and an engine that matches: one snake per member, in the
    order of the members, each with cells, on the 40 by 30 grid. *)
Definition room_ok (r : GameRoom.t) : Prop := room_inv r /\ room_sound r.

(** Every room of the server, the lobby included, is in good order. *)
Definition rooms_ok (s : GameServer.t) : Prop :=
  room_ok (GameServer.lobby_room s) /\
  Forall (fun entry => room_ok (snd entry)) (GameServer.rooms s).

(** A computation on a room, or on the server, that leaves good order
    in place, whatever it returns or raises. *)
Definition room_respects (s s' : GameRoom.st) : Prop :=
  room_ok (fst s) -> room_ok (fst s').

Definition server_respects (w w' : GameServer.World) : Prop :=
  rooms_ok (fst w) -> rooms_ok (fst w').

(** The same for the state of a session. *)
Definition session_respects (ss ss' : GameServer.session) : Prop :=
  rooms_ok (fst (fst ss)) -> rooms_ok (fst (fst ss')).

(** The id the next new room gets. *)
Definition next_room_id (s : GameServer.t) : string :=
  ("room_" ++ GameServer.decimal (S (GameServer.room_counter s)))%string.

(** The directory entry of [p] once recorded in room [rid]. *)
Definition placed (p : GameServer.player) (rid : string) : GameServer.player :=
  GameServer.mkPlayer (GameServer.username p) (GameServer.socket p) (Some rid).

(** What a room stores about the player [p]. *)
Definition info_of (p : GameServer.player) : GameRoom.player_info :=
  GameRoom.mkInfo (GameServer.username p) (GameServer.socket p).

(** The record of the first client while in the lobby. *)
Definition ann_in_lobby : GameServer.player :=
  Eval vm_compute in
  match dict_get (GameServer.players (fst greeted)) "player_1" with
  | Some p => p
  | None => GameServer.mkPlayer "" 0%nat None
  end.

(** A decoder for a second client, who signs in as bob. *)
Definition bob_loads (bytes : list Byte.byte) : option (dict pyval) :=
  Some (envelope "auth" (PStr "bob")).

(** The world once the first client has a room of their own and a
    second client, on socket 8, has signed in. *)
Definition with_guest : GameServer.World :=
  Eval vm_compute in
  fst (snd (GameServer.authenticate bob_loads 8%nat
              ((fst in_own_room,
                set_net 8%nat [one_byte_frame x01] (snd in_own_room)),
               None))).

(** The record of the second client while in the lobby. *)
Definition bob_in_lobby : GameServer.player :=
  Eval vm_compute in
  match dict_get (GameServer.players (fst with_guest)) "player_2" with
  | Some p => p
  | None => GameServer.mkPlayer "" 0%nat None
  end.

(** The room of the first client before anyone joins. *)
Definition ann_idle_room : GameRoom.t :=
  Eval vm_compute in
  match dict_get (GameServer.rooms (fst with_guest)) "room_1" with
  | Some r => r
  | None => blank_room
  end.

(** * Lemmas and theorems *)

(** ** The snake *)

Lemma length_removelast_cons (A : Type) (a : A) (l : list A) :
  List.length (removelast (a :: l)) = List.length l.
Proof.
  revert a. induction l as [|b l IH]; intros a; [reflexivity|].
  change (removelast (a :: b :: l)) with (a :: removelast (b :: l)).
  cbn [List.length]. now rewrite IH.
Qed.

Lemma two_cells_long n : (1 <? Z.of_nat (S (S n))) = true.
Proof. apply Z.ltb_lt. lia. Qed.

Lemma deltas_pair d : Snake.deltas d = (fst (Snake.deltas d), snd (Snake.deltas d)).
Proof. now destruct (Snake.deltas d). Qed.

(** What a valid move does, as one equation. *)
Lemma move_valid grid food s nh :
  Snake.alive s = true ->
  next_head s = Some nh ->
  Snake.out_of_grid grid nh = false ->
  cell_in nh (Snake.body s) = false ->
  Snake.move grid food s =
    if has_food food nh
    then (Ok true,
          Snake.mk (Snake.player_id s) (nh :: Snake.body s)
            (Snake.next_direction s) (Snake.next_direction s) true
            (Snake.score s + 10) (Snake.color s)
            (hd nh (Snake.body s)))
    else (Ok false,
          Snake.mk (Snake.player_id s) (removelast (nh :: Snake.body s))
            (Snake.next_direction s) (Snake.next_direction s) true
            (Snake.score s) (Snake.color s)
            (hd nh (Snake.body s))).
Proof.
  destruct s as [pid body dir nd al sc col ph]; cbn.
  intros -> Hnh Hgrid Hself.
  unfold next_head in Hnh; cbn in Hnh.
  destruct body as [|[hx hy] tl]; [discriminate|].
  injection Hnh as <-.
  unfold Snake.move, bind, get, modify, Snake.head, ret, when; cbn.
  rewrite (deltas_pair nd); cbn.
  rewrite Hgrid. cbn in Hself. rewrite Hself.
  unfold has_food.
  destruct (_ && _); [reflexivity|].
  cbn [Snake.body Snake.set_body Snake.set_dir Snake.set_prev_head List.length].
  rewrite two_cells_long. reflexivity.
Qed.

Lemma has_food_in food c : has_food food c = cell_in c food.
Proof. now destruct food. Qed.

Lemma move_dead grid food s :
  Snake.alive s = false -> Snake.move grid food s = (Ok false, s).
Proof.
  intros H. unfold Snake.move, bind, get. cbn. now rewrite H.
Qed.

Lemma move_no_body grid food s :
  Snake.alive s = true -> Snake.body s = [] ->
  Snake.move grid food s = (Raise IndexError, s).
Proof.
  intros Ha Hb. unfold Snake.move, bind, get, Snake.head. cbn.
  rewrite Ha. cbn. now rewrite Hb.
Qed.

(** An invalid move: the snake dies and its cells stay. *)
Lemma move_invalid grid food s nh :
  Snake.alive s = true ->
  next_head s = Some nh ->
  Snake.out_of_grid grid nh || cell_in nh (Snake.body s) = true ->
  Snake.move grid food s =
    (Ok false,
     Snake.mk (Snake.player_id s) (Snake.body s)
       (Snake.next_direction s) (Snake.next_direction s) false
       (Snake.score s) (Snake.color s) (hd nh (Snake.body s))).
Proof.
  destruct s as [pid body dir nd al sc col ph]; cbn.
  intros -> Hnh Hbad.
  unfold next_head in Hnh; cbn in Hnh.
  destruct body as [|[hx hy] tl]; [discriminate|].
  injection Hnh as <-.
  unfold Snake.move, bind, get, modify, Snake.head, ret, when; cbn.
  rewrite (deltas_pair nd); cbn.
  destruct (Snake.out_of_grid _ _); [reflexivity|].
  cbn in Hbad. now rewrite Hbad.
Qed.

Lemma next_head_some s :
  Snake.body s <> [] -> exists nh, next_head s = Some nh.
Proof.
  unfold next_head. destruct (Snake.body s) as [|[x y] tl]; [easy|].
  intros _. eauto.
Qed.

(** [move] never shortens a body. *)
Lemma move_length grid food s :
  (List.length (Snake.body s)
   <= List.length (Snake.body (snd (Snake.move grid food s))))%nat.
Proof.
  destruct (Snake.alive s) eqn:Ha.
  2:{ rewrite move_dead by assumption. apply Nat.le_refl. }
  destruct (Snake.body s) as [|c tl] eqn:Hb.
  { rewrite move_no_body by assumption. cbn. rewrite Hb. apply Nat.le_refl. }
  destruct (next_head_some s) as [nh Hnh]; [now rewrite Hb|].
  destruct (Snake.out_of_grid grid nh || cell_in nh (Snake.body s)) eqn:Hbad.
  - rewrite (move_invalid grid food s nh Ha Hnh Hbad). cbn. rewrite Hb. apply Nat.le_refl.
  - apply orb_false_elim in Hbad as [Hg Hs].
    rewrite (move_valid grid food s nh Ha Hnh Hg Hs).
    destruct (has_food food nh); cbn [snd Snake.body].
    + rewrite Hb. cbn. lia.
    + rewrite length_removelast_cons, Hb. apply Nat.le_refl.
Qed.

(** C8.  A living snake that makes a valid move onto a food cell grows by
    exactly one cell and scores 10 in that move; a valid move onto a cell
    without food keeps the length and the score; and no move, valid or
    not, ever shortens a body. *)
Theorem growth_invariant :
  (forall grid food s nh,
      Snake.alive s = true ->
      next_head s = Some nh ->
      Snake.out_of_grid grid nh = false ->
      cell_in nh (Snake.body s) = false ->
      let r := Snake.move grid food s in
      Snake.alive (snd r) = true /\
      hd_error (Snake.body (snd r)) = Some nh /\
      (cell_in nh food = true ->
       fst r = Ok true /\
       List.length (Snake.body (snd r)) = S (List.length (Snake.body s)) /\
       Snake.score (snd r) = Snake.score s + 10) /\
      (cell_in nh food = false ->
       fst r = Ok false /\
       List.length (Snake.body (snd r)) = List.length (Snake.body s) /\
       Snake.score (snd r) = Snake.score s)) /\
  (forall grid food s,
      (List.length (Snake.body s)
       <= List.length (Snake.body (snd (Snake.move grid food s))))%nat).
Proof.
  split; [|exact move_length].
  intros grid food s nh Ha Hnh Hg Hs r. subst r.
  rewrite (move_valid grid food s nh Ha Hnh Hg Hs), has_food_in.
  destruct (cell_in nh food); cbn.
  - repeat split; congruence.
  - assert (Hb : Snake.body s <> []).
    { unfold next_head in Hnh. now destruct (Snake.body s). }
    destruct (Snake.body s) as [|c tl] eqn:E; [easy|].
    repeat split; try congruence.
    cbn [List.length]. f_equal.
    change (match tl with [] => [] | _ :: _ => c :: removelast tl end)
      with (removelast (c :: tl)).
    apply length_removelast_cons.
Qed.

Lemma growth_invariant_witness :
  let r := Snake.move (40, 30) [(6, 5)] crawler in
  Snake.alive (snd r) = true /\
  hd_error (Snake.body (snd r)) = Some (6, 5) /\
  (cell_in (6, 5) [(6, 5)] = true ->
   fst r = Ok true /\
   List.length (Snake.body (snd r)) = S (List.length (Snake.body crawler)) /\
   Snake.score (snd r) = Snake.score crawler + 10) /\
  (cell_in (6, 5) [(6, 5)] = false ->
   fst r = Ok false /\
   List.length (Snake.body (snd r)) = List.length (Snake.body crawler) /\
   Snake.score (snd r) = Snake.score crawler).
Proof.
  apply (proj1 growth_invariant (40, 30) [(6, 5)] crawler (6, 5));
    reflexivity.
Defined.

(** ** The collision pass *)

Lemma set_alive_same s : Snake.set_alive (Snake.alive s) s = s.
Proof. now destruct s. Qed.

Lemma fades_refl s : fades s s.
Proof. split; [symmetry; apply set_alive_same | auto]. Qed.

Lemma fades_dead s : fades s (dead s).
Proof. split; [reflexivity | discriminate]. Qed.

Lemma fades_trans a b c : fades a b -> fades b c -> fades a c.
Proof.
  intros [Hb Hab] [Hc Hbc]. split; [|auto].
  rewrite Hc, Hb. now destruct a.
Qed.

Lemma fades_body s s' : fades s s' -> Snake.body s' = Snake.body s.
Proof. intros [-> _]. reflexivity. Qed.

Lemma fades_prev_head s s' : fades s s' -> Snake.prev_head s' = Snake.prev_head s.
Proof. intros [-> _]. reflexivity. Qed.

Lemma fades_has_body s s' : fades s s' -> has_body s -> has_body s'.
Proof. unfold has_body. intros H. now rewrite (fades_body _ _ H). Qed.

Lemma fades_stays_dead s s' :
  fades s s' -> Snake.alive s = false -> Snake.alive s' = false.
Proof.
  intros [_ H] Hd. destruct (Snake.alive s'); [|reflexivity].
  rewrite H in Hd; [discriminate | reflexivity].
Qed.

Lemma swapped_fades a a' b b' :
  fades a a' -> fades b b' -> swapped a' b' -> swapped a b.
Proof.
  intros Ha Hb (ha & hb & H1 & H2 & H3 & H4).
  rewrite (fades_body _ _ Ha) in H1. rewrite (fades_body _ _ Hb) in H2.
  rewrite (fades_prev_head _ _ Ha) in H3. rewrite (fades_prev_head _ _ Hb) in H4.
  now exists ha, hb.
Qed.

Lemma fades_swapped a a' b b' :
  fades a a' -> fades b b' -> swapped a b -> swapped a' b'.
Proof.
  intros Ha Hb (ha & hb & H1 & H2 & H3 & H4).
  exists ha, hb.
  rewrite (fades_body _ _ Ha), (fades_body _ _ Hb),
    (fades_prev_head _ _ Ha), (fades_prev_head _ _ Hb). auto.
Qed.

Lemma swapped_sym a b : swapped a b -> swapped b a.
Proof. intros (ha & hb & H1 & H2 & H3 & H4). now exists hb, ha. Qed.

(** One call of [check_collision_with_other], by cases. *)
Lemma check_skips a b :
  Snake.alive a && Snake.alive b = false ->
  Snake.check_collision_with_other (a, b) = (Ok false, (a, b)).
Proof.
  intros H. unfold Snake.check_collision_with_other, bind, get. cbn.
  destruct (Snake.alive a), (Snake.alive b); try discriminate; reflexivity.
Qed.

Lemma check_alive a b ha ta hb tb :
  Snake.alive a = true -> Snake.alive b = true ->
  Snake.body a = ha :: ta -> Snake.body b = hb :: tb ->
  Snake.check_collision_with_other (a, b) =
    if cell_eqb ha hb then (Ok true, (dead a, dead b))
    else if cell_eqb (Snake.prev_head a) hb && cell_eqb (Snake.prev_head b) ha
         then (Ok true, (dead a, dead b))
    else if cell_in ha (Snake.body b) then (Ok true, (dead a, b))
    else (Ok false, (a, b)).
Proof.
  intros Ha Hb Ba Bb.
  unfold Snake.check_collision_with_other, bind, get, zoom, Snake.head, put, ret.
  cbn. rewrite Ha, Hb. cbn. rewrite Ba. cbn. rewrite Bb. cbn.
  destruct (cell_eqb ha hb); [reflexivity|].
  destruct (_ && _); [reflexivity|].
  destruct (_ || _); reflexivity.
Qed.

(** A check never raises on snakes with cells, only clears alive flags,
    and leaves no head-swapped pair alive. *)
Lemma check_fades a b :
  has_body a -> has_body b ->
  exists r a' b',
    Snake.check_collision_with_other (a, b) = (Ok r, (a', b')) /\
    fades a a' /\ fades b b' /\
    (swapped a b -> Snake.alive a' = false \/ Snake.alive b' = false).
Proof.
  intros Ba Bb.
  destruct (Snake.alive a && Snake.alive b) eqn:E.
  - apply andb_prop in E as [Ha Hb].
    destruct (Snake.body a) as [|ha ta] eqn:Ea; [easy|].
    destruct (Snake.body b) as [|hb tb] eqn:Eb; [easy|].
    rewrite (check_alive a b ha ta hb tb Ha Hb Ea Eb).
    destruct (cell_eqb ha hb).
    { exists true, (dead a), (dead b).
      split; [reflexivity|]. split; [apply fades_dead|].
      split; [apply fades_dead|]. now left. }
    destruct (cell_eqb (Snake.prev_head a) hb && cell_eqb (Snake.prev_head b) ha)
      eqn:Es.
    { exists true, (dead a), (dead b).
      split; [reflexivity|]. split; [apply fades_dead|].
      split; [apply fades_dead|]. now left. }
    assert (Hns : ~ swapped a b).
    { intros (xa & xb & H1 & H2 & H3 & H4).
      rewrite Ea in H1. rewrite Eb in H2. cbn in H1, H2.
      injection H1 as <-. injection H2 as <-.
      rewrite H3, H4 in Es. discriminate. }
    destruct (cell_in ha (Snake.body b)).
    + exists true, (dead a), b.
      split; [reflexivity|]. split; [apply fades_dead|].
      split; [apply fades_refl|]. now left.
    + exists false, a, b.
      split; [reflexivity|]. split; [apply fades_refl|].
      split; [apply fades_refl|]. intros H. now destruct (Hns H).
  - rewrite (check_skips a b E). exists false, a, b.
    split; [reflexivity|]. split; [apply fades_refl|].
    split; [apply fades_refl|].
    intros _. apply andb_false_iff in E. tauto.
Qed.

(** The inner loop for one [i]. *)
Lemma collide_row_fades s others :
  has_body s -> Forall has_body others ->
  exists s' others',
    GameState.collide_row s others = (Ok tt, (s', others')) /\
    fades s s' /\
    Forall2 (fun o o' =>
               fades o o' /\
               (swapped s o ->
                Snake.alive s' = false \/ Snake.alive o' = false))
            others others'.
Proof.
  intros Hs Ho. revert s Hs.
  induction Ho as [|o rest Hob Hrest IH]; intros s Hs.
  - exists s, []. cbn. auto using fades_refl.
  - cbn [GameState.collide_row].
    destruct (check_fades s o Hs Hob) as (r1 & s1 & o1 & E1 & Fs1 & Fo1 & K1).
    rewrite E1.
    destruct (check_fades o1 s1 (fades_has_body _ _ Fo1 Hob)
                (fades_has_body _ _ Fs1 Hs))
      as (r2 & o2 & s2 & E2 & Fo2 & Fs2 & K2).
    rewrite E2.
    destruct (IH s2 (fades_has_body _ _ Fs2 (fades_has_body _ _ Fs1 Hs)))
      as (s3 & rest' & E3 & Fs3 & Frest).
    rewrite E3. exists s3, (o2 :: rest').
    split; [reflexivity|].
    assert (F12 : fades s s2) by eauto using fades_trans.
    split; [eauto using fades_trans|].
    constructor.
    + split; [eauto using fades_trans|].
      intros Hsw. destruct (K1 Hsw) as [D|D].
      * left. eauto using fades_stays_dead.
      * right. eauto using fades_stays_dead.
    + eapply Forall2_impl; [|exact Frest].
      cbn. intros x y [Fxy K]. split; [assumption|].
      intros Hsw. apply K.
      apply (fades_swapped s s2 x x); auto using fades_refl.
Qed.

Lemma Forall2_fades_has_body l l' :
  Forall2 (fun o o' => fades o o') l l' -> Forall has_body l -> Forall has_body l'.
Proof.
  induction 1; intros Hl; [constructor|].
  inversion Hl; subst. constructor; eauto using fades_has_body.
Qed.

(** The whole pass: no exception on snakes with cells, every snake only
    fades, and no head-swapped pair survives together. *)
Lemma resolve_from_fades n l :
  Forall has_body l ->
  exists l',
    GameState.resolve_from n l = (Ok tt, l') /\
    Forall2 fades l l' /\
    (n = List.length l ->
     ForallOrdPairs
       (fun a b => swapped a b ->
                   Snake.alive a = false \/ Snake.alive b = false) l').
Proof.
  revert l. induction n as [|n IH]; intros l Hl.
  - exists l. split; [now destruct l|]. split.
    + clear Hl. induction l; constructor; auto using fades_refl.
    + intros E. destruct l; [constructor | discriminate].
  - destruct l as [|s rest].
    { exists []. cbn. repeat split; try constructor. }
    inversion Hl as [|? ? Hs Hrest]; subst.
    cbn [GameState.resolve_from].
    destruct (collide_row_fades s rest Hs Hrest) as (s' & rest' & E & Fs & Fr).
    rewrite E.
    assert (Fr' : Forall2 fades rest rest').
    { eapply Forall2_impl; [|exact Fr]. cbn. tauto. }
    destruct (IH rest' (Forall2_fades_has_body _ _ Fr' Hrest))
      as (rest'' & E' & Fr'' & P).
    rewrite E'. exists (s' :: rest''). split; [reflexivity|]. split.
    + constructor; [assumption|].
      clear - Fr' Fr''. revert rest'' Fr''.
      induction Fr'; intros rest'' Fr''; inversion Fr''; subst; constructor;
        eauto using fades_trans.
    + intros Hn. injection Hn as Hn.
      constructor.
      * clear - Fr Fr'' Fs.
        revert rest'' Fr''.
        induction Fr as [|o o' rest rest' [Fo K] Fr IHr]; intros rest'' Fr'';
          inversion Fr''; subst; constructor; auto.
        intros Hsw.
        assert (Hsw0 : swapped s o).
        { apply (swapped_fades s s' o y); eauto using fades_trans. }
        destruct (K Hsw0) as [D|D]; [now left|].
        right. eauto using fades_stays_dead.
      * apply P. rewrite Hn.
        clear - Fr'. induction Fr'; cbn; congruence.
Qed.

Lemma resolve_collisions_fades l :
  Forall has_body l ->
  exists l',
    GameState.resolve_collisions l = (Ok tt, l') /\
    Forall2 fades l l' /\
    ForallOrdPairs
      (fun a b => swapped a b ->
                  Snake.alive a = false \/ Snake.alive b = false) l'.
Proof.
  intros Hl. unfold GameState.resolve_collisions.
  destruct (resolve_from_fades (List.length l) l Hl) as (l' & E & F & P).
  exists l'. auto.
Qed.

Lemma Forall2_nth_error (A : Type) (R : A -> A -> Prop) l l' i a a' :
  Forall2 R l l' -> nth_error l i = Some a -> nth_error l' i = Some a' ->
  R a a'.
Proof.
  intros F. revert i. induction F as [|x y l l' Rxy F IH]; intros [|i]; cbn;
    try discriminate.
  - now intros [= <-] [= <-].
  - apply IH.
Qed.

Lemma ForallOrdPairs_nth_error (A : Type) (R : A -> A -> Prop) l i j a b :
  ForallOrdPairs R l -> (i < j)%nat ->
  nth_error l i = Some a -> nth_error l j = Some b -> R a b.
Proof.
  intros F. revert i j. induction F as [|x l Hx F IH]; intros i j Hij Hi Hj.
  - now destruct i.
  - destruct j as [|j]; [lia|]. cbn in Hj.
    destruct i as [|i]; cbn in Hi.
    + injection Hi as <-. rewrite Forall_forall in Hx.
      apply Hx. eapply nth_error_In; eassumption.
    + apply (IH i j); [lia | assumption | assumption].
Qed.

(** *** Fixtures: two snakes that run into each other's tails *)

(** C4, as stated, fails: the same two snakes, both alive after valid
    moves, leave a different survivor when the pairs are evaluated in the
    other order. *)
Lemma collision_order_changes_survivor :
  Permutation (GameState.snakes duel_12) (GameState.snakes duel_21) /\
  fst (GameState.move_snakes duel_12) = Ok [false; false] /\
  alive_ids (snd (GameState.move_snakes duel_12)) = ["player_1"; "player_2"] /\
  (exists g, GameState.update_movement (duel_12, no_draws)
             = (Ok tt, (g, no_draws)) /\ alive_ids g = ["player_2"]) /\
  (exists g, GameState.update_movement (duel_21, no_draws)
             = (Ok tt, (g, no_draws)) /\ alive_ids g = ["player_1"]).
Proof.
  split; [apply perm_swap|].
  split; [reflexivity|]. split; [reflexivity|].
  split; eexists; split; reflexivity.
Qed.

(** C4 (amended).  On snakes that have cells the pass raises nothing, and
    each snake leaves it as it entered except, at most, for a cleared
    alive flag: cells, previous head, score and directions are untouched
    and no dead snake comes back. *)
Theorem collision_pass_only_clears_alive (l : list Snake.t) :
  Forall has_body l ->
  exists l',
    GameState.resolve_collisions l = (Ok tt, l') /\
    Forall2 (fun s s' =>
               s' = Snake.set_alive (Snake.alive s') s /\
               Snake.body s' = Snake.body s /\
               (Snake.alive s' = true -> Snake.alive s = true)) l l'.
Proof.
  intros Hl.
  destruct (resolve_collisions_fades l Hl) as (l' & E & F & _).
  exists l'. split; [assumption|].
  eapply Forall2_impl; [|exact F].
  intros s s' Hf. split; [apply Hf|].
  split; [now apply fades_body | apply Hf].
Qed.

Lemma collision_pass_only_clears_alive_witness :
  exists l',
    GameState.resolve_collisions
      (dict_values (GameState.snakes (snd (GameState.move_snakes duel_12))))
    = (Ok tt, l') /\
    Forall2 (fun s s' =>
               s' = Snake.set_alive (Snake.alive s') s /\
               Snake.body s' = Snake.body s /\
               (Snake.alive s' = true -> Snake.alive s = true))
      (dict_values (GameState.snakes (snd (GameState.move_snakes duel_12))))
      l'.
Proof.
  apply (collision_pass_only_clears_alive
           (dict_values (GameState.snakes (snd (GameState.move_snakes duel_12))))).
  repeat constructor; discriminate.
Defined.

(** *** Fixtures: a head swap next to a third snake *)

(** C5, as stated, fails: players 1 and 3 swap heads after valid moves,
    but player 2 reaches the same cell as player 1; their head-on
    collision is evaluated first, it kills player 1, and the swap partner,
    player 3, is then skipped and survives. *)
Lemma head_swap_single_survivor :
  exists moved after a b,
    GameState.move_snakes trio = (Ok [false; false; false], moved) /\
    dict_get (GameState.snakes moved) "player_1" = Some a /\
    dict_get (GameState.snakes moved) "player_3" = Some b /\
    Snake.alive a = true /\ Snake.alive b = true /\ swapped a b /\
    GameState.update_movement (trio, no_draws) = (Ok tt, (after, no_draws)) /\
    alive_ids after = ["player_3"].
Proof.
  do 4 eexists.
  split; [reflexivity|]. split; [reflexivity|]. split; [reflexivity|].
  split; [reflexivity|]. split; [reflexivity|].
  split; [|split; reflexivity].
  exists (6, 5), (5, 5). repeat split.
Qed.

Lemma swapped_has_body a b : swapped a b -> has_body a /\ has_body b.
Proof.
  intros (ha & hb & H1 & H2 & _). unfold has_body.
  destruct (Snake.body a), (Snake.body b); try discriminate. split; discriminate.
Qed.

Lemma check_swapped a b :
  Snake.alive a = true -> Snake.alive b = true -> swapped a b ->
  Snake.check_collision_with_other (a, b) = (Ok true, (dead a, dead b)).
Proof.
  intros Ha Hb (ha & hb & H1 & H2 & H3 & H4).
  destruct (Snake.body a) as [|xa ta] eqn:Ea; [discriminate|].
  destruct (Snake.body b) as [|xb tb] eqn:Eb; [discriminate|].
  cbn in H1, H2. injection H1 as ->. injection H2 as ->.
  rewrite (check_alive a b ha ta hb tb Ha Hb Ea Eb), H3, H4.
  now destruct (cell_eqb ha hb).
Qed.

(** *** The pass, one pair at a time *)

Lemma set_nth_length i x l : List.length (set_nth i x l) = List.length l.
Proof.
  revert i. induction l as [|y l IH]; intros [|i]; cbn; auto.
Qed.

Lemma set_nth_same i x l :
  (i < List.length l)%nat -> nth_error (set_nth i x l) i = Some x.
Proof.
  revert i. induction l as [|y l IH]; intros [|i] H; cbn in *; try lia; auto.
  apply IH. lia.
Qed.

Lemma set_nth_other i k x l :
  k <> i -> nth_error (set_nth i x l) k = nth_error l k.
Proof.
  revert i k. induction l as [|y l IH]; intros [|i] [|k] H; cbn; auto.
  congruence.
Qed.

Lemma set_nth_app pre x y tl :
  set_nth (List.length pre) x (pre ++ y :: tl) = pre ++ x :: tl.
Proof. induction pre as [|z pre IH]; cbn; [reflexivity | now rewrite IH]. Qed.

Lemma set_nth_app_right pre m x l :
  set_nth (List.length pre + m) x (pre ++ l) = pre ++ set_nth m x l.
Proof.
  induction pre as [|z pre IH]; cbn; [reflexivity | now rewrite IH].
Qed.

Lemma nth_error_mid (pre : list Snake.t) x tl :
  nth_error (pre ++ x :: tl) (List.length pre) = Some x.
Proof. induction pre; cbn; auto. Qed.

Lemma Forall2_fades_refl l : Forall2 fades l l.
Proof. induction l; constructor; auto using fades_refl. Qed.

Lemma Forall2_fades_trans l1 l2 l3 :
  Forall2 fades l1 l2 -> Forall2 fades l2 l3 -> Forall2 fades l1 l3.
Proof.
  intros F. revert l3. induction F; intros l3 G; inversion G; subst;
    constructor; eauto using fades_trans.
Qed.

Lemma Forall2_fades_set_nth l i a a' :
  nth_error l i = Some a -> fades a a' -> Forall2 fades l (set_nth i a' l).
Proof.
  revert i. induction l as [|y l IH]; intros [|i]; cbn; try discriminate.
  - intros [= ->] F. constructor; [assumption | apply Forall2_fades_refl].
  - intros H F. constructor; [apply fades_refl | now apply IH].
Qed.

Lemma Forall2_fades_length l l' :
  Forall2 fades l l' -> List.length l' = List.length l.
Proof. induction 1; cbn; congruence. Qed.

Lemma Forall2_fades_nth l l' i a :
  Forall2 fades l l' -> nth_error l i = Some a ->
  exists a', nth_error l' i = Some a' /\ fades a a'.
Proof.
  intros F. revert i. induction F as [|x y l l' Rxy F IH]; intros [|i]; cbn;
    try discriminate.
  - intros [= <-]. eauto.
  - apply IH.
Qed.

Lemma has_body_nth l i a : Forall has_body l -> nth_error l i = Some a -> has_body a.
Proof.
  intros F H. apply nth_error_In in H. rewrite Forall_forall in F. auto.
Qed.

(** One pair: no exception on snakes with cells, only the two snakes of
    the pair can change, and they only fade. *)
Lemma collide_pair_fades p l a b :
  Forall has_body l -> fst p <> snd p ->
  nth_error l (fst p) = Some a -> nth_error l (snd p) = Some b ->
  exists a' b',
    collide_pair p l = (Ok tt, set_nth (snd p) b' (set_nth (fst p) a' l)) /\
    fades a a' /\ fades b b' /\
    (Snake.alive a = true -> Snake.alive b = true -> swapped a b ->
     Snake.alive a' = false /\ Snake.alive b' = false).
Proof.
  intros Hl Hne Ha Hb. unfold collide_pair. rewrite Ha, Hb.
  assert (Ba := has_body_nth _ _ _ Hl Ha).
  assert (Bb := has_body_nth _ _ _ Hl Hb).
  destruct (check_fades a b Ba Bb) as (r1 & a1 & b1 & E1 & Fa1 & Fb1 & _).
  destruct (check_fades b1 a1 (fades_has_body _ _ Fb1 Bb)
              (fades_has_body _ _ Fa1 Ba))
    as (r2 & b2 & a2 & E2 & Fb2 & Fa2 & _).
  rewrite E1, E2. exists a2, b2.
  split; [reflexivity|].
  split; [eauto using fades_trans|]. split; [eauto using fades_trans|].
  intros Aa Ab Hsw. rewrite (check_swapped a b Aa Ab Hsw) in E1.
  injection E1 as _ <- <-.
  split; eapply fades_stays_dead; try eassumption; reflexivity.
Qed.

Lemma collide_pair_frame p l a b :
  Forall has_body l -> fst p <> snd p ->
  nth_error l (fst p) = Some a -> nth_error l (snd p) = Some b ->
  exists l1,
    collide_pair p l = (Ok tt, l1) /\ Forall2 fades l l1 /\
    (forall k, k <> fst p -> k <> snd p -> nth_error l1 k = nth_error l k) /\
    (Snake.alive a = true -> Snake.alive b = true -> swapped a b ->
     exists a' b',
       nth_error l1 (fst p) = Some a' /\ nth_error l1 (snd p) = Some b' /\
       Snake.alive a' = false /\ Snake.alive b' = false).
Proof.
  intros Hl Hne Ha Hb.
  destruct (collide_pair_fades p l a b Hl Hne Ha Hb)
    as (a' & b' & E & Fa & Fb & K).
  eexists. split; [exact E|].
  assert (Li : (fst p < List.length l)%nat)
    by (apply nth_error_Some; congruence).
  assert (Lj : (snd p < List.length l)%nat)
    by (apply nth_error_Some; congruence).
  split.
  { eapply Forall2_fades_trans.
    - apply (Forall2_fades_set_nth l (fst p) a a'); assumption.
    - apply (Forall2_fades_set_nth _ (snd p) b b'); [|assumption].
      rewrite set_nth_other by auto. assumption. }
  split.
  { intros k H1 H2. now rewrite !set_nth_other by auto. }
  intros Aa Ab Hsw. destruct (K Aa Ab Hsw) as [Da Db].
  exists a', b'. split.
  - rewrite set_nth_other by auto. now apply set_nth_same.
  - split; [|auto]. apply set_nth_same. now rewrite set_nth_length.
Qed.

Lemma run_pairs_app ps1 ps2 l :
  run_pairs (ps1 ++ ps2) l
  = match run_pairs ps1 l with
    | (Ok _, l1) => run_pairs ps2 l1
    | (Raise e, l1) => (Raise e, l1)
    end.
Proof.
  revert l. induction ps1 as [|p ps1 IH]; intros l; cbn; [reflexivity|].
  destruct (collide_pair p l) as [[u|e] l1]; [apply IH | reflexivity].
Qed.

Lemma pass_pairs_spec n x y :
  In (x, y) (pass_pairs n) <-> (x < y)%nat /\ (y < n)%nat.
Proof.
  unfold pass_pairs. rewrite in_flat_map. split.
  - intros (i & Hi & H). apply in_map_iff in H as (j & [= <- <-] & Hj).
    apply in_seq in Hi, Hj. lia.
  - intros [H1 H2]. exists x. split; [apply in_seq; lia|].
    apply in_map_iff. exists y. split; [reflexivity | apply in_seq; lia].
Qed.

Lemma run_pairs_fades n ps :
  Forall (in_range n) ps ->
  forall l, List.length l = n -> Forall has_body l ->
  exists l', run_pairs ps l = (Ok tt, l') /\ Forall2 fades l l'.
Proof.
  induction 1 as [|p ps [H1 H2] Hps IH]; intros l Hn Hl.
  - exists l. split; [reflexivity | apply Forall2_fades_refl].
  - cbn [run_pairs].
    destruct (nth_error l (fst p)) as [a|] eqn:Ea;
      [|apply nth_error_None in Ea; lia].
    destruct (nth_error l (snd p)) as [b|] eqn:Eb;
      [|apply nth_error_None in Eb; lia].
    destruct (collide_pair_frame p l a b Hl ltac:(lia) Ea Eb)
      as (l1 & E & F & _).
    rewrite E.
    destruct (IH l1) as (l' & E' & F').
    + rewrite (Forall2_fades_length _ _ F). exact Hn.
    + eapply Forall2_fades_has_body; eassumption.
    + exists l'. split; [exact E' | eapply Forall2_fades_trans; eassumption].
Qed.

Lemma pass_pairs_in_range n : Forall (in_range n) (pass_pairs n).
Proof.
  apply Forall_forall. intros [x y] H. apply pass_pairs_spec in H. exact H.
Qed.

(** *** The pass is the evaluation of its pairs *)

Lemma row_run rest :
  forall s pre done,
    has_body s -> Forall has_body rest ->
    exists s' rest',
      GameState.collide_row s rest = (Ok tt, (s', rest')) /\
      Forall2 fades rest rest' /\ has_body s' /\
      run_pairs (map (fun j => (List.length pre, j))
                     (seq (S (List.length pre) + List.length done)
                          (List.length rest)))
                (pre ++ s :: done ++ rest)
      = (Ok tt, pre ++ s' :: done ++ rest').
Proof.
  induction rest as [|o rest IH]; intros s pre done Hs Hrest.
  - exists s, []. cbn. repeat split; auto.
  - inversion Hrest as [|? ? Ho Hrest']; subst.
    assert (Hj : nth_error (pre ++ s :: done ++ o :: rest)
                   (S (List.length pre) + List.length done) = Some o).
    { replace (pre ++ s :: done ++ o :: rest)
        with ((pre ++ s :: done) ++ o :: rest)
        by (rewrite <- app_assoc; reflexivity).
      replace (S (List.length pre) + List.length done)%nat
        with (List.length (pre ++ s :: done))
        by (rewrite length_app; cbn; lia).
      apply nth_error_mid. }
    assert (Hset : forall a3 b2,
               set_nth (S (List.length pre) + List.length done) b2
                 (set_nth (List.length pre) a3
                    (pre ++ s :: done ++ o :: rest))
               = pre ++ a3 :: done ++ b2 :: rest).
    { intros a3 b2. rewrite set_nth_app.
      replace (pre ++ a3 :: done ++ o :: rest)
        with ((pre ++ a3 :: done) ++ o :: rest)
        by (rewrite <- app_assoc; reflexivity).
      replace (S (List.length pre) + List.length done)%nat
        with (List.length (pre ++ a3 :: done))
        by (rewrite length_app; cbn; lia).
      rewrite set_nth_app. rewrite <- app_assoc. reflexivity. }
    cbn [GameState.collide_row List.length seq map run_pairs].
    unfold collide_pair. cbn [fst snd].
    rewrite nth_error_mid, Hj.
    destruct (check_fades s o Hs Ho) as (r1 & s1 & o1 & E1 & Fs1 & Fo1 & _).
    rewrite E1.
    destruct (check_fades o1 s1 (fades_has_body _ _ Fo1 Ho)
                (fades_has_body _ _ Fs1 Hs))
      as (r2 & o2 & s2 & E2 & Fo2 & Fs2 & _).
    rewrite E2, Hset.
    assert (Hs2 : has_body s2) by eauto using fades_has_body.
    destruct (IH s2 pre (done ++ [o2]) Hs2 Hrest')
      as (s3 & rest' & E3 & Fr & Hs3 & R).
    rewrite E3. exists s3, (o2 :: rest').
    split; [reflexivity|].
    split; [constructor; eauto using fades_trans|].
    split; [assumption|].
    rewrite <- !app_assoc in R. cbn [app] in R.
    rewrite <- R. f_equal. f_equal. f_equal.
    rewrite length_app. cbn. lia.
Qed.

Lemma from_run n :
  forall suffix pre,
    List.length suffix = n -> Forall has_body suffix ->
    exists suffix',
      GameState.resolve_from n suffix = (Ok tt, suffix') /\
      run_pairs
        (flat_map (fun i => map (fun j => (i, j))
                              (seq (S i)
                                   (List.length pre + n - S i)))
                  (seq (List.length pre) n))
        (pre ++ suffix)
      = (Ok tt, pre ++ suffix').
Proof.
  induction n as [|n IH]; intros suffix pre Hn Hs.
  - destruct suffix; [|discriminate]. exists []. cbn. auto.
  - destruct suffix as [|s rest]; [discriminate|]. injection Hn as Hn.
    inversion Hs as [|? ? Hs0 Hrest]; subst.
    destruct (row_run rest s pre [] Hs0 Hrest)
      as (s' & rest' & E & Fr & Hs' & R).
    cbn [GameState.resolve_from]. rewrite E.
    assert (Hlen : List.length rest' = List.length rest)
      by (apply Forall2_fades_length; exact Fr).
    destruct (IH rest' (pre ++ [s']) Hlen
                (Forall2_fades_has_body _ _ Fr Hrest))
      as (rest'' & E' & R').
    rewrite E'. exists (s' :: rest''). split; [reflexivity|].
    cbn [seq flat_map]. rewrite run_pairs_app.
    cbn [List.length app] in R. rewrite Nat.add_0_r in R.
    replace (List.length pre + S (List.length rest) - S (List.length pre))%nat
      with (List.length rest) by lia.
    rewrite R.
    rewrite length_app in R'. cbn [List.length] in R'.
    rewrite <- !app_assoc in R'. cbn [app] in R'.
    rewrite <- R'. f_equal.
    + replace (List.length pre + 1)%nat with (S (List.length pre)) by lia.
      apply flat_map_ext. intros i. f_equal. f_equal. lia.
Qed.

Lemma pass_is_run l :
  Forall has_body l ->
  exists l',
    GameState.resolve_collisions l = (Ok tt, l') /\
    run_pairs (pass_pairs (List.length l)) l = (Ok tt, l').
Proof.
  intros Hl.
  destruct (from_run (List.length l) l [] eq_refl Hl) as (l' & E & R).
  exists l'. split; [exact E|]. exact R.
Qed.

Lemma in_split_first (p : nat * nat) ps :
  In p ps -> exists ps1 ps2, ps = ps1 ++ p :: ps2 /\ ~ In p ps1.
Proof.
  induction ps as [|q ps IH]; [intros []|].
  intros H.
  destruct (Nat.eq_dec (fst q) (fst p)) as [E1|N1];
    [destruct (Nat.eq_dec (snd q) (snd p)) as [E2|N2]|].
  - exists [], ps. split; [|intros []].
    destruct p, q; cbn in *; subst; reflexivity.
  - destruct H as [->|H]; [contradiction|].
    destruct (IH H) as (ps1 & ps2 & -> & Hn).
    exists (q :: ps1), ps2. split; [reflexivity|].
    intros [->|K]; [contradiction | auto].
  - destruct H as [->|H]; [contradiction|].
    destruct (IH H) as (ps1 & ps2 & -> & Hn).
    exists (q :: ps1), ps2. split; [reflexivity|].
    intros [->|K]; [contradiction | auto].
Qed.

(** A snake that is dead after some evaluations and was alive before
    them died in one of them, and in one of its own pairs. *)
Lemma first_kill n ps :
  Forall (in_range n) ps ->
  forall l v a a1,
    List.length l = n -> Forall has_body l ->
    nth_error l v = Some a -> Snake.alive a = true ->
    nth_error (snd (run_pairs ps l)) v = Some a1 -> Snake.alive a1 = false ->
    exists b1 p b2 s s',
      ps = b1 ++ p :: b2 /\
      (fst p = v \/ snd p = v) /\
      nth_error (snd (run_pairs b1 l)) v = Some s /\
      Snake.alive s = true /\
      nth_error (snd (run_pairs (b1 ++ [p]) l)) v = Some s' /\
      Snake.alive s' = false.
Proof.
  induction 1 as [|p ps [H1 H2] Hps IH]; intros l v a a1 Hn Hl Ha Aa Ha1 Da1.
  - cbn in Ha1. congruence.
  - destruct (nth_error l (fst p)) as [x|] eqn:Ex;
      [|apply nth_error_None in Ex; lia].
    destruct (nth_error l (snd p)) as [y|] eqn:Ey;
      [|apply nth_error_None in Ey; lia].
    destruct (collide_pair_frame p l x y Hl ltac:(lia) Ex Ey)
      as (l1 & E & F & Hother & _).
    destruct (Forall2_fades_nth l l1 v a F Ha) as (a' & Ha' & Fa).
    destruct (Snake.alive a') eqn:Aa'.
    + destruct (IH l1 v a' a1) as (b1 & q & b2 & s & s' & -> & Hq & Hs & As & Hs' & Ds').
      * rewrite (Forall2_fades_length _ _ F). exact Hn.
      * eapply Forall2_fades_has_body; eassumption.
      * exact Ha'.
      * exact Aa'.
      * cbn [run_pairs] in Ha1. rewrite E in Ha1. exact Ha1.
      * exact Da1.
      * exists (p :: b1), q, b2, s, s'.
        split; [reflexivity|]. split; [exact Hq|].
        cbn [run_pairs app]. rewrite E. auto.
    + exists [], p, ps, a, a'.
      split; [reflexivity|]. split.
      { destruct (Nat.eq_dec (fst p) v) as [|N1]; [now left|].
        destruct (Nat.eq_dec (snd p) v) as [|N2]; [now right|].
        rewrite Hother in Ha' by auto. congruence. }
      cbn [run_pairs app snd]. rewrite E. cbn [snd]. auto.
Qed.

Lemma struck_by_third_sym l i j : struck_by_third l i j -> struck_by_third l j i.
Proof.
  intros (before & p & after & v & k & s & s' & E & Hin & Hv & Hki & Hkj & R).
  exists before, p, after, v, k, s, s'.
  rewrite Nat.min_comm, Nat.max_comm. tauto.
Qed.

(** The fate of two living snakes that swapped heads, as the pass
    reaches their pair. *)
Lemma swap_pair_fate l l' i j a b a' b' :
  Forall has_body l ->
  run_pairs (pass_pairs (List.length l)) l = (Ok tt, l') ->
  (i < j)%nat ->
  nth_error l i = Some a -> nth_error l j = Some b ->
  Snake.alive a = true -> Snake.alive b = true -> swapped a b ->
  nth_error l' i = Some a' -> nth_error l' j = Some b' ->
  (Snake.alive a' = false /\ Snake.alive b' = false) \/ struck_by_third l i j.
Proof.
  intros Hl Hrun Hij Ha Hb Aa Ab Hsw Ha' Hb'.
  assert (Hj : (j < List.length l)%nat) by (apply nth_error_Some; congruence).
  assert (Hin : In (i, j) (pass_pairs (List.length l)))
    by (apply pass_pairs_spec; lia).
  destruct (in_split_first _ _ Hin) as (pre & post & Eps & Hnot).
  assert (Hrange := pass_pairs_in_range (List.length l)).
  rewrite Eps in Hrange, Hrun.
  apply Forall_app in Hrange as [Rpre Rpost].
  inversion Rpost as [|? ? _ Rpost']; subst.
  destruct (run_pairs_fades _ pre Rpre l eq_refl Hl) as (l1 & E1 & F1).
  destruct (Forall2_fades_nth l l1 i a F1 Ha) as (a1 & Ha1 & Fa1).
  destruct (Forall2_fades_nth l l1 j b F1 Hb) as (b1 & Hb1 & Fb1).
  assert (Hl1 : Forall has_body l1)
    by (eapply Forall2_fades_has_body; eassumption).
  destruct (Snake.alive a1) eqn:Aa1; [destruct (Snake.alive b1) eqn:Ab1|].
  - (* both alive when their pair comes up *)
    left.
    destruct (collide_pair_frame (i, j) l1 a1 b1 Hl1 ltac:(cbn; lia) Ha1 Hb1)
      as (l2 & E2 & F2 & _ & K).
    destruct (K Aa1 Ab1) as (a2 & b2 & Ha2 & Hb2 & Da2 & Db2).
    { apply (fades_swapped a a1 b b1); assumption. }
    cbn [fst snd] in Ha2, Hb2.
    rewrite run_pairs_app, E1 in Hrun. cbn [run_pairs] in Hrun.
    rewrite E2 in Hrun.
    destruct (run_pairs_fades _ post Rpost' l2) as (l3 & E3 & F3).
    { rewrite (Forall2_fades_length _ _ F2), (Forall2_fades_length _ _ F1).
      reflexivity. }
    { eapply Forall2_fades_has_body; eassumption. }
    rewrite E3 in Hrun. injection Hrun as <-.
    destruct (Forall2_fades_nth l2 l3 i a2 F3 Ha2) as (a3 & Ha3 & Fa3).
    destruct (Forall2_fades_nth l2 l3 j b2 F3 Hb2) as (b3 & Hb3 & Fb3).
    rewrite Ha3 in Ha'. rewrite Hb3 in Hb'.
    injection Ha' as <-. injection Hb' as <-.
    split; eapply fades_stays_dead; eassumption.
  - (* the second was killed before *)
    right.
    assert (R1 : nth_error (snd (run_pairs pre l)) j = Some b1)
      by (rewrite E1; exact Hb1).
    destruct (first_kill _ pre Rpre l j b b1 eq_refl Hl Hb Ab R1 Ab1)
      as (c1 & p & c2 & s & s' & -> & Hp & Hs & As & Hs' & Ds').
    assert (Rp : in_range (List.length l) p).
    { apply Forall_app in Rpre as [_ Rp]. now inversion Rp. }
    destruct Rp as [Rp1 Rp2].
    assert (Hp_not : p <> (i, j)).
    { intros ->. apply Hnot. apply in_or_app. right. now left. }
    destruct Hp as [Hp|Hp].
    + exists c1, p, (c2 ++ (i, j) :: post), j, (snd p), s, s'.
      rewrite Nat.min_l, Nat.max_r by lia.
      split; [rewrite Eps, <- app_assoc; reflexivity|].
      split; [apply in_or_app; right; now left|].
      split; [now right|]. split; [lia|]. split; [lia|].
      split; [left; destruct p; cbn in *; congruence|]. auto.
    + exists c1, p, (c2 ++ (i, j) :: post), j, (fst p), s, s'.
      rewrite Nat.min_l, Nat.max_r by lia.
      split; [rewrite Eps, <- app_assoc; reflexivity|].
      split; [apply in_or_app; right; now left|].
      split; [now right|]. split.
      { intros K. apply Hp_not. destruct p; cbn in *; congruence. }
      split; [lia|].
      split; [right; destruct p; cbn in *; congruence|]. auto.
  - (* the first was killed before *)
    right.
    assert (R1 : nth_error (snd (run_pairs pre l)) i = Some a1)
      by (rewrite E1; exact Ha1).
    destruct (first_kill _ pre Rpre l i a a1 eq_refl Hl Ha Aa R1 Aa1)
      as (c1 & p & c2 & s & s' & -> & Hp & Hs & As & Hs' & Ds').
    assert (Rp : in_range (List.length l) p).
    { apply Forall_app in Rpre as [_ Rp]. now inversion Rp. }
    destruct Rp as [Rp1 Rp2].
    assert (Hp_not : p <> (i, j)).
    { intros ->. apply Hnot. apply in_or_app. right. now left. }
    destruct Hp as [Hp|Hp].
    + exists c1, p, (c2 ++ (i, j) :: post), i, (snd p), s, s'.
      rewrite Nat.min_l, Nat.max_r by lia.
      split; [rewrite Eps, <- app_assoc; reflexivity|].
      split; [apply in_or_app; right; now left|].
      split; [now left|]. split; [lia|]. split.
      { intros K. apply Hp_not. destruct p; cbn in *; congruence. }
      split; [left; destruct p; cbn in *; congruence|]. auto.
    + exists c1, p, (c2 ++ (i, j) :: post), i, (fst p), s, s'.
      rewrite Nat.min_l, Nat.max_r by lia.
      split; [rewrite Eps, <- app_assoc; reflexivity|].
      split; [apply in_or_app; right; now left|].
      split; [now left|]. split; [lia|]. split; [lia|].
      split; [right; destruct p; cbn in *; congruence|]. auto.
Qed.

(** C5 (amended).  Two living snakes that swapped heads are both dead
    after the pass when they are the only snakes of the simulation.
    Among more snakes the two never both survive: at least one of them
    is dead after the pass; and both are, unless one of them was killed
    earlier in the pass by a third snake: it was alive when its pair with
    the third snake came up, dead when that pair had been evaluated, and
    that pair came up before the pair of the two.  The pass is the
    evaluation of its pairs in the order of the two nested loops. *)
Theorem head_swap_kills :
  (forall a b,
      Snake.alive a = true -> Snake.alive b = true -> swapped a b ->
      GameState.resolve_collisions [a; b] = (Ok tt, [dead a; dead b])) /\
  (forall l, Forall has_body l ->
     exists l',
       GameState.resolve_collisions l = (Ok tt, l') /\
       run_pairs (pass_pairs (List.length l)) l = (Ok tt, l') /\
       forall i j a b a' b',
         i <> j ->
         nth_error l i = Some a -> nth_error l j = Some b ->
         swapped a b ->
         nth_error l' i = Some a' -> nth_error l' j = Some b' ->
         (Snake.alive a' = false \/ Snake.alive b' = false) /\
         (Snake.alive a = true -> Snake.alive b = true ->
          (Snake.alive a' = false /\ Snake.alive b' = false) \/
          struck_by_third l i j)).
Proof.
  split.
  - intros a b Ha Hb Hsw.
    unfold GameState.resolve_collisions.
    cbn [List.length GameState.resolve_from GameState.collide_row].
    rewrite (check_swapped a b Ha Hb Hsw).
    rewrite (check_skips (dead b) (dead a)) by reflexivity.
    reflexivity.
  - intros l Hl.
    destruct (resolve_collisions_fades l Hl) as (l' & E & F & P).
    destruct (pass_is_run l Hl) as (l2 & E2 & R).
    assert (l2 = l') by congruence. subst l2.
    exists l'. split; [assumption|]. split; [assumption|].
    intros i j a b a' b' Hij Hi Hj Hsw Hi' Hj'.
    assert (Fa : fades a a') by (eapply Forall2_nth_error; eassumption).
    assert (Fb : fades b b') by (eapply Forall2_nth_error; eassumption).
    assert (Hsw' : swapped a' b') by (eapply fades_swapped; eassumption).
    destruct (Nat.lt_total i j) as [Lt|[Eq|Gt]]; [|contradiction|].
    + split.
      * exact (ForallOrdPairs_nth_error _ _ l' i j a' b' P Lt Hi' Hj' Hsw').
      * intros Aa Ab.
        exact (swap_pair_fate l l' i j a b a' b' Hl R Lt Hi Hj Aa Ab Hsw Hi' Hj').
    + split.
      * destruct (ForallOrdPairs_nth_error _ _ l' j i b' a' P Gt Hj' Hi'
                    (swapped_sym _ _ Hsw')); tauto.
      * intros Aa Ab.
        destruct (swap_pair_fate l l' j i b a b' a' Hl R Gt Hj Hi Ab Aa
                    (swapped_sym _ _ Hsw) Hj' Hi') as [[D1 D2]|S].
        -- left. auto.
        -- right. now apply struck_by_third_sym.
Qed.

Lemma head_swap_kills_witness :
  GameState.resolve_collisions [met_a; met_b]
  = (Ok tt, [dead met_a; dead met_b]) /\
  exists l',
    GameState.resolve_collisions met_trio = (Ok tt, l') /\
    run_pairs (pass_pairs (List.length met_trio)) met_trio = (Ok tt, l') /\
    forall i j a b a' b',
      i <> j ->
      nth_error met_trio i = Some a -> nth_error met_trio j = Some b ->
      swapped a b ->
      nth_error l' i = Some a' -> nth_error l' j = Some b' ->
      (Snake.alive a' = false \/ Snake.alive b' = false) /\
      (Snake.alive a = true -> Snake.alive b = true ->
       (Snake.alive a' = false /\ Snake.alive b' = false) \/
       struck_by_third met_trio i j).
Proof.
  split.
  - apply (proj1 head_swap_kills met_a met_b); [reflexivity | reflexivity |].
    exists (6, 5), (5, 5). repeat split.
  - apply (proj2 head_swap_kills met_trio).
    repeat constructor; discriminate.
Defined.

(** ** The engine never raises on a well-formed state *)

Lemma randint_ok a b g :
  a <= b -> exists v, randint a b g = (Ok v, mkRng (draws g) (S (pos g))).
Proof.
  intros H. unfold randint. apply Z.leb_le in H. rewrite H.
  eexists. reflexivity.
Qed.

Lemma same_game_refl g : same_game g g.
Proof. now repeat split. Qed.

Lemma same_game_trans a b c : same_game a b -> same_game b c -> same_game a c.
Proof.
  intros (H1 & H2 & H3) (K1 & K2 & K3). repeat split; congruence.
Qed.

Lemma place_food_ok n g r :
  0 < fst (GameState.grid_size g) -> 0 < snd (GameState.grid_size g) ->
  exists g' r',
    GameState.place_food n (g, r) = (Ok tt, (g', r')) /\ same_game g g'.
Proof.
  intros Hx Hy. revert r. induction n as [|n IH]; intros r.
  - exists g, r. split; [reflexivity | apply same_game_refl].
  - cbn [GameState.place_food].
    unfold bind, GameState.self, GameState.rand, zoom, get. cbn [fst snd].
    destruct (randint_ok 0 (fst (GameState.grid_size g) - 1) r) as [x Ex];
      [lia|].
    rewrite Ex. cbn [fst snd].
    set (r1 := mkRng (draws r) (S (pos r))).
    destruct (randint_ok 0 (snd (GameState.grid_size g) - 1) r1) as [y Ey];
      [lia|].
    rewrite Ey. cbn [fst snd].
    destruct (negb _ && negb _).
    + cbn. eexists _, _. split; [reflexivity|]. now repeat split.
    + apply IH.
Qed.

Lemma generate_food_ok count g r :
  0 < fst (GameState.grid_size g) -> 0 < snd (GameState.grid_size g) ->
  exists g' r',
    GameState._generate_food count (g, r) = (Ok tt, (g', r')) /\ same_game g g'.
Proof.
  revert g r. induction count as [|n IH]; intros g r Hx Hy.
  - exists g, r. split; [reflexivity | apply same_game_refl].
  - cbn [GameState._generate_food]. unfold bind.
    destruct (place_food_ok 50 g r Hx Hy) as (g1 & r1 & E1 & S1).
    rewrite E1.
    destruct S1 as (G1 & S1 & A1).
    assert (Hx1 : 0 < fst (GameState.grid_size g1)) by now rewrite G1.
    assert (Hy1 : 0 < snd (GameState.grid_size g1)) by now rewrite G1.
    destruct (IH g1 r1 Hx1 Hy1) as (g2 & r2 & E2 & S2).
    exists g2, r2. split; [assumption|].
    eapply same_game_trans; [|eassumption]. now repeat split.
Qed.

Lemma move_has_body grid food s :
  has_body s ->
  exists ate s', Snake.move grid food s = (Ok ate, s') /\ has_body s' /\
                 Snake.player_id s' = Snake.player_id s.
Proof.
  intros Hb. destruct (Snake.alive s) eqn:Ha.
  2:{ rewrite move_dead by assumption. exists false, s. auto. }
  destruct (next_head_some s Hb) as [nh Hnh].
  destruct (Snake.out_of_grid grid nh || cell_in nh (Snake.body s)) eqn:Hbad.
  - rewrite (move_invalid grid food s nh Ha Hnh Hbad).
    eexists _, _. split; [reflexivity|]. split; [exact Hb | reflexivity].
  - apply orb_false_elim in Hbad as [Hg Hs].
    rewrite (move_valid grid food s nh Ha Hnh Hg Hs).
    destruct (has_food food nh); eexists _, _; (split; [reflexivity|]);
      (split; [|reflexivity]); unfold has_body; cbn.
    + discriminate.
    + unfold has_body in Hb. destruct (Snake.body s); [easy | discriminate].
Qed.

Lemma each_move_ok grid food d :
  Forall has_body (dict_values d) ->
  exists flags d',
    each_value (Snake.move grid food) d = (Ok flags, d') /\
    dict_keys d' = dict_keys d /\
    Forall has_body (dict_values d').
Proof.
  induction d as [|[k v] rest IH]; intros H.
  - exists [], []. cbn. auto.
  - cbn [each_value]. unfold dict_values in H. cbn [map snd] in H.
    inversion H as [|? ? Hv Hrest]; subst.
    destruct (move_has_body grid food v Hv) as (ate & v' & E & Hv' & _).
    rewrite E.
    destruct (IH Hrest) as (flags & rest' & E' & K & B).
    rewrite E'. exists (ate :: flags), ((k, v') :: rest').
    split; [reflexivity|]. split.
    + unfold dict_keys in *. cbn [map fst]. now rewrite K.
    + unfold dict_values in *. cbn [map snd]. now constructor.
Qed.

Lemma ate_food_has_body flags vs :
  Forall has_body vs -> Forall has_body (GameState.ate_food flags vs).
Proof.
  intros H. revert flags. induction H as [|v vs Hv H IH]; intros [|[] fl]; cbn;
    auto.
Qed.

Lemma replace_food_ok snake g r :
  has_body snake ->
  0 < fst (GameState.grid_size g) -> 0 < snd (GameState.grid_size g) ->
  exists g' r',
    GameState.replace_food snake (g, r) = (Ok tt, (g', r')) /\ same_game g g'.
Proof.
  intros Hb Hx Hy. unfold GameState.replace_food. unfold has_body in Hb.
  destruct (Snake.body snake) as [|h tl]; [easy|].
  unfold bind, GameState.self, zoom, get, when. cbn [fst snd].
  destruct (cell_in h (GameState.food_positions g)).
  - unfold modify. cbn [fst snd].
    set (g1 := GameState.set_food_positions _ g).
    destruct (generate_food_ok 1 g1 r Hx Hy) as (g2 & r2 & E & S).
    rewrite E. exists g2, r2. split; [reflexivity|].
    eapply same_game_trans; [|exact S]. now repeat split.
  - exists g, r. split; [reflexivity | apply same_game_refl].
Qed.

Lemma replace_all_ok eaters g r :
  Forall has_body eaters ->
  0 < fst (GameState.grid_size g) -> 0 < snd (GameState.grid_size g) ->
  exists g' r',
    for_each eaters GameState.replace_food (g, r) = (Ok tt, (g', r')) /\
    same_game g g'.
Proof.
  intros H. revert g r. induction H as [|s rest Hs H IH]; intros g r Hx Hy.
  - exists g, r. split; [reflexivity | apply same_game_refl].
  - cbn [for_each]. unfold bind.
    destruct (replace_food_ok s g r Hs Hx Hy) as (g1 & r1 & E1 & S1).
    rewrite E1. destruct S1 as (G1 & S1 & A1).
    assert (Hx1 : 0 < fst (GameState.grid_size g1)) by now rewrite G1.
    assert (Hy1 : 0 < snd (GameState.grid_size g1)) by now rewrite G1.
    destruct (IH g1 r1 Hx1 Hy1) as (g2 & r2 & E2 & S2).
    exists g2, r2. split; [assumption|].
    eapply same_game_trans; [|eassumption]. now repeat split.
Qed.

Lemma with_values_keys (T : Type) (d : dict T) vs :
  dict_keys (with_values d vs) = dict_keys d.
Proof.
  unfold dict_keys.
  revert vs. induction d as [|[k v] d IH]; intros [|x vs]; cbn; auto.
  now rewrite IH.
Qed.

Lemma with_values_values (T : Type) (d : dict T) vs :
  List.length vs = List.length d -> dict_values (with_values d vs) = vs.
Proof.
  unfold dict_values.
  revert vs. induction d as [|[k v] d IH]; intros [|x vs]; cbn; try easy.
  intros [= H]. now rewrite IH.
Qed.

Lemma Forall2_length_eq (A B : Type) (R : A -> B -> Prop) l l' :
  Forall2 R l l' -> List.length l' = List.length l.
Proof. induction 1; cbn; congruence. Qed.

(** One step of the engine on a running, well-formed state. *)
Lemma update_movement_ok g r :
  wf_engine g ->
  exists g' r',
    GameState.update_movement (g, r) = (Ok tt, (g', r')) /\
    dict_keys (GameState.snakes g') = dict_keys (GameState.snakes g) /\
    GameState.grid_size g' = GameState.grid_size g /\
    GameState.game_active g' = GameState.game_active g /\
    wf_engine g'.
Proof.
  intros (Hx & Hy & Hb).
  unfold GameState.update_movement, bind, GameState.self, zoom, get.
  cbn [fst snd].
  destruct (GameState.game_active g) eqn:Hact; cbn [negb].
  2:{ exists g, r. cbn. rewrite Hact. repeat split; auto. }
  unfold GameState.move_snakes. cbn [fst snd].
  destruct (each_move_ok (GameState.grid_size g) (GameState.food_positions g)
              (GameState.snakes g) Hb) as (flags & d1 & E1 & K1 & B1).
  rewrite E1. cbn [fst snd].
  set (g1 := GameState.set_snakes d1 g).
  destruct (replace_all_ok (GameState.ate_food flags (dict_values d1)) g1 r)
    as (g2 & r2 & E2 & G2 & S2 & A2); [now apply ate_food_has_body | easy..|].
  cbn [GameState.snakes g1 GameState.set_snakes] in E2 |- *.
  rewrite E2. cbn [fst snd].
  unfold GameState.collisions.
  assert (B2 : Forall has_body (dict_values (GameState.snakes g2))).
  { rewrite S2. exact B1. }
  destruct (resolve_collisions_fades _ B2) as (vs & E3 & F3 & _).
  rewrite E3. eexists _, _. split; [reflexivity|].
  cbn [GameState.snakes GameState.set_snakes GameState.grid_size
       GameState.game_active].
  rewrite with_values_keys, S2.
  split; [exact K1|]. split; [exact G2|]. split; [now rewrite A2|].
  unfold wf_engine.
  cbn [GameState.snakes GameState.set_snakes GameState.grid_size].
  rewrite G2. split; [exact Hx|]. split; [exact Hy|].
  rewrite with_values_values.
  - eapply Forall2_fades_has_body; eassumption.
  - rewrite (Forall2_length_eq _ _ _ _ _ F3), S2. unfold dict_values.
    now rewrite length_map.
Qed.

(** ** Broadcasts *)

Lemma send_message_ok s msg e :
  exists b, GameProtocol.send_message s msg e = (Ok b, snd (GameProtocol.send_message s msg e)).
Proof.
  unfold GameProtocol.send_message, GameProtocol.serialize_message,
    bind, get, put, ret. cbn.
  destruct (dumps e msg) as [data|]; [|eexists; reflexivity].
  destruct (GameProtocol.frame data); [|eexists; reflexivity].
  destruct (existsb _ _); eexists; reflexivity.
Qed.

Lemma send_each_ok (r : GameRoom.t) msg (l : dict GameRoom.player_info) e :
  for_each l
    (fun entry =>
       bind (GameRoom.env (GameProtocol.send_message
                             (GameRoom.socket (snd entry)) msg))
            (fun _ => ret tt)) (r, e)
  = (Ok tt, (r, post (map (fun entry => GameRoom.socket (snd entry)) l) msg e)).
Proof.
  revert e. induction l as [|[k info] l IH]; intros e; [reflexivity|].
  cbn [for_each map post snd]. unfold bind at 1 2.
  unfold GameRoom.env, zoom. cbn [fst snd].
  destruct (send_message_ok (GameRoom.socket info) msg e) as [b E].
  rewrite E. cbn [fst snd ret]. unfold ret at 1. apply IH.
Qed.

Lemma broadcast_message_ok msg exclude r e :
  GameRoom.broadcast_message msg exclude (r, e)
  = (Ok tt, (r, post (recipients_of r exclude) msg e)).
Proof.
  unfold GameRoom.broadcast_message, bind at 1, GameRoom.self, zoom, get.
  cbn [fst snd]. apply send_each_ok.
Qed.

(** ** End-condition detection *)

Lemma dict_mem_get (V : Type) (d : dict V) k :
  dict_mem d k = true -> exists v, dict_get d k = Some v.
Proof.
  unfold dict_mem. destruct (dict_get d k); [eauto | discriminate].
Qed.

Lemma filter_key_in (V : Type) (f : string * V -> bool) (d : dict V) k v :
  In (k, v) (filter f d) -> In k (dict_keys d).
Proof.
  intros H. apply filter_In in H as [H _].
  unfold dict_keys. change k with (fst (k, v)). now apply in_map.
Qed.

(** The engine step seen from the room. *)
Lemma room_step_ok r e :
  wf_engine (GameRoom.game_state r) ->
  exists g' rnd',
    GameRoom.state_rand GameState.update_movement (r, e)
    = (Ok tt, (GameRoom.set_game_state g' r, set_rand rnd' e)) /\
    dict_keys (GameState.snakes g')
    = dict_keys (GameState.snakes (GameRoom.game_state r)).
Proof.
  intros Hwf. unfold GameRoom.state_rand, zoom. cbn [fst snd].
  destruct (update_movement_ok (GameRoom.game_state r) (rand e) Hwf)
    as (g' & rnd' & E & K & _).
  rewrite E. exists g', rnd'. auto.
Qed.

(** What [update_game] sends once the locked part has judged. *)
Lemma update_game_after_judging r e v r2 e2 :
  GameRoom.game_active r = true ->
  GameRoom.step_and_judge (r, e) = (Ok v, (r2, e2)) ->
  GameRoom.update_game (r, e) =
    (Ok tt,
     (r2, post (recipients_of r2 None) (game_state_msg r2)
            (match v with
             | Some p => post (recipients_of r2 None) (game_over_msg p) e2
             | None => e2
             end))).
Proof.
  intros Hact Hj.
  unfold GameRoom.update_game. unfold bind at 1.
  unfold GameRoom.self at 1, zoom, get. cbn [fst snd].
  rewrite Hact. cbn [negb]. unfold bind at 1. rewrite Hj.
  unfold bind at 1.
  destruct v as [p|].
  - rewrite broadcast_message_ok.
    unfold bind at 1, GameRoom.self, zoom, get. cbn [fst snd].
    now rewrite broadcast_message_ok.
  - unfold ret at 1.
    unfold bind at 1, GameRoom.self, zoom, get. cbn [fst snd].
    now rewrite broadcast_message_ok.
Qed.

(** C6 (amended).  On a tick of a running room, after movement and
    collisions, with N the snakes now in the simulation and A those of
    them alive: N>1 and A=1 names the survivor winner with their score,
    N>1 and A=0 is a draw, N=1 and A=0 ends the lone player's run with
    their score; each of the three clears both activity flags, anything
    else leaves them; the game-over notice, if any, is sent before the
    snapshot. *)
Theorem end_condition_detection (r : GameRoom.t) (e : Env) :
  GameRoom.game_active r = true ->
  wf_engine (GameRoom.game_state r) ->
  (forall pid,
      In pid (dict_keys (GameState.snakes (GameRoom.game_state r))) ->
      dict_mem (GameRoom.players r) pid = true) ->
  exists r1 e1,
    GameRoom.state_rand GameState.update_movement (r, e) = (Ok tt, (r1, e1)) /\
    let snakes := GameState.snakes (GameRoom.game_state r1) in
    let alive := GameRoom.alive_snakes (GameRoom.game_state r1) in
    let N := List.length snakes in
    let A := List.length alive in
    ((1 < N)%nat -> A = 1%nat ->
     exists pid s info,
       alive = [(pid, s)] /\
       dict_get (GameRoom.players r) pid = Some info /\
       GameRoom.step_and_judge (r, e)
       = (Ok (Some (Winner pid (GameRoom.username info) (Snake.score s))),
          (stopped r1, e1))) /\
    ((1 < N)%nat -> A = 0%nat ->
     GameRoom.step_and_judge (r, e) = (Ok (Some Draw), (stopped r1, e1))) /\
    (N = 1%nat -> A = 0%nat ->
     exists pid s,
       snakes = [(pid, s)] /\
       GameRoom.step_and_judge (r, e)
       = (Ok (Some (SinglePlayer (Snake.score s))), (stopped r1, e1))) /\
    (~ ((1 < N)%nat /\ (A <= 1)%nat) -> ~ (N = 1%nat /\ A = 0%nat) ->
     GameRoom.step_and_judge (r, e) = (Ok None, (r1, e1))) /\
    (forall v r2 e2,
        GameRoom.step_and_judge (r, e) = (Ok v, (r2, e2)) ->
        GameRoom.update_game (r, e) =
          (Ok tt,
           (r2, post (recipients_of r2 None) (game_state_msg r2)
                  (match v with
                   | Some p =>
                       post (recipients_of r2 None) (game_over_msg p) e2
                   | None => e2
                   end)))).
Proof.
  intros Hact Hwf Hmem.
  destruct (room_step_ok r e Hwf) as (g' & rnd' & E & K).
  exists (GameRoom.set_game_state g' r), (set_rand rnd' e).
  split; [exact E|].
  cbn zeta. cbn [GameRoom.game_state GameRoom.set_game_state].
  assert (Hlast : forall v r2 e2,
             GameRoom.step_and_judge (r, e) = (Ok v, (r2, e2)) ->
             GameRoom.update_game (r, e) =
               (Ok tt,
                (r2, post (recipients_of r2 None) (game_state_msg r2)
                       (match v with
                        | Some p =>
                            post (recipients_of r2 None) (game_over_msg p) e2
                        | None => e2
                        end))))
    by (intros; now apply update_game_after_judging).
  remember (GameRoom.step_and_judge (r, e)) as J eqn:EJ.
  remember (GameRoom.update_game (r, e)) as U eqn:EU. clear EU.
  unfold GameRoom.step_and_judge in EJ. unfold bind at 1 in EJ.
  rewrite E in EJ.
  unfold bind, GameRoom.self, GameRoom.state, zoom, get, modify, ret in EJ.
  cbn [fst snd GameRoom.game_state GameRoom.set_game_state GameRoom.players]
    in EJ.
  fold (stopped (GameRoom.set_game_state g' r)) in EJ.
  destruct (GameRoom.alive_snakes g') as [|[pid s] [|x more]] eqn:Ealive;
    cbn [List.length].
  - (* nobody alive *)
    destruct (GameState.snakes g') as [|[p1 s1] [|y rest]] eqn:Esn;
      cbn [List.length] in *.
    + split; [lia|]. split; [lia|]. split; [intros [=]|].
      split; [|exact Hlast]. intros _ _. exact EJ.
    + split; [lia|]. split; [lia|]. split.
      { intros _ _. exists p1, s1. split; [reflexivity | exact EJ]. }
      split; [|exact Hlast]. intros _ H. exfalso. apply H. auto.
    + split; [intros _ [=]|]. split; [intros _ _; exact EJ|].
      split; [intros [=]|]. split; [|exact Hlast].
      intros H. exfalso. apply H. split; lia.
  - (* one alive *)
    assert (Hin : In pid (dict_keys (GameState.snakes g'))).
    { apply (filter_key_in _ (fun entry => Snake.alive (snd entry)) _ pid s).
      fold (GameRoom.alive_snakes g'). rewrite Ealive. now left. }
    rewrite K in Hin.
    destruct (dict_mem_get _ _ _ (Hmem pid Hin)) as [info Hinfo].
    split.
    { intros HN _. exists pid, s, info. split; [reflexivity|].
      split; [assumption|].
      apply Nat.ltb_lt in HN. rewrite HN, Hinfo in EJ. exact EJ. }
    split; [intros _ [=]|]. split; [intros _ [=]|].
    split; [|exact Hlast].
    intros H _.
    destruct (1 <? List.length (GameState.snakes g'))%nat eqn:EN.
    + exfalso. apply H. apply Nat.ltb_lt in EN. split; lia.
    + exact EJ.
  - (* several alive *)
    split; [intros _ [=]|]. split; [intros _ [=]|]. split; [intros _ [=]|].
    split; [|exact Hlast]. intros _ _. exact EJ.
Qed.

(** ** Frame reasoning: what a computation leaves as it was *)

Section Keeps.
Variable S : Type.
Variable R : S -> S -> Prop.
Hypothesis R_refl : forall s, R s s.
Hypothesis R_trans : forall a b c, R a b -> R b c -> R a c.

Lemma keeps_ret A (a : A) : keeps R (ret a).
Proof. intros s res s' [= _ <-]. apply R_refl. Qed.

Lemma keeps_raise A (x : exn) : keeps R (@raise S A x).
Proof. intros s res s' [= _ <-]. apply R_refl. Qed.

Lemma keeps_get : keeps R (@get S).
Proof. intros s res s' [= _ <-]. apply R_refl. Qed.

Lemma keeps_bind A B (m : M S A) (k : A -> M S B) :
  keeps R m -> (forall a, keeps R (k a)) -> keeps R (bind m k).
Proof.
  intros Hm Hk s res s'. unfold bind.
  destruct (m s) as [[a|x] s1] eqn:E; intros H.
  - eapply R_trans; [eapply Hm; eassumption | eapply Hk; eassumption].
  - injection H as _ <-. eapply Hm; eassumption.
Qed.

Lemma keeps_when (b : bool) (m : M S unit) : keeps R m -> keeps R (when b m).
Proof. destruct b; [auto | intros _; apply keeps_ret]. Qed.

Lemma keeps_for_each A (l : list A) (body : A -> M S unit) :
  (forall a, keeps R (body a)) -> keeps R (for_each l body).
Proof.
  intros H. induction l as [|a l IH]; cbn [for_each].
  - apply keeps_ret.
  - apply keeps_bind; auto.
Qed.

Lemma keeps_modify (f : S -> S) : (forall s, R s (f s)) -> keeps R (modify f).
Proof. intros H s res s' [= _ <-]. apply H. Qed.

Lemma keeps_put (t : S) : (forall s, R s t) -> keeps R (put t).
Proof. intros H s res s' [= _ <-]. apply H. Qed.

(** A computation on a part of the state that [R] does not look at. *)
Lemma keeps_zoom T A (prj : S -> T) (upd : T -> S -> S) (m : M T A) :
  (forall s t, R s (upd t s)) -> keeps R (zoom prj upd m).
Proof.
  intros H s res s'. unfold zoom. destruct (m (prj s)) as [r t].
  intros [= _ <-]. apply H.
Qed.
End Keeps.

Create HintDb frame.

(** *** Rooms: the membership part *)

Lemma same_members_refl s : same_members s s.
Proof. now repeat split. Qed.

Lemma same_members_trans a b c :
  same_members a b -> same_members b c -> same_members a c.
Proof. intros (A1 & A2 & A3) (B1 & B2 & B3). repeat split; congruence. Qed.

#[local] Hint Resolve same_members_refl same_members_trans : frame.

Ltac frame_step :=
  match goal with
  | |- keeps _ (bind _ _) => apply keeps_bind; [eauto with frame.. | | intros]
  | |- keeps _ (ret _) => apply keeps_ret; eauto with frame
  | |- keeps _ (raise _) => apply keeps_raise; eauto with frame
  | |- keeps _ get => apply keeps_get; eauto with frame
  | |- keeps _ (when _ _) => apply keeps_when; [eauto with frame|]
  | |- keeps _ (for_each _ _) => apply keeps_for_each; [eauto with frame.. | intros]
  | |- keeps _ (let '(_, _) := ?p in _) => destruct p
  | |- keeps _ (if ?b then _ else _) => destruct b
  | |- keeps _ (match ?x with _ => _ end) => destruct x
  end.

Lemma keeps_members_env A (m : M Env A) : keeps same_members (GameRoom.env m).
Proof. apply keeps_zoom. intros s t. now repeat split. Qed.

Lemma keeps_members_state_rand A (m : M GameState.st A) :
  keeps same_members (GameRoom.state_rand m).
Proof. apply keeps_zoom. intros s t. now repeat split. Qed.

Lemma keeps_members_self_state A (m : M GameState.t A) :
  keeps same_members (GameRoom.self (GameRoom.state m)).
Proof.
  intros s res s'. unfold GameRoom.self, GameRoom.state, zoom.
  destruct (m _) as [r t]. intros [= _ <-]. now repeat split.
Qed.

Lemma keeps_members_self_get : keeps same_members (GameRoom.self get).
Proof.
  intros s res s'. unfold GameRoom.self, zoom, get. intros [= _ <-].
  destruct s. now repeat split.
Qed.

Lemma keeps_members_active b :
  keeps same_members (GameRoom.self (modify (GameRoom.set_game_active b))).
Proof.
  intros s res s'. unfold GameRoom.self, zoom, modify. intros [= _ <-].
  now repeat split.
Qed.

Lemma keeps_members_new_state g :
  keeps same_members (GameRoom.self (modify (GameRoom.set_game_state g))).
Proof.
  intros s res s'. unfold GameRoom.self, zoom, modify. intros [= _ <-].
  now repeat split.
Qed.

#[local] Hint Resolve keeps_members_env keeps_members_state_rand
  keeps_members_self_state keeps_members_self_get keeps_members_active
  keeps_members_new_state : frame.

Ltac frame := repeat (first [ solve [eauto with frame] | frame_step ]).

Lemma keeps_members_broadcast msg exclude :
  keeps same_members (GameRoom.broadcast_message msg exclude).
Proof. unfold GameRoom.broadcast_message. frame. Qed.

Lemma keeps_members_notify :
  keeps same_members GameRoom.notify_creator_change.
Proof. unfold GameRoom.notify_creator_change. frame. Qed.

#[local] Hint Resolve keeps_members_broadcast keeps_members_notify : frame.

Lemma keeps_members_step_and_judge :
  keeps same_members GameRoom.step_and_judge.
Proof. unfold GameRoom.step_and_judge. frame. Qed.

#[local] Hint Resolve keeps_members_step_and_judge : frame.

Lemma keeps_members_update_game : keeps same_members GameRoom.update_game.
Proof. unfold GameRoom.update_game. frame. Qed.

Lemma keeps_members_start_game pid :
  keeps same_members (GameRoom.self (GameRoom.start_game pid)).
Proof.
  intros s res s'. unfold GameRoom.self, zoom.
  destruct (GameRoom.start_game pid (fst s)) as [r t] eqn:E.
  intros [= _ <-]. cbn [fst].
  unfold GameRoom.start_game, bind, get, modify, ret, GameRoom.state, zoom in E.
  destruct (negb _); [injection E as _ <-; now repeat split|].
  destruct (_ <? 1); [injection E as _ <-; now repeat split|].
  destruct (GameRoom.game_active (fst s));
    injection E as _ <-; now repeat split.
Qed.

Lemma keeps_members_restart_game pid :
  keeps same_members (GameRoom.restart_game pid).
Proof. unfold GameRoom.restart_game. frame. Qed.

Lemma keeps_members_direction pid d :
  keeps same_members
    (GameRoom.self (GameRoom.state (GameState.update_player_direction pid d))).
Proof. frame. Qed.

(** ** Dictionaries *)

Section DictFacts.
Variable V : Type.
Implicit Types (d : dict V) (k : string) (v : V).

Lemma dict_mem_keys d k : dict_mem d k = true <-> In k (dict_keys d).
Proof.
  unfold dict_mem, dict_keys.
  induction d as [|[k' v'] d IH]; cbn; [split; [discriminate | tauto]|].
  destruct (String.eqb_spec k k') as [->|N].
  - split; auto.
  - rewrite IH. split; [auto | intros [E|H]; [congruence | assumption]].
Qed.

Lemma dict_mem_false_keys d k : dict_mem d k = false <-> ~ In k (dict_keys d).
Proof.
  rewrite <- dict_mem_keys. destruct (dict_mem d k); split; congruence.
Qed.

Lemma dict_set_keys_new d k v :
  dict_mem d k = false -> dict_keys (dict_set d k v) = dict_keys d ++ [k].
Proof.
  unfold dict_mem, dict_keys.
  induction d as [|[k' v'] d IH]; cbn; [reflexivity|].
  destruct (String.eqb k k'); [discriminate|].
  intros H. cbn. now rewrite IH.
Qed.

Lemma dict_set_length_new d k v :
  dict_mem d k = false -> List.length (dict_set d k v) = S (List.length d).
Proof.
  intros H. assert (E := dict_set_keys_new d k v H).
  apply (f_equal (@List.length _)) in E.
  unfold dict_keys in E. rewrite length_app, !length_map in E. cbn in E. lia.
Qed.

Lemma dict_del_keys_incl d k x :
  In x (dict_keys (dict_del d k)) -> In x (dict_keys d).
Proof.
  unfold dict_keys. induction d as [|[k' v'] d IH]; cbn; [tauto|].
  destruct (String.eqb k k'); cbn; tauto.
Qed.

Lemma dict_del_keys_other d k x :
  x <> k -> In x (dict_keys d) -> In x (dict_keys (dict_del d k)).
Proof.
  unfold dict_keys. intros N. induction d as [|[k' v'] d IH]; cbn; [tauto|].
  destruct (String.eqb_spec k k') as [->|N']; cbn.
  - intros [E|H]; [congruence | assumption].
  - tauto.
Qed.

Lemma dict_del_length d k :
  (List.length (dict_del d k) <= List.length d)%nat.
Proof.
  induction d as [|[k' v'] d IH]; cbn; [lia|].
  destruct (String.eqb k k'); cbn; lia.
Qed.

Lemma dict_del_nodup d k :
  NoDup (dict_keys d) -> NoDup (dict_keys (dict_del d k)).
Proof.
  unfold dict_keys. induction d as [|[k' v'] d IH]; cbn; [auto|].
  intros H. inversion H as [|? ? Hn Hd]; subst.
  destruct (String.eqb k k'); cbn; [assumption|].
  constructor; [|auto].
  intros Hin. apply Hn. now apply (dict_del_keys_incl d k).
Qed.

Lemma dict_del_gone d k :
  NoDup (dict_keys d) -> ~ In k (dict_keys (dict_del d k)).
Proof.
  unfold dict_keys. induction d as [|[k' v'] d IH]; cbn; [tauto|].
  intros H. inversion H as [|? ? Hn Hd]; subst.
  destruct (String.eqb_spec k k') as [->|N]; cbn; [assumption|].
  intros [E|Hin]; [congruence | now apply IH].
Qed.

Lemma dict_set_nodup_new d k v :
  dict_mem d k = false -> NoDup (dict_keys d) ->
  NoDup (dict_keys (dict_set d k v)).
Proof.
  intros Hm Hd. rewrite dict_set_keys_new by assumption.
  apply NoDup_app; [assumption | repeat constructor; cbn; tauto |].
  intros x Hx [<-|[]]. now apply dict_mem_false_keys in Hm.
Qed.

Lemma filter_key_le_one d (c : string) :
  NoDup (dict_keys d) ->
  (List.length (filter (fun entry : string * V => String.eqb (fst entry) c) d)
   <= 1)%nat.
Proof.
  unfold dict_keys. induction d as [|[k' v'] d IH]; cbn; [lia|].
  intros H. inversion H as [|? ? Hn Hd]; subst.
  destruct (String.eqb_spec k' c) as [->|N]; [|auto].
  cbn. assert (E : filter (fun entry : string * V => String.eqb (fst entry) c) d = []).
  { clear - Hn. induction d as [|[k v] d IH]; cbn; [reflexivity|].
    cbn in Hn. destruct (String.eqb_spec k c) as [->|N]; [tauto|].
    apply IH. tauto. }
  rewrite E. cbn. lia.
Qed.
End DictFacts.

Lemma choice_in (A : Type) (l : list A) (g : rng) :
  l <> [] ->
  exists c, choice l g = (Ok c, mkRng (draws g) (S (pos g))) /\ In c l.
Proof.
  destruct l as [|x l]; [easy|]. intros _.
  unfold choice, bind, next_draw, ret. eexists. split; [reflexivity|].
  apply nth_In. apply Nat2Z.inj_lt. rewrite Z2Nat.id.
  - apply Z.mod_pos_bound. cbn [List.length]. lia.
  - apply Z.mod_pos_bound. cbn [List.length]. lia.
Qed.

(** ** What a computation can return *)

Lemma returns_ret S A (P : A -> Prop) (a : A) : P a -> returns P (@ret S A a).
Proof. intros H s x s' [= <- _]. exact H. Qed.

Lemma returns_bind S A B (P : B -> Prop) (m : M S A) (k : A -> M S B) :
  (forall a, returns P (k a)) -> returns P (bind m k).
Proof.
  intros H s b s'. unfold bind. destruct (m s) as [[a|x] s1]; [|discriminate].
  apply H.
Qed.

(** [GameState.add_player] has no path that returns [False]. *)
Lemma add_player_returns_true pid username :
  returns (fun ok => ok = true) (GameState.add_player pid username).
Proof.
  unfold GameState.add_player.
  apply returns_bind. intros g.
  destruct (dict_mem _ _); [now apply returns_ret|].
  apply returns_bind. intros placed.
  destruct placed; [now apply returns_ret|].
  repeat (apply returns_bind; intros).
  now apply returns_ret.
Qed.

(** ** Rooms: membership and the creator *)

Lemma gs_remove_player_ok pid g :
  GameState.remove_player pid g = (Ok tt, without_snake pid g).
Proof.
  unfold without_snake, GameState.remove_player, bind, get, when, put, ret.
  now destruct (dict_mem _ _).
Qed.

Ltac room_unfold :=
  unfold GameRoom.self, GameRoom.env, GameRoom.state, GameRoom.state_rand,
    random, bind, ret, get, put, modify, when, zoom.

Lemma remove_member_absent pid r e :
  dict_mem (GameRoom.players r) pid = false ->
  GameRoom.remove_member pid (r, e) = (Ok None, (r, e)).
Proof.
  intros H. unfold GameRoom.remove_member. room_unfold. cbn [fst snd].
  now rewrite H.
Qed.

Lemma remove_member_last pid r e :
  dict_mem (GameRoom.players r) pid = true ->
  dict_del (GameRoom.players r) pid = [] ->
  GameRoom.remove_member pid (r, e) = (Ok (Some false), (emptied pid r, e)).
Proof.
  intros H Hd. unfold GameRoom.remove_member. room_unfold. cbn [fst snd].
  rewrite H. cbn [fst snd]. rewrite gs_remove_player_ok. cbn [fst snd].
  cbn [GameRoom.players GameRoom.set_players GameRoom.set_game_state
       GameRoom.creator_id].
  rewrite Hd. unfold emptied, vacated. rewrite Hd.
  destruct (opt_string_eqb _ _); reflexivity.
Qed.

Lemma remove_member_other pid r e :
  dict_mem (GameRoom.players r) pid = true ->
  dict_del (GameRoom.players r) pid <> [] ->
  opt_string_eqb (Some pid) (GameRoom.creator_id r) = false ->
  GameRoom.remove_member pid (r, e) = (Ok (Some true), (vacated pid r, e)).
Proof.
  intros H Hd Hc. unfold GameRoom.remove_member. room_unfold. cbn [fst snd].
  rewrite H. cbn [fst snd]. rewrite gs_remove_player_ok. cbn [fst snd].
  cbn [GameRoom.players GameRoom.set_players GameRoom.set_game_state
       GameRoom.creator_id].
  rewrite Hc.
  unfold vacated.
  destruct (dict_del (GameRoom.players r) pid) eqn:E; [easy|].
  reflexivity.
Qed.

Lemma remove_member_creator pid r e :
  dict_mem (GameRoom.players r) pid = true ->
  dict_del (GameRoom.players r) pid <> [] ->
  opt_string_eqb (Some pid) (GameRoom.creator_id r) = true ->
  exists c,
    In c (dict_keys (dict_del (GameRoom.players r) pid)) /\
    GameRoom.remove_member pid (r, e)
    = (Ok (Some true),
       (GameRoom.set_creator_id (Some c) (vacated pid r),
        set_rand (mkRng (draws (rand e)) (S (pos (rand e)))) e)).
Proof.
  intros H Hd Hc.
  assert (Hk : dict_keys (dict_del (GameRoom.players r) pid) <> []).
  { unfold dict_keys. destruct (dict_del (GameRoom.players r) pid); [easy|].
    discriminate. }
  destruct (choice_in _ _ (rand e) Hk) as (c & Ec & Hin).
  exists c. split; [assumption|].
  unfold GameRoom.remove_member. room_unfold. cbn [fst snd].
  rewrite H. cbn [fst snd]. rewrite gs_remove_player_ok. cbn [fst snd].
  cbn [GameRoom.players GameRoom.set_players GameRoom.set_game_state
       GameRoom.creator_id].
  rewrite Hc. unfold vacated.
  destruct (dict_del (GameRoom.players r) pid) eqn:E; [easy|].
  cbn [fst snd]. rewrite Ec. reflexivity.
Qed.

Lemma send_varied_ok (r : GameRoom.t) (l : dict GameRoom.player_info)
      (msg_for : string * GameRoom.player_info -> message) e :
  exists e',
    for_each l
      (fun entry =>
         bind (GameRoom.env (GameProtocol.send_message
                               (GameRoom.socket (snd entry)) (msg_for entry)))
              (fun _ => ret tt)) (r, e)
    = (Ok tt, (r, e')).
Proof.
  revert e. induction l as [|entry l IH]; intros e; [now exists e|].
  cbn [for_each]. unfold bind at 1 2.
  unfold GameRoom.env, zoom. cbn [fst snd].
  destruct (send_message_ok (GameRoom.socket (snd entry)) (msg_for entry) e)
    as [b E].
  rewrite E. cbn [fst snd]. unfold ret at 1. apply IH.
Qed.

Lemma notify_creator_change_ok r e :
  exists e', GameRoom.notify_creator_change (r, e) = (Ok tt, (r, e')).
Proof.
  unfold GameRoom.notify_creator_change, bind at 1, GameRoom.self, zoom, get.
  cbn [fst snd].
  apply (send_varied_ok r (GameRoom.players r)
           (fun entry =>
              GameProtocol.create_message MessageType.ROOM_JOINED "SERVER"
                (DRoomJoined (GameRoom.room_id r) (GameRoom.room_name r)
                   (map GameRoom.username (dict_values (GameRoom.players r)))
                   (opt_string_eqb (Some (fst entry))
                      (GameRoom.creator_id r))))).
Qed.

(** [remove_player], by cases. *)
Lemma remove_player_absent pid r e :
  dict_mem (GameRoom.players r) pid = false ->
  GameRoom.remove_player pid (r, e) = (Raise UnboundLocalError, (r, e)).
Proof.
  intros H. unfold GameRoom.remove_player, bind.
  now rewrite (remove_member_absent pid r e H).
Qed.

Lemma remove_player_last pid r e :
  dict_mem (GameRoom.players r) pid = true ->
  dict_del (GameRoom.players r) pid = [] ->
  GameRoom.remove_player pid (r, e) = (Ok true, (emptied pid r, e)).
Proof.
  intros H Hd. unfold GameRoom.remove_player, bind.
  now rewrite (remove_member_last pid r e H Hd).
Qed.

Lemma remove_player_other pid r e :
  dict_mem (GameRoom.players r) pid = true ->
  dict_del (GameRoom.players r) pid <> [] ->
  opt_string_eqb (Some pid) (GameRoom.creator_id r) = false ->
  exists e',
    GameRoom.remove_player pid (r, e) = (Ok false, (vacated pid r, e')).
Proof.
  intros H Hd Hc. unfold GameRoom.remove_player. unfold bind at 1.
  rewrite (remove_member_other pid r e H Hd Hc).
  destruct (notify_creator_change_ok (vacated pid r) e) as [e' E].
  exists e'. unfold bind. now rewrite E.
Qed.

Lemma remove_player_creator pid r e :
  dict_mem (GameRoom.players r) pid = true ->
  dict_del (GameRoom.players r) pid <> [] ->
  opt_string_eqb (Some pid) (GameRoom.creator_id r) = true ->
  exists c e',
    In c (dict_keys (dict_del (GameRoom.players r) pid)) /\
    GameRoom.remove_player pid (r, e)
    = (Ok false, (GameRoom.set_creator_id (Some c) (vacated pid r), e')).
Proof.
  intros H Hd Hc. unfold GameRoom.remove_player. unfold bind at 1.
  destruct (remove_member_creator pid r e H Hd Hc) as (c & Hin & E).
  rewrite E.
  destruct (notify_creator_change_ok
              (GameRoom.set_creator_id (Some c) (vacated pid r))
              (set_rand (mkRng (draws (rand e)) (S (pos (rand e)))) e))
    as [e' E'].
  exists c, e'. split; [assumption|]. unfold bind. now rewrite E'.
Qed.

Lemma room_inv_same s s' :
  same_members s s' -> room_inv (fst s) -> room_inv (fst s').
Proof.
  intros (P & C & X). unfold room_inv. now rewrite P, C, X.
Qed.

Lemma opt_string_eqb_eq a b : opt_string_eqb (Some a) b = true <-> b = Some a.
Proof.
  destruct b as [b|]; cbn; [|split; discriminate].
  rewrite String.eqb_eq. split; congruence.
Qed.

Lemma remove_player_inv pid r e res r' e' :
  room_inv r ->
  GameRoom.remove_player pid (r, e) = (res, (r', e')) ->
  room_inv r'.
Proof.
  intros (Hlen & Hcr & Hne & Hnd) H.
  destruct (dict_mem (GameRoom.players r) pid) eqn:Hm.
  2:{ rewrite (remove_player_absent pid r e Hm) in H.
      injection H as _ <- _. now repeat split. }
  assert (Hlen' : Z.of_nat (List.length (dict_del (GameRoom.players r) pid))
                  <= GameRoom.max_players r).
  { pose proof (dict_del_length _ (GameRoom.players r) pid). lia. }
  assert (Hnd' := dict_del_nodup _ (GameRoom.players r) pid Hnd).
  destruct (dict_del (GameRoom.players r) pid) as [|x rest] eqn:Hd.
  { rewrite (remove_player_last pid r e Hm Hd) in H.
    injection H as _ <- _. unfold emptied, vacated, room_inv. cbn.
    rewrite Hd. repeat split; [assumption | discriminate | easy | constructor]. }
  assert (Hd' : dict_del (GameRoom.players r) pid <> [])
    by (rewrite Hd; discriminate).
  destruct (opt_string_eqb (Some pid) (GameRoom.creator_id r)) eqn:Hc.
  - destruct (remove_player_creator pid r e Hm Hd' Hc) as (c & e1 & Hin & E).
    rewrite E in H. injection H as _ <- _.
    unfold vacated, room_inv. cbn. rewrite Hd in *.
    repeat split; try assumption; try discriminate.
    now intros c' [= <-].
  - destruct (remove_player_other pid r e Hm Hd' Hc) as (e1 & E).
    rewrite E in H. injection H as _ <- _.
    unfold vacated, room_inv. cbn. rewrite <- Hd in *.
    repeat split; try assumption.
    + intros c Ec. apply dict_del_keys_other; [|auto].
      intros ->. rewrite Ec in Hc. cbn in Hc. now rewrite String.eqb_refl in Hc.
    + intros _. apply Hne. intros Hp. rewrite Hp in Hd'. now apply Hd'.
Qed.

Lemma returns_zoom S T A (P : A -> Prop) (prj : S -> T) (upd : T -> S -> S)
      (m : M T A) :
  returns P m -> returns P (zoom prj upd m).
Proof.
  intros H s a s'. unfold zoom. destruct (m (prj s)) as [r t] eqn:E.
  intros [= -> _]. eapply H; eassumption.
Qed.

Lemma add_player_inv pid info r e res r' e' :
  room_inv r ->
  GameRoom.add_player pid info (r, e) = (res, (r', e')) ->
  room_inv r'.
Proof.
  intros (Hlen & Hcr & Hne & Hnd) H.
  unfold GameRoom.add_player in H. unfold bind at 1 in H.
  unfold GameRoom.self at 1, zoom at 1, get in H. cbn [fst snd] in H.
  destruct (GameRoom.max_players r <=? _) eqn:Efull.
  { injection H as _ <- _. now repeat split. }
  destruct (dict_mem (GameRoom.players r) pid) eqn:Emem.
  { injection H as _ <- _. now repeat split. }
  apply Z.leb_gt in Efull.
  unfold bind at 1 2 in H.
  unfold GameRoom.self at 1 2, zoom at 1 2, modify in H. cbn [fst snd] in H.
  set (r1 := match GameRoom.creator_id _ with
             | Some _ => _
             | None => _
             end) in H.
  assert (Hinv1 : room_inv r1).
  { subst r1. cbn [GameRoom.creator_id GameRoom.set_players].
    assert (Hk := dict_set_keys_new _ (GameRoom.players r) pid info Emem).
    assert (Hl := dict_set_length_new _ (GameRoom.players r) pid info Emem).
    assert (Hd := dict_set_nodup_new _ (GameRoom.players r) pid info Emem Hnd).
    destruct (GameRoom.creator_id r) as [c|] eqn:Ec; unfold room_inv;
      cbn [GameRoom.players GameRoom.creator_id GameRoom.max_players
           GameRoom.set_players GameRoom.set_creator_id];
      rewrite Hk, Hl.
    - split; [lia|]. split.
      { intros c' Hc'. apply in_or_app. left. apply Hcr. congruence. }
      split; [intros _; rewrite Ec; discriminate|]. now rewrite <- Hk.
    - split; [lia|]. split.
      { intros c' [= <-]. apply in_or_app. right. now left. }
      split; [discriminate|]. now rewrite <- Hk. }
  unfold bind at 1 in H.
  destruct (GameRoom.state_rand _ (r1, e)) as [[ok|x] [r2 e2]] eqn:E2.
  - assert (Hs := keeps_members_state_rand _ _ _ _ _ E2).
    assert (Hok := returns_zoom _ _ _ _ _ _ _
                     (add_player_returns_true pid (GameRoom.username info))
                     _ _ _ E2).
    cbn in Hok. subst ok. injection H as _ <- _.
    apply (room_inv_same _ _ Hs Hinv1).
  - injection H as _ <- _.
    apply (room_inv_same _ _ (keeps_members_state_rand _ _ _ _ _ E2) Hinv1).
Qed.

(** ** The states a room can reach *)

Lemma room_init_fields rid name max g r g' :
  GameRoom.init rid name max g = (Ok r, g') ->
  GameRoom.players r = [] /\ GameRoom.creator_id r = None /\
  GameRoom.max_players r = max.
Proof.
  unfold GameRoom.init, bind, ret.
  destruct (GameState.init (40, 30) g) as [[gs|x] g1]; [|discriminate].
  intros [= <- _]. auto.
Qed.

Lemma room_step_inv s s' : room_step s s' -> room_inv (fst s) -> room_inv (fst s').
Proof.
  intros H Hinv. destruct H as
    [pid info [r e] res [r' e'] H | pid [r e] res [r' e'] H
     | pid s res s' H | pid s res s' H | s res s' H | pid d s res s' H
     | msg exclude s res s' H | r e e'].
  - exact (add_player_inv pid info r e res r' e' Hinv H).
  - exact (remove_player_inv pid r e res r' e' Hinv H).
  - exact (room_inv_same _ _ (keeps_members_start_game pid _ _ _ H) Hinv).
  - exact (room_inv_same _ _ (keeps_members_restart_game pid _ _ _ H) Hinv).
  - exact (room_inv_same _ _ (keeps_members_update_game _ _ _ H) Hinv).
  - exact (room_inv_same _ _ (keeps_members_direction pid d _ _ _ H) Hinv).
  - exact (room_inv_same _ _ (keeps_members_broadcast msg exclude _ _ _ H) Hinv).
  - exact Hinv.
Qed.

Lemma room_reachable_inv s : room_reachable s -> room_inv (fst s).
Proof.
  induction 1 as [rid name max g r g' e Hmax Hinit | s s' _ IH Hstep].
  - destruct (room_init_fields _ _ _ _ _ _ Hinit) as (P & C & X).
    unfold room_inv. cbn [fst]. rewrite P, C, X. cbn.
    repeat split; try easy. constructor.
  - exact (room_step_inv s s' Hstep IH).
Qed.

Lemma creators_at_most_one r :
  NoDup (dict_keys (GameRoom.players r)) -> (List.length (creators r) <= 1)%nat.
Proof.
  intros Hnd. unfold creators.
  destruct (GameRoom.creator_id r) as [c|]; cbn [opt_string_eqb].
  - now apply filter_key_le_one.
  - clear Hnd. induction (GameRoom.players r) as [|x l IH]; cbn; [lia | exact IH].
Qed.

(** The room part of C7. *)
Lemma room_membership_invariant s :
  room_reachable s ->
  Z.of_nat (List.length (GameRoom.players (fst s)))
  <= GameRoom.max_players (fst s) /\
  (List.length (creators (fst s)) <= 1)%nat /\
  (forall c, GameRoom.creator_id (fst s) = Some c ->
             dict_mem (GameRoom.players (fst s)) c = true).
Proof.
  intros H. destruct (room_reachable_inv s H) as (Hlen & Hcr & _ & Hnd).
  split; [assumption|]. split; [now apply creators_at_most_one|].
  intros c Hc. apply dict_mem_keys. now apply Hcr.
Qed.

Lemma creator_reelected r e pid :
  room_reachable (r, e) ->
  GameRoom.creator_id r = Some pid ->
  dict_del (GameRoom.players r) pid <> [] ->
  exists c e',
    In c (dict_keys (dict_del (GameRoom.players r) pid)) /\
    c <> pid /\
    GameRoom.remove_player pid (r, e)
    = (Ok false, (GameRoom.set_creator_id (Some c) (vacated pid r), e')).
Proof.
  intros Hreach Hc Hd.
  destruct (room_reachable_inv _ Hreach) as (_ & Hcr & _ & Hnd).
  cbn [fst] in *.
  assert (Hm : dict_mem (GameRoom.players r) pid = true).
  { apply dict_mem_keys. now apply Hcr. }
  assert (Hc' : opt_string_eqb (Some pid) (GameRoom.creator_id r) = true).
  { now apply opt_string_eqb_eq. }
  destruct (remove_player_creator pid r e Hm Hd Hc') as (c & e' & Hin & E).
  exists c, e'. split; [assumption|]. split; [|assumption].
  intros ->. exact (dict_del_gone _ _ _ Hnd Hin).
Qed.

(** ** The registry: room teardown *)

Section MoreDictFacts.
Variable V : Type.
Implicit Types (d : dict V) (k : string) (v : V).

Lemma dict_get_set_same d k v : dict_get (dict_set d k v) k = Some v.
Proof.
  induction d as [|[k' v'] d IH]; cbn.
  - now rewrite String.eqb_refl.
  - destruct (String.eqb k k') eqn:E; cbn.
    + now rewrite String.eqb_refl.
    + now rewrite E.
Qed.

Lemma dict_get_set_other d k k' v :
  k' <> k -> dict_get (dict_set d k v) k' = dict_get d k'.
Proof.
  intros N. induction d as [|[k0 v0] d IH]; cbn.
  - destruct (String.eqb_spec k' k); [congruence | reflexivity].
  - destruct (String.eqb_spec k k0) as [->|N0]; cbn.
    + destruct (String.eqb_spec k' k0); [congruence | reflexivity].
    + now rewrite IH.
Qed.

Lemma dict_get_del_other d k k' :
  k' <> k -> dict_get (dict_del d k) k' = dict_get d k'.
Proof.
  intros N. induction d as [|[k0 v0] d IH]; cbn; [reflexivity|].
  destruct (String.eqb_spec k k0) as [->|N0]; cbn.
  - destruct (String.eqb_spec k' k0); [congruence | reflexivity].
  - now rewrite IH.
Qed.

Lemma dict_set_keys_present d k v :
  dict_mem d k = true -> dict_keys (dict_set d k v) = dict_keys d.
Proof.
  unfold dict_mem, dict_keys.
  induction d as [|[k' v'] d IH]; cbn; [discriminate|].
  destruct (String.eqb_spec k k') as [->|N]; cbn; [reflexivity|].
  intros H. now rewrite IH.
Qed.

Lemma dict_get_none_keys d k : dict_get d k = None <-> ~ In k (dict_keys d).
Proof.
  rewrite <- dict_mem_false_keys. unfold dict_mem.
  destruct (dict_get d k); split; congruence.
Qed.
End MoreDictFacts.

Ltac srv_unfold :=
  unfold GameServer.self, GameServer.env, bind, ret, get, put, modify, when,
    zoom.

Lemma in_room_run A (m : M GameRoom.st A) rid s e room res room' e' :
  GameServer.rooms_get s rid = Some room ->
  m (room, e) = (res, (room', e')) ->
  GameServer.in_room rid m (s, e)
  = (res, (GameServer.rooms_put rid room' s, e')).
Proof.
  intros Hg Hm. unfold GameServer.in_room. cbn [fst snd].
  now rewrite Hg, Hm.
Qed.

Lemma same_rooms_refl w : same_rooms w w.
Proof. reflexivity. Qed.

Lemma same_rooms_trans a b c : same_rooms a b -> same_rooms b c -> same_rooms a c.
Proof. unfold same_rooms. congruence. Qed.

#[local] Hint Resolve same_rooms_refl same_rooms_trans : frame.

Lemma keeps_rooms_env A (m : M Env A) : keeps same_rooms (GameServer.env m).
Proof. apply keeps_zoom. reflexivity. Qed.

Lemma keeps_rooms_self_get : keeps same_rooms (GameServer.self get).
Proof.
  intros s res s'. unfold GameServer.self, zoom, get. intros [= _ <-].
  reflexivity.
Qed.

Lemma keeps_rooms_in_lobby A (m : M GameRoom.st A) :
  keeps same_rooms (GameServer.in_lobby m).
Proof.
  intros [s e] res w'. unfold GameServer.in_lobby, GameServer.in_room.
  cbn [fst snd]. unfold GameServer.rooms_get. cbn.
  destruct (m _) as [r [room' e']]. intros [= _ <-]. reflexivity.
Qed.

#[local] Hint Resolve keeps_rooms_env keeps_rooms_self_get
  keeps_rooms_in_lobby : frame.

Lemma keeps_rooms_list_message : keeps same_rooms GameServer.get_room_list_message.
Proof. unfold GameServer.get_room_list_message. frame. Qed.

#[local] Hint Resolve keeps_rooms_list_message : frame.

Lemma keeps_rooms_broadcast_list :
  keeps same_rooms GameServer.broadcast_room_list_to_lobby.
Proof. unfold GameServer.broadcast_room_list_to_lobby. frame. Qed.

(** No step of the lobby broadcast raises. *)
Lemma broadcast_room_list_ok s e :
  exists s' e',
    GameServer.broadcast_room_list_to_lobby (s, e) = (Ok tt, (s', e')) /\
    GameServer.rooms s' = GameServer.rooms s /\
    GameServer.players s' = GameServer.players s.
Proof.
  unfold GameServer.broadcast_room_list_to_lobby, bind at 1.
  unfold GameServer.get_room_list_message, bind at 1, GameServer.self, zoom,
    get, ret. cbn [fst snd].
  unfold GameServer.in_lobby.
  erewrite in_room_run; [| reflexivity | apply broadcast_message_ok].
  eexists _, _. split; [reflexivity|]. split; reflexivity.
Qed.

Lemma rooms_get_other s rid :
  rid <> "lobby" -> GameServer.rooms_get s rid = dict_get (GameServer.rooms s) rid.
Proof.
  intros N. unfold GameServer.rooms_get.
  destruct (String.eqb_spec rid "lobby"); [congruence | reflexivity].
Qed.

Lemma rooms_put_other s rid room :
  rid <> "lobby" ->
  GameServer.rooms_put rid room s
  = GameServer.set_rooms (dict_set (GameServer.rooms s) rid room) s.
Proof.
  intros N. unfold GameServer.rooms_put.
  destruct (String.eqb_spec rid "lobby"); [congruence | reflexivity].
Qed.

(** The departure of the last member of a room other than the lobby. *)
Lemma depart_last pid rid notice s e room :
  rid <> "lobby" ->
  dict_get (GameServer.rooms s) rid = Some room ->
  dict_mem (GameRoom.players room) pid = true ->
  dict_del (GameRoom.players room) pid = [] ->
  NoDup (dict_keys (GameServer.rooms s)) ->
  exists s',
    GameServer.depart_from pid rid notice (s, e) = (Ok tt, (s', e)) /\
    ~ In rid (dict_keys (GameServer.rooms s')) /\
    (forall k, k <> rid ->
               dict_get (GameServer.rooms s') k = dict_get (GameServer.rooms s) k) /\
    GameServer.players s' = GameServer.players s /\
    GameServer.lobby_room s' = GameServer.lobby_room s.
Proof.
  intros Hrid Hroom Hm Hd Hnd.
  set (em := emptied pid room).
  set (s1 := GameServer.rooms_put rid em s).
  set (s2 := GameServer.rooms_put rid em s1).
  exists (GameServer.set_rooms (dict_del (GameServer.rooms s2) rid) s2).
  assert (G1 : GameServer.rooms_get s1 rid = Some em).
  { subst s1. rewrite rooms_get_other, rooms_put_other by assumption.
    apply dict_get_set_same. }
  assert (Hpresent : dict_mem (GameServer.rooms s) rid = true).
  { unfold dict_mem. now rewrite Hroom. }
  assert (K1 : dict_keys (GameServer.rooms s1) = dict_keys (GameServer.rooms s)).
  { subst s1. rewrite rooms_put_other by assumption. cbn.
    now apply dict_set_keys_present. }
  assert (K2 : dict_keys (GameServer.rooms s2) = dict_keys (GameServer.rooms s)).
  { subst s2. rewrite rooms_put_other by assumption.
    cbn [GameServer.rooms GameServer.set_rooms].
    rewrite dict_set_keys_present; [assumption|].
    unfold dict_mem. rewrite rooms_get_other in G1 by assumption.
    now rewrite G1. }
  split; [|split; [|split; [|split]]].
  - unfold GameServer.depart_from. unfold bind at 1.
    unfold GameServer.self at 1, zoom at 1, get. cbn [fst snd].
    rewrite rooms_get_other, Hroom by assumption.
    unfold bind at 1.
    erewrite in_room_run;
      [| rewrite rooms_get_other by assumption; exact Hroom
       | apply (remove_player_last pid room e Hm Hd)].
    fold em. fold s1. unfold bind at 1.
    erewrite in_room_run; [| exact G1 | apply broadcast_message_ok].
    fold s2.
    assert (Hnone : recipients_of em None = []).
    { unfold recipients_of, em, emptied, vacated. cbn. now rewrite Hd. }
    rewrite Hnone. cbn [post andb].
    destruct (String.eqb_spec rid "lobby"); [congruence|].
    cbn [negb when]. unfold GameServer.self, zoom, modify. reflexivity.
  - cbn [GameServer.rooms GameServer.set_rooms].
    apply dict_del_gone. now rewrite K2.
  - intros k Hk. cbn [GameServer.rooms GameServer.set_rooms].
    rewrite dict_get_del_other by assumption.
    subst s2 s1. rewrite !rooms_put_other by assumption. cbn.
    now rewrite !dict_get_set_other by assumption.
  - subst s2 s1. rewrite !rooms_put_other by assumption. reflexivity.
  - subst s2 s1. rewrite !rooms_put_other by assumption. reflexivity.
Qed.

Lemma room_list_message_is s e :
  GameServer.get_room_list_message (s, e)
  = (Ok (GameProtocol.create_message MessageType.ROOM_LIST "SERVER"
           (DRoomList (listed_rooms s))), (s, e)).
Proof.
  unfold GameServer.get_room_list_message, bind, GameServer.self, zoom, get, ret.
  cbn [fst snd]. now destruct s.
Qed.

Lemma listed_rooms_from s info :
  In info (listed_rooms s) ->
  exists rid room,
    In (rid, room) (GameServer.rooms s) /\ info = GameRoom.get_room_info room.
Proof.
  unfold listed_rooms. intros H. apply in_map_iff in H as ([rid room] & E & H).
  apply filter_In in H as [H _]. exists rid, room. auto.
Qed.

(** The registry part of C7: when the last member of a room other than
    the lobby disconnects, the room leaves the directory. *)
Lemma last_member_tears_down s e pid p rid room :
  dict_get (GameServer.players s) pid = Some p ->
  GameServer.room_id p = Some rid ->
  rid <> "lobby" -> rid <> "" ->
  dict_get (GameServer.rooms s) rid = Some room ->
  dict_mem (GameRoom.players room) pid = true ->
  dict_del (GameRoom.players room) pid = [] ->
  NoDup (dict_keys (GameServer.rooms s)) ->
  exists s' e',
    GameServer.remove_player pid (s, e) = (Ok tt, (s', e')) /\
    GameServer.rooms_get s' rid = None /\
    ~ In rid (dict_keys (GameServer.rooms s')) /\
    (forall info, In info (listed_rooms s') ->
       exists rid' room',
         rid' <> rid /\ In (rid', room') (GameServer.rooms s') /\
         info = GameRoom.get_room_info room').
Proof.
  intros Hp Hrid Hnl Hne Hroom Hm Hd Hnd.
  set (s0 := GameServer.set_players (dict_del (GameServer.players s) pid) s).
  destruct (depart_last pid rid
              ("Игрок " ++ GameServer.username p ++ " покинул игру")%string
              s0 e room Hnl Hroom Hm Hd Hnd)
    as (s1 & E1 & Hgone & _ & _ & _).
  destruct (broadcast_room_list_ok s1 e) as (s2 & e2 & E2 & R2 & _).
  exists s2, e2.
  assert (Hgone2 : ~ In rid (dict_keys (GameServer.rooms s2)))
    by now rewrite R2.
  split; [|split; [|split]].
  - unfold GameServer.remove_player. unfold bind at 1.
    unfold GameServer.self at 1, zoom at 1, get. cbn [fst snd].
    rewrite Hp. unfold bind at 1.
    unfold GameServer.self at 1, zoom at 1, modify. cbn [fst snd].
    fold s0. rewrite Hrid. unfold bind at 1.
    unfold GameServer.truthy_id.
    destruct (String.eqb_spec rid ""); [congruence|].
    cbn [negb when]. rewrite E1. exact E2.
  - rewrite rooms_get_other by assumption. now apply dict_get_none_keys.
  - assumption.
  - intros info Hin.
    destruct (listed_rooms_from s2 info Hin) as (rid' & room' & Hin' & ->).
    exists rid', room'. split; [|auto].
    intros ->. apply Hgone2. unfold dict_keys.
    change rid with (fst (rid, room')). now apply in_map.
Qed.

Lemma keeps_rooms_set_players f :
  keeps same_rooms
    (GameServer.self (modify (fun s => GameServer.set_players (f s) s))).
Proof.
  intros s res s'. unfold GameServer.self, zoom, modify. intros [= _ <-].
  reflexivity.
Qed.

#[local] Hint Resolve keeps_rooms_set_players keeps_rooms_broadcast_list : frame.

Lemma keeps_rooms_the_player pid : keeps same_rooms (GameServer.the_player pid).
Proof. unfold GameServer.the_player. frame. Qed.

#[local] Hint Resolve keeps_rooms_the_player : frame.

Lemma keeps_rooms_set_room_of pid rid :
  keeps same_rooms (GameServer.set_room_of pid rid).
Proof.
  unfold GameServer.set_room_of. frame_step; [frame|].
  apply (keeps_rooms_set_players
           (fun s => dict_set (GameServer.players s) pid
                       (GameServer.mkPlayer (GameServer.username a)
                          (GameServer.socket a) (Some rid)))).
Qed.

Lemma keeps_rooms_send_to_player pid msg :
  keeps same_rooms (GameServer.send_message_to_player pid msg).
Proof. unfold GameServer.send_message_to_player. frame. Qed.

#[local] Hint Resolve keeps_rooms_set_room_of keeps_rooms_send_to_player : frame.

Lemma keeps_rooms_in_room_lobby A (m : M GameRoom.st A) :
  keeps same_rooms (GameServer.in_room "lobby" m).
Proof. apply keeps_rooms_in_lobby. Qed.

#[local] Hint Resolve keeps_rooms_in_room_lobby : frame.

(** The same when the last member leaves for the lobby (LEAVE_ROOM),
    whatever becomes of the rest of the move. *)
Lemma last_member_leaves s e pid p rid room :
  dict_get (GameServer.players s) pid = Some p ->
  GameServer.room_id p = Some rid ->
  rid <> "lobby" -> rid <> "" ->
  dict_get (GameServer.rooms s) rid = Some room ->
  dict_mem (GameRoom.players room) pid = true ->
  dict_del (GameRoom.players room) pid = [] ->
  NoDup (dict_keys (GameServer.rooms s)) ->
  forall res w',
    GameServer.handle_leave_room pid (s, e) = (res, w') ->
    GameServer.rooms_get (fst w') rid = None /\
    ~ In rid (dict_keys (GameServer.rooms (fst w'))).
Proof.
  intros Hp Hrid Hnl Hne Hroom Hm Hd Hnd res w' E.
  destruct (depart_last pid rid
              ("Игрок " ++ GameServer.username p ++ " покинул комнату")%string
              s e room Hnl Hroom Hm Hd Hnd)
    as (s1 & E1 & Hgone & _ & _ & _).
  assert (Hfinal : same_rooms (s1, e) w').
  { unfold GameServer.handle_leave_room, GameServer.move_player_to_room in E.
    unfold bind at 1 2 in E.
    unfold GameServer.the_player at 1, bind at 1, GameServer.self at 1,
      zoom at 1, get in E.
    cbn [fst snd] in E. rewrite Hp in E. unfold ret at 1 in E.
    rewrite Hrid in E. unfold bind at 1 in E.
    unfold GameServer.truthy_id in E.
    destruct (String.eqb_spec rid ""); [congruence|].
    destruct (String.eqb_spec rid "lobby"); [congruence|].
    cbn [negb andb when] in E. rewrite E1 in E.
    match type of E with
    | match ?m (s1, e) with _ => _ end = _ =>
        assert (K : keeps same_rooms m) by frame;
        destruct (m (s1, e)) as [[u|x] w1] eqn:E2
    end.
    - eapply same_rooms_trans; [exact (K _ _ _ E2)|].
      exact (keeps_rooms_broadcast_list _ _ _ E).
    - injection E as _ <-. exact (K _ _ _ E2). }
  unfold same_rooms in Hfinal. cbn [fst] in Hfinal.
  assert (Hgone' : ~ In rid (dict_keys (GameServer.rooms (fst w'))))
    by now rewrite Hfinal.
  split; [|assumption].
  rewrite rooms_get_other by assumption. now apply dict_get_none_keys.
Qed.

Lemma rooms_within_refl w : rooms_within w w.
Proof. intros k H. exact H. Qed.

Lemma rooms_within_trans a b c :
  rooms_within a b -> rooms_within b c -> rooms_within a c.
Proof. unfold rooms_within. auto. Qed.

#[local] Hint Resolve rooms_within_refl rooms_within_trans : frame.

Lemma keeps_within_of_same A (m : M GameServer.World A) :
  keeps same_rooms m -> keeps rooms_within m.
Proof.
  intros H s res s' E k Hk. unfold same_rooms in H.
  now rewrite (H s res s' E) in Hk.
Qed.

Lemma keeps_within_in_room A rid (m : M GameRoom.st A) :
  keeps rooms_within (GameServer.in_room rid m).
Proof.
  intros [s e] res w'. unfold GameServer.in_room. cbn [fst snd].
  destruct (GameServer.rooms_get s rid) as [room|] eqn:Eg.
  - destruct (m (room, e)) as [r [room' e']]. intros [= _ <-] k.
    cbn [fst]. unfold GameServer.rooms_put, GameServer.rooms_get in *.
    destruct (String.eqb rid "lobby");
      cbn [GameServer.rooms GameServer.set_rooms GameServer.set_lobby_room];
      [auto|].
    rewrite dict_set_keys_present; [auto|].
    unfold dict_mem. now rewrite Eg.
  - intros [= _ <-]. apply rooms_within_refl.
Qed.

#[local] Hint Resolve keeps_within_of_same keeps_within_in_room : frame.

(** The last member moves on to another room (JOIN_ROOM, LEAVE_ROOM):
    the room left behind is gone from the directory, whatever becomes of
    the rest of the move. *)
Lemma last_member_moves_on s e pid p rid room new_room_id room_name :
  dict_get (GameServer.players s) pid = Some p ->
  GameServer.room_id p = Some rid ->
  rid <> "lobby" -> rid <> "" -> new_room_id <> rid ->
  dict_get (GameServer.rooms s) rid = Some room ->
  dict_mem (GameRoom.players room) pid = true ->
  dict_del (GameRoom.players room) pid = [] ->
  NoDup (dict_keys (GameServer.rooms s)) ->
  forall res w',
    GameServer.move_player_to_room pid new_room_id room_name (s, e) = (res, w') ->
    GameServer.rooms_get (fst w') rid = None /\
    ~ In rid (dict_keys (GameServer.rooms (fst w'))).
Proof.
  intros Hp Hrid Hnl Hne Hnew Hroom Hm Hd Hnd res w' E.
  destruct (depart_last pid rid
              ("Игрок " ++ GameServer.username p ++ " покинул комнату")%string
              s e room Hnl Hroom Hm Hd Hnd)
    as (s1 & E1 & Hgone & _ & _ & _).
  assert (Hfinal : rooms_within (s1, e) w').
  { unfold GameServer.move_player_to_room in E.
    unfold bind at 1 in E.
    unfold GameServer.the_player at 1, bind at 1, GameServer.self at 1,
      zoom at 1, get in E.
    cbn [fst snd] in E. rewrite Hp in E. unfold ret at 1 in E.
    rewrite Hrid in E. unfold bind at 1 in E.
    unfold GameServer.truthy_id in E.
    destruct (String.eqb_spec rid ""); [congruence|].
    destruct (String.eqb_spec rid new_room_id); [congruence|].
    cbn [negb andb when] in E. rewrite E1 in E.
    match type of E with
    | ?m (s1, e) = _ =>
        assert (K : keeps rooms_within m) by frame
    end.
    exact (K _ _ _ E). }
  assert (Hgone' : ~ In rid (dict_keys (GameServer.rooms (fst w')))).
  { intros Hin. apply Hgone. exact (Hfinal rid Hin). }
  split; [|assumption].
  rewrite rooms_get_other by assumption. now apply dict_get_none_keys.
Qed.

(** ** Receiving *)

Lemma net_set_net s script e : net (set_net s script e) s = script.
Proof. cbn. now rewrite Nat.eqb_refl. Qed.

Section ReceiveFacts.
Variable loads : list Byte.byte -> option (dict pyval).

Lemma receive_closed s e :
  net e s = [] -> GameProtocol.receive_message loads s e = (Ok None, e).
Proof.
  intros H. unfold GameProtocol.receive_message, GameProtocol.recv, catch,
    bind, get, ret, raise. cbn beta iota.
  destruct (existsb (Nat.eqb s) (closed e)); [reflexivity|]. now rewrite H.
Qed.

(** On a socket this side has closed every read fails the same way. *)
Lemma receive_on_closed_socket s e :
  existsb (Nat.eqb s) (closed e) = true ->
  GameProtocol.receive_message loads s e = (Ok None, e).
Proof.
  intros H. unfold GameProtocol.receive_message, GameProtocol.recv, catch,
    bind, get, ret, raise. cbn beta iota. now rewrite H.
Qed.

Lemma receive_timeout s e rest :
  existsb (Nat.eqb s) (closed e) = false ->
  net e s = Timeout :: rest ->
  GameProtocol.receive_message loads s e = (Ok None, set_net s rest e).
Proof.
  intros Hc H. unfold GameProtocol.receive_message, GameProtocol.recv, catch,
    bind, get, ret, put, raise. cbn beta iota. now rewrite Hc, H.
Qed.

Lemma receive_reset s e rest :
  existsb (Nat.eqb s) (closed e) = false ->
  net e s = Reset :: rest ->
  GameProtocol.receive_message loads s e = (Ok None, set_net s rest e).
Proof.
  intros Hc H. unfold GameProtocol.receive_message, GameProtocol.recv, catch,
    bind, get, ret, put, raise. cbn beta iota. now rewrite Hc, H.
Qed.

(** A peer that has closed keeps the receive loop turning. *)
Lemma receive_loop_closed rounds pid sock s e :
  GameServer.running s = true ->
  net e sock = [] ->
  GameServer.receive_loop loads rounds pid sock (s, e) = (Ok false, (s, e)).
Proof.
  intros Hrun Hnet. induction rounds as [|n IH]; [reflexivity|].
  cbn [GameServer.receive_loop]. unfold bind at 1.
  unfold GameServer.self at 1, zoom at 1, get. cbn [fst snd].
  rewrite Hrun. cbn [negb]. unfold bind at 1.
  unfold GameServer.env at 1, zoom at 1. cbn [fst snd].
  rewrite (receive_closed sock e Hnet). cbn [fst snd].
  destruct s; exact IH.
Qed.

Lemma handle_client_never_returns rounds sock w pid w1 l :
  GameServer.authenticate loads sock (w, None) = (Ok (Some pid), (w1, l)) ->
  GameServer.running (fst w1) = true ->
  net (snd w1) sock = [] ->
  GameServer.handle_client loads rounds sock w = (Ok false, w1).
Proof.
  intros Hauth Hrun Hnet.
  unfold GameServer.handle_client, GameServer.serve. unfold bind at 1.
  rewrite Hauth. unfold GameServer.world, zoom. cbn [fst snd].
  destruct w1 as [s1 e1]. cbn [fst snd] in *.
  now rewrite (receive_loop_closed rounds pid sock s1 e1 Hrun Hnet).
Qed.
End ReceiveFacts.

(** *** What receiving leaves alone *)

Lemma same_but_net_refl e : same_but_net e e.
Proof. now repeat split. Qed.

Lemma same_but_net_trans a b c :
  same_but_net a b -> same_but_net b c -> same_but_net a c.
Proof. intros (A1 & A2 & A3) (B1 & B2 & B3). repeat split; congruence. Qed.

#[local] Hint Resolve same_but_net_refl same_but_net_trans : frame.

Lemma keeps_catch S (R : S -> S -> Prop) A (m : M S A) (h : exn -> M S A) :
  (forall a b c, R a b -> R b c -> R a c) ->
  keeps R m -> (forall x, keeps R (h x)) -> keeps R (catch m h).
Proof.
  intros Rt Hm Hh s res s'. unfold catch.
  destruct (m s) as [[a|x] s1] eqn:E.
  - intros [= _ <-]. eapply Hm; eassumption.
  - intros H. eapply Rt; [eapply Hm; eassumption | eapply Hh; eassumption].
Qed.

Lemma keeps_net_recv s n : keeps same_but_net (GameProtocol.recv s n).
Proof.
  intros e res e'. unfold GameProtocol.recv, bind, get, put, ret, raise.
  destruct (existsb (Nat.eqb s) (closed e));
    [intros [= _ <-]; now repeat split|].
  destruct (net e s) as [|[bytes| |] rest]; intros [= _ <-];
    now repeat split.
Qed.

#[local] Hint Resolve keeps_net_recv : frame.

Lemma keeps_net_unpack l : keeps same_but_net (GameProtocol.unpack_length l).
Proof. unfold GameProtocol.unpack_length. frame. Qed.

Lemma keeps_net_read_body rounds s length data :
  keeps same_but_net (GameProtocol.read_body rounds s length data).
Proof.
  revert data. induction rounds as [|n IH]; intros data;
    cbn [GameProtocol.read_body]; frame.
Qed.

#[local] Hint Resolve keeps_net_unpack keeps_net_read_body : frame.

Lemma keeps_net_receive loads s :
  keeps same_but_net (GameProtocol.receive_message loads s).
Proof.
  unfold GameProtocol.receive_message.
  apply keeps_catch; [eauto with frame | | intros; frame].
  frame.
Qed.

(** ** The handshake against a full lobby *)

Lemma bind_ok S A B (m : M S A) (k : A -> M S B) s a s' :
  m s = (Ok a, s') -> bind m k s = k a s'.
Proof. intros H. unfold bind. now rewrite H. Qed.

Lemma bind_raise S A B (m : M S A) (k : A -> M S B) s x s' :
  m s = (Raise x, s') -> bind m k s = (Raise x, s').
Proof. intros H. unfold bind. now rewrite H. Qed.

Lemma add_player_full pid info r e :
  GameRoom.max_players r <= Z.of_nat (List.length (GameRoom.players r)) ->
  GameRoom.add_player pid info (r, e)
  = (Ok (false, "Комната заполнена"), (r, e)).
Proof.
  intros H. apply Z.leb_le in H.
  unfold GameRoom.add_player, bind, GameRoom.self, zoom, get, ret.
  cbn [fst snd]. now rewrite H.
Qed.

Lemma dict_del_set_new (V : Type) (d : dict V) k v :
  dict_mem d k = false -> dict_del (dict_set d k v) k = d.
Proof.
  unfold dict_mem. induction d as [|[k' v'] d IH]; cbn.
  - now rewrite String.eqb_refl.
  - destruct (String.eqb k k') eqn:E; [discriminate|].
    cbn. rewrite E. intros H. now rewrite IH.
Qed.

Lemma dict_mem_false_get (V : Type) (d : dict V) k :
  dict_mem d k = false -> dict_get d k = None.
Proof. unfold dict_mem. now destruct (dict_get d k). Qed.

(** The registry-level removal of a player it does not know. *)
Lemma server_remove_absent pid s e :
  dict_get (GameServer.players s) pid = None ->
  GameServer.remove_player pid (s, e) = (Ok tt, (s, e)).
Proof.
  intros H. unfold GameServer.remove_player.
  erewrite bind_ok; [| reflexivity]. cbn [fst snd]. now rewrite H.
Qed.

Section FullLobby.
Variable loads : list Byte.byte -> option (dict pyval).
Variables (sock : sock) (s : GameServer.t) (e e1 : Env).
Variables (auth : dict pyval) (name : string).

Hypothesis Hrecv :
  GameProtocol.receive_message loads sock e = (Ok (Some auth), e1).
Hypothesis Htype : GameServer.msg_get auth "type" = PStr MessageType.AUTH.
Hypothesis Hdata : GameServer.msg_get auth "data" = PStr name.
Hypothesis Hname : name <> "".
Hypothesis Hunique :
  existsb (fun p => String.eqb (GameServer.username p) name)
          (dict_values (GameServer.players s)) = false.
Hypothesis Hfresh : dict_mem (GameServer.players s) (next_player_id s) = false.
Hypothesis Hfull :
  GameRoom.max_players (GameServer.lobby_room s)
  <= Z.of_nat (List.length (GameRoom.players (GameServer.lobby_room s))).

Lemma authenticate_full_lobby :
  GameServer.authenticate loads sock ((s, e), None)
  = (Ok None, ((turned_away sock s name, e1), Some (next_player_id s))).
Proof.
  unfold GameServer.authenticate.
  erewrite bind_ok;
    [| unfold GameServer.world, GameServer.env, zoom; cbn [fst snd];
       rewrite Hrecv; reflexivity].
  destruct auth as [|field rest] eqn:Eauth; [discriminate|].
  rewrite <- Eauth in *. rewrite Htype.
  change (negb (pyval_eqb (PStr MessageType.AUTH) (PStr MessageType.AUTH)))
    with false. cbn iota.
  rewrite Hdata.
  assert (Ht : truthy (PStr name) = true).
  { cbn. apply negb_true_iff. now apply String.eqb_neq. }
  rewrite Ht. cbn [negb].
  erewrite bind_ok; [| reflexivity]. cbn [fst snd].
  rewrite Hunique.
  erewrite bind_ok; [| reflexivity].
  erewrite bind_ok; [| reflexivity].
  erewrite bind_ok; [| reflexivity].
  erewrite bind_ok;
    [| unfold GameServer.world, zoom, GameServer.in_lobby; cbn [fst snd];
       erewrite in_room_run;
         [reflexivity | reflexivity | apply add_player_full; exact Hfull]].
  cbn [negb].
  erewrite bind_ok; [| reflexivity].
  unfold ret, turned_away, GameServer.rooms_put.
  cbn [String.eqb Ascii.eqb Bool.eqb fst snd].
  cbn [GameServer.players GameServer.set_players GameServer.set_lobby_room
       GameServer.set_player_counter GameServer.lobby_room GameServer.rooms
       GameServer.running GameServer.player_counter GameServer.room_counter].
  fold (next_player_id s).
  now rewrite (dict_del_set_new _ _ _ _ Hfresh).
Qed.

Lemma next_player_id_truthy :
  GameServer.truthy_id (Some (next_player_id s)) = true.
Proof. reflexivity. Qed.

Lemma handle_client_full_lobby rounds :
  GameServer.handle_client loads rounds sock (s, e)
  = (Ok true, (turned_away sock s name, set_closed (sock :: closed e1) e1)).
Proof.
  assert (Hgone : dict_get (GameServer.players (turned_away sock s name)) (next_player_id s)
                  = None).
  { unfold turned_away. cbn [GameServer.players GameServer.set_players].
    now apply dict_mem_false_get. }
  unfold GameServer.handle_client, GameServer.serve.
  erewrite bind_ok; [| apply authenticate_full_lobby].
  unfold ret at 1. unfold GameServer.cleanup.
  erewrite bind_ok; [| reflexivity]. cbn beta iota.
  rewrite next_player_id_truthy. cbn [when].
  erewrite bind_ok;
    [| unfold GameServer.world, zoom; cbn [fst snd];
       rewrite (server_remove_absent _ _ _ Hgone); reflexivity].
  reflexivity.
Qed.
End FullLobby.

(** ** The clock: scheduler ticks and MOVE messages *)

Lemma dict_set_set (V : Type) (d : dict V) k v v' :
  dict_set (dict_set d k v) k v' = dict_set d k v'.
Proof.
  induction d as [|[k' x] d IH]; cbn.
  - now rewrite String.eqb_refl.
  - destruct (String.eqb k k') eqn:E; cbn.
    + now rewrite String.eqb_refl.
    + now rewrite E, IH.
Qed.

Lemma rooms_get_put_same rid room s :
  GameServer.rooms_get (GameServer.rooms_put rid room s) rid = Some room.
Proof.
  unfold GameServer.rooms_get, GameServer.rooms_put.
  destruct (String.eqb rid "lobby"); cbn; [reflexivity|].
  apply dict_get_set_same.
Qed.

Lemma rooms_put_put rid r1 r2 s :
  GameServer.rooms_put rid r2 (GameServer.rooms_put rid r1 s)
  = GameServer.rooms_put rid r2 s.
Proof.
  unfold GameServer.rooms_put.
  destruct (String.eqb rid "lobby"); cbn; [reflexivity|].
  unfold GameServer.set_rooms. cbn. now rewrite dict_set_set.
Qed.

(** A method called on a room object changes no other room. *)
Lemma in_room_other_rooms A (m : M GameRoom.st A) rid s e res s' e' :
  GameServer.in_room rid m (s, e) = (res, (s', e')) ->
  forall k, k <> rid ->
            dict_get (GameServer.rooms s') k = dict_get (GameServer.rooms s) k.
Proof.
  unfold GameServer.in_room. cbn [fst snd].
  destruct (GameServer.rooms_get s rid) as [room|].
  - destruct (m (room, e)) as [r [room' e1]]. intros [= _ <- _] k Hk.
    unfold GameServer.rooms_put.
    destruct (String.eqb rid "lobby"); cbn; [reflexivity|].
    now apply dict_get_set_other.
  - now intros [= _ <- _].
Qed.

Lemma tick_rooms_spec listed w :
  NoDup listed ->
  GameServer.tick_rooms listed w
  = for_each (filter (due (fst w)) listed) tick_one w.
Proof.
  intros Hnd. revert w.
  induction Hnd as [|rid rest Hnotin Hnd IH]; intros [s e]; [reflexivity|].
  cbn [GameServer.tick_rooms filter fst].
  erewrite bind_ok; [| reflexivity]. cbn [fst snd].
  unfold due at 1.
  destruct (dict_get (GameServer.rooms s) rid) as [room|] eqn:Eroom.
  2:{ erewrite bind_ok; [| reflexivity]. apply (IH (s, e)). }
  destruct (negb (String.eqb rid "lobby") && GameRoom.game_active room) eqn:Edue.
  2:{ erewrite bind_ok; [| reflexivity]. apply (IH (s, e)). }
  cbn [when for_each]. fold (tick_one rid).
  unfold bind.
  destruct (tick_one rid (s, e)) as [[u|x] [s1 e1]] eqn:Etick; [|reflexivity].
  rewrite (IH (s1, e1)). cbn [fst].
  f_equal. apply filter_ext_in. intros k Hk. unfold due.
  rewrite (in_room_other_rooms _ _ _ _ _ _ _ _ Etick); [reflexivity|].
  intros ->. contradiction.
Qed.

Lemma in_room_bind A B (m : M GameRoom.st A) (k : A -> M GameRoom.st B)
      rid s e room :
  GameServer.rooms_get s rid = Some room ->
  GameServer.in_room rid (bind m k) (s, e)
  = bind (GameServer.in_room rid m) (fun a => GameServer.in_room rid (k a)) (s, e).
Proof.
  intros Hg. unfold GameServer.in_room at 1 2, bind. cbn [fst snd].
  rewrite Hg. destruct (m (room, e)) as [[a|x] [room' e']]; [|reflexivity].
  unfold GameServer.in_room. cbn [fst snd].
  rewrite rooms_get_put_same.
  destruct (k a (room', e')) as [r [room'' e'']].
  now rewrite rooms_put_put.
Qed.

Lemma game_room_of_some s pid rid u room :
  GameServer.game_room_of s pid = Some (rid, u, room) ->
  GameServer.rooms_get s rid = Some room.
Proof.
  unfold GameServer.game_room_of.
  destruct (dict_get (GameServer.players s) pid) as [p|]; [|discriminate].
  destruct (GameServer.room_id p) as [r|]; [|discriminate].
  destruct (negb _ || _); [discriminate|].
  destruct (GameServer.rooms_get s r) as [room'|] eqn:E; [|discriminate].
  now intros [= <- _ <-].
Qed.

(** What a MOVE does in a running room: it records the direction and
    then advances the room once, as a scheduler tick would. *)
Lemma handle_player_move_ticks s e pid message rid u room :
  GameServer.game_room_of s pid = Some (rid, u, room) ->
  GameRoom.game_active room = true ->
  GameServer.handle_player_move pid message (s, e)
  = bind (GameServer.in_room rid
            (GameRoom.self
               (GameRoom.state
                  (GameState.update_player_direction pid
                     (GameServer.msg_get message "data")))))
         (fun _ => tick_one rid) (s, e).
Proof.
  intros Hroom Hact. unfold GameServer.handle_player_move.
  erewrite bind_ok; [| reflexivity]. cbn [fst snd].
  rewrite Hroom, Hact. cbn [when].
  apply in_room_bind with (room := room).
  exact (game_room_of_some _ _ _ _ _ Hroom).
Qed.

Lemma handle_player_move_idle s e pid message :
  match GameServer.game_room_of s pid with
  | Some (_, _, room) => GameRoom.game_active room = false
  | None => True
  end ->
  GameServer.handle_player_move pid message (s, e) = (Ok tt, (s, e)).
Proof.
  intros H. unfold GameServer.handle_player_move.
  erewrite bind_ok; [| reflexivity]. cbn [fst snd].
  destruct (GameServer.game_room_of s pid) as [[[rid u] room]|]; [|reflexivity].
  now rewrite H.
Qed.

(** C1 (amended).  One firing of the scheduler advances every active
    room other than the lobby exactly once, in directory order, and no
    other room; besides, a MOVE of a player whose room is such a room
    records the direction and at once advances that room by one more
    step of the same kind; any other MOVE changes nothing. *)
Theorem clock_is_scheduler_and_moves :
  (forall w,
      NoDup (dict_keys (GameServer.rooms (fst w))) ->
      GameServer.game_loop_tick w
      = for_each (filter (due (fst w)) (dict_keys (GameServer.rooms (fst w))))
                 tick_one w) /\
  (forall s e pid message rid u room,
      GameServer.game_room_of s pid = Some (rid, u, room) ->
      GameRoom.game_active room = true ->
      GameServer.handle_player_move pid message (s, e)
      = bind (GameServer.in_room rid
                (GameRoom.self
                   (GameRoom.state
                      (GameState.update_player_direction pid
                         (GameServer.msg_get message "data")))))
             (fun _ => tick_one rid) (s, e)) /\
  (forall s e pid message,
      match GameServer.game_room_of s pid with
      | Some (_, _, room) => GameRoom.game_active room = false
      | None => True
      end ->
      GameServer.handle_player_move pid message (s, e) = (Ok tt, (s, e))).
Proof.
  split; [|split].
  - intros [s e] Hnd. unfold GameServer.game_loop_tick.
    erewrite bind_ok; [| reflexivity]. cbn [fst snd].
    now apply tick_rooms_spec.
  - exact handle_player_move_ticks.
  - exact handle_player_move_idle.
Qed.

(** *** Fixtures: a room of two, a server with one client *)

(** C1, as stated, fails: with no firing of the scheduler in between, a
    MOVE of the player in a running room moves the snake by a cell. *)
Lemma move_advances_simulation :
  GameServer.process_client_message "player_1"
    (envelope "move" (PStr "DOWN")) playing = (Ok false, moved_down) /\
  snake_cells playing "room_1" "player_1" = Some [(36, 12)] /\
  snake_cells moved_down "room_1" "player_1" = Some [(36, 13)].
Proof. split; [|split]; vm_compute; reflexivity. Qed.

Lemma clock_is_scheduler_and_moves_witness :
  GameServer.game_room_of (fst playing) "player_1"
  = Some ("room_1", "ann",
          match dict_get (GameServer.rooms (fst playing)) "room_1" with
          | Some room => room
          | None => blank_room
          end) /\
  GameServer.handle_player_move "player_1" (envelope "move" (PStr "DOWN"))
    (fst playing, snd playing)
  = bind (GameServer.in_room "room_1"
            (GameRoom.self
               (GameRoom.state
                  (GameState.update_player_direction "player_1"
                     (GameServer.msg_get (envelope "move" (PStr "DOWN"))
                        "data")))))
         (fun _ => tick_one "room_1") (fst playing, snd playing).
Proof.
  split; [vm_compute; reflexivity|].
  apply (proj1 (proj2 clock_is_scheduler_and_moves) (fst playing) (snd playing)
           "player_1" (envelope "move" (PStr "DOWN")) "room_1" "ann"
           match dict_get (GameServer.rooms (fst playing)) "room_1" with
           | Some room => room
           | None => blank_room
           end).
  - vm_compute. reflexivity.
  - vm_compute. reflexivity.
Defined.

(** C2: a closed peer, a timed-out read, a reset and an undecodable body
    all give the caller the same [None]. *)
Theorem receive_message_one_failure_value :
  forall loads s e rest,
    fst (GameProtocol.receive_message loads s (set_net s [] e)) = Ok None /\
    fst (GameProtocol.receive_message loads s (set_net s (Timeout :: rest) e))
    = Ok None /\
    fst (GameProtocol.receive_message loads s (set_net s (Reset :: rest) e))
    = Ok None /\
    fst (GameProtocol.receive_message toy_loads 7%nat (wire [one_byte_frame x2a]))
    = Ok None.
Proof.
  intros loads s e rest. split; [|split; [|split]].
  - now rewrite (receive_closed loads s _ (net_set_net s [] e)).
  - destruct (existsb (Nat.eqb s) (closed e)) eqn:Hc.
    + now rewrite (receive_on_closed_socket loads s
                     (set_net s (Timeout :: rest) e) Hc).
    + now rewrite (receive_timeout loads s (set_net s (Timeout :: rest) e)
                     rest Hc (net_set_net s _ e)).
  - destruct (existsb (Nat.eqb s) (closed e)) eqn:Hc.
    + now rewrite (receive_on_closed_socket loads s
                     (set_net s (Reset :: rest) e) Hc).
    + now rewrite (receive_reset loads s (set_net s (Reset :: rest) e)
                     rest Hc (net_set_net s _ e)).
  - vm_compute. reflexivity.
Qed.

(** C3: after a completed handshake the peer closes; for every number
    of rounds the session is still in its receive loop, its player still
    registered and its socket still open. *)
Theorem session_never_ends_after_peer_close :
  forall rounds,
    GameServer.handle_client toy_loads rounds 7%nat
      (fresh_server, wire [one_byte_frame x01])
    = (Ok false, greeted) /\
    dict_mem (GameServer.players (fst greeted)) "player_1" = true /\
    closed (snd greeted) = [].
Proof.
  intros rounds. split; [|split; reflexivity].
  apply (handle_client_never_returns toy_loads rounds 7%nat
           (fresh_server, wire [one_byte_frame x01]) "player_1" greeted
           (Some "player_1")).
  - vm_compute. reflexivity.
  - reflexivity.
  - reflexivity.
Qed.

(** C9: the room-level removal of a player who has already been
    removed raises; the state is as it was. *)
Theorem second_room_removal_raises :
  GameRoom.remove_player "player_2" two_members
  = (Ok false, after_first_removal) /\
  dict_mem (GameRoom.players (fst after_first_removal)) "player_2" = false /\
  GameRoom.remove_player "player_2" after_first_removal
  = (Raise UnboundLocalError, after_first_removal).
Proof. split; [|split]; vm_compute; reflexivity. Qed.

(** C6, as stated, fails: two players joined the run; one left, the
    other then died at the wall.  With N = 2 players ever joined and
    nobody alive the claim announces a draw; the code counts the one
    snake still there and ends a single-player run. *)
Lemma departed_player_is_not_counted :
  List.length (GameState.snakes (GameRoom.game_state (fst two_members)))
  = 2%nat /\
  fst (bind (GameRoom.remove_player "player_2")
         (fun _ =>
            bind GameRoom.update_game
              (fun _ => bind GameRoom.update_game (fun _ => GameRoom.update_game)))
         two_members) = Ok tt /\
  GameRoom.game_active (fst lone_at_wall) = true /\
  (exists final,
      GameRoom.step_and_judge lone_at_wall
      = (Ok (Some (SinglePlayer 0)), final) /\
      GameRoom.alive_snakes (GameRoom.game_state (fst final)) = [] /\
      GameRoom.game_active (fst final) = false).
Proof.
  split; [reflexivity|]. split; [vm_compute; reflexivity|].
  split; [reflexivity|].
  eexists. split; [vm_compute; reflexivity|]. split; reflexivity.
Qed.

Lemma end_condition_detection_witness :
  (GameRoom.game_active (fst two_at_wall) = true /\
   exists r1 e1 s info,
     GameRoom.state_rand GameState.update_movement
       (fst two_at_wall, snd two_at_wall) = (Ok tt, (r1, e1)) /\
     List.length (GameState.snakes (GameRoom.game_state r1)) = 2%nat /\
     GameRoom.alive_snakes (GameRoom.game_state r1) = [("player_2", s)] /\
     dict_get (GameRoom.players (fst two_at_wall)) "player_2" = Some info /\
     GameRoom.step_and_judge (fst two_at_wall, snd two_at_wall)
     = (Ok (Some (Winner "player_2" (GameRoom.username info) (Snake.score s))),
        (stopped r1, e1)) /\
     GameRoom.game_active (stopped r1) = false /\
     GameState.game_active (GameRoom.game_state (stopped r1)) = false /\
     GameRoom.update_game (fst two_at_wall, snd two_at_wall)
     = (Ok tt,
        (stopped r1,
         post (recipients_of (stopped r1) None) (game_state_msg (stopped r1))
           (post (recipients_of (stopped r1) None)
              (game_over_msg
                 (Winner "player_2" (GameRoom.username info) (Snake.score s)))
              e1)))) /\
  (GameRoom.game_active (fst lone_at_wall) = true /\
   exists r1 e1 pid s,
     GameRoom.state_rand GameState.update_movement
       (fst lone_at_wall, snd lone_at_wall) = (Ok tt, (r1, e1)) /\
     GameState.snakes (GameRoom.game_state r1) = [(pid, s)] /\
     GameRoom.alive_snakes (GameRoom.game_state r1) = [] /\
     GameRoom.step_and_judge (fst lone_at_wall, snd lone_at_wall)
     = (Ok (Some (SinglePlayer (Snake.score s))), (stopped r1, e1)) /\
     GameRoom.game_active (stopped r1) = false /\
     GameState.game_active (GameRoom.game_state (stopped r1)) = false /\
     GameRoom.update_game (fst lone_at_wall, snd lone_at_wall)
     = (Ok tt,
        (stopped r1,
         post (recipients_of (stopped r1) None) (game_state_msg (stopped r1))
           (post (recipients_of (stopped r1) None)
              (game_over_msg (SinglePlayer (Snake.score s))) e1)))).
Proof.
  split.
  - split; [reflexivity|].
    destruct (end_condition_detection (fst two_at_wall) (snd two_at_wall))
      as (r1 & e1 & E & Hwin & _ & _ & _ & U).
    + reflexivity.
    + split; [reflexivity|]. split; [reflexivity|].
      repeat constructor; discriminate.
    + intros pid [<-|[<-|[]]]; reflexivity.
    + pose proof E as E0. vm_compute in E0. injection E0 as <- <-.
      destruct (Hwin ltac:(cbn; lia) eq_refl) as (pid & s & info & Ea & Hi & J).
      injection Ea as <- <-.
      eexists _, _, _, info.
      split; [exact E|]. split; [reflexivity|]. split; [reflexivity|].
      split; [exact Hi|]. split; [exact J|].
      split; [reflexivity|]. split; [reflexivity|].
      exact (U _ _ _ J).
  - split; [reflexivity|].
    destruct (end_condition_detection (fst lone_at_wall) (snd lone_at_wall))
      as (r1 & e1 & E & _ & _ & Hsingle & _ & U).
    + reflexivity.
    + split; [reflexivity|]. split; [reflexivity|].
      repeat constructor; discriminate.
    + intros pid [<-|[]]; reflexivity.
    + pose proof E as E0. vm_compute in E0. injection E0 as <- <-.
      destruct (Hsingle eq_refl eq_refl) as (pid & s & Es & J).
      eexists _, _, pid, s.
      split; [exact E|]. split; [exact Es|]. split; [reflexivity|].
      split; [exact J|].
      split; [reflexivity|]. split; [reflexivity|].
      exact (U _ _ _ J).
Defined.

(** ** C7 and C10 *)

Lemma server_init_lobby g s g' :
  GameServer.init g = (Ok s, g') ->
  GameRoom.max_players (GameServer.lobby_room s) = 50 /\
  GameRoom.players (GameServer.lobby_room s) = [].
Proof.
  unfold GameServer.init, bind, ret.
  destruct (GameRoom.init "lobby" "Лобби" 50 g) as [[lobby|x] g1] eqn:E;
    [|discriminate].
  intros [= <- _]. cbn.
  destruct (room_init_fields _ _ _ _ _ _ E) as (P & _ & X). auto.
Qed.

(** C7.  In every state a room can reach it has at most [max_players]
    members, tells at most one member to be the creator, and its creator
    is a member; removing the creator while members remain elects one of
    them; when the last member of a room other than the lobby disconnects
    or moves to another room or to the lobby, the room leaves the
    directory and the room list. *)
Theorem creator_invariant_and_reelection :
  (forall s,
      room_reachable s ->
      Z.of_nat (List.length (GameRoom.players (fst s)))
      <= GameRoom.max_players (fst s) /\
      (List.length (creators (fst s)) <= 1)%nat /\
      (forall c, GameRoom.creator_id (fst s) = Some c ->
                 dict_mem (GameRoom.players (fst s)) c = true)) /\
  (forall r e pid,
      room_reachable (r, e) ->
      GameRoom.creator_id r = Some pid ->
      dict_del (GameRoom.players r) pid <> [] ->
      exists c e',
        In c (dict_keys (dict_del (GameRoom.players r) pid)) /\
        c <> pid /\
        GameRoom.remove_player pid (r, e)
        = (Ok false, (GameRoom.set_creator_id (Some c) (vacated pid r), e'))) /\
  (forall s e pid p rid room,
      dict_get (GameServer.players s) pid = Some p ->
      GameServer.room_id p = Some rid ->
      rid <> "lobby" -> rid <> "" ->
      dict_get (GameServer.rooms s) rid = Some room ->
      dict_mem (GameRoom.players room) pid = true ->
      dict_del (GameRoom.players room) pid = [] ->
      NoDup (dict_keys (GameServer.rooms s)) ->
      (exists s' e',
          GameServer.remove_player pid (s, e) = (Ok tt, (s', e')) /\
          GameServer.rooms_get s' rid = None /\
          ~ In rid (dict_keys (GameServer.rooms s')) /\
          (forall info, In info (listed_rooms s') ->
             exists rid' room',
               rid' <> rid /\ In (rid', room') (GameServer.rooms s') /\
               info = GameRoom.get_room_info room')) /\
      (forall new_room_id room_name res w',
          new_room_id <> rid ->
          GameServer.move_player_to_room pid new_room_id room_name (s, e)
          = (res, w') ->
          GameServer.rooms_get (fst w') rid = None /\
          ~ In rid (dict_keys (GameServer.rooms (fst w')))) /\
      (forall res w',
          GameServer.handle_leave_room pid (s, e) = (res, w') ->
          GameServer.rooms_get (fst w') rid = None /\
          ~ In rid (dict_keys (GameServer.rooms (fst w'))))).
Proof.
  split; [exact room_membership_invariant|].
  split; [exact creator_reelected|].
  intros s e pid p rid room Hp Hrid Hnl Hne Hroom Hm Hd Hnd.
  split; [|split].
  - exact (last_member_tears_down s e pid p rid room Hp Hrid Hnl Hne Hroom Hm
             Hd Hnd).
  - intros new_room_id room_name res w' Hnew.
    exact (last_member_moves_on s e pid p rid room new_room_id room_name Hp
             Hrid Hnl Hne Hnew Hroom Hm Hd Hnd res w').
  - exact (last_member_leaves s e pid p rid room Hp Hrid Hnl Hne Hroom Hm Hd
             Hnd).
Qed.

Lemma two_members_reachable : room_reachable two_members.
Proof.
  apply (reach_step two_idle).
  - apply (reach_step one_member).
    + apply (reach_step (arena, quiet)).
      * apply (reach_new "room_1" "Arena" 4 steady arena
                 (snd (GameRoom.init "room_1" "Arena" 4 steady)) quiet);
          [lia | vm_compute; reflexivity].
      * apply (step_add_player "player_1" (GameRoom.mkInfo "ann" 1%nat)
                 (arena, quiet)
                 (fst (GameRoom.add_player "player_1"
                         (GameRoom.mkInfo "ann" 1%nat) (arena, quiet)))).
        vm_compute. reflexivity.
    + apply (step_add_player "player_2" (GameRoom.mkInfo "bob" 2%nat)
               one_member
               (fst (GameRoom.add_player "player_2"
                       (GameRoom.mkInfo "bob" 2%nat) one_member))).
      vm_compute. reflexivity.
  - apply (step_start_game "player_1" two_idle
             (fst (GameRoom.self (GameRoom.start_game "player_1") two_idle))).
    vm_compute. reflexivity.
Qed.

Lemma creator_invariant_and_reelection_witness :
  GameRoom.creator_id (fst two_members) = Some "player_1" /\
  exists c e',
    In c (dict_keys (dict_del (GameRoom.players (fst two_members)) "player_1")) /\
    c <> "player_1" /\
    GameRoom.remove_player "player_1" (fst two_members, snd two_members)
    = (Ok false,
       (GameRoom.set_creator_id (Some c) (vacated "player_1" (fst two_members)),
        e')).
Proof.
  split; [reflexivity|].
  apply (proj1 (proj2 creator_invariant_and_reelection)
           (fst two_members) (snd two_members) "player_1").
  - exact two_members_reachable.
  - reflexivity.
  - discriminate.
Defined.

(** C10.  The lobby is built with room for 50.  When it holds 50
    members, a client that sends a well-formed AUTH with a fresh,
    non-empty name is turned away: the call returns, the directory, the
    lobby and the rooms are as before, nothing has been sent to anyone,
    and the socket is closed. *)
Theorem full_lobby_turns_client_away :
  (forall g s g',
      GameServer.init g = (Ok s, g') ->
      GameRoom.max_players (GameServer.lobby_room s) = 50) /\
  (forall loads sock s e e1 auth name rounds,
      GameProtocol.receive_message loads sock e = (Ok (Some auth), e1) ->
      GameServer.msg_get auth "type" = PStr MessageType.AUTH ->
      GameServer.msg_get auth "data" = PStr name ->
      name <> "" ->
      existsb (fun p => String.eqb (GameServer.username p) name)
              (dict_values (GameServer.players s)) = false ->
      dict_mem (GameServer.players s) (next_player_id s) = false ->
      GameRoom.max_players (GameServer.lobby_room s) = 50 ->
      List.length (GameRoom.players (GameServer.lobby_room s)) = 50%nat ->
      exists s',
        GameServer.handle_client loads rounds sock (s, e)
        = (Ok true, (s', set_closed (sock :: closed e1) e1)) /\
        GameServer.players s' = GameServer.players s /\
        GameServer.lobby_room s' = GameServer.lobby_room s /\
        GameServer.rooms s' = GameServer.rooms s /\
        outbox e1 = outbox e).
Proof.
  split.
  - intros g s g' H. exact (proj1 (server_init_lobby g s g' H)).
  - intros loads sock s e e1 auth name rounds Hrecv Htype Hdata Hname Hunique
           Hfresh Hmax Hlen.
    exists (turned_away sock s name).
    split; [|split; [|split; [|split]]]; try reflexivity.
    + apply (handle_client_full_lobby loads sock s e e1 auth name Hrecv Htype
               Hdata Hname Hunique Hfresh).
      rewrite Hmax, Hlen. reflexivity.
    + exact (proj1 (keeps_net_receive loads sock e _ e1 Hrecv)).
Qed.

(** *** Fixture: a server whose lobby is full *)

Lemma full_lobby_turns_client_away_witness :
  List.length (GameRoom.players (GameServer.lobby_room crowded_server))
  = 50%nat /\
  exists s',
    GameServer.handle_client toy_loads 3 7%nat
      (crowded_server, wire [one_byte_frame x01])
    = (Ok true,
       (s', set_closed (7%nat :: closed after_auth_frame) after_auth_frame)) /\
    GameServer.players s' = GameServer.players crowded_server /\
    GameServer.lobby_room s' = GameServer.lobby_room crowded_server /\
    GameServer.rooms s' = GameServer.rooms crowded_server /\
    outbox after_auth_frame = outbox (wire [one_byte_frame x01]).
Proof.
  split; [reflexivity|].
  apply (proj2 full_lobby_turns_client_away toy_loads 7%nat crowded_server
           (wire [one_byte_frame x01]) after_auth_frame
           (envelope "auth" (PStr "ann")) "ann" 3%nat).
  - vm_compute. reflexivity.
  - reflexivity.
  - reflexivity.
  - discriminate.
  - vm_compute. reflexivity.
  - vm_compute. reflexivity.
  - reflexivity.
  - reflexivity.
Defined.

(** ** The wire format *)

Lemma octet_value x : Z.of_N (Byte.to_N (GameProtocol.octet x)) = x mod 256.
Proof.
  unfold GameProtocol.octet.
  assert (H : 0 <= x mod 256 < 256) by (apply Z.mod_pos_bound; lia).
  destruct (Byte.of_N (Z.to_N (x mod 256))) eqn:E.
  - apply Byte.to_of_N in E. rewrite E. apply Z2N.id. lia.
  - apply Byte.of_N_None_iff in E. lia.
Qed.

Lemma unpack_pack n p e :
  GameProtocol.pack_length n = Some p ->
  GameProtocol.unpack_length p e = (Ok n, e) /\ List.length p = 4%nat /\
  0 <= n < 4294967296.
Proof.
  unfold GameProtocol.pack_length.
  destruct ((0 <=? n) && (n <? 4294967296)) eqn:R; [|discriminate].
  intros [= <-]. apply andb_true_iff in R. destruct R as [R1 R2].
  apply Z.leb_le in R1. apply Z.ltb_lt in R2.
  split; [|split; [reflexivity | lia]].
  cbn [GameProtocol.unpack_length]. unfold ret. rewrite !octet_value.
  f_equal. f_equal.
  Z.to_euclidean_division_equations. lia.
Qed.

(** X1.  The length prefix: [struct.pack('!I', n)] exists exactly for
    [0 <= n < 2^32], it has four octets, [struct.unpack] gives [n] back,
    and [struct.unpack] raises on anything that is not four octets. *)
Theorem length_prefix_round_trip :
  (forall n e,
      0 <= n < 4294967296 ->
      exists p,
        GameProtocol.pack_length n = Some p /\ List.length p = 4%nat /\
        GameProtocol.unpack_length p e = (Ok n, e)) /\
  (forall n, n < 0 \/ 4294967296 <= n -> GameProtocol.pack_length n = None) /\
  (forall l e,
      List.length l <> 4%nat ->
      GameProtocol.unpack_length l e = (Raise StructError, e)).
Proof.
  split; [|split].
  - intros n e Hn.
    destruct (GameProtocol.pack_length n) as [p|] eqn:E.
    + exists p. destruct (unpack_pack n p e E) as (U & L & _). auto.
    + unfold GameProtocol.pack_length in E.
      replace (0 <=? n) with true in E by (symmetry; apply Z.leb_le; lia).
      replace (n <? 4294967296) with true in E
        by (symmetry; apply Z.ltb_lt; lia).
      discriminate.
  - intros n Hn. unfold GameProtocol.pack_length.
    destruct Hn as [Hn|Hn].
    + replace (0 <=? n) with false by (symmetry; apply Z.leb_gt; lia).
      reflexivity.
    + replace (n <? 4294967296) with false
        by (symmetry; apply Z.ltb_ge; lia).
      now rewrite andb_false_r.
  - intros l e Hl.
    destruct l as [|a [|b [|c [|d [|x l]]]]]; cbn in Hl |- *; try reflexivity.
    contradiction.
Qed.

Lemma length_prefix_round_trip_witness :
  exists p,
    GameProtocol.pack_length 258 = Some p /\ List.length p = 4%nat /\
    GameProtocol.unpack_length p quiet = (Ok 258, quiet).
Proof.
  apply (proj1 length_prefix_round_trip 258 quiet). lia.
Defined.

(** *** Reading from a script *)

Lemma recv_data s n e c rest :
  existsb (Nat.eqb s) (closed e) = false ->
  net e s = Data c :: rest ->
  GameProtocol.recv s n e = (Ok (firstn n c), set_net s (after_read n c rest) e).
Proof.
  intros Hc Hn. unfold GameProtocol.recv, bind, get, put, ret.
  rewrite Hc, Hn. reflexivity.
Qed.

Lemma only_socket_refl s e : only_socket s e e.
Proof. repeat split; reflexivity. Qed.

Lemma only_socket_trans s a b c :
  only_socket s a b -> only_socket s b c -> only_socket s a c.
Proof.
  intros (A1 & A2 & A3 & A4) (B1 & B2 & B3 & B4).
  repeat split; try congruence.
  intros s' Hs. rewrite B4, A4; auto.
Qed.

Lemma only_socket_set_net s script e : only_socket s e (set_net s script e).
Proof.
  repeat split. intros s' Hs. cbn.
  destruct (Nat.eqb s' s) eqn:E; [|reflexivity].
  apply Nat.eqb_eq in E. contradiction.
Qed.

Lemma split_prefix (A : Type) (a x need more : list A) :
  a ++ x = need ++ more -> (List.length a <= List.length need)%nat ->
  exists need', need = a ++ need' /\ x = need' ++ more.
Proof.
  revert need. induction a as [|h a IH]; intros need E L.
  - exists need. auto.
  - destruct need as [|h' need]; [cbn in L; lia|].
    cbn in E. injection E as -> E.
    destruct (IH need E) as (need' & -> & ->); [cbn in L; lia|].
    exists need'. auto.
Qed.

Lemma take_chunk (c : list Byte.byte) cs need more k :
  c <> [] -> (1 <= k <= List.length need)%nat ->
  c ++ List.concat cs = need ++ more ->
  exists need',
    need = firstn k c ++ need' /\ firstn k c <> [] /\
    skipn k c ++ List.concat cs = need' ++ more.
Proof.
  intros Hc Hk E.
  rewrite <- (firstn_skipn k c), <- app_assoc in E.
  destruct (split_prefix _ _ _ _ _ E) as (need' & -> & E').
  - rewrite length_firstn. lia.
  - exists need'. split; [reflexivity|]. split; [|assumption].
    destruct c; [contradiction|]. destruct k; [lia|]. discriminate.
Qed.

Lemma read_body_chunks s len :
  forall rounds need acc chunks more tail e,
    existsb (Nat.eqb s) (closed e) = false ->
    net e s = map Data chunks ++ tail ->
    Forall (fun c => c <> []) chunks ->
    List.concat chunks = need ++ more ->
    (List.length acc + List.length need = len)%nat ->
    (List.length need <= rounds)%nat ->
    exists chunks' e',
      GameProtocol.read_body rounds s len acc e
      = (Ok (Some (acc ++ need)), e') /\
      net e' s = map Data chunks' ++ tail /\
      List.concat chunks' = more /\
      Forall (fun c => c <> []) chunks' /\
      only_socket s e e'.
Proof.
  induction rounds as [|rounds IH]; intros need acc chunks more tail e
    Hc Hn Hne Hcat Hlen Hr.
  - destruct need; [|cbn in Hr; lia].
    exists chunks, e. cbn [GameProtocol.read_body].
    replace (List.length acc <? len)%nat with false
      by (symmetry; apply Nat.ltb_ge; cbn in Hlen; lia).
    rewrite app_nil_r. repeat split; auto.
  - destruct need as [|b need].
    + exists chunks, e. cbn [GameProtocol.read_body].
      replace (List.length acc <? len)%nat with false
        by (symmetry; apply Nat.ltb_ge; cbn in Hlen; lia).
      rewrite app_nil_r. repeat split; auto.
    + cbn [GameProtocol.read_body].
      replace (List.length acc <? len)%nat with true
        by (symmetry; apply Nat.ltb_lt; cbn in Hlen; lia).
      destruct chunks as [|c cs]; [discriminate|].
      apply Forall_cons_iff in Hne. destruct Hne as [Hc0 Hcs].
      cbn [map app] in Hn. cbn [List.concat] in Hcat.
      set (k := Nat.min 4096 (len - List.length acc)).
      assert (Hk : (1 <= k <= List.length (b :: need))%nat)
        by (subst k; cbn [List.length] in *; lia).
      destruct (take_chunk c cs (b :: need) more k Hc0 Hk Hcat)
        as (need' & En & Hf & Hrest).
      erewrite bind_ok; [|apply recv_data; eassumption].
      destruct (firstn k c) as [|f0 fs] eqn:Ef; [contradiction|].
      rewrite <- Ef in En |- *.
      assert (Hl : (List.length (firstn k c) >= 1)%nat)
        by (rewrite Ef; cbn; lia).
      destruct (IH need' (acc ++ firstn k c)
                  (match skipn k c with [] => cs | m => m :: cs end)
                  more tail
                  (set_net s (after_read k c (map Data cs ++ tail)) e))
        as (chunks' & e' & Hrun & Hn' & Hcat' & Hne' & Ho).
      * exact Hc.
      * rewrite net_set_net. unfold after_read.
        destruct (skipn k c); reflexivity.
      * destruct (skipn k c) eqn:Es; [assumption|].
        constructor; [discriminate | assumption].
      * destruct (skipn k c) eqn:Es; cbn [List.concat]; exact Hrest.
      * rewrite En, length_app in Hlen. rewrite length_app. lia.
      * rewrite En, length_app in Hr. lia.
      * exists chunks', e'. rewrite En, app_assoc.
        split; [exact Hrun|]. split; [exact Hn'|].
        split; [exact Hcat'|]. split; [exact Hne'|].
        eapply only_socket_trans; [apply only_socket_set_net | exact Ho].
Qed.

Lemma frame_parts data fr :
  GameProtocol.frame data = Some fr ->
  exists p,
    fr = p ++ data /\
    GameProtocol.pack_length (Z.of_nat (List.length data)) = Some p /\
    Z.of_nat (List.length data) <= 10 * 1024 * 1024.
Proof.
  unfold GameProtocol.frame.
  destruct (10 * 1024 * 1024 <? Z.of_nat (List.length data)) eqn:Hbig;
    [discriminate|].
  destruct (GameProtocol.pack_length _) as [p|] eqn:Hp; [|discriminate].
  intros [= <-]. exists p. apply Z.ltb_ge in Hbig. auto.
Qed.

(** X2.  Framing round trip.  When the bytes [send_message] writes for a
    serialised message arrive on a socket, cut into any non-empty chunks
    of which the first holds the whole length prefix, [receive_message]
    returns what [pickle.loads] makes of exactly that message, and leaves
    exactly the bytes that followed the frame unread. *)
Theorem receive_reassembles_frame :
  forall loads s e data fr chunks more tail,
    existsb (Nat.eqb s) (closed e) = false ->
    data <> [] ->
    GameProtocol.frame data = Some fr ->
    net e s = map Data chunks ++ tail ->
    Forall (fun c => c <> []) chunks ->
    List.concat chunks = fr ++ more ->
    (4 <= List.length (hd [] chunks))%nat ->
    exists chunks' e',
      GameProtocol.receive_message loads s e = (Ok (loads data), e') /\
      net e' s = map Data chunks' ++ tail /\
      List.concat chunks' = more /\
      Forall (fun c => c <> []) chunks' /\
      only_socket s e e'.
Proof.
  intros loads s e data fr chunks more tail Hc Hdata Hfr Hn Hne Hcat Hfirst.
  destruct (frame_parts data fr Hfr) as (p & -> & Hp & Hsmall).
  destruct chunks as [|c0 cs]; [cbn in Hfirst; lia|].
  cbn [hd] in Hfirst. cbn [map app] in Hn. cbn [List.concat] in Hcat.
  apply Forall_cons_iff in Hne. destruct Hne as [Hc0 Hcs].
  destruct (unpack_pack _ p (set_net s (after_read 4 c0 (map Data cs ++ tail)) e)
              Hp) as (Hun & Hlp & _).
  rewrite <- (firstn_skipn 4 c0), <- !app_assoc in Hcat.
  destruct (split_prefix _ _ _ _ _ Hcat) as (z & Ez & Hrest).
  { rewrite length_firstn. lia. }
  assert (z = []).
  { apply (f_equal (@List.length _)) in Ez.
    rewrite length_app, length_firstn in Ez.
    destruct z; [reflexivity | cbn [List.length] in Ez; lia]. }
  subst z. rewrite app_nil_r in Ez. cbn [app] in Hrest.
  destruct (read_body_chunks s (List.length data) (List.length data) data []
              (match skipn 4 c0 with [] => cs | m => m :: cs end)
              more tail
              (set_net s (after_read 4 c0 (map Data cs ++ tail)) e))
    as (chunks' & e' & Hrun & Hn' & Hcat' & Hne' & Ho).
  - exact Hc.
  - rewrite net_set_net. unfold after_read. destruct (skipn 4 c0); reflexivity.
  - destruct (skipn 4 c0) eqn:Es; [assumption|].
    constructor; [discriminate | assumption].
  - destruct (skipn 4 c0) eqn:Es; cbn [List.concat]; exact Hrest.
  - reflexivity.
  - lia.
  - exists chunks', e'.
    split; [|split; [exact Hn'|split; [exact Hcat'|split; [exact Hne'|]]]].
    + unfold GameProtocol.receive_message, catch.
      erewrite bind_ok; [|apply recv_data; eassumption].
      rewrite <- Ez.
      destruct p as [|b0 [|b1 [|b2 [|b3 [|x p]]]]]; try discriminate.
      erewrite bind_ok; [|exact Hun].
      replace (10 * 1024 * 1024 <? Z.of_nat (List.length data)) with false
        by (symmetry; apply Z.ltb_ge; lia).
      replace (Z.of_nat (List.length data) =? 0) with false
        by (symmetry; apply Z.eqb_neq; destruct data; [contradiction|];
            cbn [List.length]; lia).
      rewrite Nat2Z.id.
      erewrite bind_ok; [|exact Hrun].
      cbn [app]. unfold ret, GameProtocol.deserialize_message.
      destruct data; [contradiction | reflexivity].
    + eapply only_socket_trans; [apply only_socket_set_net | exact Ho].
Qed.

Lemma receive_reassembles_frame_witness :
  exists chunks' e',
    GameProtocol.receive_message toy_loads 7%nat
      (wire [Data [x00; x00; x00; x01]; Data [x01; x07]; Timeout])
    = (Ok (toy_loads [x01]), e') /\
    net e' 7%nat = map Data chunks' ++ [Timeout] /\
    List.concat chunks' = [x07] /\
    Forall (fun c => c <> []) chunks' /\
    only_socket 7%nat
      (wire [Data [x00; x00; x00; x01]; Data [x01; x07]; Timeout]) e'.
Proof.
  apply (receive_reassembles_frame toy_loads 7%nat
           (wire [Data [x00; x00; x00; x01]; Data [x01; x07]; Timeout])
           [x01] [x00; x00; x00; x01; x01]
           [[x00; x00; x00; x01]; [x01; x07]] [x07] [Timeout]).
  - reflexivity.
  - discriminate.
  - reflexivity.
  - reflexivity.
  - repeat constructor; discriminate.
  - reflexivity.
  - cbn. lia.
Defined.

(** X3.  A first read that brings fewer than the four octets of the
    length prefix loses them: [struct.unpack] raises, the handler
    answers [None], and the octets read are gone from the stream. *)
Theorem short_length_prefix_is_dropped :
  forall loads s e c rest,
    existsb (Nat.eqb s) (closed e) = false ->
    net e s = Data c :: rest ->
    c <> [] -> (List.length c < 4)%nat ->
    GameProtocol.receive_message loads s e = (Ok None, set_net s rest e).
Proof.
  intros loads s e c rest Hc Hn Hne Hlen.
  unfold GameProtocol.receive_message, catch.
  erewrite bind_ok; [|apply recv_data; eassumption].
  destruct c as [|a [|b [|c [|d c']]]];
    [contradiction | reflexivity | reflexivity | reflexivity |
     cbn in Hlen; lia].
Qed.

Lemma short_length_prefix_is_dropped_witness :
  GameProtocol.receive_message toy_loads 7%nat
    (wire [Data [x00; x00]; Data [x00; x01; x01]])
  = (Ok None,
     set_net 7%nat [Data [x00; x01; x01]]
       (wire [Data [x00; x00]; Data [x00; x01; x01]])).
Proof.
  apply (short_length_prefix_is_dropped toy_loads 7%nat
           (wire [Data [x00; x00]; Data [x00; x01; x01]])
           [x00; x00] [Data [x00; x01; x01]]).
  - reflexivity.
  - reflexivity.
  - discriminate.
  - cbn. lia.
Defined.

(** X4.  A frame whose announced length is zero or more than 10 MB is
    refused after its four prefix octets: [receive_message] answers
    [None] and everything behind the prefix is still in the stream, where
    the next call will read it as a length prefix. *)
Theorem refused_length_leaves_body_unread :
  forall loads s e c rest n p,
    existsb (Nat.eqb s) (closed e) = false ->
    net e s = Data c :: rest ->
    GameProtocol.pack_length n = Some p ->
    firstn 4 c = p ->
    n = 0 \/ 10 * 1024 * 1024 < n ->
    GameProtocol.receive_message loads s e
    = (Ok None, set_net s (after_read 4 c rest) e).
Proof.
  intros loads s e c rest n p Hc Hn Hp Hf Hrange.
  destruct (unpack_pack n p (set_net s (after_read 4 c rest) e) Hp)
    as (Hun & Hlp & _).
  unfold GameProtocol.receive_message, catch.
  erewrite bind_ok; [|apply recv_data; eassumption].
  rewrite Hf.
  destruct p as [|b0 [|b1 [|b2 [|b3 [|x p]]]]]; try discriminate.
  erewrite bind_ok; [|exact Hun].
  destruct Hrange as [-> | Hbig].
  - reflexivity.
  - replace (10 * 1024 * 1024 <? n) with true
      by (symmetry; apply Z.ltb_lt; lia).
    reflexivity.
Qed.

Lemma refused_length_leaves_body_unread_witness :
  GameProtocol.receive_message toy_loads 7%nat
    (wire [Data [x00; x00; x00; x00; x01; x02]])
  = (Ok None,
     set_net 7%nat (after_read 4 [x00; x00; x00; x00; x01; x02] [])
       (wire [Data [x00; x00; x00; x00; x01; x02]])).
Proof.
  apply (refused_length_leaves_body_unread toy_loads 7%nat
           (wire [Data [x00; x00; x00; x00; x01; x02]])
           [x00; x00; x00; x00; x01; x02] [] 0 [x00; x00; x00; x00]).
  - reflexivity.
  - reflexivity.
  - reflexivity.
  - reflexivity.
  - left. reflexivity.
Defined.

(** ** The snake *)

Lemma opposite_not_self d : Snake.opposite d <> Some d.
Proof.
  unfold Snake.opposite.
  destruct (String.eqb d "UP") eqn:E1;
    [apply String.eqb_eq in E1; subst; discriminate|].
  destruct (String.eqb d "DOWN") eqn:E2;
    [apply String.eqb_eq in E2; subst; discriminate|].
  destruct (String.eqb d "LEFT") eqn:E3;
    [apply String.eqb_eq in E3; subst; discriminate|].
  destruct (String.eqb d "RIGHT") eqn:E4;
    [apply String.eqb_eq in E4; subst; discriminate|].
  discriminate.
Qed.

Lemma set_direction_refused d s :
  Snake.opposite (Snake.direction s) = Some d ->
  Snake.set_direction d s = (Ok tt, s).
Proof.
  intros H. unfold Snake.set_direction, bind, get, when, put, ret.
  rewrite H. cbn. now rewrite String.eqb_refl.
Qed.

Lemma set_direction_taken d s :
  Snake.opposite (Snake.direction s) <> Some d ->
  Snake.set_direction d s = (Ok tt, Snake.set_next_direction d s).
Proof.
  intros H. unfold Snake.set_direction, bind, get, when, put, ret.
  destruct (opt_string_eqb (Some d) (Snake.opposite (Snake.direction s)))
    eqn:E; [|reflexivity].
  apply opt_string_eqb_eq in E. contradiction.
Qed.

Lemma move_directions grid food s :
  Snake.alive s = true -> Snake.body s <> [] ->
  Snake.direction (snd (Snake.move grid food s)) = Snake.next_direction s /\
  Snake.next_direction (snd (Snake.move grid food s)) = Snake.next_direction s.
Proof.
  intros Ha Hb.
  destruct (next_head_some s Hb) as (nh & Hnh).
  destruct (Snake.out_of_grid grid nh || cell_in nh (Snake.body s)) eqn:E.
  - rewrite (move_invalid grid food s nh Ha Hnh E). split; reflexivity.
  - apply orb_false_iff in E. destruct E as [E1 E2].
    rewrite (move_valid grid food s nh Ha Hnh E1 E2).
    destruct (has_food food nh); split; reflexivity.
Qed.

(** X6.  A snake never turns back on itself.  A request for the reverse
    of the direction of travel is dropped and any other request becomes
    the pending direction; a new snake, a request and a move all keep the
    pending direction different from the reverse of the direction of
    travel. *)
Theorem direction_never_reversed :
  (forall d s,
      Snake.opposite (Snake.direction s) = Some d ->
      Snake.set_direction d s = (Ok tt, s)) /\
  (forall d s,
      Snake.opposite (Snake.direction s) <> Some d ->
      Snake.set_direction d s = (Ok tt, Snake.set_next_direction d s)) /\
  (forall pid c g s g', Snake.init pid c g = (Ok s, g') -> no_reverse s) /\
  (forall d s, no_reverse s -> no_reverse (snd (Snake.set_direction d s))) /\
  (forall grid food s,
      no_reverse s -> no_reverse (snd (Snake.move grid food s))).
Proof.
  split; [exact set_direction_refused|].
  split; [exact set_direction_taken|].
  split; [|split].
  - intros pid c g s g'. unfold Snake.init, bind, ret.
    destruct (Snake._generate_color g) as [[col|x] g1]; [|discriminate].
    intros [= <- _]. unfold no_reverse. cbn. discriminate.
  - intros d s Hs.
    destruct (opt_string_eqb (Some d) (Snake.opposite (Snake.direction s)))
      eqn:E.
    + apply opt_string_eqb_eq in E.
      now rewrite (set_direction_refused d s E).
    + rewrite set_direction_taken.
      * unfold no_reverse. cbn. intros H.
        apply opt_string_eqb_eq in H. congruence.
      * intros H. apply opt_string_eqb_eq in H. congruence.
  - intros grid food s Hs.
    destruct (Snake.alive s) eqn:Ha.
    + destruct (Snake.body s) as [|h t] eqn:Hb.
      * now rewrite (move_no_body grid food s Ha Hb).
      * destruct (move_directions grid food s Ha) as [D N];
          [rewrite Hb; discriminate|].
        unfold no_reverse. rewrite D, N. apply opposite_not_self.
    + now rewrite (move_dead grid food s Ha).
Qed.

Lemma direction_never_reversed_witness :
  Snake.set_direction "LEFT" crawler = (Ok tt, crawler) /\
  Snake.set_direction "UP" crawler
  = (Ok tt, Snake.set_next_direction "UP" crawler) /\
  no_reverse (snd (Snake.move (40, 30) [] crawler)).
Proof.
  split; [|split].
  - apply (proj1 direction_never_reversed "LEFT" crawler). reflexivity.
  - apply (proj1 (proj2 direction_never_reversed) "UP" crawler). discriminate.
  - apply (proj2 (proj2 (proj2 (proj2 direction_never_reversed)))
             (40, 30) [] crawler).
    unfold no_reverse. discriminate.
Defined.

(** *** The shape of the body *)

Lemma cell_eqb_eq a b : cell_eqb a b = true <-> a = b.
Proof.
  destruct a as [ax ay], b as [bx b_y]. unfold cell_eqb. cbn.
  rewrite andb_true_iff, !Z.eqb_eq. split; [intros [-> ->] | intros [= -> ->]];
    auto.
Qed.

Lemma cell_in_In c l : cell_in c l = true <-> In c l.
Proof.
  unfold cell_in. rewrite existsb_exists. split.
  - intros (x & Hx & E). apply cell_eqb_eq in E. now subst.
  - intros H. exists c. split; [assumption | now apply cell_eqb_eq].
Qed.

Lemma cell_in_not_In c l : cell_in c l = false <-> ~ In c l.
Proof.
  rewrite <- cell_in_In. destruct (cell_in c l); split; congruence.
Qed.

Lemma removelast_In (A : Type) (x : A) l : In x (removelast l) -> In x l.
Proof.
  induction l as [|a l IH]; [auto|].
  destruct l as [|b l]; [contradiction|].
  change (removelast (a :: b :: l)) with (a :: removelast (b :: l)).
  intros [H|H]; [left; assumption | right; apply IH; assumption].
Qed.

Lemma removelast_Forall (A : Type) (P : A -> Prop) l :
  Forall P l -> Forall P (removelast l).
Proof.
  rewrite !Forall_forall. intros H x Hx. apply H.
  now apply removelast_In.
Qed.

Lemma removelast_NoDup (A : Type) (l : list A) :
  NoDup l -> NoDup (removelast l).
Proof.
  induction l as [|a l IH]; [auto|].
  destruct l as [|b l]; [constructor|].
  change (removelast (a :: b :: l)) with (a :: removelast (b :: l)).
  intros H. apply NoDup_cons_iff in H. destruct H as [Ha Hl].
  constructor; [|apply IH; assumption].
  intros Hin. apply Ha. now apply removelast_In.
Qed.

Lemma removelast_chain l : chain l -> chain (removelast l).
Proof.
  induction l as [|a l IH]; [auto|].
  destruct l as [|b l]; [auto|].
  change (removelast (a :: b :: l)) with (a :: removelast (b :: l)).
  intros [Hab Hc]. specialize (IH Hc).
  destruct l as [|c l]; [exact I|].
  change (removelast (b :: c :: l)) with (b :: removelast (c :: l)) in *.
  split; assumption.
Qed.

Lemma deltas_step d :
  Snake.deltas d = (0, 0) \/
  Z.abs (fst (Snake.deltas d)) + Z.abs (snd (Snake.deltas d)) = 1.
Proof.
  unfold Snake.deltas.
  destruct (String.eqb d "UP"); [right; reflexivity|].
  destruct (String.eqb d "DOWN"); [right; reflexivity|].
  destruct (String.eqb d "LEFT"); [right; reflexivity|].
  destruct (String.eqb d "RIGHT"); [right; reflexivity|].
  now left.
Qed.

Lemma next_head_adjacent s h t nh :
  Snake.body s = h :: t -> next_head s = Some nh ->
  nh = h \/ adjacent nh h.
Proof.
  intros Hb. unfold next_head. rewrite Hb. destruct h as [x y].
  intros [= <-].
  destruct (deltas_step (Snake.next_direction s)) as [E|E].
  - left. rewrite E. cbn. f_equal; lia.
  - right. unfold adjacent. cbn [fst snd]. lia.
Qed.

(** X7.  A move keeps the body in shape: on the grid, no cell twice, each
    cell touching the next.  A snake that dies in the move keeps the body
    it had, and a dead snake is not changed by a move at all. *)
Theorem move_keeps_shape :
  forall grid food s,
    well_shaped grid s ->
    well_shaped grid (snd (Snake.move grid food s)) /\
    (Snake.alive (snd (Snake.move grid food s)) = false ->
     Snake.body (snd (Snake.move grid food s)) = Snake.body s) /\
    (Snake.alive s = false -> Snake.move grid food s = (Ok false, s)).
Proof.
  intros grid food s (Hg & Hn & Hc).
  split; [|split]; [| |intros Ha; now apply move_dead].
  - destruct (Snake.alive s) eqn:Ha;
      [|rewrite (move_dead grid food s Ha); now repeat split].
    destruct (Snake.body s) as [|h t] eqn:Hb.
    { rewrite (move_no_body grid food s Ha Hb). unfold well_shaped.
      cbn [snd]. rewrite Hb. repeat split; constructor. }
    destruct (next_head_some s) as (nh & Hnh); [rewrite Hb; discriminate|].
    destruct (Snake.out_of_grid grid nh || cell_in nh (Snake.body s)) eqn:E.
    { rewrite (move_invalid grid food s nh Ha Hnh E). unfold well_shaped.
      cbn [snd Snake.body]. rewrite Hb. now repeat split. }
    apply orb_false_iff in E. destruct E as [E1 E2].
    rewrite (move_valid grid food s nh Ha Hnh E1 E2).
    assert (Hnew : Forall (inside grid) (nh :: Snake.body s) /\
                   NoDup (nh :: Snake.body s) /\
                   chain (nh :: Snake.body s)).
    { rewrite Hb in *. split; [|split].
      - constructor; assumption.
      - constructor; [now apply cell_in_not_In | assumption].
      - split; [|assumption].
        destruct (next_head_adjacent s h t nh Hb Hnh) as [->|A];
          [|assumption].
        apply cell_in_not_In in E2. exfalso. apply E2. now left. }
    destruct Hnew as (N1 & N2 & N3).
    destruct (has_food food nh); unfold well_shaped; cbn [snd Snake.body].
    + now repeat split.
    + split; [|split].
      * now apply removelast_Forall.
      * now apply removelast_NoDup.
      * now apply removelast_chain.
  - destruct (Snake.alive s) eqn:Ha;
      [|now rewrite (move_dead grid food s Ha)].
    destruct (Snake.body s) as [|h t] eqn:Hb.
    { now rewrite (move_no_body grid food s Ha Hb). }
    destruct (next_head_some s) as (nh & Hnh); [rewrite Hb; discriminate|].
    destruct (Snake.out_of_grid grid nh || cell_in nh (Snake.body s)) eqn:E.
    { rewrite (move_invalid grid food s nh Ha Hnh E). intros _.
      cbn [snd Snake.body]. now rewrite Hb. }
    apply orb_false_iff in E. destruct E as [E1 E2].
    rewrite (move_valid grid food s nh Ha Hnh E1 E2).
    destruct (has_food food nh); discriminate.
Qed.

Lemma move_keeps_shape_witness :
  well_shaped (40, 30) (snd (Snake.move (40, 30) [(6, 5)] crawler)) /\
  (Snake.alive (snd (Snake.move (40, 30) [(6, 5)] crawler)) = false ->
   Snake.body (snd (Snake.move (40, 30) [(6, 5)] crawler))
   = Snake.body crawler) /\
  (Snake.alive crawler = false ->
   Snake.move (40, 30) [(6, 5)] crawler = (Ok false, crawler)).
Proof.
  apply (move_keeps_shape (40, 30) [(6, 5)] crawler).
  unfold well_shaped. cbn [Snake.body crawler].
  split; [|split].
  - repeat constructor.
  - repeat constructor; cbn; intros H; decompose [or] H; try discriminate;
      assumption.
  - split; [reflexivity | exact I].
Defined.

(** ** The engine: food *)

Lemma randint_range a b g :
  a <= b ->
  exists v,
    randint a b g = (Ok v, mkRng (draws g) (S (pos g))) /\ a <= v <= b.
Proof.
  intros H. unfold randint, bind, next_draw, ret.
  replace (a <=? b) with true by (symmetry; apply Z.leb_le; lia).
  eexists. split; [reflexivity|].
  pose proof (Z.mod_pos_bound (draws g (pos g)) (b - a + 1) ltac:(lia)).
  lia.
Qed.

Lemma randint_empty a b g : b < a -> randint a b g = (Raise ValueError, g).
Proof.
  intros H. unfold randint.
  replace (a <=? b) with false by (symmetry; apply Z.leb_gt; lia).
  reflexivity.
Qed.

Lemma with_no_food g : with_more_food [] g = g.
Proof.
  unfold with_more_food, GameState.set_food_positions.
  rewrite app_nil_r. now destruct g.
Qed.

Lemma with_more_more a b g :
  with_more_food b (with_more_food a g) = with_more_food (a ++ b) g.
Proof.
  unfold with_more_food, GameState.set_food_positions. cbn.
  now rewrite app_assoc.
Qed.

Lemma inside_range grid x y :
  0 <= x <= fst grid - 1 -> 0 <= y <= snd grid - 1 -> inside grid (x, y).
Proof.
  intros Hx Hy. unfold inside, Snake.out_of_grid. cbn [fst snd].
  repeat rewrite orb_false_iff. repeat split.
  - apply Z.ltb_ge. lia.
  - apply Z.leb_gt. lia.
  - apply Z.ltb_ge. lia.
  - apply Z.leb_gt. lia.
Qed.

Lemma place_food_sound n g r :
  0 < fst (GameState.grid_size g) -> 0 < snd (GameState.grid_size g) ->
  exists added r',
    GameState.place_food n (g, r) = (Ok tt, (with_more_food added g, r')) /\
    (List.length added <= 1)%nat /\
    Forall (fresh_food g) added.
Proof.
  intros Hx Hy. revert r. induction n as [|n IH]; intros r.
  - exists [], r. rewrite with_no_food. split; [reflexivity|].
    split; [cbn; lia | constructor].
  - cbn [GameState.place_food].
    unfold bind, GameState.self, GameState.rand, zoom, get. cbn [fst snd].
    destruct (randint_range 0 (fst (GameState.grid_size g) - 1) r)
      as (x & Ex & Rx); [lia|].
    rewrite Ex. cbn [fst snd].
    set (r1 := mkRng (draws r) (S (pos r))).
    destruct (randint_range 0 (snd (GameState.grid_size g) - 1) r1)
      as (y & Ey & Ry); [lia|].
    rewrite Ey. cbn [fst snd].
    destruct (negb (GameState.on_some_snake (x, y) g)
              && negb (cell_in (x, y) (GameState.food_positions g))) eqn:E.
    + apply andb_true_iff in E. destruct E as [E1 E2].
      apply negb_true_iff in E1. apply negb_true_iff in E2.
      exists [(x, y)]. eexists. split; [reflexivity|].
      split; [cbn; lia|]. constructor; [|constructor].
      split; [now apply inside_range|].
      split; [assumption | now apply cell_in_not_In].
    + apply IH.
Qed.

Lemma fresh_food_later g a c :
  fresh_food (with_more_food a g) c ->
  fresh_food g c /\ ~ In c a.
Proof.
  intros (H1 & H2 & H3). unfold with_more_food in *. cbn in *.
  rewrite in_app_iff in H3. repeat split; tauto.
Qed.

Lemma generate_food_sound_aux count :
  forall g r,
    0 < fst (GameState.grid_size g) -> 0 < snd (GameState.grid_size g) ->
    exists added r',
      GameState._generate_food count (g, r)
      = (Ok tt, (with_more_food added g, r')) /\
      (List.length added <= count)%nat /\
      NoDup added /\
      Forall (fresh_food g) added.
Proof.
  induction count as [|n IH]; intros g r Hx Hy.
  - exists [], r. rewrite with_no_food. split; [reflexivity|].
    split; [cbn; lia|]. split; constructor.
  - cbn [GameState._generate_food]. unfold bind.
    destruct (place_food_sound 50 g r Hx Hy) as (a1 & r1 & E1 & L1 & F1).
    rewrite E1.
    destruct (IH (with_more_food a1 g) r1 Hx Hy) as (a2 & r2 & E2 & L2 & N2 & F2).
    exists (a1 ++ a2), r2. rewrite E2, with_more_more.
    split; [reflexivity|]. split; [rewrite length_app; lia|].
    assert (F2' : Forall (fun c => fresh_food g c /\ ~ In c a1) a2).
    { eapply Forall_impl; [|exact F2]. intros c. apply fresh_food_later. }
    split.
    + destruct a1 as [|c1 [|c2 a1]]; [assumption | | cbn in L1; lia].
      cbn. constructor; [|assumption].
      intros Hin. rewrite Forall_forall in F2'.
      destruct (F2' _ Hin) as [_ Hn]. apply Hn. now left.
    + apply Forall_app. split; [assumption|].
      eapply Forall_impl; [|exact F2']. now intros c [Hc _].
Qed.

(** X8.  [_generate_food(count)] on a grid with cells never raises and
    only appends to the food list: at most [count] cells, each on the
    grid, under no snake, different from every cell of food already
    there and from each other.  On a grid without cells the first
    placement raises [ValueError] and the food is as it was: at the
    first draw, with no number drawn, when the width is not positive;
    at the second draw, with one number drawn, when only the height is
    not positive. *)
Theorem generate_food_sound :
  (forall count g r,
      0 < fst (GameState.grid_size g) -> 0 < snd (GameState.grid_size g) ->
      exists added r',
        GameState._generate_food count (g, r)
        = (Ok tt, (with_more_food added g, r')) /\
        (List.length added <= count)%nat /\
        NoDup added /\
        Forall (fresh_food g) added) /\
  (forall count g r,
      fst (GameState.grid_size g) <= 0 ->
      GameState._generate_food (S count) (g, r) = (Raise ValueError, (g, r))) /\
  (forall count g r,
      0 < fst (GameState.grid_size g) -> snd (GameState.grid_size g) <= 0 ->
      GameState._generate_food (S count) (g, r)
      = (Raise ValueError, (g, mkRng (draws r) (S (pos r))))).
Proof.
  split; [intros; now apply generate_food_sound_aux|]. split.
  - intros count g r Hx.
    cbn [GameState._generate_food GameState.place_food].
    unfold bind, GameState.self, GameState.rand, zoom, get. cbn [fst snd].
    rewrite randint_empty by lia. reflexivity.
  - intros count g r Hx Hy.
    cbn [GameState._generate_food GameState.place_food].
    unfold bind, GameState.self, GameState.rand, zoom, get. cbn [fst snd].
    destruct (randint_range 0 (fst (GameState.grid_size g) - 1) r ltac:(lia))
      as (v & E & _).
    rewrite E. cbn [fst snd].
    rewrite randint_empty by lia. reflexivity.
Qed.

Lemma generate_food_sound_witness :
  (exists added r',
      GameState._generate_food 5%nat (GameState.mk (40, 30) [] [] false, steady)
      = (Ok tt, (with_more_food added (GameState.mk (40, 30) [] [] false), r')) /\
      (List.length added <= 5)%nat /\
      NoDup added /\
      Forall (fresh_food (GameState.mk (40, 30) [] [] false)) added) /\
  GameState._generate_food 1%nat (GameState.mk (0, 30) [] [] false, steady)
  = (Raise ValueError, (GameState.mk (0, 30) [] [] false, steady)) /\
  GameState._generate_food 1%nat (GameState.mk (5, 0) [] [] false, steady)
  = (Raise ValueError,
     (GameState.mk (5, 0) [] [] false,
      mkRng (draws steady) (S (pos steady)))).
Proof.
  split; [|split].
  - apply (proj1 generate_food_sound 5%nat (GameState.mk (40, 30) [] [] false)
             steady); cbn; lia.
  - apply (proj1 (proj2 generate_food_sound) 0%nat
             (GameState.mk (0, 30) [] [] false) steady); cbn; lia.
  - apply (proj2 (proj2 generate_food_sound) 0%nat
             (GameState.mk (5, 0) [] [] false) steady); cbn; lia.
Defined.

(** ** The engine: players *)

Lemma dict_set_new_app (V : Type) (d : dict V) k v :
  dict_mem d k = false -> dict_set d k v = d ++ [(k, v)].
Proof.
  unfold dict_mem. induction d as [|[k' v'] d IH]; [reflexivity|].
  cbn. destruct (String.eqb k k'); [discriminate|].
  intros H. now rewrite IH.
Qed.

Lemma new_snake_run pid c g r :
  dict_mem (GameState.snakes g) pid = false ->
  exists col,
    GameState.new_snake pid c (g, r)
    = (Ok tt, (with_snake pid (newborn pid c col) g,
               mkRng (draws r) (S (pos r)))) /\
    In col Snake.colors.
Proof.
  intros Hm. unfold GameState.new_snake, GameState.rand, GameState.self,
    Snake.init, Snake._generate_color, bind, zoom, modify, ret.
  cbn [fst snd].
  destruct (choice_in _ Snake.colors r) as (col & Ec & Hc); [discriminate|].
  rewrite Ec. cbn [fst snd]. exists col. split; [|assumption].
  unfold with_snake, newborn. now rewrite dict_set_new_app.
Qed.

Lemma try_start_run n pid g :
  dict_mem (GameState.snakes g) pid = false ->
  7 <= fst (GameState.grid_size g) -> 7 <= snd (GameState.grid_size g) ->
  forall r,
    (exists r', GameState.try_start n pid (g, r) = (Ok false, (g, r'))) \/
    (exists x y col r',
        GameState.try_start n pid (g, r)
        = (Ok true, (with_snake pid (newborn pid (x, y) col) g, r')) /\
        3 <= x <= fst (GameState.grid_size g) - 4 /\
        3 <= y <= snd (GameState.grid_size g) - 4 /\
        In col Snake.colors).
Proof.
  intros Hm Hx Hy. induction n as [|n IH]; intros r.
  - left. exists r. reflexivity.
  - cbn [GameState.try_start].
    unfold bind, GameState.self, GameState.rand, zoom, get. cbn [fst snd].
    destruct (randint_range 3 (fst (GameState.grid_size g) - 4) r)
      as (x & Ex & Rx); [lia|].
    rewrite Ex. cbn [fst snd].
    set (r1 := mkRng (draws r) (S (pos r))).
    destruct (randint_range 3 (snd (GameState.grid_size g) - 4) r1)
      as (y & Ey & Ry); [lia|].
    rewrite Ey. cbn [fst snd].
    destruct (negb (GameState.on_some_snake (x, y) g)).
    + right.
      destruct (new_snake_run pid (x, y) g (mkRng (draws r1) (S (pos r1))) Hm)
        as (col & En & Hc).
      rewrite En. unfold ret. exists x, y, col. eexists.
      split; [reflexivity|]. auto.
    + apply IH.
Qed.

Lemma engine_add_present pid username g r :
  dict_mem (GameState.snakes g) pid = true ->
  GameState.add_player pid username (g, r) = (Ok true, (g, r)).
Proof.
  intros Hm.
  unfold GameState.add_player, bind, GameState.self, zoom, get, ret.
  cbn [fst snd]. now rewrite Hm.
Qed.

Lemma engine_add_new pid username g r :
  dict_mem (GameState.snakes g) pid = false ->
  11 <= fst (GameState.grid_size g) ->
  11 <= snd (GameState.grid_size g) ->
  exists x y col r',
    GameState.add_player pid username (g, r)
    = (Ok true, (with_snake pid (newborn pid (x, y) col) g, r')) /\
    3 <= x <= fst (GameState.grid_size g) - 4 /\
    3 <= y <= snd (GameState.grid_size g) - 4 /\
    In col Snake.colors.
Proof.
  intros Hm Hx Hy.
  unfold GameState.add_player, bind, GameState.self, GameState.rand, zoom,
    get. cbn [fst snd]. rewrite Hm.
  destruct (try_start_run 100 pid g Hm ltac:(lia) ltac:(lia) r)
    as [(r1 & E) | (x & y & col & r1 & E & Rx & Ry & Hc)].
  - rewrite E. cbn [fst snd].
    destruct (randint_range 5 (fst (GameState.grid_size g) - 6) r1)
      as (x & Ex & Rx); [lia|].
    rewrite Ex. cbn [fst snd].
    set (r2 := mkRng (draws r1) (S (pos r1))).
    destruct (randint_range 5 (snd (GameState.grid_size g) - 6) r2)
      as (y & Ey & Ry); [lia|].
    rewrite Ey. cbn [fst snd].
    destruct (new_snake_run pid (x, y) g (mkRng (draws r2) (S (pos r2))) Hm)
      as (col & En & Hc).
    rewrite En. unfold ret. exists x, y, col. eexists.
    split; [reflexivity|]. repeat split; try assumption; lia.
  - rewrite E. unfold ret. exists x, y, col, r1. auto.
Qed.

Lemma engine_add_narrow pid username g r :
  dict_mem (GameState.snakes g) pid = false ->
  fst (GameState.grid_size g) < 7 ->
  GameState.add_player pid username (g, r) = (Raise ValueError, (g, r)).
Proof.
  intros Hm Hx.
  unfold GameState.add_player, bind, GameState.self, GameState.rand, zoom,
    get. cbn [fst snd]. rewrite Hm.
  cbn [GameState.try_start].
  unfold bind, GameState.self, GameState.rand, zoom, get. cbn [fst snd].
  rewrite randint_empty by lia. reflexivity.
Qed.

(** X9.  [GameState.add_player]: for a player who has a snake it answers
    [True] and changes nothing, not even the random source.  For a new
    player on a grid of at least 11 by 11 it answers [True] and appends
    one snake: a single cell at least three cells away from every wall,
    alive, score 0, heading right; the other snakes and the food are as
    they were.  On a grid narrower than 7 it raises [ValueError]. *)
Theorem engine_add_player :
  (forall pid username g r,
      dict_mem (GameState.snakes g) pid = true ->
      GameState.add_player pid username (g, r) = (Ok true, (g, r))) /\
  (forall pid username g r,
      dict_mem (GameState.snakes g) pid = false ->
      11 <= fst (GameState.grid_size g) ->
      11 <= snd (GameState.grid_size g) ->
      exists x y col r',
        GameState.add_player pid username (g, r)
        = (Ok true, (with_snake pid (newborn pid (x, y) col) g, r')) /\
        3 <= x <= fst (GameState.grid_size g) - 4 /\
        3 <= y <= snd (GameState.grid_size g) - 4 /\
        In col Snake.colors) /\
  (forall pid username g r,
      dict_mem (GameState.snakes g) pid = false ->
      fst (GameState.grid_size g) < 7 ->
      GameState.add_player pid username (g, r) = (Raise ValueError, (g, r))).
Proof.
  split; [exact engine_add_present|].
  split; [exact engine_add_new | exact engine_add_narrow].
Qed.

Lemma engine_add_player_witness :
  exists x y col r',
    GameState.add_player "player_1" "ann"
      (GameState.mk (40, 30) [] [] false, steady)
    = (Ok true,
       (with_snake "player_1" (newborn "player_1" (x, y) col)
          (GameState.mk (40, 30) [] [] false), r')) /\
    3 <= x <= fst (GameState.grid_size (GameState.mk (40, 30) [] [] false)) - 4 /\
    3 <= y <= snd (GameState.grid_size (GameState.mk (40, 30) [] [] false)) - 4 /\
    In col Snake.colors.
Proof.
  apply (proj1 (proj2 engine_add_player) "player_1" "ann"
           (GameState.mk (40, 30) [] [] false) steady).
  - reflexivity.
  - cbn. lia.
  - cbn. lia.
Defined.

(** ** The engine: one tick *)

Lemma each_move_rel grid food d :
  Forall has_body (dict_values d) ->
  exists flags d',
    each_value (Snake.move grid food) d = (Ok flags, d') /\
    Forall2 (fun a b => fst b = fst a /\
                        snd b = snd (Snake.move grid food (snd a))) d d' /\
    Forall has_body (dict_values d').
Proof.
  induction d as [|[k v] rest IH]; intros H.
  - exists [], []. cbn. auto.
  - cbn [each_value]. unfold dict_values in H. cbn [map snd] in H.
    apply Forall_cons_iff in H. destruct H as [Hv Hrest].
    destruct (move_has_body grid food v Hv) as (ate & v' & E & Hv' & _).
    rewrite E.
    destruct (IH Hrest) as (flags & rest' & E' & K & B).
    rewrite E'. exists (ate :: flags), ((k, v') :: rest').
    split; [reflexivity|]. split.
    + constructor; [|assumption]. cbn [fst snd]. now rewrite E.
    + unfold dict_values in *. cbn [map snd]. now constructor.
Qed.

Lemma remove_first_length c l :
  cell_in c l = true -> S (List.length (remove_first c l)) = List.length l.
Proof.
  induction l as [|x l IH]; [discriminate|].
  unfold cell_in. cbn [existsb remove_first].
  destruct (cell_eqb x c) eqn:E; [reflexivity|].
  assert (E' : cell_eqb c x = false).
  { destruct (cell_eqb c x) eqn:E2; [|reflexivity].
    apply cell_eqb_eq in E2. subst.
    assert (cell_eqb x x = true) by now apply cell_eqb_eq. congruence. }
  rewrite E'. cbn [orb List.length]. intros H. now rewrite (IH H).
Qed.

Lemma replace_food_count snake g r :
  has_body snake ->
  0 < fst (GameState.grid_size g) -> 0 < snd (GameState.grid_size g) ->
  exists g' r',
    GameState.replace_food snake (g, r) = (Ok tt, (g', r')) /\
    same_game g g' /\
    (List.length (GameState.food_positions g')
     <= List.length (GameState.food_positions g))%nat.
Proof.
  intros Hb Hx Hy. unfold GameState.replace_food. unfold has_body in Hb.
  destruct (Snake.body snake) as [|h tl]; [easy|].
  unfold bind, GameState.self, zoom, get, when. cbn [fst snd].
  destruct (cell_in h (GameState.food_positions g)) eqn:Hin.
  - unfold modify. cbn [fst snd].
    set (g1 := GameState.set_food_positions _ g).
    destruct (generate_food_sound_aux 1 g1 r Hx Hy)
      as (added & r2 & E & L & _ & _).
    rewrite E. exists (with_more_food added g1), r2.
    split; [reflexivity|]. split; [now repeat split|].
    unfold with_more_food, g1. cbn. rewrite length_app.
    pose proof (remove_first_length h _ Hin). lia.
  - exists g, r. split; [reflexivity|]. split; [apply same_game_refl | lia].
Qed.

Lemma replace_all_count eaters g r :
  Forall has_body eaters ->
  0 < fst (GameState.grid_size g) -> 0 < snd (GameState.grid_size g) ->
  exists g' r',
    for_each eaters GameState.replace_food (g, r) = (Ok tt, (g', r')) /\
    same_game g g' /\
    (List.length (GameState.food_positions g')
     <= List.length (GameState.food_positions g))%nat.
Proof.
  intros H. revert g r. induction H as [|s rest Hs H IH]; intros g r Hx Hy.
  - exists g, r. split; [reflexivity|]. split; [apply same_game_refl | lia].
  - cbn [for_each]. unfold bind.
    destruct (replace_food_count s g r Hs Hx Hy) as (g1 & r1 & E1 & S1 & L1).
    rewrite E1. pose proof S1 as (G1 & _ & _).
    assert (Hx1 : 0 < fst (GameState.grid_size g1)) by now rewrite G1.
    assert (Hy1 : 0 < snd (GameState.grid_size g1)) by now rewrite G1.
    destruct (IH g1 r1 Hx1 Hy1) as (g2 & r2 & E2 & S2 & L2).
    exists g2, r2. split; [assumption|].
    split; [eapply same_game_trans; eassumption | lia].
Qed.

Lemma with_values_rel (d : dict Snake.t) vs :
  Forall2 fades (dict_values d) vs ->
  Forall2 (fun a b => fst b = fst a /\ fades (snd a) (snd b))
          d (with_values d vs).
Proof.
  revert vs. induction d as [|[k v] d IH]; intros vs H.
  - destruct vs; constructor.
  - unfold dict_values in H. cbn [map snd] in H.
    inversion H as [|? v' ? vs' Hv Hrest]; subst.
    cbn [with_values]. constructor; [now split | now apply IH].
Qed.

Lemma Forall2_compose (A : Type) (P Q R : A -> A -> Prop) l1 l2 l3 :
  (forall a b c, P a b -> Q b c -> R a c) ->
  Forall2 P l1 l2 -> Forall2 Q l2 l3 -> Forall2 R l1 l3.
Proof.
  intros H H12. revert l3. induction H12; intros l3 H23;
    inversion H23; subst; constructor; eauto.
Qed.

Lemma engine_tick_idle g r :
  GameState.game_active g = false ->
  GameState.update_movement (g, r) = (Ok tt, (g, r)).
Proof.
  intros Ha.
  unfold GameState.update_movement, bind, GameState.self, zoom, get.
  cbn [fst snd]. rewrite Ha. reflexivity.
Qed.

Lemma engine_tick_run g r :
  wf_engine g ->
  GameState.game_active g = true ->
  exists g' r',
    GameState.update_movement (g, r) = (Ok tt, (g', r')) /\
    Forall2 (ticked (GameState.grid_size g) (GameState.food_positions g))
            (GameState.snakes g) (GameState.snakes g') /\
    (List.length (GameState.food_positions g')
     <= List.length (GameState.food_positions g))%nat /\
    GameState.grid_size g' = GameState.grid_size g /\
    GameState.game_active g' = true.
Proof.
  intros (Hx & Hy & Hb) Hact.
  unfold GameState.update_movement, bind, GameState.self, zoom, get.
  cbn [fst snd]. rewrite Hact. cbn [negb].
  unfold GameState.move_snakes. cbn [fst snd].
  destruct (each_move_rel (GameState.grid_size g)
              (GameState.food_positions g) (GameState.snakes g) Hb)
    as (flags & d1 & E1 & K1 & B1).
  rewrite E1. cbn [fst snd].
  set (g1 := GameState.set_snakes d1 g).
  destruct (replace_all_count (GameState.ate_food flags (dict_values d1))
              g1 r)
    as (g2 & r2 & E2 & (G2 & S2 & A2) & L2);
    [now apply ate_food_has_body | easy..|].
  cbn [GameState.snakes g1 GameState.set_snakes] in E2 |- *.
  rewrite E2. cbn [fst snd].
  unfold GameState.collisions.
  assert (B2 : Forall has_body (dict_values (GameState.snakes g2))).
  { rewrite S2. exact B1. }
  destruct (resolve_collisions_fades _ B2) as (vs & E3 & F3 & _).
  rewrite E3. eexists _, _. split; [reflexivity|].
  cbn [GameState.snakes GameState.set_snakes GameState.grid_size
       GameState.game_active GameState.food_positions].
  split; [|split; [exact L2|split; [exact G2|]]].
  - rewrite S2 in *. cbn [GameState.snakes g1 GameState.set_snakes] in *.
    eapply Forall2_compose; [|exact K1|apply with_values_rel; exact F3].
    intros a b c [Kab Eab] [Kbc Fbc]. split; [congruence|].
    now rewrite <- Eab.
  - rewrite A2. exact Hact.
Qed.

(** X10.  One tick of the engine.  While no game is running it does
    nothing.  On a running engine whose grid and snakes have cells it
    never raises; the snakes stay the same players in the same order and
    each one is what its own move made of it, with at most its alive
    flag cleared by the collision pass; the food list does not grow;
    grid and activity flag are as they were. *)
Theorem engine_tick :
  (forall g r,
      GameState.game_active g = false ->
      GameState.update_movement (g, r) = (Ok tt, (g, r))) /\
  (forall g r,
      wf_engine g ->
      GameState.game_active g = true ->
      exists g' r',
        GameState.update_movement (g, r) = (Ok tt, (g', r')) /\
        Forall2 (ticked (GameState.grid_size g) (GameState.food_positions g))
                (GameState.snakes g) (GameState.snakes g') /\
        (List.length (GameState.food_positions g')
         <= List.length (GameState.food_positions g))%nat /\
        GameState.grid_size g' = GameState.grid_size g /\
        GameState.game_active g' = true).
Proof.
  split; [exact engine_tick_idle | exact engine_tick_run].
Qed.

Lemma running_engine_wf : wf_engine running_engine.
Proof.
  split; [reflexivity|]. split; [reflexivity|].
  repeat constructor; discriminate.
Defined.

Lemma engine_tick_witness :
  exists g' r',
    GameState.update_movement (running_engine, steady) = (Ok tt, (g', r')) /\
    Forall2 (ticked (GameState.grid_size running_engine)
               (GameState.food_positions running_engine))
            (GameState.snakes running_engine) (GameState.snakes g') /\
    (List.length (GameState.food_positions g')
     <= List.length (GameState.food_positions running_engine))%nat /\
    GameState.grid_size g' = GameState.grid_size running_engine /\
    GameState.game_active g' = true.
Proof.
  apply (proj2 engine_tick running_engine steady).
  - exact running_engine_wf.
  - reflexivity.
Defined.

(** *** Direction requests *)

Lemma is_direction_some v d :
  GameState.is_direction v = Some d <->
  v = PStr d /\ In d ["UP"; "DOWN"; "LEFT"; "RIGHT"].
Proof.
  destruct v as [|s]; cbn [GameState.is_direction].
  - split; [discriminate | intros [H _]; discriminate].
  - destruct (existsb (String.eqb s) ["UP"; "DOWN"; "LEFT"; "RIGHT"]) eqn:E.
    + apply existsb_exists in E. destruct E as (x & Hx & Ex).
      apply String.eqb_eq in Ex. subst x.
      split; [intros [= <-]; auto | intros [[= ->] _]; reflexivity].
    + split; [discriminate|]. intros [[= ->] Hin]. exfalso.
      assert (existsb (String.eqb d) ["UP"; "DOWN"; "LEFT"; "RIGHT"] = true).
      { apply existsb_exists. exists d. split; [assumption|].
        apply String.eqb_refl. }
      congruence.
Qed.

Lemma set_direction_of_get pid d l s :
  dict_get l pid = Some s ->
  dict_get (GameState.set_direction_of pid d l) pid
  = Some (snd (Snake.set_direction d s)).
Proof.
  induction l as [|[k v] l IH]; [discriminate|].
  cbn [dict_get GameState.set_direction_of].
  destruct (String.eqb pid k) eqn:E.
  - intros [= ->]. cbn [dict_get]. now rewrite E.
  - intros H. cbn [dict_get]. rewrite E. now apply IH.
Qed.

Lemma set_direction_of_other pid d l k :
  k <> pid ->
  dict_get (GameState.set_direction_of pid d l) k = dict_get l k.
Proof.
  intros Hk. induction l as [|[k' v] l IH]; [reflexivity|].
  cbn [dict_get GameState.set_direction_of].
  destruct (String.eqb pid k') eqn:E.
  - apply String.eqb_eq in E. subst k'. cbn [dict_get].
    replace (String.eqb k pid) with false
      by (symmetry; now apply String.eqb_neq).
    reflexivity.
  - cbn [dict_get]. now rewrite IH.
Qed.

Lemma set_direction_of_keys pid d l :
  dict_keys (GameState.set_direction_of pid d l) = dict_keys l.
Proof.
  unfold dict_keys. induction l as [|[k v] l IH]; [reflexivity|].
  cbn [GameState.set_direction_of].
  destruct (String.eqb pid k); cbn [map fst]; [reflexivity | now rewrite IH].
Qed.

(** X11.  A direction request.  It is refused, and nothing changes, when
    the player has no snake, when no game is running, or when the value
    is not one of UP, DOWN, LEFT, RIGHT.  Otherwise it is accepted, and
    the only change is to the pending direction of that player's own
    snake, as [set_direction] decides; players, their order, the other
    snakes, food, grid and activity flag are as they were. *)
Theorem direction_request_outcomes :
  (forall v d,
      GameState.is_direction v = Some d <->
      v = PStr d /\ In d ["UP"; "DOWN"; "LEFT"; "RIGHT"]) /\
  (forall pid v g,
      dict_mem (GameState.snakes g) pid = false \/
      GameState.game_active g = false \/
      GameState.is_direction v = None ->
      GameState.update_player_direction pid v g = (Ok false, g)) /\
  (forall pid v g d s,
      dict_get (GameState.snakes g) pid = Some s ->
      GameState.game_active g = true ->
      GameState.is_direction v = Some d ->
      exists g',
        GameState.update_player_direction pid v g = (Ok true, g') /\
        dict_get (GameState.snakes g') pid
        = Some (snd (Snake.set_direction d s)) /\
        (forall k, k <> pid ->
                   dict_get (GameState.snakes g') k
                   = dict_get (GameState.snakes g) k) /\
        dict_keys (GameState.snakes g') = dict_keys (GameState.snakes g) /\
        GameState.food_positions g' = GameState.food_positions g /\
        GameState.grid_size g' = GameState.grid_size g /\
        GameState.game_active g' = true).
Proof.
  split; [exact is_direction_some|]. split.
  - intros pid v g H.
    unfold GameState.update_player_direction, bind, get, put, ret.
    destruct (dict_mem (GameState.snakes g) pid && GameState.game_active g)
      eqn:E; [|reflexivity].
    apply andb_true_iff in E. destruct E as [E1 E2].
    destruct H as [H|[H|H]]; [congruence | congruence |].
    now rewrite H.
  - intros pid v g d s Hs Ha Hd.
    unfold GameState.update_player_direction, bind, get, put, ret.
    unfold dict_mem. rewrite Hs, Ha, Hd. cbn [andb].
    eexists. split; [reflexivity|].
    cbn [GameState.snakes GameState.set_snakes GameState.food_positions
         GameState.grid_size GameState.game_active].
    split; [now apply set_direction_of_get|].
    split; [intros k Hk; now apply set_direction_of_other|].
    split; [apply set_direction_of_keys|]. auto.
Qed.

Lemma direction_request_outcomes_witness :
  GameState.update_player_direction "player_9" (PStr "UP") running_engine
  = (Ok false, running_engine) /\
  GameState.update_player_direction "player_1" (PStr "up") running_engine
  = (Ok false, running_engine) /\
  exists g',
    GameState.update_player_direction "player_1" (PStr "UP") running_engine
    = (Ok true, g') /\
    dict_get (GameState.snakes g') "player_1"
    = Some (snd (Snake.set_direction "UP" first_snake)) /\
    (forall k, k <> "player_1" ->
               dict_get (GameState.snakes g') k
               = dict_get (GameState.snakes running_engine) k) /\
    dict_keys (GameState.snakes g') = dict_keys (GameState.snakes running_engine) /\
    GameState.food_positions g' = GameState.food_positions running_engine /\
    GameState.grid_size g' = GameState.grid_size running_engine /\
    GameState.game_active g' = true.
Proof.
  split; [|split].
  - apply (proj1 (proj2 direction_request_outcomes)). left. reflexivity.
  - apply (proj1 (proj2 direction_request_outcomes)). right. right.
    reflexivity.
  - apply (proj2 (proj2 direction_request_outcomes) "player_1" (PStr "UP")
             running_engine "UP" first_snake); reflexivity.
Defined.

(** ** The room: joining *)

Lemma room_add_member pid info r e :
  dict_mem (GameRoom.players r) pid = true ->
  Z.of_nat (List.length (GameRoom.players r)) < GameRoom.max_players r ->
  GameRoom.add_player pid info (r, e)
  = (Ok (false, "Игрок уже в комнате"), (r, e)).
Proof.
  intros Hm H.
  unfold GameRoom.add_player, bind, GameRoom.self, zoom, get, ret.
  cbn [fst snd].
  replace (GameRoom.max_players r <=? Z.of_nat (List.length (GameRoom.players r)))
    with false by (symmetry; apply Z.leb_gt; lia).
  now rewrite Hm.
Qed.

Lemma room_add_new pid info r e :
  Z.of_nat (List.length (GameRoom.players r)) < GameRoom.max_players r ->
  dict_mem (GameRoom.players r) pid = false ->
  dict_mem (GameState.snakes (GameRoom.game_state r)) pid = false ->
  11 <= fst (GameState.grid_size (GameRoom.game_state r)) ->
  11 <= snd (GameState.grid_size (GameRoom.game_state r)) ->
  exists x y col rnd',
    GameRoom.add_player pid info (r, e)
    = (Ok (true, "Успешно присоединился к комнате"),
       (joined pid info
          (with_snake pid (newborn pid (x, y) col) (GameRoom.game_state r)) r,
        set_rand rnd' e)) /\
    3 <= x <= fst (GameState.grid_size (GameRoom.game_state r)) - 4 /\
    3 <= y <= snd (GameState.grid_size (GameRoom.game_state r)) - 4 /\
    In col Snake.colors.
Proof.
  intros Hroom Hm Hs Hx Hy.
  destruct (engine_add_new pid (GameRoom.username info) (GameRoom.game_state r)
              (rand e) Hs Hx Hy)
    as (x & y & col & rnd' & E & Rx & Ry & Hc).
  exists x, y, col, rnd'. split; [|auto].
  unfold GameRoom.add_player, bind, GameRoom.self, GameRoom.state_rand, zoom,
    get, modify, ret.
  cbn [fst snd].
  replace (GameRoom.max_players r <=? Z.of_nat (List.length (GameRoom.players r)))
    with false by (symmetry; apply Z.leb_gt; lia).
  rewrite Hm.
  rewrite (dict_set_new_app _ _ _ _ Hm).
  cbn [fst snd GameRoom.creator_id GameRoom.set_players].
  destruct (GameRoom.creator_id r) eqn:Ec;
    cbn [fst snd GameRoom.game_state GameRoom.set_players
         GameRoom.set_creator_id];
    rewrite E; unfold joined; rewrite Ec; cbn [fst snd];
    unfold GameRoom.set_game_state, GameRoom.set_creator_id,
      GameRoom.set_players; cbn; rewrite ?Ec; reflexivity.
Qed.

Lemma room_add_never_rolls_back pid info s ok msg s' :
  GameRoom.add_player pid info s = (Ok (ok, msg), s') ->
  msg <> "Ошибка добавления в игру".
Proof.
  destruct s as [r e].
  unfold GameRoom.add_player. unfold bind at 1.
  unfold GameRoom.self at 1, zoom at 1, get. cbn [fst snd].
  destruct (GameRoom.max_players r <=? _).
  { intros [= _ <- _]. discriminate. }
  destruct (dict_mem (GameRoom.players r) pid).
  { intros [= _ <- _]. discriminate. }
  unfold bind at 1 2.
  unfold GameRoom.self at 1 2, zoom at 1 2, modify. cbn [fst snd].
  unfold bind at 1.
  destruct (GameRoom.state_rand _ _) as [[b|x] [r2 e2]] eqn:E2;
    [|discriminate].
  assert (Hok := returns_zoom _ _ _ _ _ _ _
                   (add_player_returns_true pid (GameRoom.username info))
                   _ _ _ E2).
  cbn in Hok. subst b. intros [= _ <- _]. discriminate.
Qed.

(** X12.  Joining a room.  A full room refuses and a room that has the
    player already refuses, each with its own message and without any
    change.  Otherwise, on the engine's usual grid, the player is
    accepted: appended to the members, made creator if the room had
    none, and given a new one-cell snake.  The answer "Ошибка добавления
    в игру" (with the roll-back of the membership) never occurs. *)
Theorem room_join_outcomes :
  (forall pid info r e,
      GameRoom.max_players r <= Z.of_nat (List.length (GameRoom.players r)) ->
      GameRoom.add_player pid info (r, e)
      = (Ok (false, "Комната заполнена"), (r, e))) /\
  (forall pid info r e,
      dict_mem (GameRoom.players r) pid = true ->
      Z.of_nat (List.length (GameRoom.players r)) < GameRoom.max_players r ->
      GameRoom.add_player pid info (r, e)
      = (Ok (false, "Игрок уже в комнате"), (r, e))) /\
  (forall pid info r e,
      Z.of_nat (List.length (GameRoom.players r)) < GameRoom.max_players r ->
      dict_mem (GameRoom.players r) pid = false ->
      dict_mem (GameState.snakes (GameRoom.game_state r)) pid = false ->
      11 <= fst (GameState.grid_size (GameRoom.game_state r)) ->
      11 <= snd (GameState.grid_size (GameRoom.game_state r)) ->
      exists x y col rnd',
        GameRoom.add_player pid info (r, e)
        = (Ok (true, "Успешно присоединился к комнате"),
           (joined pid info
              (with_snake pid (newborn pid (x, y) col) (GameRoom.game_state r))
              r,
            set_rand rnd' e)) /\
        3 <= x <= fst (GameState.grid_size (GameRoom.game_state r)) - 4 /\
        3 <= y <= snd (GameState.grid_size (GameRoom.game_state r)) - 4 /\
        In col Snake.colors) /\
  (forall pid info s ok msg s',
      GameRoom.add_player pid info s = (Ok (ok, msg), s') ->
      msg <> "Ошибка добавления в игру").
Proof.
  split; [exact add_player_full|].
  split; [exact room_add_member|].
  split; [exact room_add_new | exact room_add_never_rolls_back].
Qed.

Lemma room_join_outcomes_witness :
  GameRoom.add_player "player_1" (GameRoom.mkInfo "ann" 1%nat)
    (fst two_idle, snd two_idle)
  = (Ok (false, "Игрок уже в комнате"), (fst two_idle, snd two_idle)) /\
  exists x y col rnd',
    GameRoom.add_player "player_3" (GameRoom.mkInfo "cat" 3%nat)
      (fst two_idle, snd two_idle)
    = (Ok (true, "Успешно присоединился к комнате"),
       (joined "player_3" (GameRoom.mkInfo "cat" 3%nat)
          (with_snake "player_3" (newborn "player_3" (x, y) col)
             (GameRoom.game_state (fst two_idle)))
          (fst two_idle),
        set_rand rnd' (snd two_idle))) /\
    3 <= x <= fst (GameState.grid_size (GameRoom.game_state (fst two_idle))) - 4 /\
    3 <= y <= snd (GameState.grid_size (GameRoom.game_state (fst two_idle))) - 4 /\
    In col Snake.colors.
Proof.
  split.
  - apply (proj1 (proj2 room_join_outcomes)); [reflexivity|]. cbn. lia.
  - apply (proj1 (proj2 (proj2 room_join_outcomes))).
    + cbn. lia.
    + reflexivity.
    + reflexivity.
    + cbn. lia.
    + cbn. lia.
Defined.

(** ** The room and its engine *)

Lemma same_cast_refl s : same_cast s s.
Proof. now repeat split. Qed.

Lemma same_cast_trans a b c : same_cast a b -> same_cast b c -> same_cast a c.
Proof. intros (A1 & A2 & A3) (B1 & B2 & B3). repeat split; congruence. Qed.

#[local] Hint Resolve same_cast_refl same_cast_trans : frame.

Lemma room_sound_same s s' :
  same_cast s s' -> room_sound (fst s) -> room_sound (fst s').
Proof.
  intros (P & S & G) (H1 & H2 & H3). unfold room_sound.
  rewrite P, S, G. auto.
Qed.

Lemma keeps_cast_env A (m : M Env A) : keeps same_cast (GameRoom.env m).
Proof. apply keeps_zoom. intros s t. now repeat split. Qed.

Lemma keeps_cast_self_get : keeps same_cast (GameRoom.self get).
Proof.
  intros s res s'. unfold GameRoom.self, zoom, get. intros [= _ <-].
  destruct s. now repeat split.
Qed.

Lemma keeps_cast_active b :
  keeps same_cast (GameRoom.self (modify (GameRoom.set_game_active b))).
Proof.
  intros s res s'. unfold GameRoom.self, zoom, modify. intros [= _ <-].
  now repeat split.
Qed.

Lemma keeps_cast_engine_active b :
  keeps same_cast
    (GameRoom.self (GameRoom.state (modify (GameState.set_game_active b)))).
Proof.
  intros s res s'. unfold GameRoom.self, GameRoom.state, zoom, modify.
  intros [= _ <-]. now repeat split.
Qed.

#[local] Hint Resolve keeps_cast_env keeps_cast_self_get keeps_cast_active
  keeps_cast_engine_active : frame.

Lemma keeps_cast_broadcast msg exclude :
  keeps same_cast (GameRoom.broadcast_message msg exclude).
Proof. unfold GameRoom.broadcast_message. frame. Qed.

Lemma keeps_cast_start_game pid :
  keeps same_cast (GameRoom.self (GameRoom.start_game pid)).
Proof.
  intros s res s'. unfold GameRoom.self, zoom.
  destruct (GameRoom.start_game pid (fst s)) as [r t] eqn:E.
  intros [= _ <-]. cbn [fst].
  unfold GameRoom.start_game, bind, get, modify, ret, GameRoom.state, zoom in E.
  destruct (negb _); [injection E as _ <-; now repeat split|].
  destruct (_ <? 1); [injection E as _ <-; now repeat split|].
  destruct (GameRoom.game_active (fst s));
    injection E as _ <-; now repeat split.
Qed.

(** *** The constructor *)

Lemma engine_init_run grid r :
  0 < fst grid -> 0 < snd grid ->
  exists added r',
    GameState.init grid r
    = (Ok (with_more_food added (GameState.mk grid [] [] false)), r') /\
    (List.length added <= 5)%nat.
Proof.
  intros Hx Hy. unfold GameState.init.
  destruct (generate_food_sound_aux 5 (GameState.mk grid [] [] false) r Hx Hy)
    as (added & r' & E & L & _).
  rewrite E. exists added, r'. auto.
Qed.

Lemma room_init_sound rid name max g r g' :
  GameRoom.init rid name max g = (Ok r, g') -> room_sound r.
Proof.
  unfold GameRoom.init, bind, ret.
  destruct (engine_init_run (40, 30) g) as (added & r' & E & _);
    [reflexivity | reflexivity |].
  rewrite E. intros [= <- _]. unfold room_sound. cbn.
  split; [reflexivity|]. split; [constructor | reflexivity].
Qed.

(** *** Joining *)

Lemma room_sound_grid r :
  room_sound r ->
  11 <= fst (GameState.grid_size (GameRoom.game_state r)) /\
  11 <= snd (GameState.grid_size (GameRoom.game_state r)).
Proof. intros (G & _). rewrite G. cbn. lia. Qed.

Lemma room_sound_wf r : room_sound r -> wf_engine (GameRoom.game_state r).
Proof.
  intros (G & B & _). unfold wf_engine. rewrite G. cbn.
  split; [lia|]. split; [lia | assumption].
Qed.

Lemma sound_no_snake r pid :
  room_sound r -> dict_mem (GameRoom.players r) pid = false ->
  dict_mem (GameState.snakes (GameRoom.game_state r)) pid = false.
Proof.
  intros (_ & _ & K) Hm. apply dict_mem_false_keys. rewrite K.
  now apply dict_mem_false_keys.
Qed.

Lemma add_player_sound pid info r e res r' e' :
  room_sound r ->
  GameRoom.add_player pid info (r, e) = (res, (r', e')) ->
  room_sound r'.
Proof.
  intros Hs H.
  destruct (Z_lt_le_dec (Z.of_nat (List.length (GameRoom.players r)))
              (GameRoom.max_players r)) as [Hroom|Hfull].
  2:{ rewrite (add_player_full pid info r e Hfull) in H.
      now injection H as _ <- _. }
  destruct (dict_mem (GameRoom.players r) pid) eqn:Hm.
  { rewrite (room_add_member pid info r e Hm Hroom) in H.
    now injection H as _ <- _. }
  destruct (room_sound_grid r Hs) as [Gx Gy].
  destruct (room_add_new pid info r e Hroom Hm (sound_no_snake r pid Hs Hm)
              Gx Gy) as (x & y & col & rnd' & E & _).
  rewrite E in H. injection H as _ <- _.
  destruct Hs as (G & B & K). unfold room_sound, joined, with_snake. cbn.
  split; [exact G|]. split.
  - unfold dict_values in *. rewrite map_app. apply Forall_app. split; [exact B|].
    constructor; [discriminate | constructor].
  - unfold dict_keys in *. rewrite !map_app, K. reflexivity.
Qed.

(** *** Leaving *)

Lemma dict_del_same_keys (A B : Type) (d1 : dict A) (d2 : dict B) k :
  dict_keys d1 = dict_keys d2 ->
  dict_keys (dict_del d1 k) = dict_keys (dict_del d2 k).
Proof.
  unfold dict_keys. revert d2.
  induction d1 as [|[k1 v1] d1 IH]; intros [|[k2 v2] d2]; try discriminate;
    [reflexivity|].
  cbn. intros [= <- H]. destruct (String.eqb k k1); [assumption|].
  cbn. now rewrite (IH d2 H).
Qed.

Lemma dict_del_values (A : Type) (P : A -> Prop) (d : dict A) k :
  Forall P (dict_values d) -> Forall P (dict_values (dict_del d k)).
Proof.
  unfold dict_values. induction d as [|[k1 v1] d IH]; [auto|].
  cbn. intros H. apply Forall_cons_iff in H. destruct H as [H1 H2].
  destruct (String.eqb k k1); [assumption|].
  cbn. constructor; auto.
Qed.

Lemma without_snake_is pid g :
  without_snake pid g = GameState.set_snakes (dict_del (GameState.snakes g) pid) g
  \/ (without_snake pid g = g /\ dict_mem (GameState.snakes g) pid = false).
Proof.
  unfold without_snake, GameState.remove_player, bind, get, when, put, ret.
  destruct (dict_mem (GameState.snakes g) pid); cbn; auto.
Qed.

Lemma vacated_sound pid r :
  room_sound r -> dict_mem (GameRoom.players r) pid = true ->
  room_sound (vacated pid r).
Proof.
  intros (G & B & K) Hm. unfold room_sound, vacated.
  cbn [GameRoom.game_state GameRoom.players GameRoom.set_game_state
       GameRoom.set_players].
  destruct (without_snake_is pid (GameRoom.game_state r)) as [E|[E Hno]].
  - rewrite E. cbn. split; [exact G|].
    split; [now apply dict_del_values | now apply dict_del_same_keys].
  - exfalso. apply dict_mem_false_keys in Hno. apply Hno. rewrite K.
    now apply dict_mem_keys.
Qed.

Lemma remove_player_sound pid r e res r' e' :
  room_sound r ->
  GameRoom.remove_player pid (r, e) = (res, (r', e')) ->
  room_sound r'.
Proof.
  intros Hs H.
  destruct (dict_mem (GameRoom.players r) pid) eqn:Hm.
  2:{ rewrite (remove_player_absent pid r e Hm) in H.
      now injection H as _ <- _. }
  pose proof (vacated_sound pid r Hs Hm) as Hv.
  destruct (dict_del (GameRoom.players r) pid) as [|x rest] eqn:Hd.
  { rewrite (remove_player_last pid r e Hm Hd) in H.
    injection H as _ <- _. exact Hv. }
  assert (Hd' : dict_del (GameRoom.players r) pid <> [])
    by (rewrite Hd; discriminate).
  destruct (opt_string_eqb (Some pid) (GameRoom.creator_id r)) eqn:Hc.
  - destruct (remove_player_creator pid r e Hm Hd' Hc) as (c & e1 & Hin & E).
    rewrite E in H. injection H as _ <- _. exact Hv.
  - destruct (remove_player_other pid r e Hm Hd' Hc) as (e1 & E).
    rewrite E in H. injection H as _ <- _. exact Hv.
Qed.

(** *** Restarting *)

Lemma dict_mem_app_one (V : Type) (d : dict V) k k' v :
  k <> k' -> dict_mem d k = false -> dict_mem (d ++ [(k', v)]) k = false.
Proof.
  intros Hk. unfold dict_mem.
  induction d as [|[k1 v1] d IH]; cbn.
  - intros _. apply String.eqb_neq in Hk. now rewrite Hk.
  - destruct (String.eqb k k1); [discriminate | exact IH].
Qed.

Lemma add_all_run ps :
  NoDup (dict_keys ps) ->
  forall g r,
    (forall k, In k (dict_keys ps) -> dict_mem (GameState.snakes g) k = false) ->
    11 <= fst (GameState.grid_size g) -> 11 <= snd (GameState.grid_size g) ->
    exists news r',
      GameRoom.add_all ps (g, r)
      = (Ok tt, (GameState.set_snakes (GameState.snakes g ++ news) g, r')) /\
      dict_keys news = dict_keys ps /\
      Forall fresh_entry news.
Proof.
  induction ps as [|[pid info] ps IH]; intros Hnd g r Hno Hx Hy.
  - exists [], r. cbn [GameRoom.add_all]. unfold ret. rewrite app_nil_r.
    split; [now destruct g|]. split; [reflexivity | constructor].
  - cbn [dict_keys map fst] in Hnd. apply NoDup_cons_iff in Hnd.
    destruct Hnd as [Hpid Hnd].
    cbn [GameRoom.add_all]. unfold bind.
    destruct (engine_add_new pid (GameRoom.username info) g r)
      as (x & y & col & r1 & E & _); [apply Hno; now left | assumption..|].
    rewrite E.
    destruct (IH Hnd (with_snake pid (newborn pid (x, y) col) g) r1)
      as (news & r2 & E2 & K2 & F2).
    + intros k Hk. unfold with_snake. cbn.
      apply dict_mem_app_one; [intros ->; contradiction|].
      apply Hno. now right.
    + exact Hx.
    + exact Hy.
    + exists ((pid, newborn pid (x, y) col) :: news), r2.
      rewrite E2. unfold with_snake. cbn. rewrite <- app_assoc.
      split; [reflexivity|]. split.
      * unfold dict_keys in *. cbn. now rewrite K2.
      * constructor; [|assumption]. now exists (x, y), col.
Qed.

Lemma restart_refused pid r e :
  GameRoom.creator_id r <> Some pid ->
  GameRoom.restart_game pid (r, e)
  = (Ok (false, "Только создатель комнаты может перезапустить игру"), (r, e)).
Proof.
  intros H. unfold GameRoom.restart_game, bind, GameRoom.self, zoom, get, ret.
  cbn [fst snd].
  destruct (opt_string_eqb (Some pid) (GameRoom.creator_id r)) eqn:E;
    [|reflexivity].
  apply opt_string_eqb_eq in E. contradiction.
Qed.

Lemma restart_run pid r e :
  GameRoom.creator_id r = Some pid ->
  GameRoom.players r <> [] ->
  NoDup (dict_keys (GameRoom.players r)) ->
  11 <= fst (GameState.grid_size (GameRoom.game_state r)) ->
  11 <= snd (GameState.grid_size (GameRoom.game_state r)) ->
  exists food snakes rnd',
    GameRoom.restart_game pid (r, e)
    = (Ok (true, "Игра перезапущена"),
       (restarted
          (GameState.mk (GameState.grid_size (GameRoom.game_state r))
             snakes food false) r,
        set_rand rnd' e)) /\
    dict_keys snakes = dict_keys (GameRoom.players r) /\
    Forall fresh_entry snakes /\
    (List.length food <= 5)%nat.
Proof.
  intros Hc Hp Hnd Hx Hy.
  unfold GameRoom.restart_game. unfold bind at 1.
  unfold GameRoom.self at 1, zoom at 1, get. cbn [fst snd].
  replace (opt_string_eqb (Some pid) (GameRoom.creator_id r)) with true
    by (symmetry; now apply opt_string_eqb_eq).
  cbn [negb].
  destruct (GameRoom.players r) as [|p0 ps] eqn:Ep; [contradiction|].
  rewrite <- Ep in *.
  set (grid := GameState.grid_size (GameRoom.game_state r)) in *.
  destruct (engine_init_run grid (rand e)) as (food & r1 & Ei & Lf);
    [lia | lia |].
  unfold bind at 1. unfold GameRoom.env at 1, random at 1, zoom at 1 2.
  cbn [fst snd]. rewrite Ei. cbn [fst snd].
  set (g0 := with_more_food food (GameState.mk grid [] [] false)).
  destruct (add_all_run (GameRoom.players r) Hnd g0 r1)
    as (news & r2 & Ea & Kn & Fn); [reflexivity | exact Hx | exact Hy |].
  unfold bind at 1. unfold GameRoom.env at 1, random at 1, zoom at 1 2.
  cbn [fst snd rand set_rand]. rewrite Ea.
  exists food, news, r2. split; [|auto].
  unfold bind, GameRoom.self, GameRoom.state, zoom, modify, ret.
  cbn [fst snd]. reflexivity.
Qed.

Lemma fresh_entries_have_body l :
  Forall fresh_entry l -> Forall has_body (dict_values l).
Proof.
  unfold dict_values. induction 1 as [|[k s] l (c & col & E) H IH];
    [constructor|].
  cbn in *. constructor; [|assumption]. subst s. discriminate.
Qed.

Lemma restart_sound pid r e res r' e' :
  room_inv r -> room_sound r ->
  GameRoom.restart_game pid (r, e) = (res, (r', e')) ->
  room_sound r'.
Proof.
  intros (_ & Hcr & _ & Hnd) Hs H.
  destruct (opt_string_eqb (Some pid) (GameRoom.creator_id r)) eqn:Ec.
  2:{ rewrite restart_refused in H; [now injection H as _ <- _|].
      intros E. rewrite E in Ec. cbn in Ec.
      now rewrite String.eqb_refl in Ec. }
  apply opt_string_eqb_eq in Ec.
  assert (Hp : GameRoom.players r <> []).
  { intros E. specialize (Hcr pid Ec). rewrite E in Hcr. contradiction. }
  destruct (room_sound_grid r Hs) as [Gx Gy].
  destruct (restart_run pid r e Ec Hp Hnd Gx Gy)
    as (food & snakes & rnd' & E & K & F & _).
  rewrite E in H. injection H as _ <- _.
  destruct Hs as (G & _ & _). unfold room_sound, restarted. cbn.
  split; [exact G|]. split; [now apply fresh_entries_have_body | exact K].
Qed.

(** *** Ticking *)

Lemma judge_run r e :
  wf_engine (GameRoom.game_state r) ->
  (forall pid,
      In pid (dict_keys (GameState.snakes (GameRoom.game_state r))) ->
      dict_mem (GameRoom.players r) pid = true) ->
  exists v g' rnd',
    GameRoom.step_and_judge (r, e)
    = (Ok v,
       (match v with
        | Some _ => stopped (GameRoom.set_game_state g' r)
        | None => GameRoom.set_game_state g' r
        end, set_rand rnd' e)) /\
    dict_keys (GameState.snakes g')
    = dict_keys (GameState.snakes (GameRoom.game_state r)) /\
    GameState.grid_size g' = GameState.grid_size (GameRoom.game_state r) /\
    Forall has_body (dict_values (GameState.snakes g')).
Proof.
  intros Hwf Hmem.
  destruct (update_movement_ok (GameRoom.game_state r) (rand e) Hwf)
    as (g' & rnd' & E & K & G & _ & (_ & _ & B)).
  assert (E' : GameRoom.state_rand GameState.update_movement (r, e)
               = (Ok tt, (GameRoom.set_game_state g' r, set_rand rnd' e))).
  { unfold GameRoom.state_rand, zoom. cbn [fst snd]. now rewrite E. }
  remember (GameRoom.step_and_judge (r, e)) as J eqn:EJ.
  unfold GameRoom.step_and_judge in EJ. unfold bind at 1 in EJ.
  rewrite E' in EJ.
  unfold bind, GameRoom.self, GameRoom.state, zoom, get, modify, ret in EJ.
  cbn [fst snd GameRoom.game_state GameRoom.set_game_state GameRoom.players]
    in EJ.
  fold (stopped (GameRoom.set_game_state g' r)) in EJ.
  destruct (GameRoom.alive_snakes g') as [|[pid s] [|x more]] eqn:Ealive.
  - destruct (GameState.snakes g') as [|[p1 s1] [|y rest]] eqn:Esn;
      cbn [List.length Nat.ltb Nat.leb] in EJ;
      eexists _, g', rnd'; (split; [exact EJ|]); rewrite Esn in *; auto.
  - assert (Hin : In pid (dict_keys (GameState.snakes g'))).
    { apply (filter_key_in _ (fun entry => Snake.alive (snd entry)) _ pid s).
      fold (GameRoom.alive_snakes g'). rewrite Ealive. now left. }
    rewrite K in Hin.
    destruct (dict_mem_get _ _ _ (Hmem pid Hin)) as [info Hinfo].
    rewrite Hinfo in EJ.
    destruct (1 <? List.length (GameState.snakes g'))%nat;
      eexists _, g', rnd'; (split; [exact EJ|]); auto.
  - eexists _, g', rnd'. split; [exact EJ|]. auto.
Qed.

Lemma tick_idle r e :
  GameRoom.game_active r = false -> GameRoom.update_game (r, e) = (Ok tt, (r, e)).
Proof.
  intros H. unfold GameRoom.update_game, bind, GameRoom.self, zoom, get, ret.
  cbn [fst snd]. now rewrite H.
Qed.

Lemma tick_run r e :
  room_sound r ->
  exists r' e',
    GameRoom.update_game (r, e) = (Ok tt, (r', e')) /\ room_sound r' /\
    same_members (r, e) (r', e').
Proof.
  intros Hs.
  destruct (GameRoom.game_active r) eqn:Ha.
  2:{ exists r, e. rewrite (tick_idle r e Ha).
      split; [reflexivity|]. split; [assumption | apply same_members_refl]. }
  destruct (judge_run r e (room_sound_wf r Hs)) as (v & g' & rnd' & E & K & G & B).
  { intros pid Hin. destruct Hs as (_ & _ & Kp). rewrite Kp in Hin.
    now apply dict_mem_keys. }
  rewrite (update_game_after_judging r e _ _ _ Ha E).
  eexists _, _. split; [reflexivity|].
  destruct Hs as (Gs & _ & Ks).
  split.
  - unfold room_sound. destruct v; unfold stopped;
      cbn [GameRoom.game_state GameRoom.players GameRoom.set_game_state
           GameRoom.set_game_active GameState.grid_size GameState.snakes
           GameState.set_game_active];
      rewrite G, K; auto.
  - destruct v; unfold stopped; now repeat split.
Qed.

(** *** Direction requests *)

Lemma set_direction_of_bodies pid d l :
  Forall has_body (dict_values l) ->
  Forall has_body (dict_values (GameState.set_direction_of pid d l)).
Proof.
  unfold dict_values. induction l as [|[k s] l IH]; [auto|].
  cbn [GameState.set_direction_of map snd]. intros H.
  apply Forall_cons_iff in H. destruct H as [H1 H2].
  destruct (String.eqb pid k); cbn [map snd]; constructor; auto.
  unfold has_body, Snake.set_direction, bind, get, when, put, ret in *.
  destruct (negb _); exact H1.
Qed.

Lemma direction_sound pid d r e res r' e' :
  room_sound r ->
  GameRoom.self (GameRoom.state (GameState.update_player_direction pid d))
    (r, e) = (res, (r', e')) ->
  room_sound r'.
Proof.
  intros (G & B & K).
  unfold GameRoom.self, GameRoom.state, zoom. cbn [fst snd].
  unfold GameState.update_player_direction, bind, get, put, ret.
  destruct (dict_mem _ pid && GameState.game_active _);
    [|intros [= _ <- _]; now repeat split].
  destruct (GameState.is_direction d);
    [|intros [= _ <- _]; now repeat split].
  intros [= _ <- _]. unfold room_sound.
  cbn [GameRoom.game_state GameRoom.players GameRoom.set_game_state
       GameState.grid_size GameState.snakes GameState.set_snakes].
  split; [exact G|]. split; [now apply set_direction_of_bodies|].
  now rewrite set_direction_of_keys.
Qed.

(** *** Every reachable room *)

Lemma room_step_sound s s' :
  room_step s s' -> room_inv (fst s) -> room_sound (fst s) ->
  room_sound (fst s').
Proof.
  intros H Hinv Hs. destruct H as
    [pid info [r e] res [r' e'] H | pid [r e] res [r' e'] H
     | pid s res s' H | pid [r e] res [r' e'] H | [r e] res s' H
     | pid d [r e] res [r' e'] H
     | msg exclude s res s' H | r e e'].
  - exact (add_player_sound pid info r e res r' e' Hs H).
  - exact (remove_player_sound pid r e res r' e' Hs H).
  - exact (room_sound_same _ _ (keeps_cast_start_game pid _ _ _ H) Hs).
  - exact (restart_sound pid r e res r' e' Hinv Hs H).
  - destruct (tick_run r e Hs) as (r' & e' & E & Hs' & _).
    rewrite E in H. now injection H as _ <-.
  - exact (direction_sound pid d r e res r' e' Hs H).
  - exact (room_sound_same _ _ (keeps_cast_broadcast msg exclude _ _ _ H) Hs).
  - exact Hs.
Qed.

Lemma room_reachable_sound s : room_reachable s -> room_sound (fst s).
Proof.
  induction 1 as [rid name max g r g' e Hmax Hi | s s' Hr IH Hstep].
  - exact (room_init_sound rid name max g r g' Hi).
  - exact (room_step_sound s s' Hstep (room_reachable_inv s Hr) IH).
Qed.

(** ** Reachable rooms *)

(** X13.  In every state a room can reach, its engine matches its
    membership: the snakes are exactly those of the members, one each, in
    the order of the members; no player is listed twice; every snake has
    cells; the grid is 40 by 30. *)
Theorem reachable_room_engine_matches :
  forall s,
    room_reachable s ->
    dict_keys (GameState.snakes (GameRoom.game_state (fst s)))
    = dict_keys (GameRoom.players (fst s)) /\
    NoDup (dict_keys (GameRoom.players (fst s))) /\
    Forall has_body
      (dict_values (GameState.snakes (GameRoom.game_state (fst s)))) /\
    GameState.grid_size (GameRoom.game_state (fst s)) = (40, 30).
Proof.
  intros s Hr.
  destruct (room_reachable_sound s Hr) as (G & B & K).
  destruct (room_reachable_inv s Hr) as (_ & _ & _ & Hnd).
  auto.
Qed.

Lemma reachable_room_engine_matches_witness :
  dict_keys (GameState.snakes (GameRoom.game_state (fst two_members)))
  = dict_keys (GameRoom.players (fst two_members)) /\
  NoDup (dict_keys (GameRoom.players (fst two_members))) /\
  Forall has_body
    (dict_values (GameState.snakes (GameRoom.game_state (fst two_members)))) /\
  GameState.grid_size (GameRoom.game_state (fst two_members)) = (40, 30).
Proof.
  apply (reachable_room_engine_matches two_members).
  exact two_members_reachable.
Defined.

Lemma reachable_add_ok r e pid info :
  room_sound r ->
  exists res s', GameRoom.add_player pid info (r, e) = (Ok res, s').
Proof.
  intros Hs.
  destruct (Z_lt_le_dec (Z.of_nat (List.length (GameRoom.players r)))
              (GameRoom.max_players r)) as [Hroom|Hfull].
  2:{ rewrite (add_player_full pid info r e Hfull). eauto. }
  destruct (dict_mem (GameRoom.players r) pid) eqn:Hm.
  { rewrite (room_add_member pid info r e Hm Hroom). eauto. }
  destruct (room_sound_grid r Hs) as [Gx Gy].
  destruct (room_add_new pid info r e Hroom Hm (sound_no_snake r pid Hs Hm)
              Gx Gy) as (x & y & col & rnd' & E & _).
  rewrite E. eauto.
Qed.

Lemma reachable_restart_ok r e pid :
  room_inv r -> room_sound r ->
  exists res s', GameRoom.restart_game pid (r, e) = (Ok res, s').
Proof.
  intros (_ & Hcr & _ & Hnd) Hs.
  destruct (opt_string_eqb (Some pid) (GameRoom.creator_id r)) eqn:Ec.
  2:{ rewrite restart_refused; [eauto|].
      intros E. rewrite E in Ec. cbn in Ec.
      now rewrite String.eqb_refl in Ec. }
  apply opt_string_eqb_eq in Ec.
  assert (Hp : GameRoom.players r <> []).
  { intros E. specialize (Hcr pid Ec). rewrite E in Hcr. contradiction. }
  destruct (room_sound_grid r Hs) as [Gx Gy].
  destruct (restart_run pid r e Ec Hp Hnd Gx Gy)
    as (food & snakes & rnd' & E & _).
  rewrite E. eauto.
Qed.

Lemma member_removal_ok r e pid :
  dict_mem (GameRoom.players r) pid = true ->
  exists b s', GameRoom.remove_player pid (r, e) = (Ok b, s').
Proof.
  intros Hm.
  destruct (dict_del (GameRoom.players r) pid) as [|x rest] eqn:Hd.
  { rewrite (remove_player_last pid r e Hm Hd). eauto. }
  assert (Hd' : dict_del (GameRoom.players r) pid <> [])
    by (rewrite Hd; discriminate).
  destruct (opt_string_eqb (Some pid) (GameRoom.creator_id r)) eqn:Hc.
  - destruct (remove_player_creator pid r e Hm Hd' Hc) as (c & e1 & Hin & E).
    rewrite E. eauto.
  - destruct (remove_player_other pid r e Hm Hd' Hc) as (e1 & E).
    rewrite E. eauto.
Qed.

(** X14.  In a state a room can reach, a tick, a join and a restart
    never raise, whatever the random source and the network do; and
    removing a player raises exactly when the player is not a member
    ([UnboundLocalError], the room left as it was). *)
Theorem reachable_room_raises_only_on_stale_removal :
  forall r e,
    room_reachable (r, e) ->
    (exists s', GameRoom.update_game (r, e) = (Ok tt, s')) /\
    (forall pid info,
        exists res s', GameRoom.add_player pid info (r, e) = (Ok res, s')) /\
    (forall pid,
        exists res s', GameRoom.restart_game pid (r, e) = (Ok res, s')) /\
    (forall pid,
        dict_mem (GameRoom.players r) pid = true ->
        exists b s', GameRoom.remove_player pid (r, e) = (Ok b, s')) /\
    (forall pid,
        dict_mem (GameRoom.players r) pid = false ->
        GameRoom.remove_player pid (r, e) = (Raise UnboundLocalError, (r, e))).
Proof.
  intros r e Hr.
  pose proof (room_reachable_sound _ Hr) as Hs.
  pose proof (room_reachable_inv _ Hr) as Hi.
  cbn [fst] in Hs, Hi.
  split; [|split; [|split; [|split]]].
  - destruct (tick_run r e Hs) as (r' & e' & E & _). rewrite E. eauto.
  - intros pid info. now apply reachable_add_ok.
  - intros pid. now apply reachable_restart_ok.
  - intros pid. apply member_removal_ok.
  - intros pid. apply remove_player_absent.
Qed.

Lemma reachable_room_raises_only_on_stale_removal_witness :
  (exists s',
      GameRoom.update_game (fst two_members, snd two_members) = (Ok tt, s')) /\
  (forall pid info,
      exists res s',
        GameRoom.add_player pid info (fst two_members, snd two_members)
        = (Ok res, s')) /\
  (forall pid,
      exists res s',
        GameRoom.restart_game pid (fst two_members, snd two_members)
        = (Ok res, s')) /\
  (forall pid,
      dict_mem (GameRoom.players (fst two_members)) pid = true ->
      exists b s',
        GameRoom.remove_player pid (fst two_members, snd two_members)
        = (Ok b, s')) /\
  (forall pid,
      dict_mem (GameRoom.players (fst two_members)) pid = false ->
      GameRoom.remove_player pid (fst two_members, snd two_members)
      = (Raise UnboundLocalError, (fst two_members, snd two_members))).
Proof.
  apply (reachable_room_raises_only_on_stale_removal
           (fst two_members) (snd two_members)).
  exact two_members_reachable.
Defined.

(** X15.  Restarting.  Anyone but the creator is refused and nothing
    changes.  The creator of a reachable room always succeeds: the room
    gets a new engine on the old grid with at most five food cells and,
    for each member in order, a new one-cell snake (alive, score 0,
    heading right); both activity flags are set, also when a game was
    running; members and creator are as they were. *)
Theorem restart_game_fresh_round :
  (forall pid r e,
      GameRoom.creator_id r <> Some pid ->
      GameRoom.restart_game pid (r, e)
      = (Ok (false, "Только создатель комнаты может перезапустить игру"),
         (r, e))) /\
  (forall pid r e,
      room_reachable (r, e) ->
      GameRoom.creator_id r = Some pid ->
      exists food snakes rnd',
        GameRoom.restart_game pid (r, e)
        = (Ok (true, "Игра перезапущена"),
           (restarted
              (GameState.mk (GameState.grid_size (GameRoom.game_state r))
                 snakes food false) r,
            set_rand rnd' e)) /\
        dict_keys snakes = dict_keys (GameRoom.players r) /\
        Forall fresh_entry snakes /\
        (List.length food <= 5)%nat).
Proof.
  split; [exact restart_refused|].
  intros pid r e Hr Hc.
  pose proof (room_reachable_sound _ Hr) as Hs.
  destruct (room_reachable_inv _ Hr) as (_ & Hcr & _ & Hnd).
  cbn [fst] in *.
  assert (Hp : GameRoom.players r <> []).
  { intros E. specialize (Hcr pid Hc). rewrite E in Hcr. contradiction. }
  destruct (room_sound_grid r Hs) as [Gx Gy].
  exact (restart_run pid r e Hc Hp Hnd Gx Gy).
Qed.

Lemma restart_game_fresh_round_witness :
  GameRoom.restart_game "player_2" (fst two_members, snd two_members)
  = (Ok (false, "Только создатель комнаты может перезапустить игру"),
     (fst two_members, snd two_members)) /\
  exists food snakes rnd',
    GameRoom.restart_game "player_1" (fst two_members, snd two_members)
    = (Ok (true, "Игра перезапущена"),
       (restarted
          (GameState.mk
             (GameState.grid_size (GameRoom.game_state (fst two_members)))
             snakes food false) (fst two_members),
        set_rand rnd' (snd two_members))) /\
    dict_keys snakes = dict_keys (GameRoom.players (fst two_members)) /\
    Forall fresh_entry snakes /\
    (List.length food <= 5)%nat.
Proof.
  split.
  - apply (proj1 restart_game_fresh_round). discriminate.
  - apply (proj2 restart_game_fresh_round "player_1").
    + exact two_members_reachable.
    + reflexivity.
Defined.

(** *** Starting *)

Lemma start_refused_stranger pid r :
  GameRoom.creator_id r <> Some pid ->
  GameRoom.start_game pid r
  = (Ok (false, "Только создатель комнаты может начать игру"), r).
Proof.
  intros H. unfold GameRoom.start_game, bind, get, ret.
  destruct (opt_string_eqb (Some pid) (GameRoom.creator_id r)) eqn:E;
    [|reflexivity].
  apply opt_string_eqb_eq in E. contradiction.
Qed.

Lemma start_by_creator pid r :
  GameRoom.creator_id r = Some pid ->
  GameRoom.players r <> [] ->
  GameRoom.start_game pid r
  = if GameRoom.game_active r
    then (Ok (false, "Игра уже запущена"), r)
    else (Ok (true, "Игра началась"),
          GameRoom.set_game_state
            (GameState.set_game_active true (GameRoom.game_state r))
            (GameRoom.set_game_active true r)).
Proof.
  intros Hc Hp. unfold GameRoom.start_game, bind, get, modify, ret,
    GameRoom.state, zoom.
  replace (opt_string_eqb (Some pid) (GameRoom.creator_id r)) with true
    by (symmetry; now apply opt_string_eqb_eq).
  cbn [negb].
  destruct (GameRoom.players r) as [|p ps]; [contradiction|].
  cbn [List.length].
  replace (Z.of_nat (S (List.length ps)) <? 1) with false
    by (symmetry; apply Z.ltb_ge; lia).
  destruct (GameRoom.game_active r); reflexivity.
Qed.

(** X16.  Starting a game in a reachable room has three outcomes and no
    other: anyone but the creator is refused; the creator is refused
    while a game is running; otherwise the creator starts the game, which
    sets the activity flags of room and engine and nothing else.  The
    refusal for a room without players never occurs. *)
Theorem start_game_outcomes :
  (forall pid r,
      GameRoom.creator_id r <> Some pid ->
      GameRoom.start_game pid r
      = (Ok (false, "Только создатель комнаты может начать игру"), r)) /\
  (forall pid r e,
      room_reachable (r, e) ->
      GameRoom.creator_id r = Some pid ->
      GameRoom.start_game pid r
      = if GameRoom.game_active r
        then (Ok (false, "Игра уже запущена"), r)
        else (Ok (true, "Игра началась"),
              GameRoom.set_game_state
                (GameState.set_game_active true (GameRoom.game_state r))
                (GameRoom.set_game_active true r))).
Proof.
  split; [exact start_refused_stranger|].
  intros pid r e Hr Hc.
  destruct (room_reachable_inv _ Hr) as (_ & Hcr & _ & _). cbn [fst] in *.
  apply start_by_creator; [assumption|].
  intros E. specialize (Hcr pid Hc). rewrite E in Hcr. contradiction.
Qed.

Lemma start_game_outcomes_witness :
  GameRoom.start_game "player_2" (fst two_members)
  = (Ok (false, "Только создатель комнаты может начать игру"),
     fst two_members) /\
  GameRoom.start_game "player_1" (fst two_members)
  = if GameRoom.game_active (fst two_members)
    then (Ok (false, "Игра уже запущена"), fst two_members)
    else (Ok (true, "Игра началась"),
          GameRoom.set_game_state
            (GameState.set_game_active true
               (GameRoom.game_state (fst two_members)))
            (GameRoom.set_game_active true (fst two_members))).
Proof.
  split.
  - apply (proj1 start_game_outcomes). discriminate.
  - apply (proj2 start_game_outcomes "player_1" (fst two_members)
             (snd two_members)).
    + exact two_members_reachable.
    + reflexivity.
Defined.

(** ** What a room tells *)

Lemma frame_refuses data :
  GameProtocol.frame data = None
  <-> (10 * 1024 * 1024 <? Z.of_nat (List.length data)) = true.
Proof.
  unfold GameProtocol.frame, GameProtocol.pack_length.
  destruct (10 * 1024 * 1024 <? Z.of_nat (List.length data)) eqn:E;
    [tauto|].
  apply Z.ltb_ge in E.
  replace (0 <=? Z.of_nat (List.length data)) with true
    by (symmetry; apply Z.leb_le; lia).
  replace (Z.of_nat (List.length data) <? 4294967296) with true
    by (symmetry; apply Z.ltb_lt; lia).
  cbn. split; discriminate.
Qed.

Lemma send_refused s msg e :
  sendable e msg = false -> GameProtocol.send_message s msg e = (Ok false, e).
Proof.
  unfold sendable, GameProtocol.send_message, GameProtocol.serialize_message,
    bind, get, ret.
  destruct (dumps e msg) as [data|]; [|reflexivity].
  intros H. apply negb_false_iff in H. apply frame_refuses in H.
  now rewrite H.
Qed.

Lemma send_accepted s msg e :
  sendable e msg = true ->
  GameProtocol.send_message s msg e
  = if existsb (Nat.eqb s) (closed e) then (Ok false, e)
    else (Ok true, set_outbox (outbox e ++ [(s, msg)]) e).
Proof.
  unfold sendable, GameProtocol.send_message, GameProtocol.serialize_message,
    bind, get, put, ret.
  destruct (dumps e msg) as [data|]; [|discriminate].
  intros H. apply negb_true_iff in H.
  destruct (GameProtocol.frame data) eqn:F.
  - now destruct (existsb (Nat.eqb s) (closed e)).
  - apply frame_refuses in F. congruence.
Qed.

Lemma post_delivered msg l e : post l msg e = delivered msg l e.
Proof.
  unfold delivered. destruct (sendable e msg) eqn:Hs.
  - revert e Hs. induction l as [|s l IH]; intros e Hs.
    + cbn. rewrite app_nil_r. now destruct e.
    + cbn [post]. rewrite (send_accepted s msg e Hs). cbn [filter].
      destruct (existsb (Nat.eqb s) (closed e)) eqn:Ec; cbn [snd negb].
      * now apply IH.
      * rewrite IH by exact Hs.
        unfold set_outbox. cbn [outbox closed rand net dumps map].
        now rewrite <- app_assoc.
  - induction l as [|s l IH]; [reflexivity|].
    cbn [post]. now rewrite (send_refused s msg e Hs).
Qed.

Lemma recipients_of_spec r exclude sock :
  In sock (recipients_of r exclude) <->
  exists pid info,
    In (pid, info) (GameRoom.players r) /\ Some pid <> exclude /\
    GameRoom.socket info = sock.
Proof.
  unfold recipients_of. rewrite in_map_iff. split.
  - intros ([pid info] & E & Hin). apply filter_In in Hin.
    destruct Hin as [Hin Hf]. exists pid, info. cbn [fst snd] in *.
    split; [assumption|]. split; [|assumption].
    intros H. rewrite <- H in Hf. cbn in Hf.
    now rewrite String.eqb_refl in Hf.
  - intros (pid & info & Hin & Hne & E). exists (pid, info).
    split; [assumption|]. apply filter_In. split; [assumption|].
    cbn [fst snd].
    destruct (opt_string_eqb (Some pid) exclude) eqn:Ex; [|reflexivity].
    apply opt_string_eqb_eq in Ex. congruence.
Qed.

(** X17.  A broadcast never raises and changes neither the room nor
    anything of the world but the log of what was sent.  An envelope
    that serialises to no more than 10 MB is handed to [sendall] exactly
    once for every member other than the excluded one whose socket this
    side has not closed, in the order of the membership, after what was
    sent before; a closed socket is skipped without stopping the loop.
    An envelope that does not serialise, or serialises to more than
    10 MB, is handed to nobody. *)
Theorem broadcast_reaches_members :
  forall msg exclude r e,
    (sendable e msg = true ->
     GameRoom.broadcast_message msg exclude (r, e)
     = (Ok tt,
        (r, set_outbox
              (outbox e
               ++ map (fun s => (s, msg))
                      (filter (fun s => negb (existsb (Nat.eqb s) (closed e)))
                              (recipients_of r exclude)))
              e))) /\
    (sendable e msg = false ->
     GameRoom.broadcast_message msg exclude (r, e) = (Ok tt, (r, e))) /\
    (forall sock,
        In sock (recipients_of r exclude) <->
        exists pid info,
          In (pid, info) (GameRoom.players r) /\ Some pid <> exclude /\
          GameRoom.socket info = sock).
Proof.
  intros msg exclude r e.
  rewrite broadcast_message_ok, post_delivered. unfold delivered.
  split; [intros ->; reflexivity|]. split; [intros ->; reflexivity|].
  intros sock. apply recipients_of_spec.
Qed.

Lemma broadcast_reaches_members_witness :
  GameRoom.broadcast_message (game_over_msg Draw) (Some "player_1")
    (fst two_members, snd two_members)
  = (Ok tt,
     (fst two_members,
      set_outbox
        (outbox (snd two_members)
         ++ map (fun s => (s, game_over_msg Draw))
                (filter (fun s => negb (existsb (Nat.eqb s)
                                          (closed (snd two_members))))
                        (recipients_of (fst two_members) (Some "player_1"))))
        (snd two_members))).
Proof.
  apply (proj1 (broadcast_reaches_members (game_over_msg Draw)
                  (Some "player_1") (fst two_members) (snd two_members))).
  reflexivity.
Defined.



(** ** The server: client messages *)

Lemma then_false_not_true S (m : M S unit) w w' :
  bind m (fun _ => ret false) w <> (Ok true, w').
Proof.
  unfold bind, ret. destruct (m w) as [[a|x] s]; discriminate.
Qed.

Lemma pyval_eqb_eq a b : pyval_eqb a b = true <-> a = b.
Proof.
  destruct a as [|x], b as [|y]; cbn; try (split; discriminate);
    [tauto|].
  rewrite String.eqb_eq. split; congruence.
Qed.

Lemma pyval_eqb_neq a b : a <> b -> pyval_eqb a b = false.
Proof.
  intros H. destruct (pyval_eqb a b) eqn:E; [|reflexivity].
  apply pyval_eqb_eq in E. contradiction.
Qed.

Lemma disconnect_ends pid m w :
  GameServer.msg_get m "type" = PStr MessageType.DISCONNECT ->
  GameServer.process_client_message pid m w = (Ok true, w).
Proof.
  intros H. unfold GameServer.process_client_message. rewrite H. reflexivity.
Qed.

Lemma unhandled_ignored pid m w :
  (forall t, In t handled_types -> GameServer.msg_get m "type" <> PStr t) ->
  GameServer.process_client_message pid m w = (Ok false, w).
Proof.
  intros H. unfold GameServer.process_client_message.
  rewrite !pyval_eqb_neq; [reflexivity|..]; apply H; unfold handled_types;
    cbn; tauto.
Qed.

Lemma only_disconnect_ends pid m w w' :
  GameServer.process_client_message pid m w = (Ok true, w') ->
  GameServer.msg_get m "type" = PStr MessageType.DISCONNECT /\ w' = w.
Proof.
  unfold GameServer.process_client_message.
  repeat match goal with
         | |- (if ?b then _ else _) _ = _ -> _ =>
             destruct b eqn:?;
             [try (intros H; exfalso; exact (then_false_not_true _ _ _ _ H))|]
         end.
  - intros [= <-]. split; [|reflexivity].
    match goal with H : pyval_eqb _ (PStr MessageType.DISCONNECT) = true |- _ =>
      now apply pyval_eqb_eq in H end.
  - discriminate.
Qed.

(** X19.  The dispatch of a client message that is a dict with fields
    that are [None] or strings.  DISCONNECT changes nothing and ends the
    session loop, and it is the only such message that ends it.  One
    whose type is none of the eight the server has a branch for (AUTH,
    ADMIN_BAN and SAVE_REQUEST among them, or a dict without a type) is
    dropped: nothing changes, nothing is sent, the loop goes on. *)
Theorem dispatch_of_client_messages :
  (forall pid m w,
      GameServer.msg_get m "type" = PStr MessageType.DISCONNECT ->
      GameServer.process_client_message pid m w = (Ok true, w)) /\
  (forall pid m w w',
      GameServer.process_client_message pid m w = (Ok true, w') ->
      GameServer.msg_get m "type" = PStr MessageType.DISCONNECT /\ w' = w) /\
  (forall pid m w,
      (forall t, In t handled_types -> GameServer.msg_get m "type" <> PStr t) ->
      GameServer.process_client_message pid m w = (Ok false, w)).
Proof.
  split; [exact disconnect_ends|].
  split; [exact only_disconnect_ends | exact unhandled_ignored].
Qed.

Lemma dispatch_of_client_messages_witness :
  GameServer.process_client_message "player_1"
    (envelope "disconnect" PNone) playing = (Ok true, playing) /\
  GameServer.process_client_message "player_1"
    (envelope "save_request" PNone) playing = (Ok false, playing).
Proof.
  split.
  - apply (proj1 dispatch_of_client_messages). reflexivity.
  - apply (proj2 (proj2 dispatch_of_client_messages)).
    intros t Ht. unfold handled_types in Ht. cbn in Ht.
    decompose [or] Ht; subst; try discriminate; contradiction.
Defined.

(** *** Chat *)

Lemma dict_set_same (V : Type) (d : dict V) k v :
  dict_get d k = Some v -> dict_set d k v = d.
Proof.
  induction d as [|[k' v'] d IH]; [discriminate|].
  cbn. destruct (String.eqb k k') eqn:E.
  - intros [= ->]. apply String.eqb_eq in E. now subst.
  - intros H. now rewrite IH.
Qed.

Lemma rooms_put_same rid room s :
  GameServer.rooms_get s rid = Some room -> GameServer.rooms_put rid room s = s.
Proof.
  unfold GameServer.rooms_get, GameServer.rooms_put.
  destruct (String.eqb rid "lobby").
  - intros [= <-]. now destruct s.
  - intros H. rewrite (dict_set_same _ _ _ _ H). now destruct s.
Qed.

Lemma in_room_broadcast rid room s e msg exclude :
  GameServer.rooms_get s rid = Some room ->
  GameServer.in_room rid (GameRoom.broadcast_message msg exclude) (s, e)
  = (Ok tt, (s, delivered msg (recipients_of room exclude) e)).
Proof.
  intros H.
  rewrite (in_room_run _ _ rid s e room (Ok tt) room
             (delivered msg (recipients_of room exclude) e) H).
  - now rewrite (rooms_put_same rid room s H).
  - rewrite broadcast_message_ok. now rewrite post_delivered.
Qed.

Lemma chat_relayed pid m s e p rid room :
  dict_get (GameServer.players s) pid = Some p ->
  GameServer.room_id p = Some rid -> rid <> "" ->
  GameServer.rooms_get s rid = Some room ->
  GameServer.handle_chat_message pid m (s, e)
  = (Ok tt,
     (s, delivered (chat_from p (GameServer.msg_get m "data"))
           (recipients_of room None) e)).
Proof.
  intros Hp Hr Hne Hroom. unfold GameServer.handle_chat_message.
  erewrite bind_ok; [|reflexivity]. cbn [fst snd].
  rewrite Hp, Hr. unfold GameServer.truthy_id.
  replace (String.eqb rid "") with false
    by (symmetry; now apply String.eqb_neq).
  cbn [negb]. rewrite Hroom.
  now apply in_room_broadcast.
Qed.

Lemma chat_dropped pid m s e :
  match dict_get (GameServer.players s) pid with
  | None => True
  | Some p =>
      match GameServer.room_id p with
      | None => True
      | Some rid => rid = "" \/ GameServer.rooms_get s rid = None
      end
  end ->
  GameServer.handle_chat_message pid m (s, e) = (Ok tt, (s, e)).
Proof.
  intros H. unfold GameServer.handle_chat_message.
  erewrite bind_ok; [|reflexivity]. cbn [fst snd].
  destruct (dict_get (GameServer.players s) pid) as [p|]; [|reflexivity].
  destruct (GameServer.room_id p) as [rid|]; [|reflexivity].
  unfold GameServer.truthy_id.
  destruct (String.eqb rid "") eqn:E; [reflexivity|]. cbn [negb].
  destruct H as [->|H]; [discriminate|]. now rewrite H.
Qed.



(** ** The server: rooms on request *)

Lemma create_refused pid m s e :
  match dict_get (GameServer.players s) pid with
  | None => True
  | Some p => GameServer.room_id p <> Some "lobby"
  end ->
  GameServer.handle_create_room pid m (s, e) = (Ok tt, (s, e)).
Proof.
  intros H. unfold GameServer.handle_create_room.
  erewrite bind_ok; [|reflexivity]. cbn [fst snd].
  destruct (dict_get (GameServer.players s) pid) as [p|]; [|reflexivity].
  destruct (opt_string_eqb (GameServer.room_id p) (Some "lobby")) eqn:E;
    [|reflexivity].
  exfalso. apply H. destruct (GameServer.room_id p) as [rid|];
    [|discriminate].
  cbn in E. apply String.eqb_eq in E. now subst.
Qed.

Lemma send_to_player_known pid msg s e p :
  dict_get (GameServer.players s) pid = Some p ->
  GameServer.send_message_to_player pid msg (s, e)
  = (Ok tt, (s, delivered msg [GameServer.socket p] e)).
Proof.
  intros H. unfold GameServer.send_message_to_player.
  erewrite bind_ok; [|reflexivity]. cbn [fst snd]. rewrite H.
  unfold bind, GameServer.env, zoom, ret. cbn [fst snd].
  rewrite <- post_delivered. cbn [post].
  destruct (GameProtocol.send_message (GameServer.socket p) msg e)
    as [[b|x] e'] eqn:E; cbn [snd]; [now destruct s|].
  destruct (send_message_ok (GameServer.socket p) msg e) as [b Hb].
  rewrite E in Hb. discriminate.
Qed.

Lemma send_to_player_unknown pid msg s e :
  dict_get (GameServer.players s) pid = None ->
  GameServer.send_message_to_player pid msg (s, e) = (Ok tt, (s, e)).
Proof.
  intros H. unfold GameServer.send_message_to_player.
  erewrite bind_ok; [|reflexivity]. cbn [fst snd]. now rewrite H.
Qed.

Lemma join_refresh pid m s e p :
  GameServer.msg_get m "data" = PStr "refresh" ->
  dict_get (GameServer.players s) pid = Some p ->
  GameServer.handle_join_room pid m (s, e)
  = (Ok tt, (s, delivered (room_list_of s) [GameServer.socket p] e)).
Proof.
  intros Hd Hp. unfold GameServer.handle_join_room. rewrite Hd.
  cbn [String.eqb Ascii.eqb Bool.eqb].
  unfold GameServer.send_room_list_to_player.
  erewrite bind_ok; [|apply room_list_message_is].
  now apply send_to_player_known.
Qed.

Lemma join_nowhere pid m s e :
  match GameServer.msg_get m "data" with
  | PNone => True
  | PStr target =>
      target <> "refresh" /\ GameServer.rooms_get s target = None
  end ->
  GameServer.handle_join_room pid m (s, e) = (Ok tt, (s, e)).
Proof.
  intros H. unfold GameServer.handle_join_room.
  destruct (GameServer.msg_get m "data") as [|target]; [reflexivity|].
  destruct H as [Hne Hnone].
  replace (String.eqb target "refresh") with false
    by (symmetry; now apply String.eqb_neq).
  erewrite bind_ok; [|reflexivity]. cbn [fst snd]. now rewrite Hnone.
Qed.

(** X21.  Requests that change no room, for an envelope whose data is
    [None] or a string.  CREATE_ROOM from an unknown player, or from a
    player who is not in the lobby, does nothing: no room, no room id
    used, nothing sent.  JOIN_ROOM with "refresh" from a registered
    player changes nothing of the server and sends the current room list
    to the asking player alone (to nobody when the list does not
    serialise to at most 10 MB, or the player's socket is closed).
    JOIN_ROOM with no target, or with a string that names no room, does
    nothing. *)
Theorem requests_without_effect :
  (forall pid m s e,
      match dict_get (GameServer.players s) pid with
      | None => True
      | Some p => GameServer.room_id p <> Some "lobby"
      end ->
      GameServer.handle_create_room pid m (s, e) = (Ok tt, (s, e))) /\
  (forall pid m s e p,
      GameServer.msg_get m "data" = PStr "refresh" ->
      dict_get (GameServer.players s) pid = Some p ->
      (sendable e (room_list_of s) = true ->
       GameServer.handle_join_room pid m (s, e)
       = (Ok tt,
          (s, set_outbox
                (outbox e
                 ++ map (fun k => (k, room_list_of s))
                        (filter (fun k => negb (existsb (Nat.eqb k) (closed e)))
                                [GameServer.socket p]))
                e))) /\
      (sendable e (room_list_of s) = false ->
       GameServer.handle_join_room pid m (s, e) = (Ok tt, (s, e)))) /\
  (forall pid m s e,
      match GameServer.msg_get m "data" with
      | PNone => True
      | PStr target =>
          target <> "refresh" /\ GameServer.rooms_get s target = None
      end ->
      GameServer.handle_join_room pid m (s, e) = (Ok tt, (s, e))).
Proof.
  split; [exact create_refused|].
  split; [|exact join_nowhere].
  intros pid m s e p Hm Hp. rewrite (join_refresh pid m s e p Hm Hp).
  unfold delivered. split; intros ->; reflexivity.
Qed.

Lemma requests_without_effect_witness :
  GameServer.handle_create_room "player_1" (envelope "create_room" PNone)
    (fst playing, snd playing) = (Ok tt, (fst playing, snd playing)) /\
  GameServer.handle_join_room "player_1" (envelope "join_room" (PStr "refresh"))
    (fst playing, snd playing)
  = (Ok tt,
     (fst playing,
      set_outbox
        (outbox (snd playing)
         ++ map (fun k => (k, room_list_of (fst playing)))
                (filter (fun k => negb (existsb (Nat.eqb k)
                                          (closed (snd playing))))
                        [GameServer.socket ann]))
        (snd playing))) /\
  GameServer.handle_join_room "player_1" (envelope "join_room" (PStr "room_9"))
    (fst playing, snd playing) = (Ok tt, (fst playing, snd playing)).
Proof.
  split; [|split].
  - apply (proj1 requests_without_effect). cbn. discriminate.
  - apply (proj1 (proj1 (proj2 requests_without_effect) "player_1"
                    (envelope "join_room" (PStr "refresh"))
                    (fst playing) (snd playing) ann eq_refl eq_refl)).
    reflexivity.
  - apply (proj2 (proj2 requests_without_effect)). cbn.
    split; [discriminate | reflexivity].
Defined.

(** ** The session *)

Section Handshake.
Variable loads : list Byte.byte -> option (dict pyval).

Lemma authenticate_gives_up sock s e r e1 :
  GameProtocol.receive_message loads sock e = (Ok r, e1) ->
  bad_handshake s r ->
  GameServer.authenticate loads sock ((s, e), None)
  = (Ok None, ((s, e1), None)).
Proof.
  intros Hrecv Hbad. unfold GameServer.authenticate.
  erewrite bind_ok;
    [| unfold GameServer.world, GameServer.env, zoom; cbn [fst snd];
       rewrite Hrecv; reflexivity].
  destruct r as [[|field rest]|]; [reflexivity| |reflexivity].
  set (auth := field :: rest) in *. cbn [bad_handshake] in Hbad.
  destruct (pyval_eqb (GameServer.msg_get auth "type") (PStr MessageType.AUTH))
    eqn:Et; cbn [negb]; [|reflexivity].
  apply pyval_eqb_eq in Et.
  destruct Hbad as [H|[H|[H|(name & H & Hdup)]]].
  - contradiction.
  - now rewrite H.
  - now rewrite H.
  - rewrite H. destruct (truthy (PStr name)); cbn [negb]; [|reflexivity].
    erewrite bind_ok; [|reflexivity]. cbn [fst snd].
    now rewrite Hdup.
Qed.

Lemma handle_client_gives_up rounds sock s e r e1 :
  GameProtocol.receive_message loads sock e = (Ok r, e1) ->
  bad_handshake s r ->
  GameServer.handle_client loads rounds sock (s, e)
  = (Ok true, (s, set_closed (sock :: closed e1) e1)).
Proof.
  intros Hrecv Hbad. unfold GameServer.handle_client, GameServer.serve.
  erewrite bind_ok;
    [|exact (authenticate_gives_up sock s e r e1 Hrecv Hbad)].
  unfold ret at 1. reflexivity.
Qed.

Lemma loop_stopped n pid sock s e :
  GameServer.running s = false ->
  GameServer.receive_loop loads (S n) pid sock (s, e) = (Ok true, (s, e)).
Proof.
  intros H. cbn [GameServer.receive_loop].
  erewrite bind_ok; [|reflexivity]. cbn [fst snd]. now rewrite H.
Qed.

Lemma loop_waits n pid sock s e e1 :
  GameServer.running s = true ->
  GameProtocol.receive_message loads sock e = (Ok None, e1) ->
  GameServer.receive_loop loads (S n) pid sock (s, e)
  = GameServer.receive_loop loads n pid sock (s, e1).
Proof.
  intros H Hr. cbn [GameServer.receive_loop].
  erewrite bind_ok; [|reflexivity]. cbn [fst snd]. rewrite H. cbn [negb].
  erewrite bind_ok;
    [|unfold GameServer.env, zoom; cbn [fst snd]; rewrite Hr; reflexivity].
  reflexivity.
Qed.

Lemma loop_left n pid sock s e m e1 :
  GameServer.running s = true ->
  GameProtocol.receive_message loads sock e = (Ok (Some m), e1) ->
  m = [] \/ GameServer.msg_get m "type" = PStr MessageType.DISCONNECT ->
  GameServer.receive_loop loads (S n) pid sock (s, e) = (Ok true, (s, e1)).
Proof.
  intros H Hr Hm. cbn [GameServer.receive_loop].
  erewrite bind_ok; [|reflexivity]. cbn [fst snd]. rewrite H. cbn [negb].
  erewrite bind_ok;
    [|unfold GameServer.env, zoom; cbn [fst snd]; rewrite Hr; reflexivity].
  destruct m as [|field rest]; [reflexivity|].
  destruct Hm as [Hm|Hm]; [discriminate|].
  erewrite bind_ok; [|apply disconnect_ends; exact Hm]. reflexivity.
Qed.

Lemma session_closes n sock w pid w1 :
  GameServer.authenticate loads sock (w, None)
  = (Ok (Some pid), (w1, Some pid)) ->
  pid <> "" ->
  forall r w2,
    GameServer.receive_loop loads n pid sock w1 = (r, w2) ->
    r <> Ok false ->
    GameServer.handle_client loads n sock w
    = match GameServer.remove_player pid w2 with
      | (Ok _, w3) =>
          (r, (fst w3, set_closed (sock :: closed (snd w3)) (snd w3)))
      | (Raise x, w3) => (Raise x, w3)
      end.
Proof.
  intros Hauth Hpid r w2 Hloop Hleft.
  unfold GameServer.handle_client, GameServer.serve.
  erewrite bind_ok; [|exact Hauth].
  unfold GameServer.world at 1, zoom at 1. cbn [fst snd]. rewrite Hloop.
  assert (Hclean :
            GameServer.cleanup sock (w2, Some pid)
            = match GameServer.remove_player pid w2 with
              | (Ok _, w3) =>
                  (Ok tt,
                   ((fst w3, set_closed (sock :: closed (snd w3)) (snd w3)),
                    Some pid))
              | (Raise x, w3) => (Raise x, (w3, Some pid))
              end).
  { unfold GameServer.cleanup.
    erewrite bind_ok; [|reflexivity]. cbn beta iota. cbn [fst snd].
    unfold GameServer.truthy_id.
    replace (String.eqb pid "") with false
      by (symmetry; now apply String.eqb_neq).
    cbn [negb when]. unfold bind at 1.
    unfold GameServer.world at 1, zoom at 1. cbn [fst snd].
    destruct (GameServer.remove_player pid w2) as [[u|x] w3]; reflexivity. }
  destruct r as [[|]|x]; [| contradiction |]; rewrite Hclean;
    destruct (GameServer.remove_player pid w2) as [[u|y] [s3 e3]];
    reflexivity.
Qed.
End Handshake.

(** X22.  A handshake that fails before anyone is registered: when the
    first frame does not decode, is an empty dict, or is a dict (with
    fields that are [None] or strings) that is not an AUTH, carries no
    name or an empty one, or carries the name of a registered player,
    [handle_client] returns at once; the directory, the lobby, the rooms
    and the counters are as they were, nothing has been sent to anyone,
    and the socket is closed. *)
Theorem handshake_refusals :
  forall loads rounds sock s e r e1,
    GameProtocol.receive_message loads sock e = (Ok r, e1) ->
    bad_handshake s r ->
    GameServer.handle_client loads rounds sock (s, e)
    = (Ok true, (s, set_closed (sock :: closed e1) e1)) /\
    outbox e1 = outbox e.
Proof.
  intros loads rounds sock s e r e1 Hrecv Hbad.
  split; [now apply (handle_client_gives_up loads rounds sock s e r e1)|].
  now destruct (keeps_net_receive loads sock e _ _ Hrecv) as (H & _).
Qed.

Lemma handshake_refusals_witness :
  GameServer.handle_client toy_loads 3 7%nat (fresh_server, wrong_first_frame)
  = (Ok true,
     (fresh_server,
      set_closed (7%nat :: closed after_wrong_frame) after_wrong_frame)) /\
  outbox after_wrong_frame = outbox wrong_first_frame.
Proof.
  apply (handshake_refusals toy_loads 3 7%nat fresh_server wrong_first_frame
           (Some (envelope "move" (PStr "DOWN"))) after_wrong_frame).
  - vm_compute. reflexivity.
  - cbn. left. discriminate.
Defined.

(** ** The directory of players *)

Lemma same_roster_refl w : same_roster w w.
Proof. now repeat split. Qed.

Lemma same_roster_trans a b c :
  same_roster a b -> same_roster b c -> same_roster a c.
Proof. intros (A1 & A2 & A3) (B1 & B2 & B3). repeat split; congruence. Qed.

#[local] Hint Resolve same_roster_refl same_roster_trans : frame.

Lemma keeps_roster_env A (m : M Env A) : keeps same_roster (GameServer.env m).
Proof. apply keeps_zoom. intros s t. now repeat split. Qed.

Lemma keeps_roster_self_get : keeps same_roster (GameServer.self get).
Proof.
  intros s res s'. unfold GameServer.self, zoom, get. intros [= _ <-].
  destruct s. now repeat split.
Qed.

Lemma keeps_roster_in_room A rid (m : M GameRoom.st A) :
  keeps same_roster (GameServer.in_room rid m).
Proof.
  intros [s e] res w'. unfold GameServer.in_room. cbn [fst snd].
  destruct (GameServer.rooms_get s rid) as [room|].
  - destruct (m (room, e)) as [r [room' e']]. intros [= _ <-].
    unfold GameServer.rooms_put. destruct (String.eqb rid "lobby");
      now repeat split.
  - intros [= _ <-]. apply same_roster_refl.
Qed.

Lemma keeps_roster_in_lobby A (m : M GameRoom.st A) :
  keeps same_roster (GameServer.in_lobby m).
Proof. apply keeps_roster_in_room. Qed.

Lemma keeps_roster_set_rooms f :
  keeps same_roster
    (GameServer.self (modify (fun s => GameServer.set_rooms (f s) s))).
Proof.
  intros s res s'. unfold GameServer.self, zoom, modify. intros [= _ <-].
  now repeat split.
Qed.

Lemma keeps_roster_room_id : keeps same_roster (GameServer.self GameServer.generate_room_id).
Proof.
  intros s res s'.
  unfold GameServer.self, GameServer.generate_room_id, zoom, bind, get, put, ret.
  intros [= _ <-]. now repeat split.
Qed.

#[local] Hint Resolve keeps_roster_env keeps_roster_self_get
  keeps_roster_in_room keeps_roster_in_lobby keeps_roster_set_rooms
  keeps_roster_room_id : frame.

Lemma keeps_roster_the_player pid :
  keeps same_roster (GameServer.the_player pid).
Proof. unfold GameServer.the_player. frame. Qed.

Lemma keeps_roster_set_room_of pid rid :
  keeps same_roster (GameServer.set_room_of pid rid).
Proof.
  intros [s e] res w'.
  unfold GameServer.set_room_of, GameServer.the_player, bind, GameServer.self,
    zoom, get, modify, ret, raise. cbn [fst snd].
  destruct (dict_get (GameServer.players s) pid) as [p|] eqn:E.
  - intros [= _ <-]. unfold same_roster.
    cbn [fst GameServer.players GameServer.set_players
         GameServer.player_counter GameServer.running].
    rewrite dict_set_keys_present; [now repeat split|].
    unfold dict_mem. now rewrite E.
  - intros [= _ <-]. destruct s. apply same_roster_refl.
Qed.

Lemma keeps_roster_send_to_player pid msg :
  keeps same_roster (GameServer.send_message_to_player pid msg).
Proof. unfold GameServer.send_message_to_player. frame. Qed.

Lemma keeps_roster_list_message :
  keeps same_roster GameServer.get_room_list_message.
Proof. unfold GameServer.get_room_list_message. frame. Qed.

#[local] Hint Resolve keeps_roster_the_player keeps_roster_set_room_of
  keeps_roster_send_to_player keeps_roster_list_message : frame.

Lemma keeps_roster_broadcast_list :
  keeps same_roster GameServer.broadcast_room_list_to_lobby.
Proof. unfold GameServer.broadcast_room_list_to_lobby. frame. Qed.

Lemma keeps_roster_send_list pid :
  keeps same_roster (GameServer.send_room_list_to_player pid).
Proof. unfold GameServer.send_room_list_to_player. frame. Qed.

Lemma keeps_roster_depart pid rid notice :
  keeps same_roster (GameServer.depart_from pid rid notice).
Proof.
  unfold GameServer.depart_from.
  frame_step; [frame|]. destruct (GameServer.rooms_get a rid); [|frame].
  frame_step; [frame|]. frame_step; [frame|]. frame_step.
  apply (keeps_roster_set_rooms
           (fun s => dict_del (GameServer.rooms s) rid)).
Qed.

#[local] Hint Resolve keeps_roster_broadcast_list keeps_roster_send_list
  keeps_roster_depart : frame.

Lemma keeps_roster_move pid new_room_id room_name :
  keeps same_roster (GameServer.move_player_to_room pid new_room_id room_name).
Proof. unfold GameServer.move_player_to_room. frame. Qed.

#[local] Hint Resolve keeps_roster_move : frame.

Lemma keeps_roster_create pid m :
  keeps same_roster (GameServer.handle_create_room pid m).
Proof.
  unfold GameServer.handle_create_room.
  frame_step; [frame|]. destruct (dict_get _ pid); [|frame].
  destruct (negb _); [frame|].
  frame_step; [frame|]. frame_step; [frame|]. frame_step; [frame|].
  frame_step.
  - apply (keeps_roster_set_rooms
             (fun s => dict_set (GameServer.rooms s) a1 a2)).
  - frame.
Qed.

Lemma keeps_roster_join pid m :
  keeps same_roster (GameServer.handle_join_room pid m).
Proof. unfold GameServer.handle_join_room. frame. Qed.

Lemma keeps_roster_leave pid :
  keeps same_roster (GameServer.handle_leave_room pid).
Proof. unfold GameServer.handle_leave_room. frame. Qed.

Lemma keeps_roster_chat pid m :
  keeps same_roster (GameServer.handle_chat_message pid m).
Proof. unfold GameServer.handle_chat_message. frame. Qed.

Lemma keeps_roster_announce rid u msg :
  keeps same_roster (GameServer.announce_start rid u msg).
Proof. unfold GameServer.announce_start. frame. Qed.

#[local] Hint Resolve keeps_roster_announce : frame.

Lemma keeps_roster_start pid :
  keeps same_roster (GameServer.handle_start_game pid).
Proof. unfold GameServer.handle_start_game. frame. Qed.

Lemma keeps_roster_restart pid :
  keeps same_roster (GameServer.handle_restart_game pid).
Proof. unfold GameServer.handle_restart_game. frame. Qed.

Lemma keeps_roster_move_request pid m :
  keeps same_roster (GameServer.handle_player_move pid m).
Proof. unfold GameServer.handle_player_move. frame. Qed.

#[local] Hint Resolve keeps_roster_create keeps_roster_join keeps_roster_leave
  keeps_roster_chat keeps_roster_start keeps_roster_restart
  keeps_roster_move_request : frame.

Lemma keeps_roster_process pid m :
  keeps same_roster (GameServer.process_client_message pid m).
Proof. unfold GameServer.process_client_message. frame. Qed.

Lemma keeps_roster_tick_rooms listed :
  keeps same_roster (GameServer.tick_rooms listed).
Proof.
  induction listed as [|rid rest IH]; cbn [GameServer.tick_rooms]; frame.
Qed.

Lemma server_remove_gone pid s e res w' :
  NoDup (dict_keys (GameServer.players s)) ->
  GameServer.remove_player pid (s, e) = (res, w') ->
  ~ In pid (dict_keys (GameServer.players (fst w'))) /\
  (forall k, k <> pid -> In k (dict_keys (GameServer.players s)) ->
             In k (dict_keys (GameServer.players (fst w')))).
Proof.
  intros Hnd. unfold GameServer.remove_player.
  erewrite bind_ok; [|reflexivity]. cbn [fst snd].
  destruct (dict_get (GameServer.players s) pid) as [p|] eqn:Ep.
  - unfold bind at 1. unfold GameServer.self at 1, zoom at 1, modify.
    cbn [fst snd].
    set (s1 := GameServer.set_players (dict_del (GameServer.players s) pid) s).
    intros H.
    assert (K : keeps same_roster
                  (bind match GameServer.room_id p with
                        | Some rid =>
                            when (GameServer.truthy_id (GameServer.room_id p))
                              (GameServer.depart_from pid rid
                                 ("Игрок " ++ GameServer.username p
                                  ++ " покинул игру"))
                        | None => ret tt
                        end
                        (fun _ => GameServer.broadcast_room_list_to_lobby)))
      by frame.
    destruct (K _ _ _ H) as (Hk & _). rewrite Hk. subst s1.
    cbn [fst GameServer.players GameServer.set_players]. split.
    + now apply dict_del_gone.
    + intros k Hne Hin. now apply dict_del_keys_other.
  - intros [= _ <-]. cbn [fst]. split; [|auto].
    now apply dict_get_none_keys.
Qed.

(** X24.  No message of a client and no firing of the scheduler changes
    who is registered: whatever the message is and whether its handler
    returns or raises, the directory has the same player ids in the same
    order afterwards, the id counter is where it was and the server is
    still running or still stopped. *)
Theorem client_messages_keep_the_roster :
  (forall pid m w res w',
      GameServer.process_client_message pid m w = (res, w') ->
      dict_keys (GameServer.players (fst w'))
      = dict_keys (GameServer.players (fst w)) /\
      GameServer.player_counter (fst w') = GameServer.player_counter (fst w) /\
      GameServer.running (fst w') = GameServer.running (fst w)) /\
  (forall w res w',
      GameServer.game_loop_tick w = (res, w') ->
      dict_keys (GameServer.players (fst w'))
      = dict_keys (GameServer.players (fst w)) /\
      GameServer.player_counter (fst w') = GameServer.player_counter (fst w) /\
      GameServer.running (fst w') = GameServer.running (fst w)).
Proof.
  split.
  - intros pid m w res w' H. exact (keeps_roster_process pid m w res w' H).
  - intros w res w'. unfold GameServer.game_loop_tick, bind.
    unfold GameServer.self at 1, zoom at 1, get. cbn [fst snd].
    replace (fst w, snd w) with w by now destruct w.
    intros H. exact (keeps_roster_tick_rooms _ w res w' H).
Qed.

Lemma client_messages_keep_the_roster_witness :
  dict_keys (GameServer.players (fst moved_down))
  = dict_keys (GameServer.players (fst playing)) /\
  GameServer.player_counter (fst moved_down)
  = GameServer.player_counter (fst playing) /\
  GameServer.running (fst moved_down) = GameServer.running (fst playing).
Proof.
  apply (proj1 client_messages_keep_the_roster "player_1"
           (envelope "move" (PStr "DOWN")) playing
           (fst (GameServer.process_client_message "player_1"
                   (envelope "move" (PStr "DOWN")) playing))
           moved_down).
  vm_compute. reflexivity.
Defined.

(** ** The end of a session *)

(** X25.  The end of a session.  When the receive loop of an
    authenticated client is left, by a DISCONNECT, an empty envelope, a
    stopped server or an exception of a handler, the [finally] block
    unregisters the player: whether the removal returns or raises, the
    player is in the directory no more and everyone else still is.
    When the removal returns, the client's socket is then closed and the
    call ends as the loop did: it returns, or the handler's exception
    goes on.  When the removal raises, its exception leaves
    [handle_client] and the socket is not closed. *)
Theorem session_end_cleans_up :
  forall loads n sock w pid w1 r w2,
    GameServer.authenticate loads sock (w, None)
    = (Ok (Some pid), (w1, Some pid)) ->
    pid <> "" ->
    GameServer.receive_loop loads n pid sock w1 = (r, w2) ->
    r <> Ok false ->
    NoDup (dict_keys (GameServer.players (fst w2))) ->
    exists res w3,
      GameServer.remove_player pid w2 = (res, w3) /\
      ~ In pid (dict_keys (GameServer.players (fst w3))) /\
      (forall k, k <> pid ->
                 In k (dict_keys (GameServer.players (fst w2))) ->
                 In k (dict_keys (GameServer.players (fst w3)))) /\
      GameServer.handle_client loads n sock w
      = match res with
        | Ok _ =>
            (r, (fst w3, set_closed (sock :: closed (snd w3)) (snd w3)))
        | Raise x => (Raise x, w3)
        end.
Proof.
  intros loads n sock w pid w1 r w2 Hauth Hpid Hloop Hleft Hnd.
  destruct (GameServer.remove_player pid w2) as [res w3] eqn:Er.
  exists res, w3. split; [reflexivity|].
  destruct w2 as [s2 e2].
  destruct (server_remove_gone pid s2 e2 res w3 Hnd Er) as [Hgone Hrest].
  split; [exact Hgone|]. split; [exact Hrest|].
  rewrite (session_closes loads n sock w pid w1 Hauth Hpid r (s2, e2)
             Hloop Hleft).
  rewrite Er. reflexivity.
Qed.

Lemma session_end_cleans_up_witness :
  (exists res w3,
      GameServer.remove_player "player_1" (fst leaving, after_goodbye)
      = (res, w3) /\
      ~ In "player_1" (dict_keys (GameServer.players (fst w3))) /\
      (forall k, k <> "player_1" ->
                 In k (dict_keys (GameServer.players
                                    (fst (fst leaving, after_goodbye)))) ->
                 In k (dict_keys (GameServer.players (fst w3)))) /\
      GameServer.handle_client toy_loads 1 7%nat arriving
      = match res with
        | Ok _ =>
            (Ok true, (fst w3, set_closed (7%nat :: closed (snd w3)) (snd w3)))
        | Raise x => (Raise x, w3)
        end) /\
  (exists res w3,
      GameServer.remove_player "player_5" knocked_twice = (res, w3) /\
      ~ In "player_5" (dict_keys (GameServer.players (fst w3))) /\
      (forall k, k <> "player_5" ->
                 In k (dict_keys (GameServer.players (fst knocked_twice))) ->
                 In k (dict_keys (GameServer.players (fst w3)))) /\
      GameServer.handle_client join_loads 2 7%nat knocking
      = match res with
        | Ok _ =>
            (Raise UnboundLocalError,
             (fst w3, set_closed (7%nat :: closed (snd w3)) (snd w3)))
        | Raise x => (Raise x, w3)
        end).
Proof.
  split.
  - apply (session_end_cleans_up toy_loads 1%nat 7%nat arriving "player_1"
             leaving (Ok true) (fst leaving, after_goodbye)).
    + vm_compute. reflexivity.
    + discriminate.
    + vm_compute. reflexivity.
    + discriminate.
    + cbn. repeat constructor. intros [].
  - apply (session_end_cleans_up join_loads 2%nat 7%nat knocking "player_5"
             knocking_in_lobby (Raise UnboundLocalError) knocked_twice).
    + vm_compute. reflexivity.
    + discriminate.
    + vm_compute. reflexivity.
    + discriminate.
    + cbn. repeat constructor; cbn; intuition discriminate.
Defined.

(** ** Identifiers *)

Lemma to_uint_nonnil n : Nat.to_uint n <> Decimal.Nil.
Proof.
  rewrite <- (DecimalNat.Unsigned.of_to n) at 1.
  rewrite DecimalNat.Unsigned.to_of.
  apply DecimalFacts.unorm_nonnil.
Qed.

Lemma decimal_inj n m : GameServer.decimal n = GameServer.decimal m -> n = m.
Proof.
  unfold GameServer.decimal. intros H.
  apply (f_equal NilZero.uint_of_string) in H.
  rewrite !NilZero.usu in H by apply to_uint_nonnil.
  injection H as H. apply (f_equal Nat.of_uint) in H.
  now rewrite !DecimalNat.Unsigned.of_to in H.
Qed.

(** X26.  Generated identifiers.  The n-th player id is "player_n" and
    the n-th room id "room_n", in decimal, and each call moves its
    counter up by one; different counter values give different ids, so
    no id is handed out twice; and a room id is never "lobby",
    "refresh" or empty, the values the handlers give a meaning of their
    own. *)
Theorem generated_ids_are_distinct :
  (forall s, exists id,
      GameServer.generate_player_id s
      = (Ok id, GameServer.set_player_counter
                  (S (GameServer.player_counter s)) s) /\
      id = ("player_" ++ GameServer.decimal (S (GameServer.player_counter s)))%string) /\
  (forall s, exists id,
      GameServer.generate_room_id s
      = (Ok id, GameServer.set_room_counter
                  (S (GameServer.room_counter s)) s) /\
      id = ("room_" ++ GameServer.decimal (S (GameServer.room_counter s)))%string /\
      id <> "lobby" /\ id <> "refresh" /\ id <> "") /\
  (forall s s' id id' t t',
      GameServer.player_counter s <> GameServer.player_counter s' ->
      GameServer.generate_player_id s = (Ok id, t) ->
      GameServer.generate_player_id s' = (Ok id', t') ->
      id <> id') /\
  (forall s s' id id' t t',
      GameServer.room_counter s <> GameServer.room_counter s' ->
      GameServer.generate_room_id s = (Ok id, t) ->
      GameServer.generate_room_id s' = (Ok id', t') ->
      id <> id').
Proof.
  split; [|split; [|split]].
  - intros s. eexists. split; reflexivity.
  - intros s. eexists. split; [reflexivity|]. split; [reflexivity|].
    cbn. repeat split; discriminate.
  - intros s s' id id' t t' Hne.
    unfold GameServer.generate_player_id, bind, get, put, ret.
    intros [= <- _] [= <- _] H. cbn in H. injection H as H.
    apply decimal_inj in H. congruence.
  - intros s s' id id' t t' Hne.
    unfold GameServer.generate_room_id, bind, get, put, ret.
    intros [= <- _] [= <- _] H. cbn in H. injection H as H.
    apply decimal_inj in H. congruence.
Qed.

Lemma generated_ids_are_distinct_witness :
  "player_1" <> "player_2".
Proof.
  apply (proj1 (proj2 (proj2 generated_ids_are_distinct))
           fresh_server
           (GameServer.set_player_counter 1 fresh_server)
           "player_1" "player_2"
           (GameServer.set_player_counter 1 fresh_server)
           (GameServer.set_player_counter 2
              (GameServer.set_player_counter 1 fresh_server))).
  - cbn. discriminate.
  - reflexivity.
  - reflexivity.
Defined.

(** ** The rooms of the server *)

Lemma room_respects_refl s : room_respects s s.
Proof. intros H. exact H. Qed.

Lemma room_respects_trans a b c :
  room_respects a b -> room_respects b c -> room_respects a c.
Proof. unfold room_respects. auto. Qed.

Lemma server_respects_refl w : server_respects w w.
Proof. intros H. exact H. Qed.

Lemma server_respects_trans a b c :
  server_respects a b -> server_respects b c -> server_respects a c.
Proof. unfold server_respects. auto. Qed.

#[local] Hint Resolve room_respects_refl room_respects_trans
  server_respects_refl server_respects_trans : frame.

Lemma room_step_respects s s' : room_step s s' -> room_respects s s'.
Proof.
  intros H [Hi Hs]. split.
  - exact (room_step_inv s s' H Hi).
  - exact (room_step_sound s s' H Hi Hs).
Qed.

Lemma respects_add pid info : keeps room_respects (GameRoom.add_player pid info).
Proof.
  intros s res s' H. apply room_step_respects.
  exact (step_add_player pid info s res s' H).
Qed.

Lemma respects_remove pid : keeps room_respects (GameRoom.remove_player pid).
Proof.
  intros s res s' H. apply room_step_respects.
  exact (step_remove_player pid s res s' H).
Qed.

Lemma respects_start pid :
  keeps room_respects (GameRoom.self (GameRoom.start_game pid)).
Proof.
  intros s res s' H. apply room_step_respects.
  exact (step_start_game pid s res s' H).
Qed.

Lemma respects_restart pid : keeps room_respects (GameRoom.restart_game pid).
Proof.
  intros s res s' H. apply room_step_respects.
  exact (step_restart_game pid s res s' H).
Qed.

Lemma respects_update : keeps room_respects GameRoom.update_game.
Proof.
  intros s res s' H. apply room_step_respects.
  exact (step_update_game s res s' H).
Qed.

Lemma respects_direction pid d :
  keeps room_respects
    (GameRoom.self (GameRoom.state (GameState.update_player_direction pid d))).
Proof.
  intros s res s' H. apply room_step_respects.
  exact (step_direction pid d s res s' H).
Qed.

Lemma respects_broadcast msg exclude :
  keeps room_respects (GameRoom.broadcast_message msg exclude).
Proof.
  intros s res s' H. apply room_step_respects.
  exact (step_broadcast msg exclude s res s' H).
Qed.

Lemma respects_room_get : keeps room_respects (GameRoom.self get).
Proof.
  intros s res s'. unfold GameRoom.self, zoom, get. intros [= _ <-].
  destruct s. apply room_respects_refl.
Qed.

#[local] Hint Resolve respects_add respects_remove respects_start
  respects_restart respects_update respects_direction respects_broadcast
  respects_room_get : frame.

Lemma dict_get_In (V : Type) (d : dict V) k v :
  dict_get d k = Some v -> In (k, v) d.
Proof.
  induction d as [|[k1 v1] d IH]; [discriminate|].
  cbn. destruct (String.eqb k k1) eqn:E.
  - intros [= ->]. apply String.eqb_eq in E. subst. now left.
  - intros H. right. now apply IH.
Qed.

Lemma rooms_ok_get s rid room :
  rooms_ok s -> GameServer.rooms_get s rid = Some room -> room_ok room.
Proof.
  intros [Hl Hr]. unfold GameServer.rooms_get.
  destruct (String.eqb rid "lobby"); [intros [= <-]; exact Hl|].
  intros H. rewrite Forall_forall in Hr.
  exact (Hr _ (dict_get_In _ _ _ _ H)).
Qed.

Lemma dict_set_Forall (V : Type) (P : string * V -> Prop) (d : dict V) k v :
  (forall k', P (k', v)) -> Forall P d -> Forall P (dict_set d k v).
Proof.
  intros Hv. induction d as [|[k1 v1] d IH]; intros H.
  - cbn. constructor; [apply Hv | constructor].
  - apply Forall_cons_iff in H. destruct H as [H1 H2]. cbn.
    destruct (String.eqb k k1); constructor; auto.
Qed.

Lemma dict_del_Forall (V : Type) (P : string * V -> Prop) (d : dict V) k :
  Forall P d -> Forall P (dict_del d k).
Proof.
  induction d as [|[k1 v1] d IH]; intros H; [constructor|].
  apply Forall_cons_iff in H. destruct H as [H1 H2]. cbn.
  destruct (String.eqb k k1); [assumption | constructor; auto].
Qed.

Lemma rooms_ok_put s rid room :
  rooms_ok s -> room_ok room -> rooms_ok (GameServer.rooms_put rid room s).
Proof.
  intros [Hl Hr] Hroom. unfold GameServer.rooms_put, rooms_ok.
  destruct (String.eqb rid "lobby"); cbn; [auto|].
  split; [assumption|]. now apply dict_set_Forall.
Qed.

Lemma respects_in_room A rid (m : M GameRoom.st A) :
  keeps room_respects m -> keeps server_respects (GameServer.in_room rid m).
Proof.
  intros Hm [s e] res w'. unfold GameServer.in_room. cbn [fst snd].
  destruct (GameServer.rooms_get s rid) as [room|] eqn:Eg.
  - destruct (m (room, e)) as [r [room' e']] eqn:Em. intros [= _ <-] Hok.
    cbn [fst]. apply rooms_ok_put; [assumption|].
    exact (Hm _ _ _ Em (rooms_ok_get s rid room Hok Eg)).
  - intros [= _ <-]. apply server_respects_refl.
Qed.

Lemma respects_in_lobby A (m : M GameRoom.st A) :
  keeps room_respects m -> keeps server_respects (GameServer.in_lobby m).
Proof. apply respects_in_room. Qed.

Lemma respects_srv_env A (m : M Env A) :
  keeps server_respects (GameServer.env m).
Proof. apply keeps_zoom. intros s t H. exact H. Qed.

Lemma respects_srv_get : keeps server_respects (GameServer.self get).
Proof.
  intros s res s'. unfold GameServer.self, zoom, get. intros [= _ <-].
  destruct s. apply server_respects_refl.
Qed.

Lemma respects_set_players f :
  keeps server_respects
    (GameServer.self (modify (fun s => GameServer.set_players (f s) s))).
Proof.
  intros s res s'. unfold GameServer.self, zoom, modify. intros [= _ <-] H.
  exact H.
Qed.

Lemma respects_del_room rid :
  keeps server_respects
    (GameServer.self
       (modify (fun s => GameServer.set_rooms
                           (dict_del (GameServer.rooms s) rid) s))).
Proof.
  intros s res s'. unfold GameServer.self, zoom, modify.
  intros [= _ <-] [Hl Hr]. split; [exact Hl|]. cbn.
  now apply dict_del_Forall.
Qed.

Lemma respects_room_id :
  keeps server_respects (GameServer.self GameServer.generate_room_id).
Proof.
  intros s res s'.
  unfold GameServer.self, GameServer.generate_room_id, zoom, bind, get, put, ret.
  intros [= _ <-] H. exact H.
Qed.

Lemma respects_player_id :
  keeps server_respects (GameServer.self GameServer.generate_player_id).
Proof.
  intros s res s'.
  unfold GameServer.self, GameServer.generate_player_id, zoom, bind, get, put,
    ret.
  intros [= _ <-] H. exact H.
Qed.

#[local] Hint Resolve respects_in_room respects_in_lobby respects_srv_env
  respects_srv_get respects_set_players respects_del_room respects_room_id
  respects_player_id : frame.

Lemma respects_the_player pid :
  keeps server_respects (GameServer.the_player pid).
Proof. unfold GameServer.the_player. frame. Qed.

#[local] Hint Resolve respects_the_player : frame.

Lemma respects_set_room_of pid rid :
  keeps server_respects (GameServer.set_room_of pid rid).
Proof.
  unfold GameServer.set_room_of. frame_step; [frame|].
  apply (respects_set_players
           (fun s => dict_set (GameServer.players s) pid
                       (GameServer.mkPlayer (GameServer.username a)
                          (GameServer.socket a) (Some rid)))).
Qed.

Lemma respects_send_to_player pid msg :
  keeps server_respects (GameServer.send_message_to_player pid msg).
Proof. unfold GameServer.send_message_to_player. frame. Qed.

Lemma respects_list_message :
  keeps server_respects GameServer.get_room_list_message.
Proof. unfold GameServer.get_room_list_message. frame. Qed.

#[local] Hint Resolve respects_set_room_of respects_send_to_player
  respects_list_message : frame.

Lemma respects_broadcast_list :
  keeps server_respects GameServer.broadcast_room_list_to_lobby.
Proof. unfold GameServer.broadcast_room_list_to_lobby. frame. Qed.

Lemma respects_send_list pid :
  keeps server_respects (GameServer.send_room_list_to_player pid).
Proof. unfold GameServer.send_room_list_to_player. frame. Qed.

Lemma respects_depart pid rid notice :
  keeps server_respects (GameServer.depart_from pid rid notice).
Proof. unfold GameServer.depart_from. frame. Qed.

#[local] Hint Resolve respects_broadcast_list respects_send_list
  respects_depart : frame.

Lemma respects_move pid new_room_id room_name :
  keeps server_respects
    (GameServer.move_player_to_room pid new_room_id room_name).
Proof. unfold GameServer.move_player_to_room. frame. Qed.

#[local] Hint Resolve respects_move : frame.

Lemma room_init_ok rid name max g r g' :
  0 <= max -> GameRoom.init rid name max g = (Ok r, g') -> room_ok r.
Proof.
  intros Hmax H. split; [|exact (room_init_sound rid name max g r g' H)].
  destruct (room_init_fields rid name max g r g' H) as (Hp & Hc & Hm).
  unfold room_inv. rewrite Hp, Hc, Hm. cbn.
  repeat split; [lia | discriminate | congruence | constructor].
Qed.

Lemma respects_new_room rid name max :
  0 <= max ->
  keeps server_respects
    (bind (GameServer.env (random (GameRoom.init rid name max)))
       (fun room =>
          GameServer.self
            (modify (fun s => GameServer.set_rooms
                                (dict_set (GameServer.rooms s) rid room) s)))).
Proof.
  intros Hmax [s e] res w'. unfold bind, GameServer.env, random, zoom.
  cbn [fst snd].
  destruct (GameRoom.init rid name max (rand e)) as [[room|x] g'] eqn:Ei.
  - unfold GameServer.self, zoom, modify. cbn [fst snd].
    intros [= _ <-] [Hl Hr]. split; [exact Hl|]. cbn.
    apply dict_set_Forall; [|assumption].
    intros k'. exact (room_init_ok rid name max _ _ _ Hmax Ei).
  - intros [= _ <-] H. exact H.
Qed.

Lemma bind_assoc S A B C (m : M S A) (k : A -> M S B) (h : B -> M S C) s :
  bind (bind m k) h s = bind m (fun a => bind (k a) h) s.
Proof.
  unfold bind. destruct (m s) as [[a|x] s1]; reflexivity.
Qed.

Lemma keeps_ext S (R : S -> S -> Prop) A (m m' : M S A) :
  (forall s, m s = m' s) -> keeps R m' -> keeps R m.
Proof. intros E H s res s' Hm. rewrite E in Hm. exact (H s res s' Hm). Qed.

Lemma respects_create pid m :
  keeps server_respects (GameServer.handle_create_room pid m).
Proof.
  unfold GameServer.handle_create_room.
  frame_step; [frame|]. destruct (dict_get _ pid); [|frame].
  destruct (negb _); [frame|].
  frame_step; [frame|]. frame_step; [frame|].
  apply (keeps_ext _ _ _ _
           (bind (bind (GameServer.env (random (GameRoom.init a1 a0 4)))
                    (fun room =>
                       GameServer.self
                         (modify (fun s =>
                            GameServer.set_rooms
                              (dict_set (GameServer.rooms s) a1 room) s))))
                 (fun _ =>
                    bind (GameServer.move_player_to_room pid a1 a0)
                         (fun _ => GameServer.broadcast_room_list_to_lobby)))).
  - intros s. now rewrite bind_assoc.
  - frame_step; [apply respects_new_room; lia | frame].
Qed.

Lemma respects_join pid m :
  keeps server_respects (GameServer.handle_join_room pid m).
Proof. unfold GameServer.handle_join_room. frame. Qed.

Lemma respects_leave pid :
  keeps server_respects (GameServer.handle_leave_room pid).
Proof. unfold GameServer.handle_leave_room. frame. Qed.

Lemma respects_chat pid m :
  keeps server_respects (GameServer.handle_chat_message pid m).
Proof. unfold GameServer.handle_chat_message. frame. Qed.

Lemma respects_announce rid u msg :
  keeps server_respects (GameServer.announce_start rid u msg).
Proof.
  unfold GameServer.announce_start. frame_step; [frame|].
  apply respects_in_room. frame.
Qed.

#[local] Hint Resolve respects_announce : frame.

Lemma respects_start_request pid :
  keeps server_respects (GameServer.handle_start_game pid).
Proof. unfold GameServer.handle_start_game. frame. Qed.

Lemma respects_restart_request pid :
  keeps server_respects (GameServer.handle_restart_game pid).
Proof. unfold GameServer.handle_restart_game. frame. Qed.

Lemma respects_move_request pid m :
  keeps server_respects (GameServer.handle_player_move pid m).
Proof.
  unfold GameServer.handle_player_move.
  frame_step; [frame|]. destruct (GameServer.game_room_of _ pid)
    as [[[rid u] room]|]; [|frame].
  frame_step. apply respects_in_room. frame.
Qed.

#[local] Hint Resolve respects_create respects_join respects_leave
  respects_chat respects_start_request respects_restart_request
  respects_move_request : frame.

Lemma respects_process pid m :
  keeps server_respects (GameServer.process_client_message pid m).
Proof. unfold GameServer.process_client_message. frame. Qed.

Lemma respects_tick_rooms listed :
  keeps server_respects (GameServer.tick_rooms listed).
Proof.
  induction listed as [|rid rest IH]; cbn [GameServer.tick_rooms]; frame.
Qed.

Lemma respects_tick : keeps server_respects GameServer.game_loop_tick.
Proof.
  unfold GameServer.game_loop_tick. frame_step; [frame|].
  apply respects_tick_rooms.
Qed.

Lemma respects_server_remove pid :
  keeps server_respects (GameServer.remove_player pid).
Proof.
  unfold GameServer.remove_player.
  frame_step; [frame|]. destruct (dict_get _ pid); [|frame].
  frame_step.
  - apply (respects_set_players
             (fun s => dict_del (GameServer.players s) pid)).
  - frame.
Qed.

#[local] Hint Resolve respects_process respects_tick respects_server_remove
  : frame.

(** *** Sessions *)

Lemma session_respects_refl ss : session_respects ss ss.
Proof. intros H. exact H. Qed.

Lemma session_respects_trans a b c :
  session_respects a b -> session_respects b c -> session_respects a c.
Proof. unfold session_respects. auto. Qed.

#[local] Hint Resolve session_respects_refl session_respects_trans : frame.

Lemma respects_world A (m : M GameServer.World A) :
  keeps server_respects m -> keeps session_respects (GameServer.world m).
Proof.
  intros Hm [w l] res ss'. unfold GameServer.world, zoom. cbn [fst snd].
  destruct (m w) as [r w'] eqn:Em. intros [= _ <-] H. cbn [fst].
  exact (Hm _ _ _ Em H).
Qed.

Lemma respects_srv_plain_get : keeps server_respects (@get GameServer.World).
Proof. apply keeps_get. apply server_respects_refl. Qed.

Lemma respects_local f :
  keeps session_respects
    (modify (fun ss : GameServer.session => (fst ss, f ss))).
Proof. intros ss res ss'. unfold modify. intros [= _ <-] H. exact H. Qed.

Lemma respects_session_get : keeps session_respects (@get GameServer.session).
Proof. apply keeps_get. apply session_respects_refl. Qed.

#[local] Hint Resolve respects_world respects_srv_plain_get
  respects_session_get : frame.

Section SessionsRespect.
Variable loads : list Byte.byte -> option (dict pyval).

Lemma respects_receive_loop rounds pid sock :
  keeps server_respects (GameServer.receive_loop loads rounds pid sock).
Proof.
  induction rounds as [|n IH]; cbn [GameServer.receive_loop]; frame.
Qed.

Lemma respects_authenticate sock :
  keeps session_respects (GameServer.authenticate loads sock).
Proof.
  unfold GameServer.authenticate.
  frame_step; [frame|]. destruct a as [[|field rest]|]; [frame| |frame].
  destruct (negb _); [frame|].
  destruct (GameServer.msg_get _ "data") as [|name]; [frame|].
  destruct (negb _); [frame|].
  frame_step; [frame|]. destruct a as [s e].
  destruct (existsb _ _); [frame|].
  frame_step; [frame|]. frame_step; [apply (respects_local (fun _ => Some a))|].
  frame_step.
  { apply respects_world.
    apply (respects_set_players
             (fun s => dict_set (GameServer.players s) a
                         (GameServer.mkPlayer name sock None))). }
  frame_step; [frame|]. destruct a2 as [ok msg].
  destruct (negb ok).
  - frame_step; [|frame].
    apply respects_world.
    apply (respects_set_players
             (fun s => dict_del (GameServer.players s) a)).
  - frame.
Qed.

Lemma respects_serve rounds sock :
  keeps session_respects (GameServer.serve loads rounds sock).
Proof.
  unfold GameServer.serve. frame_step; [apply respects_authenticate|].
  destruct a; [|frame]. apply respects_world. apply respects_receive_loop.
Qed.

Lemma respects_cleanup sock :
  keeps session_respects (GameServer.cleanup sock).
Proof. unfold GameServer.cleanup. frame. Qed.

Lemma respects_handle_client rounds sock :
  keeps server_respects (GameServer.handle_client loads rounds sock).
Proof.
  intros w res w'. unfold GameServer.handle_client.
  destruct (GameServer.serve loads rounds sock (w, None)) as [r ss] eqn:Es.
  pose proof (respects_serve rounds sock _ _ _ Es) as H1. cbn in H1.
  assert (Hc : forall r' ss',
             GameServer.cleanup sock ss = (r', ss') ->
             rooms_ok (fst w) -> rooms_ok (fst (fst ss'))).
  { intros r' ss' Ec H. exact (respects_cleanup sock _ _ _ Ec (H1 H)). }
  destruct r as [[|]|x].
  - destruct (GameServer.cleanup sock ss) as [[u|y] ss'] eqn:Ec;
      intros [= _ <-]; exact (Hc _ _ eq_refl).
  - intros [= _ <-]. exact H1.
  - destruct (GameServer.cleanup sock ss) as [[u|y] ss'] eqn:Ec;
      intros [= _ <-]; exact (Hc _ _ eq_refl).
Qed.
End SessionsRespect.

Lemma server_init_ok g s g' : GameServer.init g = (Ok s, g') -> rooms_ok s.
Proof.
  unfold GameServer.init, bind, ret.
  destruct (GameRoom.init "lobby" "Лобби" 50 g) as [[lobby|x] g1] eqn:E;
    [|discriminate].
  intros [= <- _]. split; [|constructor]. cbn.
  apply (room_init_ok "lobby" "Лобби" 50 g lobby g1); [lia | exact E].
Qed.

(** *** The scheduler *)

Lemma tick_rooms_run listed :
  forall w,
    rooms_ok (fst w) ->
    exists w', GameServer.tick_rooms listed w = (Ok tt, w') /\ rooms_ok (fst w').
Proof.
  induction listed as [|rid rest IH]; intros [s e] Hok.
  - exists (s, e). split; [reflexivity | exact Hok].
  - cbn [GameServer.tick_rooms].
    erewrite bind_ok; [|reflexivity]. cbn [fst snd].
    destruct (dict_get (GameServer.rooms s) rid) as [room|] eqn:Eg.
    + destruct (negb (String.eqb rid "lobby") && GameRoom.game_active room)
        eqn:Ec; cbn [when].
      * apply andb_true_iff in Ec. destruct Ec as [Hl _].
        apply negb_true_iff, String.eqb_neq in Hl.
        assert (Hget : GameServer.rooms_get s rid = Some room)
          by now rewrite rooms_get_other.
        destruct (rooms_ok_get s rid room Hok Hget) as [Hi Hs].
        destruct (tick_run room e Hs) as (r' & e' & E & Hs' & Hm).
        erewrite bind_ok; [|exact (in_room_run _ _ rid s e room _ r' e' Hget E)].
        apply IH. cbn [fst]. apply rooms_ok_put; [assumption|].
        split; [exact (room_inv_same _ _ Hm Hi) | exact Hs'].
      * erewrite bind_ok; [|reflexivity]. now apply IH.
    + erewrite bind_ok; [|reflexivity]. now apply IH.
Qed.

Lemma game_loop_tick_run w :
  rooms_ok (fst w) ->
  exists w', GameServer.game_loop_tick w = (Ok tt, w') /\ rooms_ok (fst w').
Proof.
  intros Hok. unfold GameServer.game_loop_tick.
  erewrite bind_ok; [|reflexivity].
  destruct w as [s e]. now apply tick_rooms_run.
Qed.

Lemma playing_lobby_ok : room_ok (GameServer.lobby_room (fst playing)).
Proof.
  split; [split; [cbn; lia|split; [|split]]|split; [|split]].
  - intros c [=].
  - intros H. now contradiction H.
  - constructor.
  - reflexivity.
  - constructor.
  - reflexivity.
Defined.

Lemma playing_room_ok : room_ok ann_room.
Proof.
  split; [split; [cbn; lia|split; [|split]]|split; [|split]].
  - intros c [= <-]. cbn. now left.
  - discriminate.
  - repeat constructor. intros [].
  - reflexivity.
  - repeat constructor. discriminate.
  - reflexivity.
Defined.

Lemma playing_rooms_ok : rooms_ok (fst playing).
Proof.
  split; [exact playing_lobby_ok|].
  constructor; [exact playing_room_ok | constructor].
Defined.

(** X27.  The rooms of the server stay in good order.  The constructor
    leaves the lobby in good order; and from a server whose rooms are all
    in good order, every client message, every firing of the scheduler,
    every removal of a player and every whole session leaves them all
    in good order, whether the operation returns or raises.  Good order
    of a room means: no more members than its capacity, no member twice,
    the creator (if any) a member, and exactly one snake per member, in
    the order of the members. *)
Theorem rooms_stay_in_order :
  (forall g s g', GameServer.init g = (Ok s, g') -> rooms_ok s) /\
  (forall pid m w res w',
      rooms_ok (fst w) ->
      GameServer.process_client_message pid m w = (res, w') ->
      rooms_ok (fst w')) /\
  (forall w res w',
      rooms_ok (fst w) ->
      GameServer.game_loop_tick w = (res, w') -> rooms_ok (fst w')) /\
  (forall pid w res w',
      rooms_ok (fst w) ->
      GameServer.remove_player pid w = (res, w') -> rooms_ok (fst w')) /\
  (forall loads rounds sock w res w',
      rooms_ok (fst w) ->
      GameServer.handle_client loads rounds sock w = (res, w') ->
      rooms_ok (fst w')) /\
  (forall s rid room,
      rooms_ok s -> GameServer.rooms_get s rid = Some room ->
      Z.of_nat (List.length (GameRoom.players room))
      <= GameRoom.max_players room /\
      NoDup (dict_keys (GameRoom.players room)) /\
      (forall c, GameRoom.creator_id room = Some c ->
                 In c (dict_keys (GameRoom.players room))) /\
      dict_keys (GameState.snakes (GameRoom.game_state room))
      = dict_keys (GameRoom.players room)).
Proof.
  split; [exact server_init_ok|].
  split; [intros pid m w res w' H E; exact (respects_process pid m w res w' E H)|].
  split; [intros w res w' H E; exact (respects_tick w res w' E H)|].
  split; [intros pid w res w' H E; exact (respects_server_remove pid w res w' E H)|].
  split.
  - intros loads rounds sock w res w' H E.
    exact (respects_handle_client loads rounds sock w res w' E H).
  - intros s rid room H Hg.
    destruct (rooms_ok_get s rid room H Hg)
      as [(Hlen & Hcr & _ & Hnd) (_ & _ & K)].
    auto.
Qed.

Lemma rooms_stay_in_order_witness :
  rooms_ok (fst moved_down) /\
  (Z.of_nat (List.length (GameRoom.players ann_room))
   <= GameRoom.max_players ann_room /\
   NoDup (dict_keys (GameRoom.players ann_room)) /\
   (forall c, GameRoom.creator_id ann_room = Some c ->
              In c (dict_keys (GameRoom.players ann_room))) /\
   dict_keys (GameState.snakes (GameRoom.game_state ann_room))
   = dict_keys (GameRoom.players ann_room)).
Proof.
  split.
  - apply (proj1 (proj2 rooms_stay_in_order) "player_1"
             (envelope "move" (PStr "DOWN")) playing
             (fst (GameServer.process_client_message "player_1"
                     (envelope "move" (PStr "DOWN")) playing))
             moved_down).
    + exact playing_rooms_ok.
    + vm_compute. reflexivity.
  - apply (proj2 (proj2 (proj2 (proj2 (proj2 rooms_stay_in_order))))
             (fst playing) "room_1" ann_room).
    + exact playing_rooms_ok.
    + reflexivity.
Defined.

(** X28.  A firing of the scheduler never raises: on a server whose
    rooms are in good order it returns, whatever the random source and
    the network do, and the rooms are in good order afterwards. *)
Theorem scheduler_never_raises :
  forall w,
    rooms_ok (fst w) ->
    exists w',
      GameServer.game_loop_tick w = (Ok tt, w') /\ rooms_ok (fst w').
Proof. exact game_loop_tick_run. Qed.

Lemma scheduler_never_raises_witness :
  exists w',
    GameServer.game_loop_tick playing = (Ok tt, w') /\ rooms_ok (fst w').
Proof.
  apply (scheduler_never_raises playing). exact playing_rooms_ok.
Defined.

(** ** Requests about the game *)

Lemma announce_run rid u msg s e room :
  GameServer.rooms_get s rid = Some room ->
  exists e', GameServer.announce_start rid u msg (s, e) = (Ok tt, (s, e')).
Proof.
  intros Hg. unfold GameServer.announce_start.
  erewrite bind_ok; [|apply in_room_broadcast; exact Hg].
  eexists.
  erewrite (in_room_run _ _ rid s _ room (Ok tt) room _ Hg).
  - now rewrite (rooms_put_same rid room s Hg).
  - unfold bind, GameRoom.self, zoom, get. cbn [fst snd].
    apply broadcast_message_ok.
Qed.

Lemma start_game_total pid r :
  exists ok msg r', GameRoom.start_game pid r = (Ok (ok, msg), r').
Proof.
  unfold GameRoom.start_game, bind, get, modify, ret, GameRoom.state, zoom.
  destruct (negb _); [eauto|]. destruct (_ <? 1); [eauto|].
  destruct (GameRoom.game_active r); eauto.
Qed.

Lemma start_request_run pid s e :
  exists w', GameServer.handle_start_game pid (s, e) = (Ok tt, w').
Proof.
  unfold GameServer.handle_start_game.
  erewrite bind_ok; [|reflexivity]. cbn [fst snd].
  destruct (GameServer.game_room_of s pid) as [[[rid u] room]|] eqn:Eg;
    [|unfold ret; eauto].
  pose proof (game_room_of_some s pid rid u room Eg) as Hget.
  destruct (start_game_total pid room) as (ok & msg & r' & E).
  erewrite bind_ok;
    [|apply (in_room_run _ _ rid s e room (Ok (ok, msg)) r' e Hget);
      unfold GameRoom.self, zoom; cbn [fst snd]; now rewrite E].
  destruct ok; cbn [when]; [|unfold ret; eauto].
  destruct (announce_run rid u msg (GameServer.rooms_put rid r' s) e r'
              (rooms_get_put_same rid r' s)) as (e' & Ea).
  rewrite Ea. eauto.
Qed.

Lemma restart_request_run pid s e :
  rooms_ok s ->
  exists w', GameServer.handle_restart_game pid (s, e) = (Ok tt, w').
Proof.
  intros Hok. unfold GameServer.handle_restart_game.
  erewrite bind_ok; [|reflexivity]. cbn [fst snd].
  destruct (GameServer.game_room_of s pid) as [[[rid u] room]|] eqn:Eg;
    [|unfold ret; eauto].
  pose proof (game_room_of_some s pid rid u room Eg) as Hget.
  destruct (rooms_ok_get s rid room Hok Hget) as [Hi Hs].
  destruct (reachable_restart_ok room e pid Hi Hs) as ([ok msg] & [r' e'] & E).
  erewrite bind_ok;
    [|exact (in_room_run _ _ rid s e room (Ok (ok, msg)) r' e' Hget E)].
  destruct ok; cbn [when]; [|unfold ret; eauto].
  destruct (announce_run rid u msg (GameServer.rooms_put rid r' s) e' r'
              (rooms_get_put_same rid r' s)) as (e2 & Ea).
  rewrite Ea. eauto.
Qed.

Lemma move_request_run pid m s e :
  rooms_ok s ->
  exists w', GameServer.handle_player_move pid m (s, e) = (Ok tt, w').
Proof.
  intros Hok. unfold GameServer.handle_player_move.
  erewrite bind_ok; [|reflexivity]. cbn [fst snd].
  destruct (GameServer.game_room_of s pid) as [[[rid u] room]|] eqn:Eg;
    [|unfold ret; eauto].
  pose proof (game_room_of_some s pid rid u room Eg) as Hget.
  destruct (GameRoom.game_active room); cbn [when]; [|unfold ret; eauto].
  destruct (rooms_ok_get s rid room Hok Hget) as [Hi Hs].
  destruct (GameRoom.self
              (GameRoom.state
                 (GameState.update_player_direction pid
                    (GameServer.msg_get m "data"))) (room, e))
    as [res [r1 e1]] eqn:Ed.
  pose proof (direction_sound _ _ _ _ _ _ _ Hs Ed) as Hs1.
  assert (exists b, res = Ok b) as [b ->].
  { revert Ed. unfold GameRoom.self, GameRoom.state, zoom,
      GameState.update_player_direction, bind, get, put, ret. cbn [fst snd].
    destruct (_ && _); [|intros [= <- _ _]; eauto].
    destruct (GameState.is_direction _); intros [= <- _ _]; eauto. }
  destruct (tick_run r1 e1 Hs1) as (r' & e' & E & _).
  erewrite (in_room_run _ _ rid s e room (Ok tt) r' e' Hget).
  - eauto.
  - unfold bind. rewrite Ed. exact E.
Qed.

Lemma chat_request_run pid m s e :
  exists w', GameServer.handle_chat_message pid m (s, e) = (Ok tt, w').
Proof.
  destruct (dict_get (GameServer.players s) pid) as [p|] eqn:Ep.
  2:{ rewrite chat_dropped; [eauto | now rewrite Ep]. }
  destruct (GameServer.room_id p) as [rid|] eqn:Er.
  2:{ rewrite chat_dropped; [eauto | now rewrite Ep, Er]. }
  destruct (String.eqb rid "") eqn:E.
  { apply String.eqb_eq in E.
    rewrite chat_dropped; [eauto | rewrite Ep, Er; now left]. }
  apply String.eqb_neq in E.
  destruct (GameServer.rooms_get s rid) as [room|] eqn:Eg.
  - rewrite (chat_relayed pid m s e p rid room Ep Er E Eg). eauto.
  - rewrite chat_dropped; [eauto | rewrite Ep, Er; now right].
Qed.

(** X29.  Requests about a running game never raise.  On a server whose
    rooms are in good order, a MOVE, a CHAT, a START_GAME and a
    RESTART_GAME are each handled to the end, from whatever player and
    with whatever payload, and the session loop goes on. *)
Theorem game_requests_never_raise :
  forall pid m w t,
    rooms_ok (fst w) ->
    In t [MessageType.MOVE; MessageType.CHAT; MessageType.START_GAME;
          MessageType.RESTART_GAME] ->
    GameServer.msg_get m "type" = PStr t ->
    exists w', GameServer.process_client_message pid m w = (Ok false, w').
Proof.
  intros pid m [s e] t Hok Ht Hm. cbn [fst] in Hok.
  unfold GameServer.process_client_message. rewrite Hm.
  cbn in Ht. destruct Ht as [<-|[<-|[<-|[<-|[]]]]]; cbn [pyval_eqb];
    cbn [String.eqb Ascii.eqb Bool.eqb MessageType.MOVE MessageType.CHAT
         MessageType.CREATE_ROOM MessageType.JOIN_ROOM MessageType.LEAVE_ROOM
         MessageType.START_GAME MessageType.RESTART_GAME
         MessageType.DISCONNECT].
  - destruct (move_request_run pid m s e Hok) as (w' & E).
    unfold bind. rewrite E. unfold ret. eauto.
  - destruct (chat_request_run pid m s e) as (w' & E).
    unfold bind. rewrite E. unfold ret. eauto.
  - destruct (start_request_run pid s e) as (w' & E).
    unfold bind. rewrite E. unfold ret. eauto.
  - destruct (restart_request_run pid s e Hok) as (w' & E).
    unfold bind. rewrite E. unfold ret. eauto.
Qed.

Lemma game_requests_never_raise_witness :
  exists w',
    GameServer.process_client_message "player_1"
      (envelope "restart_game" PNone) playing = (Ok false, w').
Proof.
  apply (game_requests_never_raise "player_1" (envelope "restart_game" PNone)
           playing "restart_game").
  - exact playing_rooms_ok.
  - cbn. tauto.
  - reflexivity.
Defined.

(** ** Making a room *)

Lemma member_removal_run r e pid :
  dict_mem (GameRoom.players r) pid = true ->
  exists b r' e',
    GameRoom.remove_player pid (r, e) = (Ok b, (r', e')) /\
    GameRoom.players r' = dict_del (GameRoom.players r) pid.
Proof.
  intros Hm.
  destruct (dict_del (GameRoom.players r) pid) as [|x rest] eqn:Hd.
  { rewrite (remove_player_last pid r e Hm Hd). eexists _, _, _.
    split; [reflexivity|]. unfold emptied, vacated. cbn. exact Hd. }
  assert (Hd' : dict_del (GameRoom.players r) pid <> [])
    by (rewrite Hd; discriminate).
  destruct (opt_string_eqb (Some pid) (GameRoom.creator_id r)) eqn:Hc.
  - destruct (remove_player_creator pid r e Hm Hd' Hc) as (c & e1 & Hin & E).
    rewrite E. eexists _, _, _. split; [reflexivity|].
    unfold vacated. cbn. exact Hd.
  - destruct (remove_player_other pid r e Hm Hd' Hc) as (e1 & E).
    rewrite E. eexists _, _, _. split; [reflexivity|].
    unfold vacated. cbn. exact Hd.
Qed.

Lemma depart_lobby_run pid notice s e :
  dict_mem (GameRoom.players (GameServer.lobby_room s)) pid = true ->
  exists lobby' e',
    GameServer.depart_from pid "lobby" notice (s, e)
    = (Ok tt, (GameServer.set_lobby_room lobby' s, e')) /\
    GameRoom.players lobby'
    = dict_del (GameRoom.players (GameServer.lobby_room s)) pid.
Proof.
  intros Hm.
  destruct (member_removal_run (GameServer.lobby_room s) e pid Hm)
    as (b & lobby' & e1 & E & Hp).
  exists lobby',
    (delivered (GameProtocol.create_message MessageType.PLAYER_LEFT "SERVER"
                  (DText notice)) (recipients_of lobby' None) e1).
  split; [|exact Hp].
  unfold GameServer.depart_from.
  erewrite bind_ok; [|reflexivity]. cbn [fst snd].
  change (GameServer.rooms_get s "lobby") with (Some (GameServer.lobby_room s)).
  cbv iota.
  erewrite bind_ok;
    [|exact (in_room_run _ _ "lobby" s e (GameServer.lobby_room s) (Ok b)
               lobby' e1 eq_refl E)].
  change (GameServer.rooms_put "lobby" lobby' s)
    with (GameServer.set_lobby_room lobby' s).
  erewrite bind_ok; [|apply (in_room_broadcast "lobby" lobby'); reflexivity].
  rewrite andb_false_r. reflexivity.
Qed.

Lemma the_player_known pid s e p :
  dict_get (GameServer.players s) pid = Some p ->
  GameServer.the_player pid (s, e) = (Ok p, (s, e)).
Proof.
  intros H. unfold GameServer.the_player.
  erewrite bind_ok; [|reflexivity]. cbn [fst snd]. now rewrite H.
Qed.

Lemma set_room_of_known pid rid s e p :
  dict_get (GameServer.players s) pid = Some p ->
  GameServer.set_room_of pid rid (s, e)
  = (Ok tt,
     (GameServer.set_players
        (dict_set (GameServer.players s) pid (placed p rid)) s, e)).
Proof.
  intros H. unfold GameServer.set_room_of.
  erewrite bind_ok; [|apply the_player_known; exact H].
  reflexivity.
Qed.

Lemma rooms_get_set_players d s rid :
  GameServer.rooms_get (GameServer.set_players d s) rid
  = GameServer.rooms_get s rid.
Proof. reflexivity. Qed.

Lemma move_after_departure pid new name s e p old s1 e1 new_room :
  dict_get (GameServer.players s) pid = Some p ->
  GameServer.room_id p = Some old -> old <> "" -> old <> new ->
  GameServer.depart_from pid old
    ("Игрок " ++ GameServer.username p ++ " покинул комнату") (s, e)
  = (Ok tt, (s1, e1)) ->
  GameServer.players s1 = GameServer.players s ->
  GameServer.rooms_get s1 new = Some new_room ->
  Z.of_nat (List.length (GameRoom.players new_room))
  < GameRoom.max_players new_room ->
  dict_mem (GameRoom.players new_room) pid = false ->
  room_sound new_room ->
  exists x y col e',
    GameServer.move_player_to_room pid new name (s, e)
    = (Ok tt,
       (GameServer.set_players
          (dict_set (GameServer.players s) pid (placed p new))
          (GameServer.rooms_put new
             (joined pid (info_of p)
                (with_snake pid (newborn pid (x, y) col)
                   (GameRoom.game_state new_room))
                new_room) s1),
        e')).
Proof.
  intros Hp Hroom Hold Hne Hdep Hsame Hget Hspace Hmem Hsound.
  destruct (room_sound_grid new_room Hsound) as [Gx Gy].
  destruct (room_add_new pid (info_of p) new_room e1 Hspace Hmem
              (sound_no_snake new_room pid Hsound Hmem) Gx Gy)
    as (x & y & col & rnd' & Eadd & _).
  exists x, y, col.
  set (room' := joined pid (info_of p)
                  (with_snake pid (newborn pid (x, y) col)
                     (GameRoom.game_state new_room)) new_room) in *.
  set (s2 := GameServer.rooms_put new room' s1).
  set (s3 := GameServer.set_players
               (dict_set (GameServer.players s) pid (placed p new)) s2).
  assert (Hp2 : dict_get (GameServer.players s2) pid = Some p).
  { subst s2. unfold GameServer.rooms_put.
    destruct (String.eqb new "lobby"); cbn; now rewrite Hsame. }
  assert (Hs3 : GameServer.set_players
                  (dict_set (GameServer.players s2) pid (placed p new)) s2
                = s3).
  { subst s3. f_equal. f_equal. subst s2. unfold GameServer.rooms_put.
    destruct (String.eqb new "lobby"); cbn; now rewrite Hsame. }
  assert (Hget3 : GameServer.rooms_get s3 new = Some room').
  { subst s3. rewrite rooms_get_set_players. apply rooms_get_put_same. }
  assert (Hp3 : dict_get (GameServer.players s3) pid = Some (placed p new)).
  { subst s3. cbn [GameServer.players GameServer.set_players].
    apply dict_get_set_same. }
  remember (GameServer.move_player_to_room pid new name (s, e)) as R eqn:ER.
  unfold GameServer.move_player_to_room in ER.
  erewrite bind_ok in ER; [|apply the_player_known; exact Hp].
  cbv zeta in ER. rewrite Hroom in ER. unfold GameServer.truthy_id in ER.
  replace (String.eqb old "") with false in ER
    by (symmetry; now apply String.eqb_neq).
  replace (String.eqb old new) with false in ER
    by (symmetry; now apply String.eqb_neq).
  cbn [negb andb when] in ER.
  erewrite bind_ok in ER; [|exact Hdep].
  erewrite bind_ok in ER; [|reflexivity]. cbn [fst snd] in ER.
  rewrite Hget in ER.
  erewrite bind_ok in ER;
    [|exact (in_room_run _ _ new s1 e1 new_room _ room' _ Hget Eadd)].
  cbv beta iota in ER. cbn [negb] in ER. fold s2 in ER.
  erewrite bind_ok in ER; [|apply set_room_of_known; exact Hp2].
  rewrite Hs3 in ER.
  erewrite bind_ok in ER; [|reflexivity]. cbn [fst snd] in ER.
  rewrite Hget3 in ER.
  erewrite bind_ok in ER; [|apply send_to_player_known; exact Hp3].
  erewrite bind_ok in ER; [|apply in_room_broadcast; exact Hget3].
  destruct (negb (String.eqb new "lobby")); cbn [when] in ER.
  - rewrite (send_to_player_known pid _ s3 _ _ Hp3) in ER.
    subst R. eexists. reflexivity.
  - subst R. eexists. reflexivity.
Qed.

Lemma next_room_id_not_lobby s : next_room_id s <> "lobby".
Proof. unfold next_room_id. cbn. discriminate. Qed.

Lemma next_room_id_not_empty s : "lobby" <> next_room_id s.
Proof. unfold next_room_id. cbn. discriminate. Qed.

Lemma room_name_run (m : dict pyval) s e :
  exists name e0,
    (match GameServer.msg_get m "data" with
     | PStr name =>
         if truthy (PStr name) then ret name
         else
           bind (GameServer.env (random (randint 100 999)))
             (fun n =>
                ret ("Комната_" ++ NilZero.string_of_int (Z.to_int n))%string)
     | PNone =>
         bind (GameServer.env (random (randint 100 999)))
           (fun n =>
              ret ("Комната_" ++ NilZero.string_of_int (Z.to_int n))%string)
     end) (s, e) = (Ok name, (s, e0)) /\
    (forall given,
        GameServer.msg_get m "data" = PStr given -> given <> "" ->
        name = given /\ e0 = e).
Proof.
  assert (Hr : exists name e0,
             bind (GameServer.env (random (randint 100 999)))
               (fun n =>
                  ret ("Комната_" ++ NilZero.string_of_int (Z.to_int n))%string)
               (s, e) = (Ok name, (s, e0))).
  { unfold bind, GameServer.env, random, zoom, ret. cbn [fst snd].
    destruct (randint_range 100 999 (rand e)) as (v & Ev & _); [lia|].
    rewrite Ev. cbn [fst snd]. eauto. }
  destruct (GameServer.msg_get m "data") as [|given].
  - destruct Hr as (name & e0 & E). exists name, e0. split; [exact E|].
    discriminate.
  - destruct (truthy (PStr given)) eqn:Et.
    + exists given, e. split; [reflexivity|]. intros g [= <-] _. auto.
    + destruct Hr as (name & e0 & E). exists name, e0. split; [exact E|].
      intros g [= <-] Hne. exfalso. cbn in Et.
      apply negb_false_iff, String.eqb_eq in Et. contradiction.
Qed.

Lemma broadcast_list_run s e :
  exists e', GameServer.broadcast_room_list_to_lobby (s, e) = (Ok tt, (s, e')).
Proof.
  unfold GameServer.broadcast_room_list_to_lobby.
  erewrite bind_ok; [|apply room_list_message_is].
  unfold GameServer.in_lobby.
  rewrite (in_room_broadcast "lobby" (GameServer.lobby_room s) s e _ None
             eq_refl).
  eauto.
Qed.

Lemma create_room_run pid m s e p :
  rooms_ok s ->
  dict_get (GameServer.players s) pid = Some p ->
  GameServer.room_id p = Some "lobby" ->
  dict_mem (GameRoom.players (GameServer.lobby_room s)) pid = true ->
  dict_get (GameServer.rooms s) (next_room_id s) = None ->
  exists s' e' room name,
    GameServer.handle_create_room pid m (s, e) = (Ok tt, (s', e')) /\
    dict_get (GameServer.rooms s') (next_room_id s) = Some room /\
    GameRoom.room_id room = next_room_id s /\
    GameRoom.room_name room = name /\
    (forall given,
        GameServer.msg_get m "data" = PStr given -> given <> "" ->
        name = given) /\
    GameRoom.players room = [(pid, info_of p)] /\
    GameRoom.creator_id room = Some pid /\
    GameRoom.game_active room = false /\
    GameRoom.max_players room = 4 /\
    dict_get (GameServer.players s') pid = Some (placed p (next_room_id s)) /\
    (forall k, k <> pid ->
               dict_get (GameServer.players s') k
               = dict_get (GameServer.players s) k) /\
    dict_mem (GameRoom.players (GameServer.lobby_room s')) pid = false /\
    GameServer.room_counter s' = S (GameServer.room_counter s) /\
    (forall k, k <> next_room_id s ->
               dict_get (GameServer.rooms s') k
               = dict_get (GameServer.rooms s) k).
Proof.
  intros Hok Hp Hroom Hmem Hfresh.
  set (rid := next_room_id s) in *.
  assert (Hrid : rid <> "lobby") by apply next_room_id_not_lobby.
  destruct (room_name_run m s e) as (name & e0 & Ename & Hgiven).
  destruct (engine_init_run (40, 30) (rand e0)) as (food & r1 & Ei & _);
    [reflexivity | reflexivity |].
  set (g0 := with_more_food food (GameState.mk (40, 30) [] [] false)) in *.
  set (room0 := GameRoom.mk rid name 4 g0 [] None false).
  set (sc := GameServer.set_room_counter (S (GameServer.room_counter s)) s).
  set (s2 := GameServer.set_rooms (dict_set (GameServer.rooms sc) rid room0) sc).
  destruct (depart_lobby_run pid
              ("Игрок " ++ GameServer.username p ++ " покинул комнату")
              s2 (set_rand r1 e0) Hmem)
    as (lobby' & e3 & Edep & Hlobby').
  assert (Hget : GameServer.rooms_get (GameServer.set_lobby_room lobby' s2) rid
                 = Some room0).
  { rewrite rooms_get_other by exact Hrid. cbn. apply dict_get_set_same. }
  assert (Hsound0 : room_sound room0).
  { unfold room_sound, room0, g0. cbn.
    split; [reflexivity|]. split; [constructor | reflexivity]. }
  destruct (move_after_departure pid rid name s2 (set_rand r1 e0) p "lobby"
              (GameServer.set_lobby_room lobby' s2) e3 room0)
    as (x & y & col & e4 & Emove);
    [exact Hp | exact Hroom | discriminate | apply next_room_id_not_empty
     | exact Edep | reflexivity | exact Hget | cbn; lia | reflexivity
     | exact Hsound0 |].
  match type of Emove with
  | _ = (Ok tt, (?t, _)) => set (s' := t) in *
  end.
  destruct (broadcast_list_run s' e4) as (e5 & Eb).
  set (room' := joined pid (info_of p)
                  (with_snake pid (newborn pid (x, y) col)
                     (GameRoom.game_state room0)) room0) in *.
  exists s', e5, room', name.
  split.
  { unfold GameServer.handle_create_room.
    erewrite bind_ok; [|reflexivity]. cbn [fst snd]. rewrite Hp, Hroom.
    cbn [opt_string_eqb String.eqb Ascii.eqb Bool.eqb negb].
    erewrite bind_ok; [|exact Ename].
    erewrite bind_ok; [|reflexivity].
    erewrite bind_ok;
      [|unfold GameServer.env, random, zoom, GameRoom.init, bind, ret;
        cbn [fst snd]; rewrite Ei; reflexivity].
    erewrite bind_ok; [|reflexivity].
    erewrite bind_ok; [|exact Emove].
    exact Eb. }
  assert (Hrooms : GameServer.rooms s'
                   = dict_set (dict_set (GameServer.rooms s) rid room0) rid room').
  { subst s'. cbn [GameServer.rooms GameServer.set_players].
    rewrite rooms_put_other by exact Hrid. reflexivity. }
  split; [rewrite Hrooms; apply dict_get_set_same|].
  split; [reflexivity|]. split; [reflexivity|].
  split; [intros given Hg Hne; exact (proj1 (Hgiven given Hg Hne))|].
  split; [reflexivity|]. split; [reflexivity|]. split; [reflexivity|].
  split; [reflexivity|].
  split.
  { subst s'. cbn [GameServer.players GameServer.set_players].
    apply dict_get_set_same. }
  split.
  { intros k Hk. subst s'. cbn [GameServer.players GameServer.set_players].
    now apply dict_get_set_other. }
  split.
  { assert (Hl : GameServer.lobby_room s' = lobby').
    { subst s'. cbn [GameServer.lobby_room GameServer.set_players].
      rewrite rooms_put_other by exact Hrid. reflexivity. }
    rewrite Hl, Hlobby'. apply dict_mem_false_keys.
    apply dict_del_gone. destruct Hok as [[(_ & _ & _ & Hnd) _] _].
    exact Hnd. }
  split.
  { subst s'. cbn [GameServer.room_counter GameServer.set_players].
    rewrite rooms_put_other by exact Hrid. reflexivity. }
  intros k Hk. rewrite Hrooms.
  rewrite !dict_get_set_other by exact Hk. reflexivity.
Qed.

Lemma join_from_lobby_run pid m s e p target room :
  rooms_ok s ->
  dict_get (GameServer.players s) pid = Some p ->
  GameServer.room_id p = Some "lobby" ->
  dict_mem (GameRoom.players (GameServer.lobby_room s)) pid = true ->
  GameServer.msg_get m "data" = PStr target ->
  target <> "refresh" -> target <> "lobby" ->
  dict_get (GameServer.rooms s) target = Some room ->
  Z.of_nat (List.length (GameRoom.players room)) < GameRoom.max_players room ->
  dict_mem (GameRoom.players room) pid = false ->
  exists s' e' room',
    GameServer.handle_join_room pid m (s, e) = (Ok tt, (s', e')) /\
    dict_get (GameServer.rooms s') target = Some room' /\
    GameRoom.players room' = GameRoom.players room ++ [(pid, info_of p)] /\
    GameRoom.creator_id room'
    = match GameRoom.creator_id room with
      | Some c => Some c
      | None => Some pid
      end /\
    GameRoom.game_active room' = GameRoom.game_active room /\
    dict_get (GameServer.players s') pid = Some (placed p target) /\
    (forall k, k <> pid ->
               dict_get (GameServer.players s') k
               = dict_get (GameServer.players s) k) /\
    dict_mem (GameRoom.players (GameServer.lobby_room s')) pid = false /\
    (forall k, k <> target ->
               dict_get (GameServer.rooms s') k
               = dict_get (GameServer.rooms s) k).
Proof.
  intros Hok Hp Hroom Hmem Hdata Hrefresh Htarget Hget Hspace Hnew.
  assert (Hrget : GameServer.rooms_get s target = Some room)
    by now rewrite rooms_get_other.
  destruct (rooms_ok_get s target room Hok Hrget) as [_ Hsound].
  destruct (depart_lobby_run pid
              ("Игрок " ++ GameServer.username p ++ " покинул комнату")
              s e Hmem)
    as (lobby' & e3 & Edep & Hlobby').
  assert (Hget1 : GameServer.rooms_get (GameServer.set_lobby_room lobby' s)
                    target = Some room).
  { rewrite rooms_get_other by exact Htarget. exact Hget. }
  destruct (move_after_departure pid target (GameRoom.room_name room) s e p
              "lobby" (GameServer.set_lobby_room lobby' s) e3 room)
    as (x & y & col & e4 & Emove);
    [exact Hp | exact Hroom | discriminate | congruence
     | exact Edep | reflexivity | exact Hget1 | exact Hspace | exact Hnew
     | exact Hsound |].
  match type of Emove with
  | _ = (Ok tt, (?t, _)) => set (s' := t) in *
  end.
  destruct (broadcast_list_run s' e4) as (e5 & Eb).
  set (room' := joined pid (info_of p)
                  (with_snake pid (newborn pid (x, y) col)
                     (GameRoom.game_state room)) room) in *.
  exists s', e5, room'.
  split.
  { unfold GameServer.handle_join_room. rewrite Hdata.
    replace (String.eqb target "refresh") with false
      by (symmetry; now apply String.eqb_neq).
    erewrite bind_ok; [|reflexivity]. cbn [fst snd]. rewrite Hrget.
    erewrite bind_ok; [|exact Emove].
    exact Eb. }
  assert (Hrooms : GameServer.rooms s'
                   = dict_set (GameServer.rooms s) target room').
  { subst s'. cbn [GameServer.rooms GameServer.set_players].
    rewrite rooms_put_other by exact Htarget. reflexivity. }
  split; [rewrite Hrooms; apply dict_get_set_same|].
  split; [reflexivity|]. split; [reflexivity|]. split; [reflexivity|].
  split.
  { subst s'. cbn [GameServer.players GameServer.set_players].
    apply dict_get_set_same. }
  split.
  { intros k Hk. subst s'. cbn [GameServer.players GameServer.set_players].
    now apply dict_get_set_other. }
  split.
  { assert (Hl : GameServer.lobby_room s' = lobby').
    { subst s'. cbn [GameServer.lobby_room GameServer.set_players].
      rewrite rooms_put_other by exact Htarget. reflexivity. }
    rewrite Hl, Hlobby'. apply dict_mem_false_keys.
    apply dict_del_gone. destruct Hok as [[(_ & _ & _ & Hnd) _] _].
    exact Hnd. }
  intros k Hk. rewrite Hrooms.
  rewrite dict_get_set_other by exact Hk. reflexivity.
Qed.

(** X23.  Making a room.  When a registered player who is a member of
    the lobby sends CREATE_ROOM, and the next room id is not taken, the
    request is handled to the end and afterwards: a room with that id,
    with the name given (when a non-empty one was given), with
    capacity 4 and no game running is registered; the player is its only
    member and its creator; the directory records the player in the new
    room; the lobby has the player no more; the room counter has moved
    up by one; every other player and every other room is as before. *)
Theorem create_room_makes_creator :
  forall pid m s e p,
    rooms_ok s ->
    dict_get (GameServer.players s) pid = Some p ->
    GameServer.room_id p = Some "lobby" ->
    dict_mem (GameRoom.players (GameServer.lobby_room s)) pid = true ->
    dict_get (GameServer.rooms s) (next_room_id s) = None ->
    exists s' e' room name,
      GameServer.handle_create_room pid m (s, e) = (Ok tt, (s', e')) /\
      dict_get (GameServer.rooms s') (next_room_id s) = Some room /\
      GameRoom.room_id room = next_room_id s /\
      GameRoom.room_name room = name /\
      (forall given,
          GameServer.msg_get m "data" = PStr given -> given <> "" ->
          name = given) /\
      GameRoom.players room = [(pid, info_of p)] /\
      GameRoom.creator_id room = Some pid /\
      GameRoom.game_active room = false /\
      GameRoom.max_players room = 4 /\
      dict_get (GameServer.players s') pid
      = Some (placed p (next_room_id s)) /\
      (forall k, k <> pid ->
                 dict_get (GameServer.players s') k
                 = dict_get (GameServer.players s) k) /\
      dict_mem (GameRoom.players (GameServer.lobby_room s')) pid = false /\
      GameServer.room_counter s' = S (GameServer.room_counter s) /\
      (forall k, k <> next_room_id s ->
                 dict_get (GameServer.rooms s') k
                 = dict_get (GameServer.rooms s) k).
Proof. exact create_room_run. Qed.

Lemma greeted_rooms_ok : rooms_ok (fst greeted).
Proof.
  split; [|constructor].
  split; [split; [cbn; lia|split; [|split]]|split; [|split]].
  - intros c [= <-]. cbn. now left.
  - discriminate.
  - repeat constructor. intros [].
  - reflexivity.
  - repeat constructor. discriminate.
  - reflexivity.
Defined.

Lemma create_room_makes_creator_witness :
  exists s' e' room name,
    GameServer.handle_create_room "player_1"
      (envelope "create_room" (PStr "Arena")) (fst greeted, snd greeted)
    = (Ok tt, (s', e')) /\
    dict_get (GameServer.rooms s') (next_room_id (fst greeted)) = Some room /\
    GameRoom.room_id room = next_room_id (fst greeted) /\
    GameRoom.room_name room = name /\
    (forall given,
        GameServer.msg_get (envelope "create_room" (PStr "Arena")) "data"
        = PStr given -> given <> "" -> name = given) /\
    GameRoom.players room = [("player_1", info_of ann_in_lobby)] /\
    GameRoom.creator_id room = Some "player_1" /\
    GameRoom.game_active room = false /\
    GameRoom.max_players room = 4 /\
    dict_get (GameServer.players s') "player_1"
    = Some (placed ann_in_lobby (next_room_id (fst greeted))) /\
    (forall k, k <> "player_1" ->
               dict_get (GameServer.players s') k
               = dict_get (GameServer.players (fst greeted)) k) /\
    dict_mem (GameRoom.players (GameServer.lobby_room s')) "player_1" = false /\
    GameServer.room_counter s' = S (GameServer.room_counter (fst greeted)) /\
    (forall k, k <> next_room_id (fst greeted) ->
               dict_get (GameServer.rooms s') k
               = dict_get (GameServer.rooms (fst greeted)) k).
Proof.
  apply (create_room_makes_creator "player_1"
           (envelope "create_room" (PStr "Arena")) (fst greeted) (snd greeted)
           ann_in_lobby).
  - exact greeted_rooms_ok.
  - reflexivity.
  - reflexivity.
  - reflexivity.
  - reflexivity.
Defined.

(** X30.  Joining a room from the lobby.  When a registered player who
    is a member of the lobby asks to join an existing room that has a
    free place and of which the player is not yet a member, the request
    is handled to the end and afterwards: the player is the last member
    of that room, the creator of the room is who it was (the newcomer
    only when there was none), the game of the room is running or not as
    before; the directory records the player in that room; the lobby has
    the player no more; every other player and every other room is as
    before. *)
Theorem join_room_from_lobby :
  forall pid m s e p target room,
    rooms_ok s ->
    dict_get (GameServer.players s) pid = Some p ->
    GameServer.room_id p = Some "lobby" ->
    dict_mem (GameRoom.players (GameServer.lobby_room s)) pid = true ->
    GameServer.msg_get m "data" = PStr target ->
    target <> "refresh" -> target <> "lobby" ->
    dict_get (GameServer.rooms s) target = Some room ->
    Z.of_nat (List.length (GameRoom.players room)) < GameRoom.max_players room ->
    dict_mem (GameRoom.players room) pid = false ->
    exists s' e' room',
      GameServer.handle_join_room pid m (s, e) = (Ok tt, (s', e')) /\
      dict_get (GameServer.rooms s') target = Some room' /\
      GameRoom.players room' = GameRoom.players room ++ [(pid, info_of p)] /\
      GameRoom.creator_id room'
      = match GameRoom.creator_id room with
        | Some c => Some c
        | None => Some pid
        end /\
      GameRoom.game_active room' = GameRoom.game_active room /\
      dict_get (GameServer.players s') pid = Some (placed p target) /\
      (forall k, k <> pid ->
                 dict_get (GameServer.players s') k
                 = dict_get (GameServer.players s) k) /\
      dict_mem (GameRoom.players (GameServer.lobby_room s')) pid = false /\
      (forall k, k <> target ->
                 dict_get (GameServer.rooms s') k
                 = dict_get (GameServer.rooms s) k).
Proof. exact join_from_lobby_run. Qed.

Lemma with_guest_rooms_ok : rooms_ok (fst with_guest).
Proof.
  split; [|constructor; [|constructor]].
  - split; [split; [cbn; lia|split; [|split]]|split; [|split]].
    + intros c [= <-]. cbn. now left.
    + discriminate.
    + repeat constructor. intros [].
    + reflexivity.
    + repeat constructor. discriminate.
    + reflexivity.
  - split; [split; [cbn; lia|split; [|split]]|split; [|split]].
    + intros c [= <-]. cbn. now left.
    + discriminate.
    + repeat constructor. intros [].
    + reflexivity.
    + repeat constructor. discriminate.
    + reflexivity.
Defined.

Lemma join_room_from_lobby_witness :
  exists s' e' room',
    GameServer.handle_join_room "player_2"
      (envelope "join_room" (PStr "room_1")) (fst with_guest, snd with_guest)
    = (Ok tt, (s', e')) /\
    dict_get (GameServer.rooms s') "room_1" = Some room' /\
    GameRoom.players room'
    = GameRoom.players ann_idle_room ++ [("player_2", info_of bob_in_lobby)] /\
    GameRoom.creator_id room'
    = match GameRoom.creator_id ann_idle_room with
      | Some c => Some c
      | None => Some "player_2"
      end /\
    GameRoom.game_active room' = GameRoom.game_active ann_idle_room /\
    dict_get (GameServer.players s') "player_2"
    = Some (placed bob_in_lobby "room_1") /\
    (forall k, k <> "player_2" ->
               dict_get (GameServer.players s') k
               = dict_get (GameServer.players (fst with_guest)) k) /\
    dict_mem (GameRoom.players (GameServer.lobby_room s')) "player_2" = false /\
    (forall k, k <> "room_1" ->
               dict_get (GameServer.rooms s') k
               = dict_get (GameServer.rooms (fst with_guest)) k).
Proof.
  apply (join_room_from_lobby "player_2"
           (envelope "join_room" (PStr "room_1"))
           (fst with_guest) (snd with_guest) bob_in_lobby "room_1"
           ann_idle_room).
  - exact with_guest_rooms_ok.
  - reflexivity.
  - reflexivity.
  - reflexivity.
  - reflexivity.
  - discriminate.
  - discriminate.
  - reflexivity.
  - cbn. lia.
  - reflexivity.
Defined.
